(* ===== verification/_CoqProject ===== *)
-Q . S2P
Prelude.v
Utf8.v
Text.v
Quote.v
Base64.v
Apperr.v
Context.v
Logger.v
LogFormat.v
Netip.v
NetipTexts.v
Postgres.v
GrpcErrors.v
OutboxTable.v
OutboxWorker.v
OutboxConfig.v
OutboxDelivery.v
OutboxRun.v
Token.v
Io.v
Runner.v
GrpcServer.v
ClientIP.v
GrpcAuth.v
RateLimit.v
Validation.v
GrpcClient.v
GrpcDial.v
Password.v
Secret.v
Url.v
PgConfig.v
PgOpen.v
Migrate.v
EnvConfig.v
RedisClient.v
Http.v
Lifecycle.v
HttpServer.v
GrpcServe.v
Shutdown.v
ImageFit.v
FileStorage.v
Observability.v
Registry.v
Gateway.v
