(* ===== verification/Prelude.v ===== *)
(** * hockey-libs: verification library

    The shared Go libraries of the HockeyNights services ([src/]), modelled in
    Gallina and verified.  The services are gRPC servers over PostgreSQL that
    publish their events through a transactional outbox, authenticate each
    other with JWTs, hash passwords with Argon2, limit rates in Redis and sit
    behind an HTTP gateway.

    ** The program and its model

    - [outbox/outbox.go], the table of the migration and its repository:
      file [OutboxTable].  A table is a finite map from ids to rows ([Row]: one
      field per column); every SQL statement is a function on it
      ([Enqueue], [Claim], [Complete], [Retry], [Defer], [Fail],
      [DeleteOldFailed], the counts).  [op] is one statement of one session and
      [run_op] its effect, sessions taking turns statement by statement under
      PostgreSQL's row locking; [trace] is a sequence of them.
    - [outbox/worker.go], [terminal.go], [metrics.go]: [OutboxWorker] holds the
      data and the code over the interface [Queue] (the methods of
      [Repository] the worker calls): [deliver], [processBatch], [Run],
      [backoffFor], [NewWorker]; [OutboxConfig] the configuration, the backoff
      and the lease arithmetic; [OutboxDelivery] the refinement of a delivery
      to its verdict and of a batch to the verdicts of its messages;
      [OutboxRun] the loop, against a table that other sessions change too.
    - [apperr/apperr.go]: [Apperr].  Go errors are trees ([error]); [As],
      [errors_Is], [KindOf] walk them in depth-first order, through nil
      [*Error] pointers.
    - [postgresql/errors.go], [tx.go]: [Postgres].  The SQLSTATE table, and
      [InTx] over a transaction driver with laws.  [config.go]: [PgConfig], the
      connection string and its safe form over [Url]; [db.go]: [PgOpen].
    - [grpcserver/errors.go]: [GrpcErrors], the mapping of errors to statuses.
    - [logger], [requestid] and the contexts they use: [Context], [Logger].
      A context is a record: its error, deadline, values by key, metadata in
      both directions, peer and span.  [LogFormat] has the two formats of the
      log, with a reader for the JSON one.
    - [token/]: [Token].  [NewManager], [Issue], [Parse], the key parsing; the
      JWT and x509 libraries are the classes [Jwt] and [Ed25519].
    - [grpcserver/interceptors.go], [requestid.go], [metrics.go] and the chain
      of [server.go]: [GrpcServer].  A handler is a function of the context and
      the world (response header, metrics, log) that returns or panics; an
      interceptor transforms handlers; [serve_unary] and [serve_stream] are the
      chains of [newGRPCServer].  [auth.go], [internal.go]: [GrpcAuth];
      [clientip.go], [loopback.go]: [ClientIP]; [ratelimit.go]: [RateLimit];
      [validate.go]: [Validation].
    - [ratelimit/ratelimit.go]: [RateLimit], over a Redis whose commands act on
      keys with an expiry.
    - [grpcclient/interceptors.go], [token.go], [service.go] and the chains of
      [client.go]: [GrpcClient]; making the connection: [GrpcDial].
    - Servers and processes, as step relations over all interleavings:
      [runner/runner.go]: [Runner]; the life of a server that drains and stops:
      [Lifecycle], whose settings [GrpcServe] ([grpcserver/server.go]) and
      [HttpServer] ([httpserver/]) give; both together, a program of servers
      under a runner: [Shutdown].
    - [grpcgateway/]: [Gateway].
    - [password/argon2id.go]: [Password]; [secret/secret.go]: [Secret].
    - [filestorage/image.go]: [ImageFit]; [filestorage.go]: [FileStorage].
    - [config/]: [EnvConfig]; [migrate/]: [Migrate]; [redisclient/]:
      [RedisClient]; [observability/tracing.go] and [cmd/healthcheck]:
      [Observability]; [observability/metrics.go] and the constructors of the
      packages' metrics: [Registry].
    - The parts of Go's standard library they use, to the byte: [Utf8] (runes,
      [strings.TrimSpace]), [Text] ([strings.Split] and the like, decimal
      numbers, durations), [Quote] ([strconv.Quote]), [Base64], [Netip] and [NetipTexts] (addresses,
      prefixes and their texts), [Url] ([net/url]), [Http] (headers and
      responses).  [Prelude] has the machine integers, durations, results,
      panics, byte strings and automation; [Io] the monad of code that opens and
      closes handles, with what it means to leak none.

    The components meet where they do in the code: the worker runs over the
    repository through [Queue]; PostgreSQL errors become application errors
    ([Postgres.MapError]) and those become statuses ([GrpcErrors.MapError]);
    the server chain maps, logs and counts them, validation errors included; a
    client forwards identity that the server's authentication reads; a token
    source's tokens are accepted by the internal authentication; the rate limiter
    counts by the client address; migrations and pools open what the connection
    string names.

    ** What the theorems show

    - The outbox delivers at least once and loses nothing: a message leaves the
      table only when it was delivered, or long after it failed
      ([worker_delivers_or_keeps], [message_never_lost]); no two leases overlap
      ([lease_is_exclusive]), an abandoned message returns
      ([abandoned_message_returns]), attempts are bounded
      ([attempts_are_bounded]) and a deferral gives its attempt back; a batch
      settles each message by its own verdict whatever the order of the
      goroutines ([processBatch_settles], [batch_order_irrelevant]), and its sends
      end within the lease but for the time that settling takes
      ([batch_ends_within_lease]).
    - Errors reach the client as the code and text they should have, internal
      ones as one fixed text ([MapError_client_status],
      [MapError_hides_internal], [pg_error_to_client]), broken rules field by
      field ([validation_gate]); transactions are atomic ([InTx_atomic]).
    - Tokens: what is issued is accepted, only what verifies, for the configured
      issuer and audience, is accepted
      ([issued_token_parses], [Parse_sound], [generated_keys_pair]).
    - Servers: the contract of the whole chain on replies, errors and panics, its
      headers, counters and log lines included ([unary_call_contract], [stream_chain_agrees]); who gets to a handler
      ([auth_admits_only_valid_tokens], [internal_requires_role],
      [role_gate]); whose address counts, when the proxies wrote one that can be
      read ([client_ip_unspoofable]), and how often
      ([rate_is_bounded], [rate_limit_gate]).
    - Clients: identity, deadline and token on the wire
      ([identity_propagates]); a service's own tokens are always fresh and
      admitted ([service_tokens_are_valid], [service_call_is_admitted]);
      connections are handed out ready or closed ([client_is_ready_or_closed]).
    - Stopping: what the answer of a runner means and how long it may take
      ([run_answer_means], [shutdown_is_bounded]); a server announces its end
      before it stops and cuts requests off only after its timeout
      ([health_turns_before_the_stop], [grpc_run_contract], [http_run_contract]);
      an HTTP server ends by then, a gRPC server when the handlers of the calls it
      cut off have returned, which a handler can put off for ever
      ([handlers_outlast_the_timeout]); a program of servers whose delays, and the
      grace of such handlers, fit into the runner's timeout stops completely, and
      its answer is the servers' ([program_stops_cleanly]).
    - Logs cannot be forged: a logger of [New] writes what was logged at its level,
      in its format, a line each, and a reader of JSON finds it there
      ([log_is_faithful]); metrics are registered once
      ([metrics_register_once]).
    - Secrets: hashes verify, wrong passwords do not ([hash_verifies],
      [decode_bounds]); tokens and codes carry all their randomness
      ([token_keeps_entropy], [numeric_code_is_its_draws]); messages never show the
      password of a configuration, and the connection string carries it intact
      ([safe_dsn_hides_password], [dsn_carries_config]).
    - Edges: who may read the gateway's answers ([cors_grants_listed_origins]);
      which uploads become pictures ([normalize_respects_limits]); what a storage
      client signs and stores ([open_storage_contract], [storage_is_a_map]);
      where a setting comes from ([environment_wins]); what is left open
      ([open_owns_its_pool], [migrations_run_locked_and_close],
      [redis_open_contract], [gateway_connections],
      [tracing_shutdown_is_complete]).

    Flaws shown on the way, each by a lemma or an example next to its component:
    [Wrap] of nil; error texts PostgreSQL rejects
    ([invalid_text_is_not_recorded]); a first backoff above the maximum; panic
    lines without request id ([panic_line_without_request_id]); static tokens
    shadowed by forwarded ones ([static_token_is_shadowed]); leases that leave no
    room for settling ([settling_outlives_the_lease]); hash texts with
    trailing characters ([trailing_text_accepted]); unreadable hops and mapped
    proxies ([unreadable_hop_trusts_the_client], [mapped_proxy_is_not_trusted]);
    waits announced as none ([announced_zero]); a cause lost in a shutdown
    ([root_cause_lost]) and handlers that outlast it ([stuck_handler_times_out]);
    connection strings that leak ([given_dsn_leaks]) and
    pools of one ([single_connection_refused]); connections and exporters left
    open ([first_connection_leaks], [exporter_leaks]); an empty origin allowed
    ([empty_origin_is_listed]); Redis URLs half ignored ([url_settings_lost],
    [ipv6_host_unusable]); pictures scaled away ([thin_picture_vanishes]) and a
    limit that wraps ([largest_limit_reads_nothing]); no sampling that samples all
    ([no_sampling_samples_all]).

    ** Bounds and fuel

    Recursions are structural where the code's are; the rest have fuel that is
    shown or evidently enough: [decimal] prints with 20 digits, which carry
    every 64-bit number ([decimal_value]); [trim_space] drops a byte a round and
    has as many rounds as bytes.  The outbox's [Run] takes the list of its rounds,
    each with the answers of its environment; it answers [None] when the rounds are
    used up before it returns.  The runner and the servers are relations without
    fuel, with the theorem that they can always finish in time, a gRPC server once its
    handlers have returned.  Durations are
    [int64]; [int32_seconds] is exact below 2^22 seconds and for whole seconds.

    ** What is not modelled

    Code outside the repository is a class with the laws its documentation
    states ([Jwt], [Ed25519], [GrpcStatus], [TxDriver], [Argon2], [Redis],
    [Protovalidate], [Pgx], [Goose], [Dotenv], [GoRedis], [Minio], [Imaging],
    [OpenTelemetry], [Prometheus], [Runtime], [GrpcConn], the server's value checks); each has a
    concrete instance, with which the witnesses run.  Not modelled: the routing of
    [http.ServeMux], the level of a discarding logger other than writing nothing,
    the texts of [net/netip]'s errors, and the generated and test code.  [%q] takes every rune
    above U+00FF for printable.  In [Runner], [Lifecycle] and [Shutdown] time does not
    pass while the program itself has something to do.  What golang-jwt makes of
    several audience options is not documented: of a token that is accepted only one
    of them is known to be satisfied.  A claim whose rows arrive and whose statement is
    then rolled back is taken for one whose rows were lost. *)

From Stdlib Require Export ZArith Lia Ascii.
From stdpp Require Export base tactics option list numbers strings gmap sorting.

#[export] Set Default Goal Selector "!".

Open Scope Z_scope.

(** ** Notations

    Go's [==] and [!=] on values of a type with decidable equality. *)
Declare Scope go_scope.
Delimit Scope go_scope with go.
Notation "a == b" := (bool_decide (a = b)) (at level 70, no associativity) : go_scope.
Notation "a != b" := (negb (bool_decide (a = b))) (at level 70, no associativity) : go_scope.
Open Scope go_scope.

(** ** Machine integers

    A Go integer of [w] bits is a [Z] in range; arithmetic that can leave the
    range is followed by the wrap-around of its type. *)
Definition wrap_signed (w z : Z) : Z := (z + 2 ^ (w - 1)) mod 2 ^ w - 2 ^ (w - 1).
Definition wrap_unsigned (w z : Z) : Z := z mod 2 ^ w.

Definition int16 : Z -> Z := wrap_signed 16.
Definition int32 : Z -> Z := wrap_signed 32.
Definition int64 : Z -> Z := wrap_signed 64.
Definition uint8 : Z -> Z := wrap_unsigned 8.
Definition uint32 : Z -> Z := wrap_unsigned 32.

Definition is_int16 (z : Z) : Prop := - 2 ^ 15 <= z < 2 ^ 15.
Definition is_int32 (z : Z) : Prop := - 2 ^ 31 <= z < 2 ^ 31.
Definition is_int64 (z : Z) : Prop := - 2 ^ 63 <= z < 2 ^ 63.

Lemma wrap_signed_id w z :
  0 < w -> - 2 ^ (w - 1) <= z < 2 ^ (w - 1) -> wrap_signed w z = z.
Proof.
  intros Hw Hz. unfold wrap_signed.
  assert (2 ^ w = 2 * 2 ^ (w - 1)) as Hp.
  { rewrite <- Z.pow_succ_r by lia. f_equal; lia. }
  rewrite Z.mod_small; lia.
Qed.

Lemma wrap_signed_range w z :
  0 < w -> - 2 ^ (w - 1) <= wrap_signed w z < 2 ^ (w - 1).
Proof.
  intros Hw. unfold wrap_signed.
  assert (2 ^ w = 2 * 2 ^ (w - 1)) as Hp.
  { rewrite <- Z.pow_succ_r by lia. f_equal; lia. }
  pose proof (Z.pow_pos_nonneg 2 (w - 1)).
  pose proof (Z.mod_pos_bound (z + 2 ^ (w - 1)) (2 ^ w)). lia.
Qed.

Lemma int16_id z : is_int16 z -> int16 z = z.
Proof. apply (wrap_signed_id 16); lia. Qed.
Lemma int32_id z : is_int32 z -> int32 z = z.
Proof. apply (wrap_signed_id 32); lia. Qed.
Lemma int64_id z : is_int64 z -> int64 z = z.
Proof. apply (wrap_signed_id 64); lia. Qed.
Lemma int32_range z : is_int32 (int32 z).
Proof. apply (wrap_signed_range 32); lia. Qed.
Lemma int64_range z : is_int64 (int64 z).
Proof. apply (wrap_signed_range 64); lia. Qed.

(** The idiom [if x == 0 { x = d }]. *)
Definition or_zero (x d : Z) : Z := if x =? 0 then d else x.

(** ** Durations

    [time.Duration] is an [int64] count of nanoseconds. *)
Definition Nanosecond : Z := 1.
Definition Millisecond : Z := 1000000.
Definition Second : Z := 1000000000.
Definition Minute : Z := 60 * Second.
Definition Hour : Z := 60 * Minute.

(** [d.Milliseconds()] *)
Definition Milliseconds (d : Z) : Z := Z.quot d Millisecond.

(** [int32(d.Seconds())]: the whole seconds of a duration, truncated toward
    zero.  Go computes [Seconds] in float64; below 2^22 seconds (48 days) the
    rounding cannot carry the fraction to the next second, and beyond it whole
    numbers of seconds are still exact. *)
Definition int32_seconds (d : Z) : Z := int32 (Z.quot d Second).

Lemma int32_seconds_lease d :
  0 <= d < 2 ^ 31 * Second ->
  0 <= int32_seconds d /\ d - Second < int32_seconds d * Second <= d.
Proof.
  intros Hd. unfold int32_seconds, Second in *.
  pose proof (Z.quot_rem' d 1000000000).
  pose proof (Z.rem_bound_pos d 1000000000).
  assert (0 <= d ÷ 1000000000) by (apply Z.quot_pos; lia).
  rewrite int32_id; unfold is_int32; lia.
Qed.

(** ** Results and outcomes

    Go's [(T, error)] pairs that are used as a sum, and calls that can panic. *)
Inductive result (E A : Type) : Type :=
| Ok (a : A)
| Err (e : E).
Arguments Ok {E A} a.
Arguments Err {E A} e.

#[export] Instance result_ret {E} : MRet (result E) := fun _ a => Ok a.
#[export] Instance result_bind {E} : MBind (result E) := fun _ _ f m =>
  match m with Ok a => f a | Err e => Err e end.

Definition is_ok {E A} (r : result E A) : bool := match r with Ok _ => true | Err _ => false end.

Inductive outcome (A : Type) : Type :=
| Ret (a : A)
| Panic (v : string).
Arguments Ret {A} a.
Arguments Panic {A} v.

#[export] Instance outcome_ret : MRet outcome := fun _ a => Ret a.
#[export] Instance outcome_bind : MBind outcome := fun _ _ f m =>
  match m with Ret a => f a | Panic v => Panic v end.

(** The panic value of a nil dereference. *)
Definition nil_dereference : string := "runtime error: invalid memory address or nil pointer dereference".

(** ** Strings as bytes *)
Definition byte_val (a : ascii) : Z := Z.of_N (N_of_ascii a).
Definition byte_of (z : Z) : ascii := ascii_of_N (Z.to_N z).
Definition is_byte (z : Z) : Prop := 0 <= z < 256.

Definition bytes (s : string) : list Z := byte_val <$> String.list_ascii_of_string s.
Definition of_bytes (l : list Z) : string := String.string_of_list_ascii (byte_of <$> l).

Lemma byte_val_range a : is_byte (byte_val a).
Proof. unfold is_byte, byte_val. pose proof (N_ascii_bounded a). lia. Qed.

Lemma byte_of_val a : byte_of (byte_val a) = a.
Proof. unfold byte_of, byte_val. rewrite N2Z.id. apply ascii_N_embedding. Qed.

Lemma byte_val_of z : is_byte z -> byte_val (byte_of z) = z.
Proof.
  intros [H1 H2]. unfold byte_val, byte_of. rewrite N_ascii_embedding by lia. lia.
Qed.

Lemma bytes_range s : Forall is_byte (bytes s).
Proof. apply Forall_fmap, Forall_true. intros a. apply byte_val_range. Qed.

Lemma of_bytes_bytes s : of_bytes (bytes s) = s.
Proof.
  unfold of_bytes, bytes. rewrite <- list_fmap_compose.
  rewrite (list_fmap_ext _ id).
  - rewrite list_fmap_id. apply String.string_of_list_ascii_of_string.
  - intros _ a _. apply byte_of_val.
Qed.

Lemma bytes_of_bytes l : Forall is_byte l -> bytes (of_bytes l) = l.
Proof.
  intros Hl. unfold of_bytes, bytes. rewrite String.list_ascii_of_string_of_list_ascii.
  rewrite <- list_fmap_compose. induction Hl as [|z l Hz Hl IH]; [done|].
  cbn [fmap list_fmap]. unfold compose at 1. by rewrite byte_val_of, IH.
Qed.

Lemma bytes_app s t : bytes (s +:+ t) = bytes s ++ bytes t.
Proof.
  unfold bytes. rewrite <- fmap_app. f_equal.
  induction s as [|a s IH]; [done|]. cbn. by rewrite <- IH.
Qed.

Lemma of_bytes_app k l : of_bytes (k ++ l) = of_bytes k +:+ of_bytes l.
Proof. unfold of_bytes. induction k as [|z k IH]; [done|]. cbn in *. by rewrite IH. Qed.

Lemma length_bytes s : length (bytes s) = String.length s.
Proof. unfold bytes. rewrite length_fmap. induction s; cbn; congruence. Qed.

Lemma bytes_inj s t : bytes s = bytes t -> s = t.
Proof. intros H. by rewrite <- (of_bytes_bytes s), H, of_bytes_bytes. Qed.

(** A property of one byte, or of two, is checked on all of them. *)
Lemma byte_check2 (P : Z -> Z -> bool) :
  forallb (fun a => forallb (P a) (seqZ 0 256)) (seqZ 0 256) = true ->
  forall a b, is_byte a -> is_byte b -> P a b = true.
Proof.
  intros H a b Ha Hb. rewrite forallb_forall in H.
  assert (forallb (P a) (seqZ 0 256) = true) as Ha' by (apply H, list_elem_of_In, elem_of_seqZ; unfold is_byte in *; lia).
  rewrite forallb_forall in Ha'. apply Ha', list_elem_of_In, elem_of_seqZ. unfold is_byte in *. lia.
Qed.

Lemma byte_check (P : Z -> bool) :
  forallb P (seqZ 0 256) = true -> forall a, is_byte a -> P a = true.
Proof.
  intros H a Ha. rewrite forallb_forall in H. apply H, list_elem_of_In, elem_of_seqZ. unfold is_byte in *. lia.
Qed.

(** ** Automation

    [go_bool] turns boolean comparisons in the context into propositions for
    [lia]; [go_cases] splits the conditionals of the goal. *)
Ltac go_bool :=
  repeat match goal with
  | H : _ && _ = true |- _ => apply andb_true_iff in H; destruct H
  | H : _ || _ = false |- _ => apply orb_false_iff in H; destruct H
  | H : negb _ = true |- _ => apply negb_true_iff in H
  | H : negb _ = false |- _ => apply negb_false_iff in H
  | H : bool_decide _ = true |- _ => apply bool_decide_eq_true in H
  | H : bool_decide _ = false |- _ => apply bool_decide_eq_false in H
  | H : (_ <? _) = true |- _ => apply Z.ltb_lt in H
  | H : (_ <? _) = false |- _ => apply Z.ltb_ge in H
  | H : (_ <=? _) = true |- _ => apply Z.leb_le in H
  | H : (_ <=? _) = false |- _ => apply Z.leb_gt in H
  | H : (_ >=? _) = _ |- _ => rewrite Z.geb_leb in H
  | H : (_ >? _) = _ |- _ => rewrite Z.gtb_ltb in H
  | H : (_ =? _) = true |- _ => apply Z.eqb_eq in H
  | H : (_ =? _) = false |- _ => apply Z.eqb_neq in H
  end.

Ltac go_cases := repeat (case_match; go_bool; simplify_eq/=).

(** Decides a closed proposition by evaluating its [Decision] to [true]. *)
Ltac by_decision :=
  match goal with |- ?P => refine (bool_decide_eq_true_1 P _); vm_compute; reflexivity end.

(** [golib] collects the lemmas that close the common side conditions. *)
Create HintDb golib.
Create Rewrite HintDb golib.
#[export] Hint Resolve byte_val_range bytes_range int32_range int64_range : golib.
#[export] Hint Rewrite of_bytes_bytes bytes_app of_bytes_app length_bytes : golib.
