(* ===== verification/Utf8.v ===== *)
(** * UTF-8 as Go reads and writes it

    The part of Go's language and standard library that the source's string
    handling rests on: the decoding behind [[]rune(s)], [range s] and
    [utf8.DecodeRune], the encoding behind [string(runes)], [unicode.IsSpace]
    and [strings.TrimSpace].  Bytes are [Z]s in range, runes are [Z]s.  An
    invalid byte decodes to U+FFFD with width 1; an invalid rune is encoded as
    U+FFFD.  Used by the outbox (error texts), the bearer-token scheme and the
    forwarded-for header. *)

From S2P Require Export Prelude.

Definition RuneError : Z := 65533.
Definition MaxRune : Z := 1114111.

(** Runes that UTF-8 can carry: no surrogates, nothing above U+10FFFF. *)
Definition valid_rune (r : Z) : bool :=
  ((0 <=? r) && (r <? 55296)) || ((57343 <? r) && (r <=? MaxRune)).

(** ** Decoding *)

Definition in_byte_range (lo hi b : Z) : bool := (lo <=? b) && (b <=? hi).
Definition continuation (b : Z) : bool := in_byte_range 128 191 b.

(** Accepted range of the second byte, by first byte ([acceptRanges]). *)
Definition second_low (b0 : Z) : Z := if b0 =? 224 then 160 else if b0 =? 240 then 144 else 128.
Definition second_high (b0 : Z) : Z := if b0 =? 237 then 159 else if b0 =? 244 then 143 else 191.
Definition second_ok (b0 b1 : Z) : bool := in_byte_range (second_low b0) (second_high b0) b1.

(** [utf8.DecodeRune]: the rune and its width in bytes. *)
Definition decode_rune (s : list Z) : Z * nat :=
  match s with
  | [] => (RuneError, 0%nat)
  | b0 :: t =>
      if b0 <? 128 then (b0, 1%nat)
      else if in_byte_range 194 223 b0 then
        match t with
        | b1 :: _ => if second_ok b0 b1 then ((b0 - 192) * 64 + (b1 - 128), 2%nat) else (RuneError, 1%nat)
        | _ => (RuneError, 1%nat)
        end
      else if in_byte_range 224 239 b0 then
        match t with
        | b1 :: b2 :: _ =>
            if second_ok b0 b1 && continuation b2
            then ((b0 - 224) * 4096 + (b1 - 128) * 64 + (b2 - 128), 3%nat) else (RuneError, 1%nat)
        | _ => (RuneError, 1%nat)
        end
      else if in_byte_range 240 244 b0 then
        match t with
        | b1 :: b2 :: b3 :: _ =>
            if second_ok b0 b1 && continuation b2 && continuation b3
            then ((b0 - 240) * 262144 + (b1 - 128) * 4096 + (b2 - 128) * 64 + (b3 - 128), 4%nat)
            else (RuneError, 1%nat)
        | _ => (RuneError, 1%nat)
        end
      else (RuneError, 1%nat)
  end.

(** [[]rune(s)]: [skip] counts the bytes of the current rune still to pass. *)
Fixpoint runes_skip (skip : nat) (s : list Z) : list Z :=
  match s with
  | [] => []
  | b :: t =>
      match skip with
      | S k => runes_skip k t
      | O => (decode_rune s).1 :: runes_skip (pred (decode_rune s).2) t
      end
  end.
Definition runes : list Z -> list Z := runes_skip 0.

(** [utf8.Valid] *)
Fixpoint valid_skip (skip : nat) (s : list Z) : bool :=
  match s with
  | [] => true
  | b :: t =>
      match skip with
      | S k => valid_skip k t
      | O => negb (((decode_rune s).1 =? RuneError) && ((decode_rune s).2 =? 1)%nat)
             && valid_skip (pred (decode_rune s).2) t
      end
  end.
Definition valid_utf8 : list Z -> bool := valid_skip 0.

(** ** Encoding *)

Definition encode_rune (r : Z) : list Z :=
  let r := if valid_rune r then r else RuneError in
  if r <? 128 then [r]
  else if r <? 2048 then [192 + r / 64; 128 + r mod 64]
  else if r <? 65536 then [224 + r / 4096; 128 + (r / 64) mod 64; 128 + r mod 64]
  else [240 + r / 262144; 128 + (r / 4096) mod 64; 128 + (r / 64) mod 64; 128 + r mod 64].

(** [string(runes)] *)
Definition encode_runes (rs : list Z) : list Z := rs ≫= encode_rune.

(** ** Decoding and encoding are inverse *)

Ltac utf8_unfold :=
  unfold valid_rune, second_ok, second_low, second_high, continuation, in_byte_range, MaxRune, RuneError in *.

(** Evaluates the comparisons of a decoding goal whose sides are linear. *)
Ltac decide_cmp :=
  repeat match goal with
  | |- context [?a <? ?b] =>
      first [ rewrite (proj2 (Z.ltb_lt a b)) by lia | rewrite (proj2 (Z.ltb_ge a b)) by lia ]
  | |- context [?a <=? ?b] =>
      first [ rewrite (proj2 (Z.leb_le a b)) by lia | rewrite (proj2 (Z.leb_gt a b)) by lia ]
  | |- context [?a =? ?b] =>
      first [ rewrite (proj2 (Z.eqb_eq a b)) by lia | rewrite (proj2 (Z.eqb_neq a b)) by lia ]
  end.

Lemma decode_rune_width s :
  s <> [] -> (1 <= (decode_rune s).2 <= length s)%nat.
Proof. destruct s as [|b0 [|b1 [|b2 [|b3 t]]]]; intros Hs; [done|..]; unfold decode_rune; repeat case_match; cbn; lia. Qed.

Lemma decode_rune_valid s : Forall is_byte s -> valid_rune (decode_rune s).1 = true.
Proof.
  intros Hs. unfold decode_rune, is_byte in *.
  repeat (case_match; try done); subst; cbn [fst];
    repeat match goal with H : Forall _ (_ :: _) |- _ => apply Forall_cons in H; destruct H end;
    utf8_unfold; go_bool; repeat (case_match; go_bool); try lia;
    apply orb_true_iff; rewrite !andb_true_iff, !Z.ltb_lt, !Z.leb_le; lia.
Qed.

Lemma runes_skip_drop k s : runes_skip k s = runes (drop k s).
Proof. revert k; induction s as [|b t IH]; intros [|k]; try done. apply IH. Qed.

Lemma valid_skip_drop k s : valid_skip k s = valid_utf8 (drop k s).
Proof. revert k; induction s as [|b t IH]; intros [|k]; try done. apply IH. Qed.

Lemma drop_decode b t : drop (pred (decode_rune (b :: t)).2) t = drop (decode_rune (b :: t)).2 (b :: t).
Proof.
  pose proof (decode_rune_width (b :: t)) as Hw.
  destruct (decode_rune (b :: t)).2; cbn in *; [|done]. specialize (Hw ltac:(done)). lia.
Qed.

Lemma runes_unfold s :
  s <> [] -> runes s = (decode_rune s).1 :: runes (drop (decode_rune s).2 s).
Proof.
  destruct s as [|b t]; [done|]; intros _. unfold runes at 1. cbn [runes_skip].
  by rewrite runes_skip_drop, drop_decode.
Qed.

Definition bad_decode (s : list Z) : bool :=
  ((decode_rune s).1 =? RuneError) && ((decode_rune s).2 =? 1)%nat.

Lemma valid_utf8_unfold s :
  s <> [] -> valid_utf8 s = negb (bad_decode s) && valid_utf8 (drop (decode_rune s).2 s).
Proof.
  destruct s as [|b t]; [done|]; intros _. unfold valid_utf8 at 1. cbn [valid_skip].
  by rewrite valid_skip_drop, drop_decode.
Qed.

Lemma encode_rune_nonempty r : encode_rune r <> [].
Proof. unfold encode_rune. repeat case_match; done. Qed.

Lemma valid_rune_cases r : valid_rune r = true -> 0 <= r < 55296 \/ 57343 < r <= 1114111.
Proof. unfold valid_rune, MaxRune. rewrite orb_true_iff, !andb_true_iff, !Z.ltb_lt, !Z.leb_le. lia. Qed.

Lemma encode_rune_bytes r : Forall is_byte (encode_rune r).
Proof.
  assert (exists q, valid_rune q = true /\ encode_rune r = encode_rune q) as (q & Hq & ->).
  { destruct (valid_rune r) eqn:E; [by eauto|]. exists RuneError. split; [done|].
    unfold encode_rune. by rewrite E. }
  apply valid_rune_cases in Hq as Hc. unfold encode_rune. rewrite Hq.
  case_match; go_bool; [|case_match; go_bool; [|case_match; go_bool]];
    repeat constructor; Z.div_mod_to_equations; lia.
Qed.

Lemma decode_encode r rest :
  valid_rune r = true -> decode_rune (encode_rune r ++ rest) = (r, length (encode_rune r)).
Proof.
  intros Hr. apply valid_rune_cases in Hr as Hc. unfold encode_rune. rewrite Hr.
  case_match; go_bool.
  { cbn. by decide_cmp. }
  case_match; go_bool.
  { cbn -[Z.div Z.modulo Z.add Z.mul Z.sub].
    set (a := r / 64); set (b := r mod 64).
    assert (2 <= a < 32 /\ 0 <= b < 64 /\ r = a * 64 + b) as (? & ? & Hr')
      by (subst a b; Z.div_mod_to_equations; lia).
    clearbody a b; subst r.
    utf8_unfold. decide_cmp. cbn [andb]. f_equal. lia. }
  case_match; go_bool.
  { cbn -[Z.div Z.modulo Z.add Z.mul Z.sub].
    set (a := r / 4096); set (b := (r / 64) mod 64); set (c := r mod 64).
    assert (0 <= a < 16 /\ 0 <= b < 64 /\ 0 <= c < 64 /\ r = a * 4096 + b * 64 + c) as (? & ? & ? & Hr')
      by (subst a b c; Z.div_mod_to_equations; lia).
    clearbody a b c; subst r.
    utf8_unfold. decide_cmp. cbn [andb].
    destruct (Z.eqb_spec (224 + a) 224), (Z.eqb_spec (224 + a) 240), (Z.eqb_spec (224 + a) 237),
      (Z.eqb_spec (224 + a) 244); try lia; decide_cmp; cbn [andb]; f_equal; lia. }
  cbn -[Z.div Z.modulo Z.add Z.mul Z.sub].
  set (a := r / 262144); set (b := (r / 4096) mod 64); set (c := (r / 64) mod 64); set (d := r mod 64).
  assert (0 <= a < 5 /\ 0 <= b < 64 /\ 0 <= c < 64 /\ 0 <= d < 64 /\ r = a * 262144 + b * 4096 + c * 64 + d)
    as (? & ? & ? & ? & Hr') by (subst a b c d; Z.div_mod_to_equations; lia).
  clearbody a b c d; subst r.
  utf8_unfold. decide_cmp. cbn [andb].
  destruct (Z.eqb_spec (240 + a) 224), (Z.eqb_spec (240 + a) 240), (Z.eqb_spec (240 + a) 237),
    (Z.eqb_spec (240 + a) 244); try lia; decide_cmp; cbn [andb]; f_equal; lia.
Qed.

(** A byte sequence that does not decode to an error is what its rune encodes to. *)
Lemma encode_decode s :
  Forall is_byte s -> s <> [] -> bad_decode s = false ->
  encode_rune (decode_rune s).1 = take (decode_rune s).2 s.
Proof.
  intros Hs Hne Hbad. pose proof (decode_rune_valid s Hs) as Hv. unfold bad_decode in Hbad.
  unfold encode_rune. rewrite Hv. clear Hv. unfold decode_rune, is_byte in *.
  repeat (case_match; try done); subst; cbn [fst snd take] in *;
    repeat match goal with H : Forall _ (_ :: _) |- _ => apply Forall_cons in H; destruct H end;
    utf8_unfold; repeat (case_match; go_bool); go_bool; try lia; try done;
    repeat (f_equal; try (Z.div_mod_to_equations; lia)).
Qed.

Lemma drop_length_app {A} (k l : list A) : drop (length k) (k ++ l) = l.
Proof. by rewrite drop_app_length. Qed.

Lemma runes_encode rs : Forall (fun r => valid_rune r = true) rs -> runes (encode_runes rs) = rs.
Proof.
  induction 1 as [|r rs Hr _ IH]; [done|].
  unfold encode_runes in *. cbn [mbind list_bind].
  rewrite runes_unfold.
  - rewrite decode_encode by done. cbn [fst snd]. by rewrite drop_length_app, IH.
  - intros [? _]%app_eq_nil. by apply (encode_rune_nonempty r).
Qed.

Lemma encode_runes_valid rs : Forall (fun r => valid_rune r = true) rs -> valid_utf8 (encode_runes rs) = true.
Proof.
  induction 1 as [|r rs Hr _ IH]; [done|].
  unfold encode_runes in *. cbn [mbind list_bind].
  rewrite valid_utf8_unfold.
  - unfold bad_decode. rewrite decode_encode by done. cbn [fst snd]. rewrite drop_length_app, IH.
    destruct (Z.eqb_spec r RuneError) as [->|]; done.
  - intros [? _]%app_eq_nil. by apply (encode_rune_nonempty r).
Qed.

Lemma encode_runes_bytes rs : Forall is_byte (encode_runes rs).
Proof.
  induction rs as [|r rs IH]; [constructor|].
  apply Forall_app; split; [apply encode_rune_bytes|apply IH].
Qed.

(** Induction along the decoding of a byte sequence. *)
Lemma utf8_ind (P : list Z -> Prop) :
  P [] -> (forall s, s <> [] -> P (drop (decode_rune s).2 s) -> P s) -> forall s, P s.
Proof.
  intros H0 Hs s. remember (length s) as n eqn:Hn.
  revert s Hn. induction (lt_wf n) as [n _ IH]; intros s ->.
  destruct s as [|b t]; [done|]. apply Hs; [done|]. eapply IH; [|done].
  pose proof (decode_rune_width (b :: t) ltac:(done)). rewrite length_drop. lia.
Qed.

Lemma runes_valid s : Forall is_byte s -> Forall (fun r => valid_rune r = true) (runes s).
Proof.
  induction s as [|s Hne IH] using utf8_ind; intros Hb; [constructor|].
  rewrite runes_unfold by done. constructor; [by apply decode_rune_valid|].
  apply IH. by apply Forall_drop.
Qed.

Lemma length_runes s : (length (runes s) <= length s)%nat.
Proof.
  induction s as [|s Hne IH] using utf8_ind; [done|].
  rewrite runes_unfold by done. cbn. rewrite length_drop in IH.
  pose proof (decode_rune_width s Hne). lia.
Qed.

(** Re-encoding the first runes of valid text gives a prefix of it. *)
Lemma encode_runes_take k s :
  Forall is_byte s -> valid_utf8 s = true -> encode_runes (take k (runes s)) `prefix_of` s.
Proof.
  revert k; induction s as [|s Hne IH] using utf8_ind; intros k Hb Hv.
  { destruct k; apply prefix_nil. }
  rewrite valid_utf8_unfold in Hv by done. apply andb_true_iff in Hv as [Hbad Hv].
  apply negb_true_iff in Hbad. rewrite runes_unfold by done.
  destruct k as [|k]; [apply prefix_nil|]. cbn [take].
  unfold encode_runes in *. cbn [mbind list_bind].
  rewrite encode_decode by done.
  destruct (IH k) as [rest Hrest]; [by apply Forall_drop|done|].
  exists rest. by rewrite <- app_assoc, <- Hrest, take_drop.
Qed.

Lemma encode_runes_runes s : Forall is_byte s -> valid_utf8 s = true -> encode_runes (runes s) = s.
Proof.
  induction s as [|s Hne IH] using utf8_ind; intros Hb Hv; [done|].
  rewrite valid_utf8_unfold in Hv by done. apply andb_true_iff in Hv as [Hbad Hv].
  apply negb_true_iff in Hbad. rewrite runes_unfold by done.
  unfold encode_runes in *. cbn [mbind list_bind].
  rewrite encode_decode, IH by (try apply Forall_drop; done). apply take_drop.
Qed.

#[export] Hint Resolve encode_rune_bytes encode_runes_bytes runes_valid : golib.

(** ** Text-level wrappers *)

(** [[]rune(s)], [string(rs)], [utf8.ValidString], rune count *)
Definition string_runes (s : string) : list Z := runes (bytes s).
Definition runes_string (rs : list Z) : string := of_bytes (encode_runes rs).
Definition ValidString (s : string) : bool := valid_utf8 (bytes s).
Definition RuneCount (s : string) : Z := Z.of_nat (length (string_runes s)).

Lemma string_runes_string rs :
  Forall (fun r => valid_rune r = true) rs -> string_runes (runes_string rs) = rs.
Proof. intros H. unfold string_runes, runes_string. rewrite bytes_of_bytes by auto with golib. by apply runes_encode. Qed.

Lemma runes_string_valid rs :
  Forall (fun r => valid_rune r = true) rs -> ValidString (runes_string rs) = true.
Proof. intros H. unfold ValidString, runes_string. rewrite bytes_of_bytes by auto with golib. by apply encode_runes_valid. Qed.

(** ** White space *)

(** [unicode.IsSpace] *)
Definition IsSpace (r : Z) : bool :=
  in_byte_range 9 13 r || (r =? 32) || (r =? 133) || (r =? 160) || (r =? 5760)
  || in_byte_range 8192 8202 r || (r =? 8232) || (r =? 8233) || (r =? 8239) || (r =? 8287) || (r =? 12288).

(** [utf8.RuneStart] *)
Definition rune_start (b : Z) : bool := negb (continuation b).

(** [utf8.DecodeLastRune]: [k] tries the widths 2, 3, 4 backwards. *)
Fixpoint last_start (tries : nat) (k : nat) (s : list Z) : option nat :=
  match tries with
  | O => None
  | S tries =>
      if (length s <? k)%nat then None
      else match s !! (length s - k)%nat with
           | Some b => if rune_start b then Some k else last_start tries (S k) s
           | None => None
           end
  end.
Definition decode_last_rune (s : list Z) : Z * nat :=
  match last s with
  | None => (RuneError, 0%nat)
  | Some b =>
      if b <? 128 then (b, 1%nat)
      else match last_start 3 2 s with
           | Some k =>
               let d := decode_rune (drop (length s - k) s) in
               if (d.2 =? k)%nat then d else (RuneError, 1%nat)
           | None => (RuneError, 1%nat)
           end
  end.

(** [strings.TrimLeftFunc] and [strings.TrimRightFunc] with [unicode.IsSpace];
    every round drops at least a byte, so [length s] rounds are enough. *)
Fixpoint trim_left_fuel (fuel : nat) (s : list Z) : list Z :=
  match fuel, s with
  | S n, _ :: _ => if IsSpace (decode_rune s).1 then trim_left_fuel n (drop (decode_rune s).2 s) else s
  | _, _ => s
  end.
Fixpoint trim_right_fuel (fuel : nat) (s : list Z) : list Z :=
  match fuel, s with
  | S n, _ :: _ =>
      if IsSpace (decode_last_rune s).1
      then trim_right_fuel n (take (length s - (decode_last_rune s).2) s) else s
  | _, _ => s
  end.
Definition trim_space (s : list Z) : list Z :=
  let l := trim_left_fuel (length s) s in trim_right_fuel (length l) l.
Definition TrimSpace (s : string) : string := of_bytes (trim_space (bytes s)).

Example TrimSpace_ascii : TrimSpace "  Bearer x	" = "Bearer x".
Proof. vm_compute. reflexivity. Qed.
Example TrimSpace_nbsp : TrimSpace (runes_string [160; 97; 8195]) = "a".
Proof. vm_compute. reflexivity. Qed.

(** Text of visible ASCII has nothing to trim. *)
Definition visible (b : Z) : Prop := 33 <= b < 127.

Lemma visible_not_space b : visible b -> IsSpace b = false.
Proof.
  unfold visible, IsSpace, in_byte_range. intros Hb.
  repeat match goal with |- context [?x <=? ?y] => destruct (Z.leb_spec x y); try lia
                       | |- context [?x =? ?y] => destruct (Z.eqb_spec x y); try lia end; done.
Qed.

Lemma trim_left_visible fuel l : Forall visible l -> trim_left_fuel fuel l = l.
Proof.
  destruct fuel as [|fuel], l as [|b l]; try done. intros [Hb _]%Forall_cons. cbn [trim_left_fuel].
  assert ((decode_rune (b :: l)).1 = b) as ->.
  { unfold decode_rune, visible in *. by rewrite (proj2 (Z.ltb_lt b 128)) by lia. }
  by rewrite visible_not_space.
Qed.

Lemma trim_right_visible fuel l : Forall visible l -> trim_right_fuel fuel l = l.
Proof.
  destruct fuel as [|fuel]; [by destruct l|]. destruct l as [|b l _] using rev_ind; [done|].
  intros [_ [Hb _]%Forall_cons]%Forall_app.
  assert ((decode_last_rune (l ++ [b])).1 = b) as Hd.
  { unfold decode_last_rune, visible in *. rewrite last_snoc. by rewrite (proj2 (Z.ltb_lt b 128)) by lia. }
  cbn [trim_right_fuel]. rewrite Hd, visible_not_space by done. by destruct (l ++ [b]).
Qed.

Lemma TrimSpace_visible s : Forall visible (bytes s) -> TrimSpace s = s.
Proof.
  intros Hs. unfold TrimSpace, trim_space. rewrite trim_left_visible, trim_right_visible by done.
  apply of_bytes_bytes.
Qed.
