(* ===== verification/Text.v ===== *)
(** * Splitting, joining and decimal numbers

    [strings.Split] by one byte, its inverse [strings.Join], and
    [strconv]'s decimal numbers, on lists of bytes. *)

From S2P Require Export Utf8.

(** ** [strings.Split] by one byte *)

Fixpoint split_on (sep : Z) (s : list Z) : list (list Z) :=
  match s with
  | [] => [[]]
  | c :: s =>
      if c =? sep then [] :: split_on sep s
      else match split_on sep s with
           | part :: parts => (c :: part) :: parts
           | [] => [[c]]
           end
  end.

(** The fields joined again. *)
Fixpoint join_on (sep : Z) (parts : list (list Z)) : list Z :=
  match parts with
  | [] => []
  | [part] => part
  | part :: parts => part ++ sep :: join_on sep parts
  end.

Lemma split_on_nonempty sep s : split_on sep s <> [].
Proof. destruct s as [|c s]; [done|]. cbn. destruct (c =? sep); [done|]. by destruct (split_on sep s). Qed.

Lemma join_split sep s : join_on sep (split_on sep s) = s.
Proof.
  induction s as [|c s IH]; [done|]. cbn [split_on]. pose proof (split_on_nonempty sep s) as Hne.
  destruct (Z.eqb_spec c sep) as [->|Hc]; destruct (split_on sep s) as [|part parts]; try done.
  - change (join_on sep ([] :: part :: parts)) with (sep :: join_on sep (part :: parts)). by rewrite IH.
  - destruct parts; cbn in *; by f_equal.
Qed.

(** ** Decimal numbers *)

(** Decimal digits, without leading zeros; 20 digits carry every 64-bit number. *)
Fixpoint decimal_fuel (fuel : nat) (n : Z) : list Z :=
  match fuel with
  | O => []
  | S fuel => if n <? 10 then [48 + n] else decimal_fuel fuel (n / 10) ++ [48 + n mod 10]
  end.
Definition decimal (n : Z) : list Z := decimal_fuel 20 n.

Definition is_digit (c : Z) : bool := in_byte_range 48 57 c.
Definition digits_value (ds : list Z) : Z := foldl (fun acc d => 10 * acc + (d - 48)) 0 ds.

(** Printed and read back. *)
Lemma digits_value_snoc ds d : digits_value (ds ++ [d]) = 10 * digits_value ds + (d - 48).
Proof. unfold digits_value. by rewrite foldl_app. Qed.

Lemma decimal_fuel_value fuel n : 0 <= n < 10 ^ Z.of_nat fuel -> digits_value (decimal_fuel fuel n) = n.
Proof.
  revert n. induction fuel as [|fuel IH]; intros n Hn; [cbn in Hn; unfold digits_value; cbn; lia|].
  rewrite Nat2Z.inj_succ, Z.pow_succ_r in Hn by lia. cbn [decimal_fuel].
  destruct (Z.ltb_spec n 10) as [Hlt|Hge]; [unfold digits_value; cbn; lia|].
  rewrite digits_value_snoc, IH.
  - pose proof (Z.div_mod n 10). lia.
  - split; [apply Z.div_pos; lia|]. apply Z.div_lt_upper_bound; lia.
Qed.

Lemma decimal_fuel_digits fuel n : 0 <= n -> Forall (fun c => 48 <= c <= 57) (decimal_fuel fuel n).
Proof.
  revert n. induction fuel as [|fuel IH]; intros n Hn; [constructor|]. cbn [decimal_fuel].
  destruct (Z.ltb_spec n 10) as [Hlt|Hge]; [repeat constructor; lia|].
  apply Forall_app; split; [apply IH, Z.div_pos; lia|]. pose proof (Z.mod_pos_bound n 10). repeat constructor; lia.
Qed.

Lemma decimal_value n : 0 <= n < 2 ^ 64 -> digits_value (decimal n) = n.
Proof. intros Hn. apply decimal_fuel_value. cbn. lia. Qed.

Lemma decimal_digits n : 0 <= n -> Forall (fun c => 48 <= c <= 57) (decimal n).
Proof. apply decimal_fuel_digits. Qed.

Lemma decimal_nonempty n : decimal n <> [].
Proof. unfold decimal. cbn [decimal_fuel]. destruct (n <? 10); [done|]. by intros []%app_nil. Qed.


(** A number begins with a digit: no space to skip and no sign. *)
Lemma decimal_head n : 0 <= n -> exists d ds, decimal n = d :: ds /\ 48 <= d <= 57.
Proof.
  intros Hn. pose proof (decimal_digits n Hn) as Hd. pose proof (decimal_nonempty n).
  destruct (decimal n) as [|d ds]; [done|]. apply Forall_cons in Hd as [Hd _]. by exists d, ds.
Qed.


Lemma split_on_no_sep sep s : sep ∉ s -> split_on sep s = [s].
Proof.
  induction s as [|c s IH]; [done|]. intros [Hc Hs]%not_elem_of_cons. cbn [split_on].
  rewrite (proj2 (Z.eqb_neq c sep)) by done. by rewrite IH.
Qed.

Lemma split_on_app sep s rest : sep ∉ s -> split_on sep (s ++ sep :: rest) = s :: split_on sep rest.
Proof.
  induction s as [|c s IH]; [intros _; cbn [app split_on]; by rewrite Z.eqb_refl|].
  intros [Hc Hs]%not_elem_of_cons. cbn [app split_on]. rewrite (proj2 (Z.eqb_neq c sep)) by done. by rewrite IH.
Qed.

Definition ascii_text (s : list Z) : Prop := Forall (fun c => 0 <= c < 128) s.

Lemma runes_ascii s : ascii_text s -> runes s = s.
Proof.
  induction 1 as [|c s Hc _ IH]; [done|]. rewrite runes_unfold by done.
  assert (decode_rune (c :: s) = (c, 1%nat)) as ->; [|cbn [fst snd]; change (drop 1 (c :: s)) with s; by rewrite IH].
  unfold decode_rune. by rewrite (proj2 (Z.ltb_lt c 128)) by lia.
Qed.


Lemma filter_all {A} (P : A -> Prop) `{!forall x, Decision (P x)} (l : list A) : Forall P l -> filter P l = l.
Proof. induction 1 as [|x l Hx _ IH]; [done|]. rewrite filter_cons, decide_True by done. by rewrite IH. Qed.

(** ** Cutting a text at a byte ([strings.Cut], [strings.LastIndex]) *)

(** The text before the first [sep], and after it when there is one. *)
Fixpoint cut (sep : Z) (s : list Z) : list Z * option (list Z) :=
  match s with
  | [] => ([], None)
  | c :: s => if c =? sep then ([], Some s) else let '(before, after) := cut sep s in (c :: before, after)
  end.

(** The text before and after the last [sep]. *)
Definition cut_last (sep : Z) (s : list Z) : option (list Z * list Z) :=
  match cut sep (rev s) with
  | (after, Some before) => Some (rev before, rev after)
  | _ => None
  end.

Lemma cut_no_sep sep s : sep ∉ s -> cut sep s = (s, None).
Proof.
  induction s as [|c s IH]; [done|]. intros [Hc Hs]%not_elem_of_cons. cbn [cut].
  rewrite (proj2 (Z.eqb_neq c sep)) by done. by rewrite IH.
Qed.

Lemma cut_sep sep s t : sep ∉ s -> cut sep (s ++ sep :: t) = (s, Some t).
Proof.
  induction s as [|c s IH]; [intros _; cbn; by rewrite Z.eqb_refl|]. intros [Hc Hs]%not_elem_of_cons. cbn [app cut].
  rewrite (proj2 (Z.eqb_neq c sep)) by done. by rewrite IH.
Qed.


Lemma cut_last_sep sep s t : sep ∉ t -> cut_last sep (s ++ sep :: t) = Some (s, t).
Proof.
  intros Ht. unfold cut_last. rewrite rev_app_distr. cbn [rev]. rewrite <- app_assoc. cbn [app].
  rewrite cut_sep by by rewrite list_elem_of_In, <- in_rev, <- list_elem_of_In. by rewrite !rev_involutive.
Qed.

Lemma cut_last_no_sep sep s : sep ∉ s -> cut_last sep s = None.
Proof.
  intros Hs. unfold cut_last. by rewrite cut_no_sep by by rewrite list_elem_of_In, <- in_rev, <- list_elem_of_In.
Qed.

Lemma cut_Forall (P : Z -> Prop) sep s :
  Forall P s -> Forall P (cut sep s).1 /\ (forall t, (cut sep s).2 = Some t -> Forall P t).
Proof.
  induction 1 as [|c s Hc Hs IH]; [done|]. cbn [cut]. destruct (c =? sep).
  - cbn. split; [done|]. by intros t [= <-].
  - destruct (cut sep s) as [before after], IH. by repeat constructor.
Qed.

Lemma cut_last_Forall (P : Z -> Prop) sep s before after :
  Forall P s -> cut_last sep s = Some (before, after) -> Forall P before.
Proof.
  intros Hs. unfold cut_last. pose proof (cut_Forall P sep (rev s)) as Hc.
  destruct (cut sep (rev s)) as [x [y|]]; [|done]. intros [= <- <-].
  apply List.Forall_rev, Hc; [by apply List.Forall_rev|done].
Qed.

(** ** Letters and signs *)

Definition lower_byte (b : Z) : Z := if (65 <=? b) && (b <=? 90) then b + 32 else b.

Definition is_alpha (c : Z) : bool := in_byte_range 97 122 c || in_byte_range 65 90 c.
Definition is_alnum (c : Z) : bool := is_alpha c || is_digit c.

(** [strconv.Itoa] *)
Definition Itoa (n : Z) : list Z := if n <? 0 then 45 :: decimal (- n) else decimal n.
Definition itoa (n : Z) : string := of_bytes (Itoa n).

(** ** Digits *)

(** [n] digits of [x] in a base. *)
Fixpoint to_digits (base : Z) (n : nat) (x : Z) : list Z :=
  match n with
  | O => []
  | S n => to_digits base n (x / base) ++ [x mod base]
  end.

Definition hex_char (d : Z) : Z := if d <? 10 then 48 + d else 97 + (d - 10).

(** [n] hexadecimal digits *)
Definition hex_text (n : nat) (x : Z) : list Z := hex_char <$> to_digits 16 n x.

(** A number from its digits, the first the most significant. *)
Definition of_digits (base : Z) (ds : list Z) : Z := foldl (fun acc d => acc * base + d) 0 ds.

Definition hex_digit (c : Z) : option Z :=
  if is_digit c then Some (c - 48)
  else if in_byte_range 97 102 c then Some (c - 97 + 10)
  else if in_byte_range 65 70 c then Some (c - 65 + 10)
  else None.

Lemma of_digits_snoc base ds d : of_digits base (ds ++ [d]) = of_digits base ds * base + d.
Proof. unfold of_digits. by rewrite foldl_app. Qed.

Lemma length_to_digits base n x : length (to_digits base n x) = n.
Proof. revert x. induction n as [|n IH]; intros x; [done|]. cbn [to_digits]. rewrite length_app, IH. cbn. lia. Qed.

Lemma to_digits_range base n x : 0 < base -> Forall (fun d => 0 <= d < base) (to_digits base n x).
Proof.
  intros Hb. revert x. induction n as [|n IH]; intros x; [constructor|]. cbn [to_digits].
  apply Forall_app; split; [apply IH|]. pose proof (Z.mod_pos_bound x base). repeat constructor; lia.
Qed.

Lemma of_to_digits base n x : 1 < base -> 0 <= x < base ^ Z.of_nat n -> of_digits base (to_digits base n x) = x.
Proof.
  intros Hb. revert x. induction n as [|n IH]; intros x Hx; [cbn in Hx; unfold of_digits; cbn; lia|].
  rewrite Nat2Z.inj_succ, Z.pow_succ_r in Hx by lia. cbn [to_digits]. rewrite of_digits_snoc, IH.
  - pose proof (Z.div_mod x base). lia.
  - split; [apply Z.div_pos; lia|]. apply Z.div_lt_upper_bound; lia.
Qed.

Lemma hex_digit_char d : 0 <= d < 16 -> hex_digit (hex_char d) = Some d.
Proof.
  intros Hd.
  assert (forallb (fun d => (15 <? d) || bool_decide (hex_digit (hex_char d) = Some d)) (seqZ 0 256) = true)
    as H by (vm_compute; reflexivity).
  assert (is_byte d) as Hb by (unfold is_byte; lia). apply (byte_check _ H), orb_true_iff in Hb as [Hb|Hb]; go_bool; [lia|done].
Qed.

(** ** [time.Duration.String] *)

(** The digits of a fraction without the zeros at its end: [prec] digits of [v],
    with the point when one is left. *)
Fixpoint frac_digits (prec : nat) (v : Z) (printed : bool) : list Z :=
  match prec with
  | O => []
  | S prec =>
      let digit := v mod 10 in
      let printed := printed || negb (digit =? 0) in
      frac_digits prec (v / 10) printed ++ (if printed then [48 + digit] else [])
  end.
Definition frac (prec : nat) (v : Z) : list Z :=
  match frac_digits prec v false with [] => [] | ds => 46 :: ds end.

Definition duration_text (d : Z) : list Z :=
  let u := Z.abs d in
  (if d <? 0 then [45] else []) ++
  if u =? 0 then bytes "0s"
  else if u <? 1000 then decimal u ++ bytes "ns"
  else if u <? 1000000 then decimal (u / 1000) ++ frac 3 u ++ [194; 181; 115]
  else if u <? 1000000000 then decimal (u / 1000000) ++ frac 6 u ++ bytes "ms"
  else
    let s := u / 1000000000 in
    (if s <? 60 then [] else
       (if s <? 3600 then [] else decimal (s / 3600) ++ bytes "h") ++ decimal ((s / 60) mod 60) ++ bytes "m")
    ++ decimal (s mod 60) ++ frac 9 u ++ bytes "s".
Definition Duration_String (d : Z) : string := of_bytes (duration_text d).

Example durations :
  Duration_String (90 * Second) = "1m30s" /\ Duration_String (1500 * Millisecond) = "1.5s" /\
  Duration_String (250 * Millisecond) = "250ms" /\ Duration_String (Hour + Nanosecond) = "1h0m0.000000001s" /\
  Duration_String 0 = "0s" /\ Duration_String (- 2050000) = "-2.05ms".
Proof. vm_compute. by split_and!. Qed.
