(* ===== verification/Quote.v ===== *)
(** * Quoted texts

    A text as its runes with their bytes, and [strconv.Quote], which [%q] and the
    text format of the log use. *)

From S2P Require Export Text.

(** ** A text as runes with their bytes *)

(** [range s]: each rune with the bytes it was decoded from. *)
Fixpoint chunks_skip (skip : nat) (s : list Z) : list (Z * list Z) :=
  match s with
  | [] => []
  | b :: t =>
      match skip with
      | S k => chunks_skip k t
      | O => ((decode_rune s).1, take (decode_rune s).2 s) :: chunks_skip (pred (decode_rune s).2) t
      end
  end.
Definition chunks : list Z -> list (Z * list Z) := chunks_skip 0.

(** A byte that decodes to nothing. *)
Definition bad_chunk (c : Z * list Z) : bool := (c.1 =? RuneError) && (length c.2 =? 1)%nat.

(** ** [strconv.Quote] *)

(** [strconv.IsPrint]; the table for the runes above U+00FF is an argument. *)
Definition IsPrint (table : Z -> bool) (r : Z) : bool :=
  if r <=? 255 then in_byte_range 32 126 r || (in_byte_range 161 255 r && negb (r =? 173)) else table r.

Definition quote_chunk (table : Z -> bool) (c : Z * list Z) : list Z :=
  let r := c.1 in
  if bad_chunk c then bytes "\x" ++ hex_text 2 (default 0 (head c.2))
  else if (r =? 34) || (r =? 92) then [92; r]
  else if IsPrint table r then c.2
  else if r =? 7 then bytes "\a" else if r =? 8 then bytes "\b" else if r =? 12 then bytes "\f"
  else if r =? 10 then bytes "\n" else if r =? 13 then bytes "\r" else if r =? 9 then bytes "\t"
  else if r =? 11 then bytes "\v"
  else if (r <? 32) || (r =? 127) then bytes "\x" ++ hex_text 2 r
  else if r <? 65536 then bytes "\u" ++ hex_text 4 r
  else bytes "\U" ++ hex_text 8 r.

Definition quote (table : Z -> bool) (s : list Z) : list Z := 34 :: (chunks s ≫= quote_chunk table) ++ [34].

(** [%q] in the messages of errors, where every rune above U+00FF is taken for
    printable. *)
Definition Quote (s : string) : string := of_bytes (quote (fun _ => true) (bytes s)).

(** ** Lemmas *)

Lemma chunks_skip_drop k s : chunks_skip k s = chunks (drop k s).
Proof. revert k; induction s as [|b t IH]; intros [|k]; try done. apply IH. Qed.

Lemma chunks_unfold s :
  s <> [] -> chunks s = ((decode_rune s).1, take (decode_rune s).2 s) :: chunks (drop (decode_rune s).2 s).
Proof.
  destruct s as [|b t]; [done|]; intros _. unfold chunks at 1. cbn [chunks_skip].
  by rewrite chunks_skip_drop, drop_decode.
Qed.

(** The chunks are the text, and their runes its runes. *)
Lemma chunks_bytes s : chunks s ≫= snd = s.
Proof.
  induction s as [|s Hne IH] using utf8_ind; [done|]. rewrite chunks_unfold by done.
  cbn [mbind list_bind snd] in *. rewrite IH. apply take_drop.
Qed.

Lemma chunks_runes s : fst <$> chunks s = runes s.
Proof.
  induction s as [|s Hne IH] using utf8_ind; [done|]. rewrite chunks_unfold, runes_unfold by done.
  cbn [fmap list_fmap fst] in *. by rewrite IH.
Qed.

Definition chunk_ok (c : Z * list Z) : Prop :=
  (c.1 = RuneError /\ exists b, c.2 = [b] /\ 128 <= b < 256) \/
  (valid_rune c.1 = true /\ c.2 = encode_rune c.1).

Lemma bad_decode_high b t : is_byte b -> bad_decode (b :: t) = true -> 128 <= b < 256.
Proof.
  unfold is_byte, bad_decode. intros Hb. cbn [decode_rune]. destruct (Z.ltb_spec b 128); [|lia].
  unfold RuneError. cbn [fst]. destruct (Z.eqb_spec b 65533); cbn; [lia|done].
Qed.

Lemma chunks_ok s : Forall is_byte s -> Forall chunk_ok (chunks s).
Proof.
  induction s as [|s Hne IH] using utf8_ind; intros Hb; [constructor|]. rewrite chunks_unfold by done.
  constructor; [|apply IH; by apply Forall_drop]. destruct (bad_decode s) eqn:Hbad.
  - left. destruct s as [|b t]; [done|]. apply Forall_cons in Hb as [Hb _]. pose proof (bad_decode_high b t Hb Hbad).
    unfold bad_decode in Hbad. apply andb_true_iff in Hbad as [->%Z.eqb_eq H2%Nat.eqb_eq]. split; [done|].
    exists b. cbn [snd]. by rewrite H2.
  - right. split; [by apply decode_rune_valid|]. cbn [fst snd]. by rewrite encode_decode.
Qed.
