(* ===== verification/Base64.v ===== *)
(** * Package [encoding/base64]

    The unpadded encodings of the standard and the URL alphabet, and the strict
    decoder of the standard one. *)

From S2P Require Export Text.

(** ** Base64, [RawStdEncoding] *)

Definition b64_char (d : Z) : Z :=
  if d <? 26 then 65 + d
  else if d <? 52 then 97 + (d - 26)
  else if d <? 62 then 48 + (d - 52)
  else if d =? 62 then 43 else 47.

Definition b64_digit (c : Z) : option Z :=
  if in_byte_range 65 90 c then Some (c - 65)
  else if in_byte_range 97 122 c then Some (c - 97 + 26)
  else if in_byte_range 48 57 c then Some (c - 48 + 52)
  else if c =? 43 then Some 62
  else if c =? 47 then Some 63
  else None.

(** Groups of three bytes as four digits. *)
Fixpoint b64_digits (l : list Z) : list Z :=
  match l with
  | a :: b :: c :: l =>
      Z.shiftr a 2 :: Z.lor (Z.shiftl (Z.land a 3) 4) (Z.shiftr b 4)
      :: Z.lor (Z.shiftl (Z.land b 15) 2) (Z.shiftr c 6) :: Z.land c 63 :: b64_digits l
  | [a; b] =>
      [Z.shiftr a 2; Z.lor (Z.shiftl (Z.land a 3) 4) (Z.shiftr b 4); Z.shiftl (Z.land b 15) 2]
  | [a] => [Z.shiftr a 2; Z.shiftl (Z.land a 3) 4]
  | [] => []
  end.

Definition b64_encode (l : list Z) : list Z := b64_char <$> b64_digits l.

(** The strict decoder: the bits of the last group that make no byte are zero. *)
Fixpoint b64_bytes (ds : list Z) : option (list Z) :=
  match ds with
  | d0 :: d1 :: d2 :: d3 :: ds =>
      l ← b64_bytes ds;
      Some (Z.lor (Z.shiftl d0 2) (Z.shiftr d1 4)
            :: Z.lor (Z.shiftl (Z.land d1 15) 4) (Z.shiftr d2 2)
            :: Z.lor (Z.shiftl (Z.land d2 3) 6) d3 :: l)
  | [d0; d1; d2] =>
      if Z.land d2 3 =? 0
      then Some [Z.lor (Z.shiftl d0 2) (Z.shiftr d1 4); Z.lor (Z.shiftl (Z.land d1 15) 4) (Z.shiftr d2 2)]
      else None
  | [d0; d1] => if Z.land d1 15 =? 0 then Some [Z.lor (Z.shiftl d0 2) (Z.shiftr d1 4)] else None
  | [_] => None
  | [] => Some []
  end.

Definition is_line_break (c : Z) : bool := (c =? 10) || (c =? 13).

Definition b64_decode (s : list Z) : option (list Z) :=
  ds ← mapM b64_digit (filter (fun c => is_line_break c = false) s); b64_bytes ds.

(** ** Base64 round trip *)

(** The bytes of a group, from its digits. *)
Lemma group_first a b :
  is_byte a -> is_byte b ->
  Z.lor (Z.shiftl (Z.shiftr a 2) 2) (Z.shiftr (Z.lor (Z.shiftl (Z.land a 3) 4) (Z.shiftr b 4)) 4) = a.
Proof.
  intros Ha Hb. apply Z.eqb_eq.
  apply (byte_check2 (fun a b => Z.lor (Z.shiftl (Z.shiftr a 2) 2)
    (Z.shiftr (Z.lor (Z.shiftl (Z.land a 3) 4) (Z.shiftr b 4)) 4) =? a)); [vm_compute; reflexivity|done..].
Qed.

Lemma group_first_alone a :
  is_byte a -> Z.lor (Z.shiftl (Z.shiftr a 2) 2) (Z.shiftr (Z.shiftl (Z.land a 3) 4) 4) = a.
Proof.
  intros Ha. apply Z.eqb_eq.
  apply (byte_check (fun a => Z.lor (Z.shiftl (Z.shiftr a 2) 2) (Z.shiftr (Z.shiftl (Z.land a 3) 4) 4) =? a));
    [vm_compute; reflexivity|done].
Qed.

(** Of the second digit's low bits only the byte's high half counts. *)
Lemma second_low_bits a b :
  is_byte a -> is_byte b ->
  Z.land (Z.lor (Z.shiftl (Z.land a 3) 4) (Z.shiftr b 4)) 15 = Z.shiftr b 4.
Proof.
  intros Ha Hb. apply Z.eqb_eq.
  apply (byte_check2 (fun a b => Z.land (Z.lor (Z.shiftl (Z.land a 3) 4) (Z.shiftr b 4)) 15 =? Z.shiftr b 4));
    [vm_compute; reflexivity|done..].
Qed.

Lemma group_second b c :
  is_byte b -> is_byte c ->
  Z.lor (Z.shiftl (Z.shiftr b 4) 4) (Z.shiftr (Z.lor (Z.shiftl (Z.land b 15) 2) (Z.shiftr c 6)) 2) = b.
Proof.
  intros Ha Hb. apply Z.eqb_eq.
  apply (byte_check2 (fun b c => Z.lor (Z.shiftl (Z.shiftr b 4) 4)
    (Z.shiftr (Z.lor (Z.shiftl (Z.land b 15) 2) (Z.shiftr c 6)) 2) =? b)); [vm_compute; reflexivity|done..].
Qed.

Lemma group_third b c :
  is_byte b -> is_byte c ->
  Z.lor (Z.shiftl (Z.land (Z.lor (Z.shiftl (Z.land b 15) 2) (Z.shiftr c 6)) 3) 6) (Z.land c 63) = c.
Proof.
  intros Ha Hb. apply Z.eqb_eq.
  apply (byte_check2 (fun b c => Z.lor (Z.shiftl (Z.land (Z.lor (Z.shiftl (Z.land b 15) 2) (Z.shiftr c 6)) 3) 6)
    (Z.land c 63) =? c)); [vm_compute; reflexivity|done..].
Qed.

Lemma is_byte_0 : is_byte 0.
Proof. unfold is_byte. lia. Qed.

Lemma triple_ind (P : list Z -> Prop) :
  P [] -> (forall a, P [a]) -> (forall a b, P [a; b]) -> (forall a b c l, P l -> P (a :: b :: c :: l)) ->
  forall l, P l.
Proof.
  intros H0 H1 H2 H3. fix IH 1. intros [|a [|b [|c l]]]; [exact H0|apply H1|apply H2|]. apply H3, IH.
Qed.

Lemma b64_bytes_digits l : Forall is_byte l -> b64_bytes (b64_digits l) = Some l.
Proof.
  induction l as [|a|a b|a b c l IH] using triple_ind; intros Hl.
  - done.
  - apply Forall_cons in Hl as [Ha _]. cbn [b64_digits b64_bytes].
    assert ((Z.land (Z.shiftl (Z.land a 3) 4) 15 =? 0) = true) as ->; [|by rewrite group_first_alone].
    apply (byte_check (fun a => Z.land (Z.shiftl (Z.land a 3) 4) 15 =? 0)); [vm_compute; reflexivity|done].
  - apply Forall_cons in Hl as [Ha [Hb _]%Forall_cons]. cbn [b64_digits b64_bytes].
    rewrite second_low_bits, group_first by done.
    pose proof (group_second b 0 Hb is_byte_0) as H2. pose proof (group_third b 0 Hb is_byte_0) as H3.
    change (Z.shiftr 0 6) with 0 in H2, H3. rewrite Z.lor_0_r in H2, H3. rewrite H2.
    assert (Z.land (Z.shiftl (Z.land b 15) 2) 3 = 0) as ->; [|done].
    apply Z.eqb_eq. apply (byte_check (fun b => Z.land (Z.shiftl (Z.land b 15) 2) 3 =? 0)); [vm_compute; reflexivity|done].
  - apply Forall_cons in Hl as [Ha [Hb [Hc Hl]%Forall_cons]%Forall_cons].
    cbn [b64_digits b64_bytes]. rewrite IH by done. cbn [mbind option_bind].
    by rewrite second_low_bits, group_first, group_second, group_third.
Qed.

Definition is_sextet (d : Z) : Prop := 0 <= d < 64.

Lemma b64_digits_range l : Forall is_byte l -> Forall is_sextet (b64_digits l).
Proof.
  assert (forall a, is_byte a -> is_sextet (Z.shiftr a 2) /\ is_sextet (Z.land a 63)) as H1.
  { intros a Ha. pose proof (byte_check (fun a => (0 <=? Z.shiftr a 2) && (Z.shiftr a 2 <? 64) && (0 <=? Z.land a 63) && (Z.land a 63 <? 64))
      ltac:(vm_compute; reflexivity) a Ha) as H. cbn beta in H. unfold is_sextet. go_bool. lia. }
  assert (forall a b, is_byte a -> is_byte b -> is_sextet (Z.lor (Z.shiftl (Z.land a 3) 4) (Z.shiftr b 4)) /\
    is_sextet (Z.lor (Z.shiftl (Z.land a 15) 2) (Z.shiftr b 6))) as H2.
  { intros a b Ha Hb. pose proof (byte_check2 (fun a b => let x := Z.lor (Z.shiftl (Z.land a 3) 4) (Z.shiftr b 4) in
      let y := Z.lor (Z.shiftl (Z.land a 15) 2) (Z.shiftr b 6) in (0 <=? x) && (x <? 64) && (0 <=? y) && (y <? 64))
      ltac:(vm_compute; reflexivity) a b Ha Hb) as H. cbn zeta beta in H. unfold is_sextet. go_bool. lia. }
  induction l as [|a|a b|a b c l IH] using triple_ind; intros Hl; cbn; [constructor|..].
  - apply Forall_cons in Hl as [Ha _]. pose proof (H2 a 0 Ha is_byte_0) as [H _].
    change (Z.shiftr 0 4) with 0 in H. rewrite Z.lor_0_r in H.
    repeat constructor; (apply H1 || apply H); done.
  - apply Forall_cons in Hl as [Ha [Hb _]%Forall_cons]. pose proof (H2 b 0 Hb is_byte_0) as [_ H].
    change (Z.shiftr 0 6) with 0 in H. rewrite Z.lor_0_r in H. repeat constructor; (apply H1 || apply (H2 a b) || apply H); done.
  - apply Forall_cons in Hl as [Ha [Hb [Hc Hl]%Forall_cons]%Forall_cons].
    repeat constructor; try (by apply IH); (apply H1 || apply (H2 a b) || apply (H2 b c)); done.
Qed.

Lemma b64_char_spec d :
  is_sextet d -> b64_digit (b64_char d) = Some d /\ is_line_break (b64_char d) = false /\ visible (b64_char d) /\ b64_char d <> 36.
Proof.
  intros Hd.
  pose (P d := if d <? 64
    then match b64_digit (b64_char d) with Some x => x =? d | None => false end &&
         (negb (is_line_break (b64_char d)) && ((33 <=? b64_char d) && ((b64_char d <? 127) && negb (b64_char d =? 36)))) else true).
  assert (P d = true) as H by (apply byte_check; [vm_compute; reflexivity|unfold is_byte, is_sextet in *; lia]).
  subst P. cbn beta in H. unfold visible, is_sextet in *. rewrite (proj2 (Z.ltb_lt d 64)) in H by lia.
  destruct (b64_digit (b64_char d)) as [x|]; [|done]. go_bool. split_and!; [by f_equal|done|lia..].
Qed.

Lemma b64_decode_encode l : Forall is_byte l -> b64_decode (b64_encode l) = Some l.
Proof.
  intros Hl. unfold b64_decode, b64_encode. pose proof (b64_digits_range l Hl) as Hd.
  rewrite filter_all.
  - assert (mapM b64_digit (b64_char <$> b64_digits l) = Some (b64_digits l)) as ->; [|by apply b64_bytes_digits].
    apply mapM_Some_2, Forall2_fmap_l, Forall_Forall2_diag. eapply Forall_impl; [done|]. intros d Hsextet. by apply b64_char_spec.
  - apply Forall_fmap. eapply Forall_impl; [done|]. intros d Hsextet. by apply b64_char_spec.
Qed.

Lemma b64_encode_visible l : Forall is_byte l -> Forall (fun c => visible c /\ c <> 36) (b64_encode l).
Proof.
  intros Hl. unfold b64_encode. apply Forall_fmap. eapply Forall_impl; [by apply b64_digits_range|].
  intros d Hd. cbn. split; by apply b64_char_spec.
Qed.


(** ** [RawURLEncoding] *)

Definition url_char (d : Z) : Z := if d =? 62 then 45 else if d =? 63 then 95 else b64_char d.
Definition url_digit (c : Z) : option Z :=
  if c =? 45 then Some 62 else if c =? 95 then Some 63
  else if (c =? 43) || (c =? 47) then None else b64_digit c.

Definition url_encode (l : list Z) : list Z := url_char <$> b64_digits l.
Definition url_decode (s : list Z) : option (list Z) := ds ← mapM url_digit s; b64_bytes ds.

(** Characters that mean themselves everywhere in a URL. *)
Definition url_safe (c : Z) : bool :=
  in_byte_range 65 90 c || in_byte_range 97 122 c || in_byte_range 48 57 c || (c =? 45) || (c =? 95).

Lemma url_char_spec d : is_sextet d -> url_digit (url_char d) = Some d /\ url_safe (url_char d) = true.
Proof.
  intros Hd.
  assert (forallb (fun d => (63 <? d) || bool_decide (url_digit (url_char d) = Some d) && url_safe (url_char d)) (seqZ 0 256) = true)
    as H by (vm_compute; reflexivity).
  assert (is_byte d) as Hb by (unfold is_sextet, is_byte in *; lia).
  apply (byte_check _ H), orb_true_iff in Hb as [Hb|Hb]; go_bool; [unfold is_sextet in *; lia|done].
Qed.

Lemma url_decode_encode l : Forall is_byte l -> url_decode (url_encode l) = Some l.
Proof.
  intros Hl. unfold url_decode, url_encode. pose proof (b64_digits_range l Hl) as Hd.
  assert (mapM url_digit (url_char <$> b64_digits l) = Some (b64_digits l)) as ->; [|by apply b64_bytes_digits].
  apply mapM_Some_2, Forall2_fmap_l, Forall_Forall2_diag. eapply Forall_impl; [done|]. intros d Hsextet. by apply url_char_spec.
Qed.

Lemma url_encode_safe l : Forall is_byte l -> Forall (fun c => url_safe c = true) (url_encode l).
Proof.
  intros Hl. apply Forall_fmap. eapply Forall_impl; [by apply b64_digits_range|]. intros d Hd. by apply url_char_spec.
Qed.

(** Four characters for three bytes, rounded up. *)
Lemma length_b64_digits l : Z.of_nat (length (b64_digits l)) = (8 * Z.of_nat (length l) + 5) / 6.
Proof.
  induction l as [|a|a b|a b c l IH] using triple_ind; [done..|]. cbn [b64_digits length]. rewrite !Nat2Z.inj_succ, IH.
  replace (8 * Z.succ (Z.succ (Z.succ (Z.of_nat (length l)))) + 5) with (8 * Z.of_nat (length l) + 5 + 4 * 6) by lia.
  rewrite Z.div_add by lia. lia.
Qed.
