(* ===== verification/Apperr.v ===== *)
(** * Error values: Go's [error], [errors.Is]/[errors.As], package [apperr]

    An [error] is the dynamic value of a non-nil Go [error] interface; a Go
    variable of type [error] is an [option error].  The constructors are the
    dynamic types the source distinguishes; every other type, third-party ones
    included, is an [otherError] with its text, the sentinels its [Is] method
    accepts and the errors it unwraps to.

    A nil [*apperr.Error] stored in an [error] interface is not a nil error:
    it is the value [nilAppError], and calling a method on it panics.  That is
    why the traversals return an [outcome]. *)

From S2P Require Export Prelude.

(** ** apperr.Kind *)

Inductive Kind : Type :=
| KindUnknown
| KindInvalidArgument
| KindUnauthenticated
| KindPermissionDenied
| KindNotFound
| KindAlreadyExists
| KindConflict
| KindFailedPrecondition
| KindRateLimited
| KindTimeout
| KindUnavailable
| KindInternal.

#[export] Instance Kind_eq_dec : EqDecision Kind.
Proof. solve_decision. Defined.

(** [func (k Kind) String() string]; a [Kind] outside the constants prints like
    [KindUnknown]. *)
Definition Kind_String (k : Kind) : string :=
  match k with
  | KindInvalidArgument => "invalid_argument"
  | KindUnauthenticated => "unauthenticated"
  | KindPermissionDenied => "permission_denied"
  | KindNotFound => "not_found"
  | KindAlreadyExists => "already_exists"
  | KindConflict => "conflict"
  | KindFailedPrecondition => "failed_precondition"
  | KindRateLimited => "rate_limited"
  | KindTimeout => "timeout"
  | KindUnavailable => "unavailable"
  | KindInternal => "internal"
  | KindUnknown => "unknown"
  end.

(** ** Error values *)

#[local] Set Warnings "-register-all".

Inductive error : Type :=
| errorString (id : positive) (text : string)        (** a package-level [errors.New], compared by identity *)
| wrapError (text : string) (err : error)             (** [fmt.Errorf] with one [%w] *)
| wrapErrors (text : string) (errs : list error)      (** several [%w] *)
| appError (kind : Kind) (code message : string) (fields : gmap string string) (err : option error)
                                                      (** a non-nil [*apperr.Error] *)
| nilAppError                                         (** a nil [*apperr.Error] *)
| terminalError (err : error)                         (** [outbox.terminalError] *)
| conflictError (err : error)                         (** [outbox.conflictError] *)
| PgError (code constraint text : string)             (** [*pgconn.PgError] *)
| otherError (text : string) (accepts : list positive) (errs : list error).

(** Induction with the hypotheses for the nested errors. *)
Section error_rect.
Context (P : error -> Prop)
  (H_string : forall id t, P (errorString id t))
  (H_wrap : forall t e, P e -> P (wrapError t e))
  (H_wraps : forall t es, Forall P es -> P (wrapErrors t es))
  (H_app : forall k c m f o, (forall e, o = Some e -> P e) -> P (appError k c m f o))
  (H_nil : P nilAppError)
  (H_terminal : forall e, P e -> P (terminalError e))
  (H_conflict : forall e, P e -> P (conflictError e))
  (H_pg : forall c k t, P (PgError c k t))
  (H_other : forall t acc es, Forall P es -> P (otherError t acc es)).

Fixpoint error_nested_ind (e : error) : P e :=
  let fix list_ind (es : list error) : Forall P es :=
    match es with
    | [] => List.Forall_nil P
    | e :: es => List.Forall_cons P e es (error_nested_ind e) (list_ind es)
    end in
  match e with
  | errorString id t => H_string id t
  | wrapError t e => H_wrap t e (error_nested_ind e)
  | wrapErrors t es => H_wraps t es (list_ind es)
  | appError k c m f o =>
      H_app k c m f o
        (match o with
         | Some e0 => fun e Heq => eq_ind e0 P (error_nested_ind e0) e (Some_inj _ _ Heq)
         | None => fun e Heq => False_ind _ (eq_ind None (fun o => match o with None => True | Some _ => False end) I _ Heq)
         end)
  | nilAppError => H_nil
  | terminalError e => H_terminal e (error_nested_ind e)
  | conflictError e => H_conflict e (error_nested_ind e)
  | PgError c k t => H_pg c k t
  | otherError t acc es => H_other t acc es (list_ind es)
  end.
End error_rect.

(** Sentinels the source compares with. *)
Definition Canceled : error := errorString 1 "context canceled".
Definition DeadlineExceeded : error := errorString 2 "context deadline exceeded".
Definition ErrNoRows : error := errorString 3 "no rows in result set".

(** [errors.New] and [fmt.Errorf] without [%w], when nothing compares the value. *)
Definition errors_New (text : string) : error := otherError text [] [].

(** ** [errors.As] and [errors.Is]

    Depth-first: the error itself, then what it unwraps to, in order.  [f] is
    the type test of the target. *)
Section errors_As.
Context {A : Type} (f : error -> option A).

Fixpoint errors_As (e : error) : outcome (option A) :=
  let fix go (es : list error) : outcome (option A) :=
    match es with
    | [] => Ret None
    | e :: es => r ← errors_As e; match r with Some a => Ret (Some a) | None => go es end
    end in
  match f e with
  | Some a => Ret (Some a)
  | None =>
      match e with
      | wrapError _ e | terminalError e | conflictError e => errors_As e
      | wrapErrors _ es | otherError _ _ es => go es
      | appError _ _ _ _ (Some e) => errors_As e
      | nilAppError => Panic nil_dereference
      | _ => Ret None
      end
  end.

Fixpoint errors_As_list (es : list error) : outcome (option A) :=
  match es with
  | [] => Ret None
  | e :: es => r ← errors_As e; match r with Some a => Ret (Some a) | None => errors_As_list es end
  end.
End errors_As.

Definition is_sentinel (id : positive) (e : error) : option unit :=
  match e with
  | errorString id' _ => if decide (id' = id) then Some () else None
  | otherError _ acc _ => if decide (id ∈ acc) then Some () else None
  | _ => None
  end.

(** [errors.Is(err, target)] for a sentinel [target] *)
Definition errors_Is (err : option error) (target : error) : outcome bool :=
  match err, target with
  | Some e, errorString id _ => r ← errors_As (is_sentinel id) e; Ret (bool_decide (r = Some ()))
  | _, _ => Ret false
  end.

(** The errors of a tree in the order [errors.As] visits them. *)
Fixpoint preorder (e : error) : list error :=
  e :: match e with
       | wrapError _ e | terminalError e | conflictError e => preorder e
       | wrapErrors _ es | otherError _ _ es => es ≫= preorder
       | appError _ _ _ _ (Some e) => preorder e
       | _ => []
       end.

Fixpoint first_some {A B} (f : A -> option B) (l : list A) : option B :=
  match l with
  | [] => None
  | a :: l => match f a with Some b => Some b | None => first_some f l end
  end.

(** No nil [*apperr.Error] anywhere in the tree. *)
Definition is_nilAppError (e : error) : bool := match e with nilAppError => true | _ => false end.
Definition nil_free (e : error) : bool := forallb (fun e => negb (is_nilAppError e)) (preorder e).

(** ** Texts *)

(** [err.Error()] *)
Fixpoint error_text (e : error) : outcome string :=
  match e with
  | errorString _ t | wrapError t _ | wrapErrors t _ | PgError _ _ t | otherError t _ _ => Ret t
  | terminalError e | conflictError e => error_text e
  | nilAppError => Panic nil_dereference
  | appError _ code message _ None =>
      Ret (if message != "" then code +:+ ": " +:+ message else code)
  | appError _ code message _ (Some e) =>
      let v := match error_text e, e with
               | Ret t, _ => t
               | Panic _, nilAppError => "<nil>"
               | Panic p, _ => "%!v(PANIC=Error method: " +:+ p +:+ ")"
               end in
      Ret (if message != "" then code +:+ ": " +:+ message +:+ ": " +:+ v else code +:+ ": " +:+ v)
  end.

(** [%v] and [%w] of an error: [fmt] recovers a panicking [Error] method. *)
Definition fmt_error (e : error) : string :=
  match error_text e, e with
  | Ret t, _ => t
  | Panic _, nilAppError => "<nil>"
  | Panic p, _ => "%!v(PANIC=Error method: " +:+ p +:+ ")"
  end.

(** [fmt.Errorf("<prefix>: %w", err)] *)
Definition Errorf (prefix : string) (e : error) : error :=
  wrapError (prefix +:+ ": " +:+ fmt_error e) e.

(** ** apperr.Error

    The Go struct; a [*Error] is an [option Error]. *)
Record Error := mkError {
  Error_Kind : Kind;
  Error_Code : string;
  Error_Message : string;
  Error_Fields : gmap string string;
  Error_err : option error
}.

(** The conversion of a [*Error] to the [error] interface. *)
Definition to_error (p : option Error) : error :=
  match p with
  | Some e => appError (Error_Kind e) (Error_Code e) (Error_Message e) (Error_Fields e) (Error_err e)
  | None => nilAppError
  end.

Definition New (kind : Kind) (code message : string) : option Error :=
  Some (mkError kind code message ∅ None).

Definition Wrap (err : option error) (kind : Kind) (code message : string) : option Error :=
  match err with
  | None => None
  | Some _ => Some (mkError kind code message ∅ err)
  end.

(** [(e *Error) Error()] *)
Definition Error_Error (p : option Error) : outcome string := error_text (to_error p).

(** [(e *Error) Unwrap()] *)
Definition Error_Unwrap (p : option Error) : outcome (option error) :=
  match p with
  | None => Panic nil_dereference
  | Some e => Ret (Error_err e)
  end.

(** [(e *Error) WithField(key, value)]: a copy with a map of its own. *)
Definition WithField (p : option Error) (key value : string) : outcome (option Error) :=
  match p with
  | None => Panic nil_dereference
  | Some e =>
      Ret (Some (mkError (Error_Kind e) (Error_Code e) (Error_Message e)
                   (<[key := value]> (Error_Fields e)) (Error_err e)))
  end.

(** The type test of [errors.As(err, &appErr)]: any [*Error], nil included. *)
Definition is_Error (e : error) : option (option Error) :=
  match e with
  | appError k c m fs o => Some (Some (mkError k c m fs o))
  | nilAppError => Some None
  | _ => None
  end.

(** [errors.As(err, &appErr)] from a nil [appErr]: the pointer and the result. *)
Definition As (err : option error) : outcome (option Error * bool) :=
  match err with
  | None => Ret (None, false)
  | Some e => r ← errors_As is_Error e;
              Ret (match r with Some p => (p, true) | None => (None, false) end)
  end.

Definition KindOf (err : option error) : outcome Kind :=
  r ← As err;
  match r with
  | (Some appErr, true) => Ret (Error_Kind appErr)
  | (None, true) => Panic nil_dereference
  | (_, false) => Ret KindUnknown
  end.

Definition CodeOf (err : option error) : outcome string :=
  r ← As err;
  match r with
  | (Some appErr, true) => Ret (Error_Code appErr)
  | (None, true) => Panic nil_dereference
  | (_, false) => Ret ""
  end.

Definition Is (err : option error) (kind : Kind) : outcome bool :=
  k ← KindOf err; Ret (k == kind).

Definition InvalidArgument (code message : string) := New KindInvalidArgument code message.
Definition Unauthenticated (code message : string) := New KindUnauthenticated code message.
Definition PermissionDenied (code message : string) := New KindPermissionDenied code message.
Definition NotFound (code message : string) := New KindNotFound code message.
Definition AlreadyExists (code message : string) := New KindAlreadyExists code message.
Definition Conflict (code message : string) := New KindConflict code message.
Definition FailedPrecondition (code message : string) := New KindFailedPrecondition code message.
Definition RateLimited (code message : string) := New KindRateLimited code message.
Definition Internal (code message : string) := New KindInternal code message.

(** ** The traversals *)

Lemma first_some_app {A B} (f : A -> option B) (k l : list A) :
  first_some f (k ++ l) = match first_some f k with Some b => Some b | None => first_some f l end.
Proof. induction k as [|a k IH]; [done|]. cbn. destruct (f a); [done|]. apply IH. Qed.

Lemma nil_free_spec e : nil_free e = true <-> nilAppError ∉ preorder e.
Proof.
  unfold nil_free. rewrite forallb_forall. split.
  - intros H Hin. apply list_elem_of_In, H in Hin. done.
  - intros H x Hx. destruct x; try done. destruct H. by apply list_elem_of_In.
Qed.

(** [errors.As] returns on a tree without nil pointers and finds the first match
    of the pre-order; a test that accepts a nil pointer also stops there. *)
Section errors_As_spec.
Context {A : Type} (f : error -> option A).

Definition As_spec (e : error) : Prop :=
  (nilAppError ∈ preorder e -> is_Some (f nilAppError)) ->
  errors_As f e = Ret (first_some f (preorder e)).

Lemma errors_As_list_spec es :
  Forall As_spec es ->
  (nilAppError ∈ es ≫= preorder -> is_Some (f nilAppError)) ->
  errors_As_list f es = Ret (first_some f (es ≫= preorder)).
Proof.
  induction 1 as [|e es He _ IH]; intros Hn; [done|]. cbn in *.
  rewrite He by (intros; apply Hn, elem_of_app; by left).
  cbn. rewrite first_some_app. destruct (first_some f (preorder e)); [done|].
  apply IH. intros. apply Hn, elem_of_app. by right.
Qed.

(** Computes one visit and leaves the case where the node does not match. *)
Ltac visit :=
  cbn; match goal with |- match ?x with _ => _ end = _ => destruct x eqn:? end; [done|].

Lemma errors_As_spec e : As_spec e.
Proof.
  induction e using error_nested_ind; unfold As_spec in *; intros Hn; visit; try done.
  - apply IHe. intros; apply Hn; by right.
  - apply errors_As_list_spec; [done|]. intros; apply Hn; by right.
  - destruct o as [e|]; [|done]. apply (H e); [done|]. intros; apply Hn; by right.
  - destruct Hn as [? ?]; [by left|congruence].
  - apply IHe. intros; apply Hn; by right.
  - apply IHe. intros; apply Hn; by right.
  - apply errors_As_list_spec; [done|]. intros; apply Hn; by right.
Qed.

Lemma errors_As_nil_free e :
  nil_free e = true -> errors_As f e = Ret (first_some f (preorder e)).
Proof. intros Hn%nil_free_spec. apply errors_As_spec. done. Qed.
End errors_As_spec.

(** The text of a tree without nil pointers. *)
Lemma error_text_returns e : nil_free e = true -> exists s, error_text e = Ret s.
Proof.
  induction e using error_nested_ind; intros Hn; try (eexists; reflexivity).
  - destruct o; eexists; reflexivity.
  - done.
  - by apply IHe.
  - by apply IHe.
Qed.

(** The search for a [*Error] never panics: it stops at a nil pointer too. *)
Lemma As_returns e :
  As (Some e) = Ret (match first_some is_Error (preorder e) with
                     | Some p => (p, true) | None => (None, false) end).
Proof. cbn. rewrite errors_As_spec by (intros; by eexists). done. Qed.

#[export] Hint Rewrite As_returns : golib.

(** [errors.As] semantics of the classification: [KindOf], [CodeOf] and
    [Is] look at the first [*apperr.Error] of the error tree in the depth-first
    order, however deeply it is wrapped (including through several [%w]); with
    no such error they answer [KindUnknown] and the empty code, and a nil
    pointer found first makes them panic. *)
Theorem KindOf_first_in_preorder (e : error) (kind : Kind) :
  KindOf (Some e) = match first_some is_Error (preorder e) with
                    | Some (Some a) => Ret (Error_Kind a)
                    | Some None => Panic nil_dereference
                    | None => Ret KindUnknown
                    end /\
  CodeOf (Some e) = match first_some is_Error (preorder e) with
                    | Some (Some a) => Ret (Error_Code a)
                    | Some None => Panic nil_dereference
                    | None => Ret ""
                    end /\
  Is (Some e) kind = (k ← KindOf (Some e); Ret (k == kind)).
Proof.
  unfold Is, KindOf, CodeOf. autorewrite with golib.
  by destruct (first_some is_Error (preorder e)) as [[|]|].
Qed.

(** [Wrap] of a real error keeps it reachable for [errors.Is] and answers
    with the kind and code it was given; [Wrap] of a nil error is a nil
    pointer, which stored in an [error] is not nil and makes [KindOf],
    [CodeOf], [Error] and [WithField] panic. *)
Theorem Wrap_behaviour (e : error) (kind : Kind) (code message : string) (target : error) :
  (KindOf (Some (to_error (Wrap (Some e) kind code message))) = Ret kind /\
   CodeOf (Some (to_error (Wrap (Some e) kind code message))) = Ret code /\
   errors_Is (Some (to_error (Wrap (Some e) kind code message))) target = errors_Is (Some e) target /\
   Error_Unwrap (Wrap (Some e) kind code message) = Ret (Some e)) /\
  (Wrap None kind code message = None /\
   KindOf (Some (to_error (Wrap None kind code message))) = Panic nil_dereference /\
   CodeOf (Some (to_error (Wrap None kind code message))) = Panic nil_dereference /\
   Error_Error (Wrap None kind code message) = Panic nil_dereference /\
   forall key value, WithField (Wrap None kind code message) key value = Panic nil_dereference).
Proof. split; [by split_and!|done]. Qed.
