(* ===== verification/Context.v ===== *)
(** * [context.Context] and the data it carries

    A context is its cancellation state, its deadline, the chain of
    [context.WithValue] pairs (the latest first, found by key) and the gRPC
    metadata and peer attached to it.  Each package of the source uses a key type
    of its own, so the keys are an enumeration; the values keep their dynamic
    type, because the readers use checked type assertions. *)

From S2P Require Export Apperr.

(** ** Data in contexts *)

(** [token.Type]; the constants are the two values the source names. *)
Definition TypeAccess : string := "access".
Definition TypeRefresh : string := "refresh".

(** [token.Claims], with the [jwt.RegisteredClaims] it embeds.  Dates are
    instants in nanoseconds. *)
Record Claims := mkClaims {
  Subject : string;
  Issuer : string;
  Audience : list string;
  IssuedAt : option Z;
  NotBefore : option Z;
  ExpiresAt : option Z;
  ID : string;
  Claims_Type : string;
  SessionID : string;
  Roles : list string
}.

(** [slog.Attr], with the kinds of values the source logs. *)
Inductive Value : Type :=
| StringValue (s : string)
| Int64Value (n : Z).
Definition Attr : Type := string * Value.
Definition slog_String (key value : string) : Attr := (key, StringValue value).
Definition slog_Int64 (key : string) (value : Z) : Attr := (key, Int64Value value).

(** [*slog.Logger]: its minimal level, the attributes bound to it, and whether its
    handler is the [contextHandler] of package [logger]. *)
Record Logger := mkLogger {
  log_level : Z;
  log_attrs : list Attr;
  log_context : bool
}.

(** gRPC metadata: lists of values under lower-case keys. *)
Abbreviation MD := (gmap string (list string)).

Inductive context_key : Type :=
| requestid_contextKey
| token_claimsContextKey
| logger_attrsContextKey
| logger_loggerContextKey
| grpcclient_tokenContextKey.

#[export] Instance context_key_eq_dec : EqDecision context_key.
Proof. solve_decision. Defined.

Inductive context_value : Type :=
| VString (s : string)
| VClaims (claims : option Claims)
| VAttrs (attrs : list Attr)
| VLogger (log : option Logger).

Record Context := mkContext {
  ctx_err : option error;                          (** [ctx.Err()] *)
  ctx_deadline : option Z;                         (** [ctx.Deadline()] *)
  ctx_values : list (context_key * context_value);
  ctx_incoming : option MD;
  ctx_outgoing : option MD;
  ctx_peer : option (option string);               (** peer, and its address when not nil *)
  ctx_span : option (string * string)              (** ids of a valid OpenTelemetry span context *)
}.

Definition Background : Context := mkContext None None [] None None None None.

(** ** Operations of package context *)

Fixpoint assoc (k : context_key) (l : list (context_key * context_value)) : option context_value :=
  match l with
  | [] => None
  | (k', v) :: l => if decide (k = k') then Some v else assoc k l
  end.

(** [ctx.Value(key)] *)
Definition ctx_Value (ctx : Context) (k : context_key) : option context_value := assoc k (ctx_values ctx).

Definition WithValue (ctx : Context) (k : context_key) (v : context_value) : Context :=
  mkContext (ctx_err ctx) (ctx_deadline ctx) ((k, v) :: ctx_values ctx)
    (ctx_incoming ctx) (ctx_outgoing ctx) (ctx_peer ctx) (ctx_span ctx).

(** [context.WithoutCancel]: the values without cancellation and deadline. *)
Definition WithoutCancel (ctx : Context) : Context :=
  mkContext None None (ctx_values ctx) (ctx_incoming ctx) (ctx_outgoing ctx) (ctx_peer ctx) (ctx_span ctx).

(** [context.WithTimeout] at the instant [now]: the earlier of the deadlines. *)
Definition WithTimeout (ctx : Context) (now timeout : Z) : Context :=
  let d := now + timeout in
  mkContext (ctx_err ctx) (Some (match ctx_deadline ctx with Some d' => Z.min d' d | None => d end))
    (ctx_values ctx) (ctx_incoming ctx) (ctx_outgoing ctx) (ctx_peer ctx) (ctx_span ctx).

Definition with_incoming (ctx : Context) (md : option MD) : Context :=
  mkContext (ctx_err ctx) (ctx_deadline ctx) (ctx_values ctx) md (ctx_outgoing ctx) (ctx_peer ctx) (ctx_span ctx).
Definition with_outgoing (ctx : Context) (md : option MD) : Context :=
  mkContext (ctx_err ctx) (ctx_deadline ctx) (ctx_values ctx) (ctx_incoming ctx) md (ctx_peer ctx) (ctx_span ctx).

Lemma Value_WithValue_eq ctx k v : ctx_Value (WithValue ctx k v) k = Some v.
Proof. unfold ctx_Value, WithValue. cbn. by rewrite decide_True. Qed.

Lemma Value_WithValue_ne ctx k k' v : k <> k' -> ctx_Value (WithValue ctx k v) k' = ctx_Value ctx k'.
Proof. intros Hk. unfold ctx_Value, WithValue. cbn. by rewrite decide_False. Qed.

#[export] Hint Rewrite Value_WithValue_eq : golib.
#[export] Hint Rewrite Value_WithValue_ne using done : golib.
