(* ===== verification/Logger.v ===== *)
(** * Packages [logger] and [requestid]

    Loggers carried by contexts, attributes carried by contexts, and the records
    they log.  A record is its level, message and attributes in order; how it is
    written is in [LogFormat]. *)

From S2P Require Export Quote Context.

(** ** Levels *)

Definition LevelDebug : Z := -4.
Definition LevelInfo : Z := 0.
Definition LevelWarn : Z := 4.
Definition LevelError : Z := 8.

(** [strings.ToLower] as far as ASCII results go: besides the letters A-Z only
    U+0130 and U+212A have a lower case in ASCII. *)
Definition lower_rune (r : Z) : Z :=
  if (65 <=? r) && (r <=? 90) then r + 32
  else if r =? 304 then 105
  else if r =? 8490 then 107
  else r.

Definition ToLower (s : string) : string := runes_string (map lower_rune (string_runes s)).

(** The switch on the lower-case text; an unknown level is an error. *)
Definition ParseLevel (value : string) : result error Z :=
  let v := ToLower (TrimSpace value) in
  if (v == "") || (v == "info") then Ok LevelInfo
  else if v == "debug" then Ok LevelDebug
  else if (v == "warn") || (v == "warning") then Ok LevelWarn
  else if v == "error" then Ok LevelError
  else Err (errors_New ("logger: unknown level " +:+ Quote value)).

(** ** Loggers *)

Record Config := mkConfig {
  Level : string;
  Format : string;
  AddSource : bool;
  Service : string;
  Version : string
}.

Definition FormatJSON : string := "json".
Definition FormatText : string := "text".

Definition New (cfg : Config) : result error Logger :=
  match ParseLevel (Level cfg) with
  | Err err => Err err
  | Ok level =>
      let format := ToLower (Format cfg) in
      if (format == "") || (format == FormatJSON) || (format == FormatText) then
        let attrs := (if Service cfg != "" then [slog_String "service" (Service cfg)] else [])
                     ++ (if Version cfg != "" then [slog_String "version" (Version cfg)] else []) in
        Ok (mkLogger level attrs true)
      else Err (errors_New ("logger: unknown format " +:+ Quote (Format cfg)))
  end.

Definition MustNew (cfg : Config) : outcome Logger :=
  match New cfg with Ok log => Ret log | Err err => Panic (fmt_error err) end.

(** [Into], [From] and [With]; [default] is [slog.Default()]. *)
Definition Into (ctx : Context) (log : option Logger) : Context := WithValue ctx logger_loggerContextKey (VLogger log).

Definition From (default : Logger) (ctx : Context) : Logger :=
  match ctx_Value ctx logger_loggerContextKey with
  | Some (VLogger (Some log)) => log
  | _ => default
  end.

Definition logger_With (log : Logger) (attrs : list Attr) : Logger :=
  mkLogger (log_level log) (log_attrs log ++ attrs) (log_context log).

Definition With (default : Logger) (ctx : Context) (args : list Attr) : Context :=
  Into ctx (Some (logger_With (From default ctx) args)).

(** ** context_handler.go *)

Definition context_attrs (ctx : Context) : list Attr :=
  match ctx_Value ctx logger_attrsContextKey with Some (VAttrs attrs) => attrs | _ => [] end.

Definition Attrs (ctx : Context) (attrs : list Attr) : Context :=
  match attrs with
  | [] => ctx
  | _ => WithValue ctx logger_attrsContextKey (VAttrs (context_attrs ctx ++ attrs))
  end.

Record Line := mkLine {
  line_level : Z;
  line_message : string;
  line_attrs : list Attr
}.

(** [contextHandler.Handle]: the attributes of the context and of its span after
    those of the record. *)
Definition Handle (ctx : Context) (attrs : list Attr) : list Attr :=
  attrs ++ context_attrs ctx
  ++ match ctx_span ctx with Some (trace, span) => [slog_String "trace_id" trace; slog_String "span_id" span] | None => [] end.

(** [log.LogAttrs]: nothing below the logger's level. *)
Definition LogAttrs (log : Logger) (ctx : Context) (level : Z) (message : string) (attrs : list Attr) : list Line :=
  if level <? log_level log then []
  else [mkLine level message (log_attrs log ++ (if log_context log then Handle ctx attrs else attrs))].

(** ** requestid *)

Definition MetadataKey : string := "x-request-id".

Definition requestid_NewContext (ctx : Context) (id : string) : Context :=
  WithValue ctx requestid_contextKey (VString id).

(** The id and whether there is one. *)
Definition requestid_FromContext (ctx : Context) : string * bool :=
  match ctx_Value ctx requestid_contextKey with
  | Some (VString id) => (id, id != "")
  | _ => ("", false)
  end.

Definition Get (ctx : Context) : string := (requestid_FromContext ctx).1.

(** ** Metadata *)

(** [md.Get(key)] for a lower-case key, and its first value. *)
Definition md_Get (md : MD) (key : string) : list string := default [] (md !! key).

Definition metadataValue (md : MD) (key : string) : string :=
  match md_Get md key with
  | [] => ""
  | value :: _ => value
  end.

(** [metadata.AppendToOutgoingContext] of one pair *)
Definition AppendToOutgoingContext (ctx : Context) (key value : string) : Context :=
  let md := default ∅ (ctx_outgoing ctx) in
  with_outgoing ctx (Some (<[key := md_Get md key ++ [value]]> md)).

(** ** Lemmas *)

Lemma Attrs_attrs ctx attrs : context_attrs (Attrs ctx attrs) = context_attrs ctx ++ attrs.
Proof.
  destruct attrs as [|a attrs]; cbn [Attrs]; [by rewrite app_nil_r|].
  unfold context_attrs at 1. by rewrite Value_WithValue_eq.
Qed.

Lemma Attrs_value ctx attrs k : k <> logger_attrsContextKey -> ctx_Value (Attrs ctx attrs) k = ctx_Value ctx k.
Proof. intros Hk. destruct attrs; [done|]. by apply Value_WithValue_ne. Qed.

Lemma WithValue_attrs ctx k v : k <> logger_attrsContextKey -> context_attrs (WithValue ctx k v) = context_attrs ctx.
Proof. intros Hk. unfold context_attrs. by rewrite Value_WithValue_ne. Qed.

Lemma Get_NewContext ctx id : Get (requestid_NewContext ctx id) = id.
Proof. unfold Get, requestid_FromContext, requestid_NewContext. by rewrite Value_WithValue_eq. Qed.

Lemma Get_Attrs ctx attrs : Get (Attrs ctx attrs) = Get ctx.
Proof. unfold Get, requestid_FromContext. by rewrite Attrs_value. Qed.

Lemma Get_Into ctx log : Get (Into ctx log) = Get ctx.
Proof. unfold Get, requestid_FromContext, Into. by rewrite Value_WithValue_ne. Qed.

Lemma From_Into default ctx log : From default (Into ctx (Some log)) = log.
Proof. unfold From, Into. by rewrite Value_WithValue_eq. Qed.

#[export] Hint Rewrite Attrs_attrs Get_NewContext Get_Attrs Get_Into From_Into : golib.
#[export] Hint Rewrite Attrs_value WithValue_attrs using done : golib.
