(* ===== verification/LogFormat.v ===== *)
(** * The formats of the log

    The handlers [logger.New] chooses from: [slog.NewJSONHandler] and
    [slog.NewTextHandler], to the byte, and [Discard].  A record is written as one
    line, and what a reader of JSON finds in it is the record; with [New], which makes
    the record of a call, that is the call itself. *)

From S2P Require Export Logger.

(** ** Records *)

(** The instant of a record, in its time zone; the offset in minutes. *)
Record Instant := mkInstant {
  Year : Z; Month : Z; Day : Z; Hours : Z; Minutes : Z; Seconds : Z; Nanos : Z;
  Offset : Z
}.

(** Where it was logged, when [AddSource] asks for it. *)
Record Source := mkSource { Function : string; File : string; Line_ : Z }.

(** [Level.String] *)
Definition level_name (base : string) (over : Z) : string :=
  if over =? 0 then base else base +:+ (if 0 <? over then "+" else "") +:+ itoa over.
Definition Level_String (l : Z) : string :=
  if l <? LevelInfo then level_name "DEBUG" (l - LevelDebug)
  else if l <? LevelWarn then level_name "INFO" (l - LevelInfo)
  else if l <? LevelError then level_name "WARN" (l - LevelWarn)
  else level_name "ERROR" (l - LevelError).

(** The layout of [time.RFC3339Nano], with [fraction] for the part of the second. *)
Definition pad (n : nat) (x : Z) : list Z := (fun d => 48 + d) <$> to_digits 10 n x.
Definition zone (offset : Z) : list Z :=
  if offset =? 0 then bytes "Z"
  else (if offset <? 0 then 45 else 43) :: pad 2 (Z.abs offset / 60) ++ bytes ":" ++ pad 2 (Z.abs offset mod 60).
Definition rfc3339 (fraction : list Z) (t : Instant) : list Z :=
  pad 4 (Year t) ++ bytes "-" ++ pad 2 (Month t) ++ bytes "-" ++ pad 2 (Day t) ++ bytes "T"
  ++ pad 2 (Hours t) ++ bytes ":" ++ pad 2 (Minutes t) ++ bytes ":" ++ pad 2 (Seconds t) ++ fraction ++ zone (Offset t).

(** ** The JSON handler *)

Inductive json : Type :=
| JString (s : list Z)
| JInt (n : Z)
| JObject (members : list (list Z * json)).

(** [appendEscapedJSONString] *)
Definition json_chunk (c : Z * list Z) : list Z :=
  let r := c.1 in
  if bad_chunk c then bytes "\ufffd"
  else if (r =? 34) || (r =? 92) then [92; r]
  else if r =? 10 then bytes "\n" else if r =? 13 then bytes "\r" else if r =? 9 then bytes "\t"
  else if r <? 32 then bytes "\u00" ++ hex_text 2 r
  else if (r =? 8232) || (r =? 8233) then bytes "\u202" ++ [hex_char (r mod 16)]
  else c.2.
Definition json_string (s : list Z) : list Z := 34 :: (chunks s ≫= json_chunk) ++ [34].

Fixpoint json_text (v : json) : list Z :=
  match v with
  | JString s => json_string s
  | JInt n => Itoa n
  | JObject members => 123 :: join_on 44 (map (fun m => json_string m.1 ++ 58 :: json_text m.2) members) ++ [125]
  end.

Definition json_value (v : Value) : json := match v with StringValue s => JString (bytes s) | Int64Value n => JInt n end.
Definition json_attrs (attrs : list Attr) : list (list Z * json) := (fun a => (bytes a.1, json_value a.2)) <$> attrs.

(** [Source.group]: the fields that are not zero. *)
Definition source_group (s : Source) : list Attr :=
  (if Function s != "" then [slog_String "function" (Function s)] else [])
  ++ (if File s != "" then [slog_String "file" (File s)] else [])
  ++ (if negb (Line_ s =? 0) then [slog_Int64 "line" (Line_ s)] else []).

(** The members after the time; an empty group is left out. *)
Definition json_members (src : option Source) (line : Line) : list (list Z * json) :=
  (bytes "level", JString (bytes (Level_String (line_level line))))
  :: match src with
     | Some s => if source_group s == [] then [] else [(bytes "source", JObject (json_attrs (source_group s)))]
     | None => []
     end
  ++ (bytes "msg", JString (bytes (line_message line)))
  :: json_attrs (line_attrs line).

Definition nano_fraction (t : Instant) : list Z := frac 9 (Nanos t).
Definition milli_fraction (t : Instant) : list Z := 46 :: pad 3 (Nanos t / 1000000).

(** One record; its time is written without escapes. *)
Definition json_record (t : Instant) (src : option Source) (line : Line) : list Z :=
  bytes "{" ++ json_string (bytes "time") ++ bytes ":" ++ 34 :: rfc3339 (nano_fraction t) t ++ 34
  :: (json_members src line ≫= fun m => 44 :: json_string m.1 ++ 58 :: json_text m.2) ++ [125].
Definition json_line (t : Instant) (src : option Source) (line : Line) : list Z := json_record t src line ++ [10].

(** ** The text handler *)

Section text.
Context (table : Z -> bool).   (** the table of [IsPrint] *)

Definition safe (b : Z) : bool := (32 <=? b) && negb (b =? 34) && negb (b =? 92).

Definition needs_quote (c : Z * list Z) : bool :=
  let r := c.1 in
  if r <? 128 then negb (r =? 92) && ((r =? 32) || (r =? 61) || negb (safe r))
  else (r =? RuneError) || IsSpace r || negb (IsPrint table r).
Definition needsQuoting (s : list Z) : bool := (s == []) || existsb needs_quote (chunks s).

Definition text_string (s : list Z) : list Z := if needsQuoting s then quote table s else s.
Definition text_value (v : Value) : list Z :=
  match v with StringValue s => text_string (bytes s) | Int64Value n => Itoa n end.
Definition text_attr (a : Attr) : list Z := text_string (bytes a.1) ++ 61 :: text_value a.2.

Definition text_record (t : Instant) (src : option Source) (line : Line) : list Z :=
  join_on 32 ((text_string (bytes "time") ++ 61 :: rfc3339 (milli_fraction t) t)
    :: (text_attr <$> slog_String "level" (Level_String (line_level line))
        :: match src with
           | Some s => [slog_String "source" (File s +:+ ":" +:+ itoa (Line_ s))]
           | None => []
           end
        ++ slog_String "msg" (line_message line) :: line_attrs line)).
Definition text_line (t : Instant) (src : option Source) (line : Line) : list Z := text_record t src line ++ [10].

(** ** The handler of [New], and [Discard] *)

Inductive Handler : Type :=
| JSONHandler (add_source : bool)
| TextHandler (add_source : bool)
| DiscardHandler.

(** The switch on the format. *)
Definition new_handler (cfg : Config) : result error Handler :=
  let format := ToLower (Format cfg) in
  if (format == "") || (format == FormatJSON) then Ok (JSONHandler (AddSource cfg))
  else if format == FormatText then Ok (TextHandler (AddSource cfg))
  else Err (errors_New ("logger: unknown format " +:+ Quote (Format cfg))).

(** [Discard]: no level is enabled. *)
Definition Discard : Handler := DiscardHandler.

(** What a handler writes to its output for the records of a call. *)
Definition write_lines (h : Handler) (t : Instant) (src : Source) (lines : list Line) : list Z :=
  let position (add_source : bool) := if add_source then Some src else None in
  match h with
  | JSONHandler add_source => lines ≫= json_line t (position add_source)
  | TextHandler add_source => lines ≫= text_line t (position add_source)
  | DiscardHandler => []
  end.
End text.

(** ** One record is one line *)

Definition no_newline (s : list Z) : Prop := Forall (fun c => c <> 10) s.

Lemma no_newline_app s t : no_newline (s ++ t) <-> no_newline s /\ no_newline t.
Proof. unfold no_newline. by rewrite Forall_app. Qed.
Lemma no_newline_cons c s : no_newline (c :: s) <-> c <> 10 /\ no_newline s.
Proof. unfold no_newline. by rewrite Forall_cons. Qed.
Lemma no_newline_nil : no_newline [].
Proof. constructor. Qed.

Lemma no_newline_impl (P : Z -> Prop) s : (forall c, P c -> c <> 10) -> Forall P s -> no_newline s.
Proof. intros HP Hs. by eapply Forall_impl. Qed.

Lemma no_newline_bind {A} (f : A -> list Z) l : Forall (fun x => no_newline (f x)) l -> no_newline (l ≫= f).
Proof. induction 1; [constructor|]. cbn. by apply no_newline_app. Qed.

Lemma no_newline_join sep parts : sep <> 10 -> Forall no_newline parts -> no_newline (join_on sep parts).
Proof.
  intros Hsep. induction 1 as [|p parts Hp Hparts IH]; [constructor|]. cbn [join_on].
  destruct parts; [done|]. by rewrite no_newline_app, no_newline_cons.
Qed.

(** The characters of an instant: digits, letters and the marks between. *)
Definition stamp (s : list Z) : Prop := Forall (fun c => 43 <= c <= 90) s.

Lemma stamp_app s t : stamp (s ++ t) <-> stamp s /\ stamp t.
Proof. unfold stamp. by rewrite Forall_app. Qed.

Lemma stamp_pad n x : stamp (pad n x).
Proof.
  apply Forall_fmap. eapply Forall_impl; [by apply (to_digits_range 10)|]. intros d Hd. cbn in *. lia.
Qed.

Lemma stamp_frac prec v : stamp (frac prec v).
Proof.
  assert (forall prec v p, stamp (frac_digits prec v p)) as Hd.
  { clear. induction prec as [|prec IH]; intros v p; [constructor|]. cbn [frac_digits]. apply stamp_app.
    split; [apply IH|]. pose proof (Z.mod_pos_bound v 10). case_match; repeat constructor; lia. }
  specialize (Hd prec v false). unfold frac. destruct (frac_digits prec v false); [constructor|]. by constructor.
Qed.

Lemma stamp_milli t : stamp (milli_fraction t).
Proof. constructor; [lia|apply stamp_pad]. Qed.

Lemma stamp_rfc3339 fraction t : stamp fraction -> stamp (rfc3339 fraction t).
Proof.
  intros Hf. unfold rfc3339, zone. rewrite !stamp_app. split_and!; try apply stamp_pad; try done; try by_decision.
  destruct (Offset t =? 0); [by_decision|]. constructor; [case_match; lia|]. rewrite !stamp_app.
  split_and!; [apply stamp_pad|by_decision|apply stamp_pad].
Qed.

Lemma hex_char_printed d : 0 <= d < 16 -> hex_char d <> 10.
Proof. unfold hex_char. destruct (Z.ltb_spec d 10); lia. Qed.

Lemma no_newline_hex n x : no_newline (hex_text n x).
Proof.
  apply Forall_fmap. eapply Forall_impl; [by apply (to_digits_range 16)|]. intros d Hd. cbn in *.
  unfold hex_char. destruct (Z.ltb_spec d 10); lia.
Qed.

Lemma no_newline_Itoa n : no_newline (Itoa n).
Proof.
  unfold Itoa. destruct (Z.ltb_spec n 0); [apply no_newline_cons; split; [done|]|];
    (eapply no_newline_impl; [|apply decimal_digits; lia]; cbn; lia).
Qed.

(** A rune's bytes hold no newline, unless it is one. *)
Lemma encode_rune_high r : valid_rune r = true -> 128 <= r -> Forall (fun b => 128 <= b < 256) (encode_rune r).
Proof.
  intros Hv Hr. apply valid_rune_cases in Hv as Hc. unfold encode_rune. rewrite Hv, (proj2 (Z.ltb_ge r 128)) by done.
  case_match; go_bool; [|case_match; go_bool]; repeat constructor; Z.div_mod_to_equations; lia.
Qed.

Lemma encode_rune_ascii r : 0 <= r < 128 -> encode_rune r = [r].
Proof.
  intros Hr. unfold encode_rune. assert (valid_rune r = true) as -> by (utf8_unfold; decide_cmp; done). by decide_cmp.
Qed.

Lemma no_newline_chunk c : chunk_ok c -> c.1 <> 10 -> no_newline c.2.
Proof.
  intros [(_ & b & -> & Hb)|[Hv ->]] Hc; [repeat constructor; lia|].
  apply valid_rune_cases in Hv as Hr. destruct (Z.lt_ge_cases c.1 128).
  - rewrite encode_rune_ascii by lia. by repeat constructor.
  - eapply no_newline_impl; [|by apply encode_rune_high]. cbn. lia.
Qed.

Ltac one_line :=
  repeat first
    [ apply no_newline_nil | apply no_newline_hex | apply no_newline_Itoa
    | apply no_newline_app; split | apply no_newline_cons; split; [solve [lia | case_match; lia]|]
    | match goal with |- no_newline (bytes _) => vm_compute; repeat constructor; discriminate end
    | match goal with |- no_newline (if ?b then _ else _) => destruct b eqn:? end ].

Lemma no_newline_rfc3339 fraction t : stamp fraction -> no_newline (rfc3339 fraction t).
Proof. intros Hf. eapply no_newline_impl; [|by apply stamp_rfc3339]. cbn. lia. Qed.

Lemma no_newline_json_string s : Forall is_byte s -> no_newline (json_string s).
Proof.
  intros Hs. unfold json_string. one_line. apply no_newline_bind. eapply Forall_impl; [by apply chunks_ok|].
  intros c Hc. unfold json_chunk. one_line; go_bool; try lia.
  - apply no_newline_cons. split; [|constructor]. apply hex_char_printed. pose proof (Z.mod_pos_bound c.1 16). lia.
  - by apply no_newline_chunk.
Qed.

Lemma no_newline_json v :
  match v with JString s => Forall is_byte s | JInt _ => True | JObject ms =>
    Forall (fun m => Forall is_byte m.1 /\ no_newline (json_text m.2)) ms end -> no_newline (json_text v).
Proof.
  destruct v as [s|n|ms]; intros Hv; cbn [json_text]; [by apply no_newline_json_string|apply no_newline_Itoa|].
  one_line. apply no_newline_join; [done|]. induction Hv as [|[k v] ms [Hk Hm] _ IH]; [constructor|]. constructor; [|done].
  apply no_newline_app. split; [by apply no_newline_json_string|]. by one_line.
Qed.

Definition flat (v : json) : Prop := match v with JString s => Forall is_byte s | JInt _ => True | JObject _ => False end.

Lemma json_value_flat v : flat (json_value v).
Proof. destruct v; cbn; auto with golib. Qed.

Lemma flat_no_newline v : flat v -> no_newline (json_text v).
Proof. intros Hv. apply no_newline_json. by destruct v. Qed.

Lemma attrs_flat attrs : Forall (fun m => Forall is_byte m.1 /\ flat m.2) (json_attrs attrs).
Proof. apply Forall_fmap, Forall_true. intros [k v]. split; [apply bytes_range|apply json_value_flat]. Qed.

Lemma no_newline_attrs attrs : Forall (fun m => Forall is_byte m.1 /\ no_newline (json_text m.2)) (json_attrs attrs).
Proof. eapply Forall_impl; [apply attrs_flat|]. intros m [H1 H2]. split; [done|by apply flat_no_newline]. Qed.

Lemma no_newline_members src line :
  Forall (fun m => Forall is_byte m.1 /\ no_newline (json_text m.2)) (json_members src line).
Proof.
  unfold json_members. constructor; [split; [apply bytes_range|apply flat_no_newline; cbn; apply bytes_range]|].
  apply Forall_app. split.
  - destruct src as [src|]; [|constructor]. destruct (bool_decide _); constructor; [|constructor].
    split; [apply bytes_range|]. cbn [snd]. apply no_newline_json, no_newline_attrs.
  - constructor; [split; [apply bytes_range|apply flat_no_newline; cbn; apply bytes_range]|]. apply no_newline_attrs.
Qed.

Lemma no_newline_json_record t src line : no_newline (json_record t src line).
Proof.
  unfold json_record. apply no_newline_app. split; [by one_line|].
  apply no_newline_app. split; [apply no_newline_json_string, bytes_range|].
  apply no_newline_app. split; [by one_line|]. apply no_newline_cons. split; [done|]. apply no_newline_app. split.
  - apply no_newline_rfc3339, stamp_frac.
  - apply no_newline_cons. split; [done|]. apply no_newline_app. split; [|by one_line]. apply no_newline_bind. eapply Forall_impl; [apply no_newline_members|]. intros m [Hk Hm].
    apply no_newline_cons. split; [done|]. apply no_newline_app. split; [by apply no_newline_json_string|].
    by apply no_newline_cons.
Qed.

Lemma no_newline_quote table s : Forall is_byte s -> no_newline (quote table s).
Proof.
  intros Hs. unfold quote. one_line. apply no_newline_bind. eapply Forall_impl; [by apply chunks_ok|].
  intros c Hc. unfold quote_chunk. one_line; go_bool; try lia.
  apply no_newline_chunk; [done|]. intros Hc'. by rewrite Hc' in *.
Qed.

Lemma no_newline_text_string table s : Forall is_byte s -> no_newline (text_string table s).
Proof.
  intros Hs. unfold text_string. destruct (needsQuoting table s) eqn:Hq; [by apply no_newline_quote|].
  unfold needsQuoting in Hq. apply orb_false_iff in Hq as [_ Hq]. rewrite <- (chunks_bytes s). apply no_newline_bind.
  apply Forall_forall. intros c Hc. apply no_newline_chunk; [by eapply Forall_forall; [apply chunks_ok|]|].
  intros Hc'. assert (existsb (needs_quote table) (chunks s) = true) as He; [|congruence].
  apply existsb_exists. exists c. split; [by apply list_elem_of_In|]. unfold needs_quote. by rewrite Hc'.
Qed.

Lemma no_newline_text_attr table a : no_newline (text_attr table a).
Proof.
  destruct a as [k v]. unfold text_attr. apply no_newline_app. split; [apply no_newline_text_string, bytes_range|].
  apply no_newline_cons. split; [done|]. destruct v; [apply no_newline_text_string, bytes_range|apply no_newline_Itoa].
Qed.

Lemma no_newline_text_record table t src line : no_newline (text_record table t src line).
Proof.
  unfold text_record. apply no_newline_join; [done|]. constructor.
  - apply no_newline_app. split; [apply no_newline_text_string, bytes_range|]. apply no_newline_cons. split; [done|].
    apply no_newline_rfc3339, stamp_milli.
  - apply Forall_fmap, Forall_true. apply no_newline_text_attr.
Qed.

(** Lines that hold no newline are found again by splitting. *)
Lemma split_lines {A} (f : A -> list Z) l :
  (forall x, no_newline (f x)) -> split_on 10 (l ≫= fun x => f x ++ [10]) = (f <$> l) ++ [[]].
Proof.
  intros Hf. induction l as [|x l IH]; [done|]. cbn [mbind list_bind]. rewrite <- app_assoc. cbn [app].
  rewrite split_on_app; [by rewrite IH|]. intros Hin. pose proof (Hf x) as Hx. unfold no_newline in Hx.
  rewrite Forall_forall in Hx. by apply (Hx 10).
Qed.

(** ** Reading JSON back

    A reader of the part of JSON that the handler uses: objects of strings, whole
    numbers and objects, without spaces. *)

(** A control character must be escaped; a surrogate stands for U+FFFD. *)
Definition unescape (e : Z) : option Z :=
  if (e =? 34) || (e =? 92) || (e =? 47) then Some e
  else if e =? 110 then Some 10 else if e =? 114 then Some 13 else if e =? 116 then Some 9
  else if e =? 98 then Some 8 else if e =? 102 then Some 12
  else None.

Definition prepend (s : list Z) (r : option (list Z * list Z)) : option (list Z * list Z) :=
  '(t, rest) ← r; Some (s ++ t, rest).

Fixpoint read_string (s : list Z) : option (list Z * list Z) :=
  match s with
  | [] => None
  | c :: s =>
      if c =? 34 then Some ([], s)
      else if c <? 32 then None
      else if c =? 92 then
        match s with
        | [] => None
        | e :: s =>
            if e =? 117 then
              match s with
              | a :: b :: c :: d :: s =>
                  ds ← mapM hex_digit [a; b; c; d]; prepend (encode_rune (of_digits 16 ds)) (read_string s)
              | _ => None
              end
            else r ← unescape e; prepend [r] (read_string s)
        end
      else prepend [c] (read_string s)
  end.

Fixpoint span_digits (s : list Z) : list Z * list Z :=
  match s with
  | c :: s' => if is_digit c then let '(ds, rest) := span_digits s' in (c :: ds, rest) else ([], s)
  | [] => ([], [])
  end.

Definition read_int (s : list Z) : option (Z * list Z) :=
  let '(negative, s) := match s with c :: s' => if c =? 45 then (true, s') else (false, s) | [] => (false, s) end in
  let '(ds, rest) := span_digits s in
  if ds == [] then None else Some ((if negative : bool then - digits_value ds else digits_value ds), rest).

Definition expect (c : Z) (s : list Z) : option (list Z) :=
  match s with d :: s => if d =? c then Some s else None | [] => None end.

(** The members of an object and the brace behind them. *)
Fixpoint read_members (fuel : nat) (s : list Z) : option (list (list Z * json) * list Z) :=
  match fuel with
  | O => None
  | S fuel =>
      s ← expect 34 s;
      '(key, s) ← read_string s;
      s ← expect 58 s;
      '(value, s) ← match s with
                    | c :: s' =>
                        if c =? 34 then '(t, rest) ← read_string s'; Some (JString t, rest)
                        else if c =? 123 then '(ms, rest) ← read_members fuel s'; Some (JObject ms, rest)
                        else '(n, rest) ← read_int s; Some (JInt n, rest)
                    | [] => None
                    end;
      match s with
      | c :: s =>
          if c =? 44 then '(ms, rest) ← read_members fuel s; Some ((key, value) :: ms, rest)
          else if c =? 125 then Some ([(key, value)], s)
          else None
      | [] => None
      end
  end.

(** A line holds one object and nothing else. *)
Definition read_record (s : list Z) : option (list (list Z * json)) :=
  s' ← expect 123 s;
  '(ms, rest) ← read_members (length s) s';
  if rest == [] then Some ms else None.

(** What a text is read as: its runes, U+FFFD for the bytes that are none. *)
Definition sane (s : list Z) : list Z := encode_runes (runes s).

Fixpoint sane_json (v : json) : json :=
  match v with
  | JString s => JString (sane s)
  | JInt n => JInt n
  | JObject ms => JObject (map (fun m => (sane m.1, sane_json m.2)) ms)
  end.
Definition sane_members (ms : list (list Z * json)) : list (list Z * json) := (fun m => (sane m.1, sane_json m.2)) <$> ms.

Lemma prepend_prepend s t r : prepend s (prepend t r) = prepend (s ++ t) r.
Proof. destruct r as [[u rest]|]; [|done]. cbn. by rewrite app_assoc. Qed.

Definition plain (c : Z) : Prop := 32 <= c /\ c <> 34 /\ c <> 92.

Lemma read_plain s rest : Forall plain s -> read_string (s ++ rest) = prepend s (read_string rest).
Proof.
  induction 1 as [|c s (H1 & H2 & H3) _ IH].
  - cbn [app]. by destruct (read_string rest) as [[]|].
  - cbn [app read_string]. decide_cmp. rewrite IH. apply prepend_prepend.
Qed.

Lemma read_hex ds rest :
  Forall (fun d => 0 <= d < 16) ds -> length ds = 4%nat ->
  read_string (92 :: 117 :: (hex_char <$> ds) ++ rest) = prepend (encode_rune (of_digits 16 ds)) (read_string rest).
Proof.
  intros Hds Hl. destruct ds as [|a [|b [|c [|d [|]]]]]; try discriminate Hl.
  rewrite !Forall_cons in Hds. destruct Hds as (Ha & Hb & Hc & Hd & _).
  cbn [fmap list_fmap app read_string Z.eqb Pos.eqb Z.ltb Z.compare Pos.compare Pos.compare_cont mapM].
  by rewrite !hex_digit_char by done.
Qed.

Lemma read_chunk c rest : chunk_ok c -> read_string (json_chunk c ++ rest) = prepend (encode_rune c.1) (read_string rest).
Proof.
  intros Hc. unfold json_chunk. destruct (bad_chunk c) eqn:Hbad.
  { unfold bad_chunk in Hbad. go_bool. rewrite H. by apply (read_hex [15; 15; 15; 13]); [repeat constructor|]. }
  destruct Hc as [(Hr & b & Hb & _)|[Hv Hs]]; [unfold bad_chunk in Hbad; by rewrite Hr, Hb in Hbad|].
  apply valid_rune_cases in Hv as Hr.
  destruct (Z.eqb_spec c.1 34) as [->|H34]; [done|]. destruct (Z.eqb_spec c.1 92) as [->|H92]; [done|]. cbn [orb].
  destruct (Z.eqb_spec c.1 10) as [->|]; [done|]. destruct (Z.eqb_spec c.1 13) as [->|]; [done|].
  destruct (Z.eqb_spec c.1 9) as [->|]; [done|]. destruct (Z.ltb_spec c.1 32) as [Hlt|Hge].
  { pose proof (read_hex (0 :: 0 :: to_digits 16 2 c.1) rest) as Hread.
    assert (of_digits 16 (0 :: 0 :: to_digits 16 2 c.1) = c.1) as Hval by (apply (of_to_digits 16 2); lia).
    rewrite Hval in Hread. apply Hread; [|by rewrite !length_cons, length_to_digits]. do 2 (constructor; [lia|]). by apply to_digits_range. }
  destruct (Z.eqb_spec c.1 8232) as [->|]; [by apply (read_hex [2; 0; 2; 8]); [repeat constructor|]|].
  destruct (Z.eqb_spec c.1 8233) as [->|]; [by apply (read_hex [2; 0; 2; 9]); [repeat constructor|]|]. cbn [orb].
  rewrite Hs. apply read_plain. destruct (Z.lt_ge_cases c.1 128).
  - rewrite encode_rune_ascii by lia. by repeat constructor.
  - eapply Forall_impl; [by apply encode_rune_high|]. cbn. unfold plain. lia.
Qed.

Lemma read_chunks cs rest :
  Forall chunk_ok cs -> read_string ((cs ≫= json_chunk) ++ rest) = prepend (encode_runes (fst <$> cs)) (read_string rest).
Proof.
  induction 1 as [|c cs Hc _ IH]; [by apply (read_plain [])|]. cbn [mbind list_bind]. rewrite <- app_assoc, read_chunk, IH by done.
  apply prepend_prepend.
Qed.

(** Behind the opening quote. *)
Lemma read_json_string s rest :
  Forall is_byte s -> read_string ((chunks s ≫= json_chunk) ++ 34 :: rest) = Some (sane s, rest).
Proof.
  intros Hs. rewrite read_chunks by by apply chunks_ok. rewrite chunks_runes. cbn. by rewrite app_nil_r.
Qed.

(** ** Whole records *)

Lemma span_digits_all ds c rest :
  Forall (fun c => 48 <= c <= 57) ds -> is_digit c = false -> span_digits (ds ++ c :: rest) = (ds, c :: rest).
Proof.
  intros Hds Hc. induction Hds as [|d ds Hd _ IH]; cbn [app span_digits]; [by rewrite Hc|].
  assert (is_digit d = true) as -> by (unfold is_digit, in_byte_range; by decide_cmp). by rewrite IH.
Qed.

Lemma read_Itoa n c rest : is_int64 n -> is_digit c = false -> read_int (Itoa n ++ c :: rest) = Some (n, c :: rest).
Proof.
  unfold is_int64. intros Hn Hc.
  assert (forall m, 0 <= m < 2 ^ 64 -> span_digits (decimal m ++ c :: rest) = (decimal m, c :: rest)) as Hspan.
  { intros m Hm. apply span_digits_all; [apply decimal_digits; lia|done]. }
  unfold Itoa, read_int. destruct (Z.ltb_spec n 0) as [Hneg|Hpos].
  - cbn [app Z.eqb Pos.eqb]. rewrite Hspan, bool_decide_eq_false_2, decimal_value by (lia || apply decimal_nonempty).
    do 2 f_equal. lia.
  - specialize (Hspan n ltac:(lia)). destruct (decimal_head n Hpos) as (d & ds & Hd & Hr).
    rewrite Hd in *. cbn [app] in *. rewrite (proj2 (Z.eqb_neq d 45)) by lia. rewrite Hspan, bool_decide_eq_false_2 by done.
    rewrite <- Hd, decimal_value by lia. done.
Qed.

Fixpoint json_ok (v : json) : Prop :=
  match v with
  | JString s => Forall is_byte s
  | JInt n => is_int64 n
  | JObject ms => ms <> [] /\ foldr (fun m ok => (Forall is_byte m.1 /\ json_ok m.2) /\ ok) True ms
  end.

(** How many members there are, those of nested objects included. *)
Fixpoint members (v : json) : nat :=
  match v with
  | JObject ms => list_sum (map (fun m => S (members m.2)) ms)
  | _ => 0
  end.

Definition member_text (m : list Z * json) : list Z := json_string m.1 ++ 58 :: json_text m.2.

Lemma join_on_map {A} (f : A -> list Z) sep x l :
  join_on sep (map f (x :: l)) = f x ++ (l ≫= fun y => sep :: f y).
Proof.
  revert x. induction l as [|y l IH]; intros x; [cbn; by rewrite app_nil_r|].
  change (f x ++ sep :: join_on sep (map f (y :: l)) = f x ++ sep :: f y ++ (l ≫= fun y => sep :: f y)). by rewrite IH.
Qed.

Lemma object_text m ms :
  json_text (JObject (m :: ms)) = 123 :: member_text m ++ (ms ≫= fun m => 44 :: member_text m) ++ [125].
Proof. cbn [json_text]. rewrite join_on_map. by rewrite <- app_assoc. Qed.

Lemma join_on_length sep parts : (list_sum (map length parts) <= length (join_on sep parts))%nat.
Proof.
  induction parts as [|p parts IH]; [done|]. cbn [map join_on]. change (list_sum (length p :: map length parts)) with
    (length p + list_sum (map length parts))%nat. destruct parts as [|q parts]; [cbn; lia|].
  rewrite length_app, length_cons. lia.
Qed.

Lemma members_short v : (members v <= length (json_text v))%nat.
Proof.
  revert v. fix IH 1. intros [s|n|ms]; [cbn [members]; lia..|]. cbn [members json_text]. rewrite length_cons, length_app.
  set (parts := map (fun m => _ ++ _) ms). pose proof (join_on_length 44 parts) as Hparts.
  enough (list_sum (map (fun m => S (members m.2)) ms) <= list_sum (map length parts))%nat by lia.
  subst parts. rewrite map_map. clear Hparts.
  induction ms as [|[k v] ms IHms]; [done|]. cbn [map list_sum foldr fst snd] in *. specialize (IH v).
  rewrite length_app, length_cons. unfold list_sum in IHms. lia.
Qed.

Lemma Itoa_head n : exists c s, Itoa n = c :: s /\ c <> 34 /\ c <> 123.
Proof.
  unfold Itoa. destruct (Z.ltb_spec n 0); [eexists 45, _; by split_and!|].
  destruct (decimal_head n) as (d & ds & -> & Hd); [done|]. exists d, ds. split_and!; [done|lia..].
Qed.

(** The value of a member. *)
Definition read_value (fuel : nat) (s : list Z) : option (json * list Z) :=
  match s with
  | c :: s' =>
      if c =? 34 then '(t, rest) ← read_string s'; Some (JString t, rest)
      else if c =? 123 then '(ms, rest) ← read_members fuel s'; Some (JObject ms, rest)
      else '(n, rest) ← read_int s; Some (JInt n, rest)
  | [] => None
  end.

Definition reads_members (fuel : nat) : Prop := forall m ms rest,
  json_ok (JObject (m :: ms)) -> (members (JObject (m :: ms)) <= fuel)%nat ->
  read_members fuel (member_text m ++ (ms ≫= fun m => 44 :: member_text m) ++ 125 :: rest)
  = Some (sane_members (m :: ms), rest).

Lemma read_value_text fuel v c rest :
  reads_members fuel -> json_ok v -> (members v <= fuel)%nat -> is_digit c = false ->
  read_value fuel (json_text v ++ c :: rest) = Some (sane_json v, c :: rest).
Proof.
  intros Hfuel Hv Hm Hc. destruct v as [s|n|[|m ms]]; [..|by destruct Hv|].
  - cbn [json_text read_value]. unfold json_string. cbn [app Z.eqb Pos.eqb]. rewrite <- app_assoc.
    cbn [app read_value Z.eqb Pos.eqb]. by rewrite read_json_string by done.
  - cbn [json_text]. pose proof (read_Itoa n c rest Hv Hc) as Hr. destruct (Itoa_head n) as (d & s & Hd & H1 & H2).
    rewrite Hd in *. cbn [app read_value] in *. rewrite (proj2 (Z.eqb_neq d 34)), (proj2 (Z.eqb_neq d 123)), Hr by done. done.
  - rewrite object_text. cbn [app read_value Z.eqb Pos.eqb]. rewrite <- !app_assoc. cbn [app]. by rewrite Hfuel.
Qed.

Lemma read_members_text fuel : reads_members fuel.
Proof.
  induction fuel as [|fuel IH]; intros [k v] ms rest Hok Hfuel; [cbn in Hfuel; lia|].
  assert (members v <= fuel /\ (ms <> [] -> members (JObject ms) <= fuel))%nat as [Hfv Hfms]
    by (cbn in *; unfold list_sum in *; lia).
  destruct Hok as [_ [[Hk Hv] Hms]]. cbn [fst snd] in *.
  unfold member_text at 1, json_string. cbn [fst snd read_members app expect Z.eqb Pos.eqb].
  rewrite <- !app_assoc. cbn [app mbind option_bind]. rewrite read_json_string by done.
  cbn [mbind option_bind app expect Z.eqb Pos.eqb].
  change (match _ ++ _ with [] => None | _ => _ end) with (read_value fuel (json_text v ++ (ms ≫= fun m => 44 :: member_text m) ++ 125 :: rest)).
  destruct ms as [|m ms]; cbn [mbind list_bind app].
  - by rewrite read_value_text.
  - rewrite <- app_assoc, read_value_text by done. cbn [mbind option_bind Z.eqb Pos.eqb].
    by rewrite IH by (done || apply Hfms; done).
Qed.

(** ** What a reader of the log sees *)

Lemma json_string_stamp s : stamp s -> json_string s = 34 :: s ++ [34].
Proof.
  intros Hs. unfold json_string. do 2 f_equal. induction Hs as [|c s Hc _ IH]; [done|].
  assert (decode_rune (c :: s) = (c, 1%nat)) as Hd by (cbn; by decide_cmp).
  rewrite chunks_unfold, Hd by done. cbn [mbind list_bind fst snd] in *. change (take 1 (c :: s)) with (c :: take 0 s). change (drop 1 (c :: s)) with s. rewrite take_0, IH.
  unfold json_chunk, bad_chunk, RuneError. cbn [fst snd]. decide_cmp. done.
Qed.

Definition line_ok (src : option Source) (line : Line) : Prop :=
  Forall (fun a => match a.2 with Int64Value n => is_int64 n | StringValue _ => True end) (line_attrs line) /\
  match src with Some s => is_int64 (Line_ s) | None => True end.

(** The record as a reader gets it. *)
Definition seen (t : Instant) (src : option Source) (line : Line) : list (list Z * json) :=
  sane_members ((bytes "time", JString (rfc3339 (nano_fraction t) t)) :: json_members src line).

Lemma attrs_ok attrs :
  Forall (fun a => match a.2 with Int64Value n => is_int64 n | StringValue _ => True end) attrs ->
  foldr (fun m ok => (Forall is_byte m.1 /\ json_ok m.2) /\ ok) True (json_attrs attrs).
Proof.
  induction 1 as [|[k v] attrs Hv _ IH]; [done|]. split; [|done]. split; [apply bytes_range|].
  destruct v; cbn in *; [apply bytes_range|done].
Qed.

Lemma members_ok src line :
  line_ok src line -> foldr (fun m ok => (Forall is_byte m.1 /\ json_ok m.2) /\ ok) True (json_members src line).
Proof.
  intros [Ha Hs]. unfold json_members. split; [split; apply bytes_range|]. rewrite foldr_app.
  assert (foldr (fun m ok => (Forall is_byte m.1 /\ json_ok m.2) /\ ok) True
    ((bytes "msg", JString (bytes (line_message line))) :: json_attrs (line_attrs line))) as Hrest.
  { split; [split; apply bytes_range|]. by apply attrs_ok. }
  destruct src as [src|]; [|done]. case_bool_decide as Hg; [done|]. split; [|done]. split; [apply bytes_range|]. split.
  - by destruct (source_group src).
  - apply attrs_ok. unfold source_group. rewrite !Forall_app.
    split_and!; [destruct (Function src != "")|destruct (File src != "")|destruct (negb _)];
      repeat (apply Forall_cons; split; [first [exact I | exact Hs]|]); apply Forall_nil_2.
Qed.

Lemma read_json_record t src line : line_ok src line -> read_record (json_record t src line) = Some (seen t src line).
Proof.
  intros Hok. set (time := (bytes "time", JString (rfc3339 (nano_fraction t) t))).
  assert (json_record t src line = json_text (JObject (time :: json_members src line))) as Htext.
  { rewrite object_text. unfold json_record, member_text, time. cbn [fst snd json_text].
    rewrite (json_string_stamp (rfc3339 _ t)) by (apply stamp_rfc3339, stamp_frac).
    rewrite <- !app_assoc, <- !app_comm_cons, <- !app_assoc. done. }
  pose proof (members_short (JObject (time :: json_members src line))) as Hshort. rewrite <- Htext in Hshort.
  unfold read_record. set (n := length (json_record t src line)) in *. rewrite Htext, object_text.
  cbn [expect Z.eqb Pos.eqb mbind option_bind]. rewrite read_members_text; [done| |done].
  split; [done|]. split; [|by apply members_ok]. split; [apply bytes_range|]. cbn.
  eapply Forall_impl; [by apply stamp_rfc3339, stamp_frac|]. unfold is_byte. cbn. lia.
Qed.

Lemma sane_valid s : Forall is_byte s -> valid_utf8 s = true -> sane s = s.
Proof. apply encode_runes_runes. Qed.

(** A call of the logger: [log.LogAttrs(ctx, level, message, attrs...)]. *)
Record Call := mkCall { call_ctx : Context; call_level : Z; call_message : string; call_attrs : list Attr }.

Definition made_lines (log : Logger) (calls : list Call) : list Line :=
  calls ≫= fun c => LogAttrs log (call_ctx c) (call_level c) (call_message c) (call_attrs c).

(** What the configuration says a call should leave: nothing below the level, else the
    level, the message, the service and its version when they are given, the
    attributes of the call, then those of its context, the ids of its span last. *)
Definition expected_line (cfg : Config) (c : Call) : Line :=
  mkLine (call_level c) (call_message c)
    ((if decide (Service cfg = "") then [] else [("service", StringValue (Service cfg))])
     ++ (if decide (Version cfg = "") then [] else [("version", StringValue (Version cfg))])
     ++ call_attrs c ++ context_attrs (call_ctx c)
     ++ match ctx_span (call_ctx c) with
        | Some (trace, span) => [("trace_id", StringValue trace); ("span_id", StringValue span)]
        | None => []
        end).
Definition enabled (cfg : Config) (c : Call) : Prop :=
  match ParseLevel (Level cfg) with Ok level => level <= call_level c | Err _ => False end.
#[global] Instance enabled_dec cfg c : Decision (enabled cfg c).
Proof. unfold enabled. destruct (ParseLevel (Level cfg)); apply _. Defined.
Definition expected_lines (cfg : Config) (calls : list Call) : list Line :=
  expected_line cfg <$> filter (enabled cfg) calls.

Lemma New_lines cfg log calls : New cfg = Ok log -> made_lines log calls = expected_lines cfg calls.
Proof.
  unfold New, expected_lines. destruct (ParseLevel (Level cfg)) as [level|] eqn:Hlevel; [|done].
  destruct (_ || _ : bool); [|done]. intros [= <-]. unfold made_lines, LogAttrs, Handle, expected_line.
  cbn [log_level log_attrs log_context].
  induction calls as [|c calls IH]; [done|]. cbn [mbind list_bind]. rewrite filter_cons, IH.
  assert (enabled cfg c <-> level <= call_level c) as Hen by (unfold enabled; by rewrite Hlevel).
  destruct (Z.ltb_spec (call_level c) level), (decide (enabled cfg c)) as [He|He]; rewrite Hen in He; try lia; [done|].
  cbn [app fmap list_fmap]. do 2 f_equal. rewrite <- app_assoc.
  assert (forall s (x : Attr), (if s != "" then [x] else []) = if decide (s = "") then [] else [x]) as Hif.
  { intros s x. destruct (decide (s = "")) as [->|Hs]; [done|]. by rewrite (bool_decide_eq_false_2 (s = "")). }
  by rewrite !Hif.
Qed.

(** C19. A log is what was logged, in the format that was asked for, and cannot be forged.
    Let [New(cfg)] make a logger.  Of the calls made with it those at or above the
    configured level are written, in order, one line each, whatever their texts hold.
    When the format is empty or "json", in any case of letters, a reader of JSON finds
    in each line the instant, the level, the message and the attributes of that call,
    with those of the service and the context, and nothing else, texts that are UTF-8
    unchanged; when it is "text" the lines are those of [slog]'s text handler.  The
    source is in the line when [AddSource] is set.  A discarding logger writes nothing. *)
Theorem log_is_faithful table cfg log h t src calls
  (Hnew : New cfg = Ok log) (Hhandler : new_handler cfg = Ok h)
  (Hok : Forall (fun c => line_ok (if AddSource cfg then Some src else None) (expected_line cfg c)) calls) :
  let position := if AddSource cfg then Some src else None in
  let written := write_lines table h t src (made_lines log calls) in
  exists records, split_on 10 written = records ++ [[]] /\
    (ToLower (Format cfg) = "" \/ ToLower (Format cfg) = "json" ->
       Forall2 (fun record line => read_record record = Some (seen t position line)) records (expected_lines cfg calls)) /\
    (ToLower (Format cfg) = "text" -> records = text_record table t position <$> expected_lines cfg calls) /\
    (ToLower (Format cfg) ∈ [""; "json"; "text"]) /\
    (forall text, ValidString text = true -> sane (bytes text) = bytes text) /\
    write_lines table Discard t src (made_lines log calls) = [].
Proof.
  cbn zeta. rewrite (New_lines cfg log calls Hnew). set (position := if AddSource cfg then Some src else None) in *.
  assert (Forall (line_ok position) (expected_lines cfg calls)) as Hlines.
  { unfold expected_lines. apply Forall_fmap, Forall_forall. intros c [_ Hc]%list_elem_of_filter.
    by apply (proj1 (Forall_forall _ _) Hok c). }
  generalize dependent (expected_lines cfg calls). intros lines Hlines.
  assert (forall text, ValidString text = true -> sane (bytes text) = bytes text) as Hsane.
  { intros text Hv. apply sane_valid; [apply bytes_range|done]. }
  unfold new_handler in Hhandler. destruct (_ || _) eqn:Hf; [|destruct (ToLower (Format cfg) == FormatText) eqn:Hf'; [|done]];
    injection Hhandler as <-; cbn [write_lines]; fold position.
  - exists (json_record t position <$> lines). split_and!; try done.
    + apply split_lines. intros. apply no_newline_json_record.
    + intros _. clear Hf. induction Hlines as [|line lines Hline _ IH]; constructor; [by apply read_json_record|done].
    + intros Htext. by rewrite Htext in Hf.
    + apply orb_true_iff in Hf as [Hf|Hf]; apply bool_decide_eq_true_1 in Hf; rewrite Hf; [by left|by right; left].
  - exists (text_record table t position <$> lines). split_and!; try done.
    + apply split_lines. intros. apply no_newline_text_record.
    + intros [He|He]; by rewrite He in Hf.
    + apply bool_decide_eq_true_1 in Hf'. rewrite Hf'. by right; right; left.
Qed.

(** [New] answers a logger exactly when level and format are known, and it has a
    handler that writes. *)
Lemma New_handler cfg :
  match New cfg, new_handler cfg with
  | Ok log, Ok h => h <> DiscardHandler /\ ParseLevel (Level cfg) = Ok (log_level log)
  | Ok _, Err _ => False
  | Err err, Err err' => err = err' \/ ParseLevel (Level cfg) = Err err
  | Err err, Ok _ => ParseLevel (Level cfg) = Err err
  end.
Proof.
  unfold New, new_handler. destruct (ParseLevel (Level cfg)) as [level|err].
  - destruct (ToLower (Format cfg) == ""), (ToLower (Format cfg) == FormatJSON), (ToLower (Format cfg) == FormatText); cbn; auto.
  - repeat case_match; auto; by right.
Qed.

(** ** Witness and examples *)

(** A user name that tries to end the line and to add an attribute. *)
Definition forged : string := of_bytes (bytes "eve" ++ [34; 10] ++ bytes "level=ERROR").
Definition evening : Instant := mkInstant 2025 3 9 18 4 5 120000000 180.
Definition nowhere : Source := mkSource "" "" 0.

Definition json_config : Config := mkConfig "info" "JSON" false "auth" "".
Definition login_calls : list Call :=
  [mkCall Background LevelDebug "trying" [];
   mkCall Background LevelInfo "login failed" [slog_String "user" forged; slog_Int64 "duration_ms" (-3)]].
Definition login_line : Line :=
  mkLine LevelInfo "login failed" [slog_String "service" "auth"; slog_String "user" forged; slog_Int64 "duration_ms" (-3)].
Definition auth_logger : Logger := mkLogger LevelInfo [slog_String "service" "auth"] true.

Lemma log_is_faithful_witness :
  New json_config = Ok auth_logger /\
  exists records, split_on 10 (write_lines (fun _ => true) (JSONHandler false) evening nowhere (made_lines auth_logger login_calls)) = records ++ [[]] /\
    Forall2 (fun record line => read_record record = Some (seen evening None line)) records [login_line].
Proof.
  assert (Forall (fun c => line_ok None (expected_line json_config c)) login_calls) as Hok.
  { repeat constructor; discriminate. }
  split; [vm_compute; reflexivity|].
  destruct (log_is_faithful (fun _ => true) json_config auth_logger (JSONHandler false) evening nowhere login_calls) as (records & Hs & Hj & _).
  - vm_compute. reflexivity.
  - vm_compute. reflexivity.
  - exact Hok.
  - exists records. split; [exact Hs|]. exact (Hj (or_intror eq_refl)).
Defined.

Example text_of_a_line :
  of_bytes (text_record (fun _ => true) evening None (mkLine (LevelWarn + 1) "slow call" [slog_String "peer" ""; slog_String "a=b" "c"])) =
  of_bytes (bytes "time=2025-03-09T18:04:05.120+03:00 level=WARN+1 msg=" ++ 34 :: bytes "slow call" ++ 34 :: bytes " peer=" ++ 34 :: 34
    :: bytes " " ++ 34 :: bytes "a=b" ++ 34 :: bytes "=c").
Proof. vm_compute. reflexivity. Qed.

Example json_of_a_line :
  json_record evening (Some (mkSource "main.main" "main.go" 12)) (mkLine LevelInfo (of_bytes [9; 255; 226; 128; 168]) []) =
  json_text (JObject [(bytes "time", JString (bytes "2025-03-09T18:04:05.12+03:00")); (bytes "level", JString (bytes "INFO"));
    (bytes "source", JObject [(bytes "function", JString (bytes "main.main")); (bytes "file", JString (bytes "main.go")); (bytes "line", JInt 12)]);
    (bytes "msg", JString [9; 255; 226; 128; 168])]) /\
  json_string [9; 255; 226; 128; 168] = 34 :: bytes "\t\ufffd\u2028" ++ [34].
Proof. split; vm_compute; reflexivity. Qed.
