(* ===== verification/Netip.v ===== *)
(** * Packages [net/netip] and [net], as far as the source uses them

    Addresses, prefixes, their texts, and the splitting of host and port.  Texts
    are lists of bytes.  The messages of parse errors are left out: the source
    only asks whether there is one. *)

From S2P Require Export Text Apperr.

(** ** Addresses

    The zero [Addr] does not occur: the source uses an address only after a
    successful parse.  An IPv6 address without a zone has the empty one. *)
Inductive Addr : Type :=
| Addr4 (n : Z)
| Addr6 (n : Z) (zone : list Z).

#[export] Instance Addr_eq_dec : EqDecision Addr.
Proof. solve_decision. Defined.

Definition BitLen (a : Addr) : Z := match a with Addr4 _ => 32 | Addr6 _ _ => 128 end.
Definition addr_bits (a : Addr) : Z := match a with Addr4 n | Addr6 n _ => n end.
Definition hasZone (a : Addr) : bool := match a with Addr4 _ => false | Addr6 _ z => z != [] end.
Definition Is4In6 (n : Z) : bool := n / 2 ^ 32 =? 65535.

Definition Unmap (a : Addr) : Addr :=
  match a with
  | Addr6 n z => if Is4In6 n then Addr4 (n mod 2 ^ 32) else a
  | Addr4 _ => a
  end.

(** ** [ParseAddr] *)

Definition dot : Z := 46.
Definition colon : Z := 58.
Definition percent : Z := 37.

(** [parseIPv4Fields]: the fields before this one, its value and its digits. *)
Fixpoint ipv4_fields (s fields : list Z) (val : Z) (digLen : nat) : option (list Z) :=
  match s with
  | [] => if (length fields <? 3)%nat then None else Some (fields ++ [val])
  | c :: s =>
      if is_digit c then
        if (digLen =? 1)%nat && (val =? 0) then None
        else let val := val * 10 + (c - 48) in
             if 255 <? val then None else ipv4_fields s fields val (S digLen)
      else if c =? dot then
        if (digLen =? 0)%nat || (s == []) then None
        else if (length fields =? 3)%nat then None
        else ipv4_fields s (fields ++ [val]) 0 0
      else None
  end.

Definition parseIPv4 (s : list Z) : option Addr :=
  fields ← ipv4_fields s [] 0 0; Some (Addr4 (of_digits 256 fields)).

(** The digits of a group, and what follows them. *)
Fixpoint take_hex (s : list Z) : list Z * list Z :=
  match s with
  | c :: s' =>
      match hex_digit c with
      | Some d => let '(ds, rest) := take_hex s' in (d :: ds, rest)
      | None => ([], s)
      end
  | [] => ([], [])
  end.

(** The loop of [parseIPv6]: [room] is the number of groups still to fill,
    [ellipsis] the number of groups before [::]. *)
Fixpoint ipv6_loop (room : nat) (s groups : list Z) (ellipsis : option nat)
  : option (list Z * list Z * option nat) :=
  match room with
  | O => Some (s, groups, ellipsis)
  | S room =>
      let '(ds, rest) := take_hex s in
      if (4 <? length ds)%nat || (ds == []) then None
      else if head rest == Some dot then
        if (ellipsis == None) && negb (length groups =? 6)%nat then None
        else if (8 <? length groups + 2)%nat then None
        else match ipv4_fields s [] 0 0 with
             | Some [a; b; c; d] => Some ([], groups ++ [a * 256 + b; c * 256 + d], ellipsis)
             | _ => None
             end
      else
        let groups := groups ++ [of_digits 16 ds] in
        match rest with
        | [] => Some ([], groups, ellipsis)
        | c :: rest =>
            if negb (c =? colon) then None
            else match rest with
            | [] => None
            | c2 :: rest2 =>
                if c2 =? colon then
                  if ellipsis != None then None
                  else match rest2 with
                       | [] => Some ([], groups, Some (length groups))
                       | _ => ipv6_loop room rest2 groups (Some (length groups))
                       end
                else ipv6_loop room rest groups ellipsis
            end
        end
  end.

(** The groups of the whole text, [::] expanded. *)
Definition ipv6_groups (s : list Z) : option (list Z) :=
  let '(s, ellipsis) := match s with
                        | c1 :: c2 :: s' => if (c1 =? colon) && (c2 =? colon) then (s', Some 0%nat) else (s, None)
                        | _ => (s, None)
                        end in
  if (s == []) && (ellipsis != None) then Some (replicate 8 0)
  else
    r ← ipv6_loop 8 s [] ellipsis;
    let '(rest, groups, ellipsis) := r in
    if rest != [] then None
    else if (length groups <? 8)%nat then
      match ellipsis with
      | None => None
      | Some e => Some (take e groups ++ replicate (8 - length groups) 0 ++ drop e groups)
      end
    else if ellipsis != None then None
    else Some groups.

Definition parseIPv6 (s : list Z) : option Addr :=
  let '(s, zone) := cut percent s in
  if zone == Some [] then None
  else groups ← ipv6_groups s; Some (Addr6 (of_digits 65536 groups) (default [] zone)).

(** The first of ['.'], [':'] and ['%'] decides. *)
Fixpoint addr_kind (s : list Z) : option Z :=
  match s with
  | [] => None
  | c :: s => if (c =? dot) || (c =? colon) || (c =? percent) then Some c else addr_kind s
  end.

Definition ParseAddr (s : list Z) : option Addr :=
  match addr_kind s with
  | Some c => if c =? dot then parseIPv4 s else if c =? colon then parseIPv6 s else None
  | None => None
  end.

(** ** [Addr.String] *)

(** [appendHex]: four digits without the leading zeros. *)
Definition hex (x : Z) : list Z :=
  let ds := if 4096 <=? x then to_digits 16 4 x
            else if 256 <=? x then to_digits 16 3 x
            else if 16 <=? x then to_digits 16 2 x
            else to_digits 16 1 x in
  hex_char <$> ds.

Definition string4 (n : Z) : list Z := join_on dot (decimal <$> to_digits 256 4 n).

Fixpoint zeros (groups : list Z) : nat :=
  match groups with g :: groups => if g =? 0 then S (zeros groups) else 0 | [] => 0 end.

(** The first of the longest runs of at least two zero groups: where it begins
    and how long it is. *)
Definition zero_run (groups : list Z) : nat * nat :=
  foldl (fun best i => let l := zeros (drop i groups) in if (2 <=? l)%nat && (best.2 <? l)%nat then (i, l) else best)
    (0%nat, 0%nat) (seq 0 8).

Definition string6 (groups : list Z) : list Z :=
  let '(start, l) := zero_run groups in
  if (l =? 0)%nat then join_on colon (hex <$> groups)
  else join_on colon (hex <$> take start groups) ++ [colon; colon] ++ join_on colon (hex <$> drop (start + l) groups).

Definition Addr_String (a : Addr) : list Z :=
  match a with
  | Addr4 n => string4 n
  | Addr6 n zone =>
      (if Is4In6 n then bytes "::ffff:" ++ string4 (n mod 2 ^ 32) else string6 (to_digits 65536 8 n))
      ++ (if zone == [] then [] else percent :: zone)
  end.

(** ** Prefixes *)

Record Prefix := mkPrefix {
  prefix_addr : Addr;
  prefix_bits : Z
}.

(** [PrefixFrom], for a length in range: the zone is dropped. *)
Definition PrefixFrom (a : Addr) (bits : Z) : Prefix :=
  mkPrefix (match a with Addr6 n _ => Addr6 n [] | _ => a end) bits.

(** [strconv.Atoi] on a text that is one digit or begins with ['1'] to ['9'];
    what is longer than three digits is out of every range. *)
Definition prefix_length (s : list Z) : option Z :=
  match s with
  | [] => None
  | c :: s' =>
      if (s' != []) && negb (in_byte_range 49 57 c) then None
      else if forallb is_digit s then Some (digits_value s) else None
  end.

Definition ParsePrefix (s : list Z) : option Prefix :=
  p ← cut_last 47 s;
  ip ← ParseAddr p.1;
  if hasZone ip then None
  else
    bits ← prefix_length p.2;
    if bits <=? BitLen ip then Some (PrefixFrom ip bits) else None.

Definition Contains (p : Prefix) (a : Addr) : bool :=
  negb (hasZone a) && (BitLen (prefix_addr p) =? BitLen a)
  && (Z.shiftr (Z.lxor (addr_bits a) (addr_bits (prefix_addr p))) (BitLen a - prefix_bits p) =? 0).

(** ** Host and port *)

(** [net.SplitHostPort] *)
Definition SplitHostPort (s : list Z) : option (list Z * list Z) :=
  p ← cut_last colon s;
  let '(host, port) := p in
  let no x l := bool_decide (x ∉ (l : list Z)) in
  match s with
  | 91 :: s' =>
      match cut 93 s' with
      | (inner, Some after) =>
          if (after == colon :: port) && no 91 s' && no 93 after then Some (inner, port) else None
      | (_, None) => None
      end
  | _ => if no colon host && no 91 s && no 93 s then Some (host, port) else None
  end.

(** [net.JoinHostPort] *)
Definition JoinHostPort (host port : list Z) : list Z :=
  if bool_decide (colon ∈ host) then 91 :: host ++ [93; colon] ++ port else host ++ colon :: port.

(** ** Examples *)

Definition parses (s : string) : option string := of_bytes ∘ Addr_String <$> ParseAddr (bytes s).

Example parse_examples :
  parses "192.0.2.1" = Some "192.0.2.1" /\ parses "192.0.02.1" = None /\ parses "1.2.3" = None /\
  parses "2001:DB8:0:0:1:0:0:1" = Some "2001:db8::1:0:0:1" /\ parses "::" = Some "::" /\
  parses "::ffff:1.2.3.4" = Some "::ffff:1.2.3.4" /\ parses "1::2::3" = None /\
  parses "fe80::1%eth0" = Some "fe80::1%eth0" /\ parses "1:2:3:4:5:6:7::" = Some "1:2:3:4:5:6:7:0" /\
  parses "1:2:3:4:5:6:7:8::" = None /\ parses "203.0.113.9:1234" = None /\ parses "::1.2.3.4" = Some "::102:304".
Proof. by vm_compute. Qed.
