(* ===== verification/NetipTexts.v ===== *)
(** * Texts of addresses

    [ParseAddr] reads back what [Addr.String] prints, for every address, the
    compressed and the IPv4-mapped IPv6 texts included. *)

From S2P Require Export Netip.

(** ** Numbers and their digits *)

Lemma of_digits_range base ds :
  0 < base -> Forall (fun d => 0 <= d < base) ds -> 0 <= of_digits base ds < base ^ Z.of_nat (length ds).
Proof.
  intros Hb. induction ds as [|d ds IH] using rev_ind; [intros _; cbn; lia|].
  intros [Hds [Hd _]%Forall_cons]%Forall_app. rewrite of_digits_snoc, length_app, Nat.add_1_r, Nat2Z.inj_succ, Z.pow_succ_r by lia.
  specialize (IH Hds). nia.
Qed.

(** ** IPv4 texts *)

Definition short_decimal (v : Z) : list Z :=
  if v <? 10 then [48 + v]
  else if v <? 100 then [48 + v / 10; 48 + v mod 10]
  else [48 + v / 100; 48 + (v / 10) mod 10; 48 + v mod 10].

Lemma decimal_byte v : is_byte v -> decimal v = short_decimal v.
Proof.
  intros Hv.
  assert (forallb (fun v => bool_decide (decimal v = short_decimal v)) (seqZ 0 256) = true) as H by (vm_compute; reflexivity).
  by apply (byte_check _ H), bool_decide_eq_true in Hv.
Qed.

(** One more digit of a field. *)
Lemma ipv4_digit d s fields val digLen :
  0 <= d < 10 -> (digLen <> 1%nat \/ val <> 0) -> val * 10 + d <= 255 ->
  ipv4_fields (48 + d :: s) fields val digLen = ipv4_fields s fields (val * 10 + d) (S digLen).
Proof.
  intros Hd Hlead Hmax. cbn [ipv4_fields]. unfold is_digit, in_byte_range.
  rewrite (proj2 (Z.leb_le 48 _)), (proj2 (Z.leb_le _ 57)) by lia. cbn [andb].
  replace ((digLen =? 1)%nat && (val =? 0)) with false by (destruct (Nat.eqb_spec digLen 1), (Z.eqb_spec val 0); cbn; lia || done).
  replace (48 + d - 48) with d by lia. by rewrite (proj2 (Z.ltb_ge 255 _)) by lia.
Qed.

Lemma ipv4_decimal v s fields :
  is_byte v -> exists n, n <> 0%nat /\ ipv4_fields (decimal v ++ s) fields 0 0 = ipv4_fields s fields v n.
Proof.
  intros Hv. rewrite decimal_byte by done. unfold is_byte, short_decimal in *.
  pose proof (Z.div_mod v 10). pose proof (Z.mod_pos_bound v 10).
  destruct (Z.ltb_spec v 10); [|destruct (Z.ltb_spec v 100)]; cbn [app].
  - exists 1%nat. split; [done|]. rewrite ipv4_digit by lia. f_equal; lia.
  - exists 2%nat. split; [done|]. rewrite !ipv4_digit by lia. f_equal; lia.
  - pose proof (Z.div_mod (v / 10) 10). pose proof (Z.mod_pos_bound (v / 10) 10).
    assert (v / 10 / 10 = v / 100) by (rewrite Z.div_div by lia; done).
    exists 3%nat. split; [done|]. rewrite !ipv4_digit by lia. f_equal; lia.
Qed.

Lemma ipv4_dot s fields val n :
  n <> 0%nat -> s <> [] -> (length fields < 3)%nat ->
  ipv4_fields (dot :: s) fields val n = ipv4_fields s (fields ++ [val]) 0 0.
Proof.
  intros Hn Hs Hf. cbn [ipv4_fields]. change (is_digit dot) with false. rewrite Z.eqb_refl.
  destruct (Nat.eqb_spec n 0); [done|]. rewrite bool_decide_eq_false_2 by done. cbn [orb].
  destruct (Nat.eqb_spec (length fields) 3); [lia|done].
Qed.

Lemma ipv4_fields_string a b c d :
  is_byte a -> is_byte b -> is_byte c -> is_byte d ->
  ipv4_fields (join_on dot (decimal <$> [a; b; c; d])) [] 0 0 = Some [a; b; c; d].
Proof.
  intros Ha Hb Hc Hd. cbn [fmap list_fmap join_on]. pose proof decimal_nonempty as Hne.
  destruct (ipv4_decimal a (dot :: decimal b ++ dot :: decimal c ++ dot :: decimal d) [] Ha) as (n1 & Hn1 & ->).
  rewrite ipv4_dot by (done || (cbn; lia) || by intros [? ?]%app_nil). cbn [app].
  destruct (ipv4_decimal b (dot :: decimal c ++ dot :: decimal d) [a] Hb) as (n2 & Hn2 & ->).
  rewrite ipv4_dot by (done || (cbn; lia) || by intros [? ?]%app_nil). cbn [app].
  destruct (ipv4_decimal c (dot :: decimal d) [a; b] Hc) as (n3 & Hn3 & ->).
  rewrite ipv4_dot by (done || (cbn; lia)). cbn [app].
  rewrite <- (app_nil_r (decimal d)). by destruct (ipv4_decimal d [] [a; b; c] Hd) as (n4 & Hn4 & ->).
Qed.

Lemma string4_fields n : 0 <= n < 2 ^ 32 -> ipv4_fields (string4 n) [] 0 0 = Some (to_digits 256 4 n).
Proof.
  intros Hn. unfold string4. pose proof (to_digits_range 256 4 n ltac:(lia)) as Hr.
  pose proof (length_to_digits 256 4 n) as Hl.
  destruct (to_digits 256 4 n) as [|a [|b [|c [|d [|e l]]]]]; try discriminate Hl.
  apply Forall_cons in Hr as [Ha [Hb [Hc [Hd _]%Forall_cons]%Forall_cons]%Forall_cons].
  by apply ipv4_fields_string.
Qed.

(** ** IPv6 groups *)

Definition is_group (g : Z) : Prop := 0 <= g < 65536.

(** What ends the digits of a group. *)
Definition no_hex_next (rest : list Z) : Prop := match rest with [] => True | c :: _ => hex_digit c = None end.

Lemma take_hex_digits ds rest :
  Forall (fun d => 0 <= d < 16) ds -> no_hex_next rest -> take_hex ((hex_char <$> ds) ++ rest) = (ds, rest).
Proof.
  intros Hds Hrest. induction Hds as [|d ds Hd _ IH].
  - destruct rest as [|c rest]; [done|]. cbn in *. by rewrite Hrest.
  - rewrite fmap_cons. cbn [app take_hex]. rewrite hex_digit_char by done. by rewrite IH.
Qed.

(** The digits [appendHex] prints: one to four of them, for the same number. *)
Definition hex_digits (x : Z) : list Z :=
  if 4096 <=? x then to_digits 16 4 x
  else if 256 <=? x then to_digits 16 3 x
  else if 16 <=? x then to_digits 16 2 x
  else to_digits 16 1 x.

Lemma hex_digits_spec x :
  is_group x ->
  of_digits 16 (hex_digits x) = x /\ Forall (fun d => 0 <= d < 16) (hex_digits x) /\ (1 <= length (hex_digits x) <= 4)%nat.
Proof.
  unfold is_group, hex_digits. intros Hx.
  destruct (Z.leb_spec 4096 x); [|destruct (Z.leb_spec 256 x); [|destruct (Z.leb_spec 16 x)]];
    (split; [apply of_to_digits; cbn; lia|]); (split; [apply to_digits_range; lia|]); rewrite length_to_digits; lia.
Qed.

Lemma take_hex_group g rest :
  is_group g -> no_hex_next rest -> take_hex (hex g ++ rest) = (hex_digits g, rest).
Proof. intros Hg Hrest. apply take_hex_digits; [by apply hex_digits_spec|done]. Qed.

(** One group of the loop, before the end or a single colon. *)
Lemma loop_step room g rest groups ellipsis :
  is_group g -> no_hex_next rest -> head rest <> Some dot ->
  ipv6_loop (S room) (hex g ++ rest) groups ellipsis =
    match rest with
    | [] => Some ([], groups ++ [g], ellipsis)
    | c :: rest =>
        if negb (c =? colon) then None
        else match rest with
        | [] => None
        | c2 :: rest2 =>
            if c2 =? colon then
              if ellipsis != None then None
              else match rest2 with
                   | [] => Some ([], groups ++ [g], Some (length (groups ++ [g])))
                   | _ => ipv6_loop room rest2 (groups ++ [g]) (Some (length (groups ++ [g])))
                   end
            else ipv6_loop room rest (groups ++ [g]) ellipsis
        end
    end.
Proof.
  intros Hg Hrest Hdot. destruct (hex_digits_spec g Hg) as (Hv & _ & Hl). cbn [ipv6_loop].
  rewrite take_hex_group by done. destruct (Nat.ltb_spec 4 (length (hex_digits g))); [lia|].
  rewrite (bool_decide_eq_false_2 (hex_digits g = [])) by (intros E; rewrite E in Hl; cbn in Hl; lia).
  rewrite bool_decide_eq_false_2 by done. cbn [orb]. by rewrite Hv.
Qed.

(** A text of groups begins with a hexadecimal digit. *)
Lemma hex_head g : is_group g -> exists d ds, hex g = hex_char d :: ds /\ 0 <= d < 16.
Proof.
  intros Hg. destruct (hex_digits_spec g Hg) as (_ & Hr & Hl). unfold hex. fold (hex_digits g).
  destruct (hex_digits g) as [|d ds]; [cbn in Hl; lia|]. apply Forall_cons in Hr as [Hr _]. by exists d, (hex_char <$> ds).
Qed.

Lemma hex_char_not_colon d : 0 <= d < 16 -> hex_char d <> colon /\ hex_char d <> dot /\ hex_char d <> percent.
Proof.
  intros Hd. apply hex_digit_char in Hd. repeat split; intros E; rewrite E in Hd; discriminate Hd.
Qed.

Lemma join_head gs :
  Forall is_group gs -> gs <> [] -> exists d s, join_on colon (hex <$> gs) = hex_char d :: s /\ 0 <= d < 16.
Proof.
  intros Hgs Hne. destruct Hgs as [|g gs Hg _]; [done|]. destruct (hex_head g Hg) as (d & ds & E & Hd).
  cbn [fmap list_fmap join_on]. rewrite E. destruct gs; cbn; eauto.
Qed.

Lemma join_cons g gs : gs <> [] -> join_on colon (hex <$> (g :: gs)) = hex g ++ colon :: join_on colon (hex <$> gs).
Proof. by destruct gs. Qed.

(** The loop over groups to the end of the text. *)
Lemma loop_groups gs room groups ellipsis :
  Forall is_group gs -> gs <> [] -> (length gs <= room)%nat ->
  ipv6_loop room (join_on colon (hex <$> gs)) groups ellipsis = Some ([], groups ++ gs, ellipsis).
Proof.
  intros Hgs. revert room groups. induction Hgs as [|g gs Hg Hgs IH]; intros room groups Hne Hroom; [done|].
  destruct room as [|room]; [cbn in Hroom; lia|]. cbn in Hroom. destruct gs as [|g2 gs].
  - change (join_on colon (hex <$> [g])) with (hex g). rewrite <- (app_nil_r (hex g)). by rewrite loop_step.
  - rewrite join_cons by done. destruct (join_head (g2 :: gs) Hgs) as (d & s & E & Hd); [done|].
    rewrite loop_step by done. rewrite E, (proj2 (Z.eqb_neq (hex_char d) colon)) by by apply hex_char_not_colon.
    rewrite <- E. cbn [negb Z.eqb]. rewrite IH by (done || lia). by rewrite <- app_assoc.
Qed.

(** The loop over groups, [::], and the groups after it. *)
Lemma loop_ellipsis gs hs room groups :
  Forall is_group gs -> Forall is_group hs -> gs <> [] -> (length gs + length hs <= room)%nat ->
  ipv6_loop room (join_on colon (hex <$> gs) ++ colon :: colon :: join_on colon (hex <$> hs)) groups None =
    Some ([], groups ++ gs ++ hs, Some (length groups + length gs)%nat).
Proof.
  intros Hgs Hhs. revert room groups. induction Hgs as [|g gs Hg Hgs IH]; intros room groups Hne Hroom; [done|].
  destruct room as [|room]; [cbn in Hroom; lia|]. cbn in Hroom. destruct gs as [|g2 gs].
  - change (join_on colon (hex <$> [g])) with (hex g). rewrite loop_step by done. cbn [negb Z.eqb].
    rewrite length_app. destruct hs as [|h hs]; [done|].
    destruct (join_head (h :: hs) Hhs) as (d & s & E & Hd); [done|]. rewrite E. rewrite <- E.
    rewrite bool_decide_eq_true_2 by done. cbn [negb Z.eqb Pos.eqb colon].
    rewrite loop_groups by (done || cbn in *; lia). by rewrite <- app_assoc.
  - rewrite join_cons by done. destruct (join_head (g2 :: gs) Hgs) as (d & s & E & Hd); [done|].
    rewrite <- app_assoc. cbn [app]. rewrite loop_step by done.
    rewrite E. cbn [app]. rewrite (proj2 (Z.eqb_neq (hex_char d) colon)) by by apply hex_char_not_colon.
    rewrite app_comm_cons, <- E. cbn [negb Z.eqb]. rewrite IH by (done || cbn in *; lia).
    rewrite length_app, <- app_assoc. cbn. do 3 f_equal. lia.
Qed.

(** ** The compressed run *)

Lemma zeros_spec gs : gs = replicate (zeros gs) 0 ++ drop (zeros gs) gs /\ (zeros gs <= length gs)%nat.
Proof.
  induction gs as [|g gs [IH Hl]]; [done|]. cbn [zeros]. destruct (Z.eqb_spec g 0) as [->|_].
  - cbn. split; [by f_equal|lia].
  - cbn. split; [done|lia].
Qed.

Lemma zero_run_spec gs start l :
  zero_run gs = (start, l) ->
  l = 0%nat \/ (2 <= l)%nat /\ gs = take start gs ++ replicate l 0 ++ drop (start + l) gs /\ (l <= length (drop start gs))%nat.
Proof.
  intros Hrun.
  assert (forall ks best, (best.2 = 0%nat \/ (2 <= best.2)%nat /\ best.2 = zeros (drop best.1 gs)) ->
    let best' := foldl (fun best i => let l := zeros (drop i gs) in
                   if (2 <=? l)%nat && (best.2 <? l)%nat then (i, l) else best) best ks in
    best'.2 = 0%nat \/ (2 <= best'.2)%nat /\ best'.2 = zeros (drop best'.1 gs)) as Hinv.
  { intros ks. induction ks as [|i ks IH]; intros best Hb; [done|]. cbn [foldl]. apply IH.
    destruct (Nat.leb_spec 2 (zeros (drop i gs))), (Nat.ltb_spec best.2 (zeros (drop i gs))); cbn [andb]; try done.
    by right. }
  specialize (Hinv (seq 0 8) (0%nat, 0%nat) (or_introl eq_refl)). fold (zero_run gs) in Hinv.
  cbv zeta in Hinv. unfold zero_run in Hrun. rewrite Hrun in Hinv. cbn [fst snd] in Hinv.
  destruct Hinv as [->|[H2 Hl]]; [by left|right]. split; [done|].
  destruct (zeros_spec (drop start gs)) as [Hz Hle]. rewrite <- Hl in Hz, Hle. rewrite drop_drop in Hz.
  split; [|done]. by rewrite <- Hz, take_drop.
Qed.

Lemma ipv6_groups_join gs :
  Forall is_group gs -> length gs = 8%nat -> ipv6_groups (join_on colon (hex <$> gs)) = Some gs.
Proof.
  intros Hgs Hlen. destruct (join_head gs Hgs) as (d & s & E & Hd); [by intros ->|]. unfold ipv6_groups.
  pose proof (loop_groups gs 8 [] None Hgs) as Hloop. rewrite E in *.
  rewrite (proj2 (Z.eqb_neq (hex_char d) colon)) by by apply hex_char_not_colon. cbn [andb].
  replace (match s with [] | _ => _ end) with (hex_char d :: s, @None nat) by by destruct s.
  cbn [negb andb]. rewrite bool_decide_eq_false_2 by done. cbn [andb].
  rewrite Hloop by (lia || by intros ->). cbn [mbind option_bind app]. rewrite bool_decide_eq_true_2 by done.
  cbn [negb]. by rewrite Hlen.
Qed.

Lemma expand_run gs hs (l : nat) :
  length (gs ++ replicate l 0 ++ hs) = 8%nat -> (length (gs ++ hs) <? 8)%nat = (0 <? l)%nat /\
  take (length gs) (gs ++ hs) ++ replicate (8 - length (gs ++ hs)) 0 ++ drop (length gs) (gs ++ hs) = gs ++ replicate l 0 ++ hs.
Proof.
  rewrite !length_app, length_replicate. intros Hlen. split.
  - destruct (Nat.ltb_spec (length gs + length hs) 8), (Nat.ltb_spec 0 l); done || lia.
  - rewrite take_app_length, drop_app_length. do 3 f_equal. lia.
Qed.

Lemma ipv6_groups_ellipsis gs hs (l : nat) :
  Forall is_group gs -> Forall is_group hs -> length (gs ++ replicate l 0 ++ hs) = 8%nat -> (0 < l)%nat ->
  ipv6_groups (join_on colon (hex <$> gs) ++ [colon; colon] ++ join_on colon (hex <$> hs)) = Some (gs ++ replicate l 0 ++ hs).
Proof.
  intros Hgs Hhs Hlen Hl. destruct (expand_run gs hs l Hlen) as [Hshort Hexp].
  rewrite (proj2 (Nat.ltb_lt 0 l) Hl) in Hshort.
  assert (length gs + length hs <= 8)%nat by (rewrite !length_app in Hlen; lia).
  destruct gs as [|g gs].
  - cbn [fmap list_fmap join_on app] in *. unfold ipv6_groups. rewrite Z.eqb_refl. cbn [andb].
    destruct hs as [|h hs].
    + rewrite app_nil_r in *. cbn. rewrite length_replicate in Hlen. by rewrite Hlen.
    + destruct (join_head (h :: hs) Hhs) as (d & s & E & Hd); [done|].
      rewrite (bool_decide_eq_false_2 (join_on _ _ = [])) by by rewrite E. cbn [andb].
      rewrite loop_groups by (done || lia). cbn [mbind option_bind app]. rewrite bool_decide_eq_true_2 by done.
      cbn [negb]. rewrite Hshort. by f_equal.
  - destruct (join_head (g :: gs) Hgs) as (d & s & E & Hd); [done|]. unfold ipv6_groups.
    pose proof (loop_ellipsis (g :: gs) hs 8 [] Hgs Hhs) as Hloop. rewrite E in *. cbn [app] in *.
    rewrite (proj2 (Z.eqb_neq (hex_char d) colon)) by by apply hex_char_not_colon. cbn [andb].
    set (text := s ++ _) in *. replace (match text with [] | _ => _ end) with (hex_char d :: text, @None nat) by by destruct text.
    cbn [negb andb]. rewrite bool_decide_eq_false_2 by done. cbn [andb app] in *.
    rewrite Hloop by (done || lia). cbn [mbind option_bind]. rewrite bool_decide_eq_true_2 by done.
    cbn [negb]. rewrite Hshort. by f_equal.
Qed.

Lemma ipv6_groups_string gs :
  Forall is_group gs -> length gs = 8%nat -> ipv6_groups (string6 gs) = Some gs.
Proof.
  intros Hgs Hlen. unfold string6. destruct (zero_run gs) as [start l] eqn:Hrun.
  destruct (zero_run_spec gs start l Hrun) as [->|(Hl & Hsplit & _)]; [by apply ipv6_groups_join|].
  destruct (Nat.eqb_spec l 0); [lia|].
  rewrite ipv6_groups_ellipsis with (l := l); [by rewrite <- Hsplit|by apply Forall_take|by apply Forall_drop|by rewrite <- Hsplit|lia].
Qed.

(** ** Whole addresses *)

Definition addr_ok (a : Addr) : Prop := 0 <= addr_bits a < 2 ^ BitLen a.

Definition special (c : Z) : bool := (c =? dot) || (c =? colon) || (c =? percent).

Lemma addr_kind_skip ds c rest :
  Forall (fun d => special d = false) ds -> special c = true -> addr_kind (ds ++ c :: rest) = Some c.
Proof.
  intros Hds Hc. induction Hds as [|d ds Hd _ IH]; cbn [app addr_kind].
  - unfold special in Hc. by rewrite Hc.
  - unfold special in Hd. by rewrite Hd.
Qed.

Lemma hex_plain g : is_group g -> Forall (fun d => special d = false) (hex g).
Proof.
  intros Hg. apply Forall_fmap. fold (hex_digits g). eapply Forall_impl; [by apply (hex_digits_spec g Hg)|].
  intros d Hd. cbn. destruct (hex_char_not_colon d Hd) as (H1 & H2 & H3). unfold special.
  by rewrite !(proj2 (Z.eqb_neq _ _)).
Qed.

Lemma decimal_plain v : 0 <= v -> Forall (fun d => special d = false) (decimal v).
Proof.
  intros Hv. eapply Forall_impl; [by apply decimal_digits|]. intros d Hd. cbn in Hd.
  unfold special, dot, colon, percent. rewrite !(proj2 (Z.eqb_neq _ _)) by lia. done.
Qed.

Lemma join_no_percent sep parts :
  sep <> percent -> Forall (Forall (fun d => special d = false)) parts -> percent ∉ join_on sep parts.
Proof.
  intros Hsep Hparts. assert (forall p, Forall (fun d => special d = false) p -> percent ∉ p) as Hp.
  { intros p Hp Hin. rewrite Forall_forall in Hp. by apply Hp in Hin. }
  induction Hparts as [|p parts H1 Hparts IH]; [apply not_elem_of_nil|]. destruct parts; [by apply Hp|].
  change (percent ∉ (p ++ sep :: join_on sep (l :: parts))).
  apply not_elem_of_app; split; [by apply Hp|]. by apply not_elem_of_cons.
Qed.

Lemma hexes_plain gs : Forall is_group gs -> Forall (Forall (fun d => special d = false)) (hex <$> gs).
Proof. intros Hgs. apply Forall_fmap. eapply Forall_impl; [done|]. apply hex_plain. Qed.

(** The first special character of a text of groups. *)
Lemma addr_kind_colon gs rest :
  Forall is_group gs -> addr_kind (join_on colon (hex <$> gs) ++ colon :: rest) = Some colon.
Proof.
  intros Hgs. destruct Hgs as [|g gs Hg _]; [done|]. destruct gs as [|g2 gs].
  - by apply addr_kind_skip; [apply hex_plain|].
  - rewrite join_cons, <- app_assoc by done. apply addr_kind_skip; [by apply hex_plain|done].
Qed.

Lemma string6_text gs :
  Forall is_group gs -> length gs = 8%nat -> forall rest,
  (percent ∉ string6 gs) /\ addr_kind (string6 gs ++ rest) = Some colon.
Proof.
  intros Hgs Hlen rest. unfold string6. destruct (zero_run gs) as [start l].
  destruct (l =? 0)%nat.
  - split; [by apply join_no_percent; [|apply hexes_plain]|].
    destruct Hgs as [|g gs Hg Hgs]; [done|]. destruct gs as [|g2 gs]; [done|].
    rewrite join_cons, <- app_assoc by done. apply addr_kind_skip; [by apply hex_plain|done].
  - split.
    + rewrite !not_elem_of_app. split_and!; [apply join_no_percent; [done|by apply hexes_plain, Forall_take]| |
        apply join_no_percent; [done|by apply hexes_plain, Forall_drop]].
      rewrite !not_elem_of_cons. split_and!; [done..|apply not_elem_of_nil].
    + rewrite <- !app_assoc. apply addr_kind_colon. by apply Forall_take.
Qed.

Lemma string4_parts n :
  0 <= n < 2 ^ 32 -> exists a b c d,
    to_digits 256 4 n = [a; b; c; d] /\ is_byte a /\ is_byte b /\ is_byte c /\ is_byte d /\
    string4 n = decimal a ++ dot :: decimal b ++ dot :: decimal c ++ dot :: decimal d /\
    ((a * 256 + b) * 256 + c) * 256 + d = n.
Proof.
  intros Hn. pose proof (to_digits_range 256 4 n ltac:(lia)) as Hr. pose proof (length_to_digits 256 4 n) as Hl.
  pose proof (of_to_digits 256 4 n ltac:(lia) Hn) as Hv. unfold string4.
  destruct (to_digits 256 4 n) as [|a [|b [|c [|d [|e l]]]]]; try discriminate Hl.
  apply Forall_cons in Hr as [Ha [Hb [Hc [Hd _]%Forall_cons]%Forall_cons]%Forall_cons].
  exists a, b, c, d. by split_and!.
Qed.

Lemma string4_text n rest :
  0 <= n < 2 ^ 32 -> (percent ∉ string4 n) /\ addr_kind (string4 n ++ rest) = Some dot.
Proof.
  intros Hn. destruct (string4_parts n Hn) as (a & b & c & d & Hd & Ha & Hb & Hc & Hdd & E & _). unfold is_byte in *.
  split.
  - unfold string4. apply join_no_percent; [done|]. rewrite Hd. repeat constructor; apply decimal_plain; lia.
  - rewrite E, <- app_assoc. apply addr_kind_skip; [apply decimal_plain; lia|done].
Qed.

(** A decimal byte, read as a group, stops at the dot. *)
Lemma take_hex_decimal a rest :
  is_byte a -> no_hex_next rest -> exists ds, take_hex (decimal a ++ rest) = (ds, rest) /\ (1 <= length ds <= 3)%nat.
Proof.
  intros Ha Hrest. exists ((fun c => c - 48) <$> decimal a).
  assert (forallb (fun a => bool_decide (decimal a = hex_char <$> ((fun c => c - 48) <$> decimal a)) &&
    (1 <=? length (decimal a))%nat && (length (decimal a) <=? 3)%nat) (seqZ 0 256) = true) as H by (vm_compute; reflexivity).
  apply (byte_check _ H) in Ha as Hd. go_bool. apply Nat.leb_le in H1, H2. rewrite length_fmap. split; [|lia].
  rewrite H0 at 1. apply take_hex_digits; [|done]. apply Forall_fmap. eapply Forall_impl; [apply decimal_digits, Ha|].
  intros c Hc. cbn in *. lia.
Qed.

Lemma mapped_groups m :
  0 <= m < 2 ^ 32 -> exists groups,
    ipv6_groups (bytes "::ffff:" ++ string4 m) = Some groups /\ of_digits 65536 groups = 65535 * 2 ^ 32 + m.
Proof.
  intros Hm. pose proof (string4_fields m Hm) as Hf.
  destruct (string4_parts m Hm) as (a & b & c & d & Hd & Ha & Hb & Hc & Hdd & E & Hv). rewrite Hd in Hf.
  exists [0; 0; 0; 0; 0; 65535; a * 256 + b; c * 256 + d]. split; [|unfold of_digits; cbn; lia].
  change (bytes "::ffff:" ++ string4 m) with (colon :: colon :: hex 65535 ++ colon :: string4 m).
  unfold ipv6_groups. rewrite Z.eqb_refl. cbn [andb].
  rewrite (bool_decide_eq_false_2 (_ = [])) by (intros [? _]%app_nil; discriminate). cbn [andb].
  rewrite loop_step by (done || unfold is_group; lia). cbn [negb Z.eqb colon Pos.eqb].
  destruct (decimal_head a) as (x & xs & Ex & Hx); [apply Ha|].
  rewrite E, Ex in *. cbn [app] in *. rewrite (proj2 (Z.eqb_neq x colon)) by (unfold colon; lia). rewrite app_comm_cons, <- Ex in *.
  cbn [ipv6_loop app].
  destruct (take_hex_decimal a (dot :: decimal b ++ dot :: decimal c ++ dot :: decimal d) Ha) as (ds & -> & Hl); [done|].
  destruct (Nat.ltb_spec 4 (length ds)); [lia|].
  rewrite (bool_decide_eq_false_2 (ds = [])) by (intros ->; cbn in Hl; lia). cbn [orb head].
  rewrite bool_decide_eq_true_2 by done. rewrite bool_decide_eq_false_2 by done. cbn [andb length Nat.ltb Nat.leb Nat.add].
  by rewrite Hf.
Qed.

Lemma mapped_text m rest :
  0 <= m < 2 ^ 32 -> (percent ∉ (bytes "::ffff:" ++ string4 m)) /\ addr_kind ((bytes "::ffff:" ++ string4 m) ++ rest) = Some colon.
Proof.
  intros Hm. split; [|done]. apply not_elem_of_app. split; [|by apply (string4_text m [])].
  intros Hin. apply list_elem_of_In in Hin. vm_compute in Hin. intuition discriminate.
Qed.

Lemma parseIPv6_text s zone groups :
  percent ∉ s -> addr_kind (s ++ (if bool_decide (zone = []) then [] else percent :: zone)) = Some colon ->
  ipv6_groups s = Some groups ->
  ParseAddr (s ++ (if bool_decide (zone = []) then [] else percent :: zone)) = Some (Addr6 (of_digits 65536 groups) zone).
Proof.
  intros Hs Hk Hg. unfold ParseAddr. rewrite Hk. cbn [Z.eqb colon dot Pos.eqb]. unfold parseIPv6.
  destruct (bool_decide_reflect (zone = [])) as [->|Hz].
  - rewrite app_nil_r, cut_no_sep, Hg by done. done.
  - rewrite cut_sep, bool_decide_eq_false_2, Hg by (done || congruence). done.
Qed.

(** Every address is read back from its text. *)
Lemma parse_string a : addr_ok a -> ParseAddr (Addr_String a) = Some a.
Proof.
  destruct a as [n|n zone]; unfold addr_ok; cbn [addr_bits BitLen Addr_String]; intros Hn.
  - destruct (string4_text n [] Hn) as [_ Hk]. rewrite app_nil_r in Hk. unfold ParseAddr, parseIPv4. rewrite Hk.
    cbn [Z.eqb dot Pos.eqb]. rewrite string4_fields by done. cbn [mbind option_bind]. by rewrite of_to_digits by done.
  - unfold Is4In6. destruct (Z.eqb_spec (n / 2 ^ 32) 65535) as [H4|_].
    + pose proof (Z.mod_pos_bound n (2 ^ 32) ltac:(lia)) as Hm. destruct (mapped_groups _ Hm) as (groups & Hg & Hv).
      rewrite (parseIPv6_text _ zone groups); [|by apply (mapped_text _ [])|by apply mapped_text|done].
      rewrite Hv. do 2 f_equal. pose proof (Z.div_mod n (2 ^ 32)). lia.
    + pose proof (to_digits_range 65536 8 n ltac:(lia)) as Hr. pose proof (length_to_digits 65536 8 n) as Hl.
      rewrite (parseIPv6_text _ zone (to_digits 65536 8 n)).
      * by rewrite of_to_digits by done.
      * by apply (string6_text _ Hr Hl []).
      * by apply string6_text.
      * by apply ipv6_groups_string.
Qed.

(** ** What is parsed is an address *)

Lemma ipv4_fields_ok s : forall fields val n r,
  Forall is_byte fields -> is_byte val -> (length fields <= 3)%nat ->
  ipv4_fields s fields val n = Some r -> Forall is_byte r /\ length r = 4%nat.
Proof.
  unfold is_byte. induction s as [|c s IH]; intros fields val n r Hf Hv Hl; cbn [ipv4_fields].
  - destruct (Nat.ltb_spec (length fields) 3); [done|]. intros [= <-]. rewrite length_app. cbn. split; [|lia].
    by apply Forall_app_2; [|constructor].
  - destruct (is_digit c) eqn:Hc.
    + unfold is_digit, in_byte_range in Hc. destruct (_ && (val =? 0)); [done|]. cbv zeta.
      destruct (Z.ltb_spec 255 (val * 10 + (c - 48))); [done|]. intros Hr. eapply IH; [..|exact Hr]; [done| |done].
      go_bool. lia.
    + destruct (c =? dot); [|done]. destruct (_ || _); [done|].
      destruct (Nat.eqb_spec (length fields) 3); [done|]. intros Hr. eapply IH; [..|exact Hr]; [|lia|].
      * by apply Forall_app_2; [|constructor].
      * rewrite length_app. cbn. lia.
Qed.

Lemma take_hex_ok s : Forall (fun d => 0 <= d < 16) (take_hex s).1.
Proof.
  induction s as [|c s IH]; [constructor|]. cbn [take_hex]. destruct (hex_digit c) as [d|] eqn:Hd; [|constructor].
  destruct (take_hex s) as [ds rest]. cbn [fst] in *. constructor; [|done].
  unfold hex_digit, is_digit, in_byte_range in Hd.
  repeat (case_match; go_bool; simplify_eq); lia.
Qed.

Lemma ipv6_loop_ok room : forall s groups ellipsis rest gs e,
  Forall is_group groups -> (length groups + room = 8)%nat ->
  ipv6_loop room s groups ellipsis = Some (rest, gs, e) ->
  Forall is_group gs /\ (length gs <= 8)%nat.
Proof.
  induction room as [|room IH]; intros s groups ellipsis rest gs e Hg Hl; cbn [ipv6_loop].
  - intros [= <- <- <-]. split; [done|lia].
  - pose proof (take_hex_ok s) as Hd. destruct (take_hex s) as [ds rest'] eqn:Hs. cbn [fst] in Hd.
    destruct (Nat.ltb_spec 4 (length ds)) as [|Hlen]; [done|]. cbn [orb]. destruct (bool_decide (ds = [])); [done|].
    assert (is_group (of_digits 16 ds)) as Hgroup.
    { pose proof (of_digits_range 16 ds ltac:(lia) Hd) as Hr. unfold is_group.
      pose proof (Z.pow_le_mono_r 16 (Z.of_nat (length ds)) 4). lia. }
    assert (Forall is_group (groups ++ [of_digits 16 ds]) /\ length (groups ++ [of_digits 16 ds]) = S (length groups)) as [Hg' Hl'].
    { split; [by apply Forall_app_2; [|constructor]|]. rewrite length_app. cbn. lia. }
    destruct (bool_decide (head rest' = Some dot)).
    + destruct (_ && _); [done|]. destruct (Nat.ltb_spec 8 (length groups + 2)) as [|Hroom]; [done|].
      destruct (ipv4_fields s [] 0 0) as [r|] eqn:Hf; [|done].
      apply ipv4_fields_ok in Hf as [Hb _]; [|constructor|unfold is_byte; lia|cbn; lia].
      destruct r as [|a [|b [|c [|d [|x r]]]]]; try done. intros [= <- <- <-]. rewrite length_app. cbn. split; [|lia].
      apply Forall_cons in Hb as [Ha [Hb [Hc [Hdd _]%Forall_cons]%Forall_cons]%Forall_cons].
      unfold is_byte in *. apply Forall_app_2; [done|]. unfold is_group. repeat constructor; lia.
    + cbv zeta. destruct rest' as [|c rest']; [intros [= <- <- <-]; split; [done|lia]|].
      destruct (negb (c =? colon)); [done|]. destruct rest' as [|c2 rest2]; [done|].
      destruct (c2 =? colon); [|intros Hr; eapply IH; [exact Hg'|lia|exact Hr]].
      destruct (bool_decide _); cbn [negb]; [|done].
      destruct rest2 as [|x rest2]; [intros [= <- <- <-]; split; [done|lia]|].
      intros Hr; eapply IH; [exact Hg'|lia|exact Hr].
Qed.

Lemma ipv6_groups_ok s gs : ipv6_groups s = Some gs -> Forall is_group gs /\ length gs = 8%nat.
Proof.
  unfold ipv6_groups.
  destruct (match s with [] => _ | _ => _ end) as [s' ellipsis]. destruct (bool_decide (s' = []) && _).
  - intros [= <-]. split; [|done]. unfold is_group. repeat constructor; lia.
  - destruct (ipv6_loop 8 s' [] ellipsis) as [[[rest groups] e]|] eqn:Hr; [|done]. cbn [mbind option_bind].
    apply ipv6_loop_ok in Hr as [Hg Hl]; [|constructor|done]. destruct (negb _); [done|].
    destruct (Nat.ltb_spec (length groups) 8) as [Hlt|Hge].
    + destruct e as [e|]; [|done]. intros [= <-].
      rewrite !length_app, length_replicate, length_drop, length_take. split; [|lia].
      apply Forall_app_2; [by apply Forall_take|]. apply Forall_app_2; [|by apply Forall_drop].
      apply Forall_replicate. unfold is_group. lia.
    + destruct (negb _); [done|]. intros [= <-]. split; [done|lia].
Qed.

Lemma ParseAddr_ok s a : ParseAddr s = Some a -> addr_ok a.
Proof.
  unfold ParseAddr, addr_ok. destruct (addr_kind s) as [c|]; [|done]. destruct (c =? dot); [|destruct (c =? colon); [|done]].
  - unfold parseIPv4. destruct (ipv4_fields s [] 0 0) as [r|] eqn:Hf; [|done]. intros [= <-].
    apply ipv4_fields_ok in Hf as [Hb Hl]; [|constructor|unfold is_byte; lia|cbn; lia].
    pose proof (of_digits_range 256 r ltac:(lia) Hb) as H. by rewrite Hl in H.
  - unfold parseIPv6. destruct (cut percent s) as [s' zone]. destruct (bool_decide _); [done|].
    destruct (ipv6_groups s') as [groups|] eqn:Hg; [|done]. intros [= <-].
    apply ipv6_groups_ok in Hg as [Hg Hl]. pose proof (of_digits_range 65536 groups ltac:(lia) Hg) as H. by rewrite Hl in H.
Qed.

Lemma Unmap_ok a : addr_ok a -> addr_ok (Unmap a).
Proof.
  destruct a as [n|n z]; [done|]. unfold addr_ok. cbn [Unmap]. destruct (Is4In6 n); [|done].
  intros _. cbn [addr_bits BitLen]. apply Z.mod_pos_bound. lia.
Qed.

Lemma Unmap_idem a : Unmap (Unmap a) = Unmap a.
Proof. destruct a as [n|n z]; [done|]. cbn [Unmap]. destruct (Is4In6 n) eqn:E; [done|]. cbn [Unmap]. by rewrite E. Qed.

(** ** Parts of a text are bytes of it *)

Lemma SplitHostPort_Forall (P : Z -> Prop) s host port :
  Forall P s -> SplitHostPort s = Some (host, port) -> Forall P host.
Proof.
  intros Hs. unfold SplitHostPort. destruct (cut_last colon s) as [[h p]|] eqn:Hl; [|done]. cbn [mbind option_bind].
  pose proof (cut_last_Forall P colon s h p Hs Hl) as Hh.
  destruct s as [|c s]; [by case_match; intros; simplify_eq|].
  destruct (decide (c = 91)) as [->|Hc].
  - apply Forall_cons in Hs as [_ Hs]. pose proof (cut_Forall P 93 s Hs) as [Hi _].
    destruct (cut 93 s) as [inner [after|]]; [|done]. destruct (_ && _); [|done]. by intros [= <- <-].
  - intros H. assert (host = h) as ->; [|done]. revert H. repeat case_match; intros; simplify_eq; done.
Qed.

Lemma split_on_Forall (P : Z -> Prop) sep s : Forall P s -> Forall (Forall P) (split_on sep s).
Proof.
  induction 1 as [|c s Hc Hs IH]; [by repeat constructor|]. cbn [split_on].
  destruct (c =? sep); [by constructor|]. destruct IH; repeat constructor; done.
Qed.

Lemma ParseAddr_zone (P : Z -> Prop) s n zone : Forall P s -> ParseAddr s = Some (Addr6 n zone) -> Forall P zone.
Proof.
  intros Hs. unfold ParseAddr. destruct (addr_kind s) as [c|]; [|done]. destruct (c =? dot); [|destruct (c =? colon); [|done]].
  - unfold parseIPv4. by destruct (ipv4_fields s [] 0 0).
  - unfold parseIPv6. pose proof (cut_Forall P percent s Hs) as [_ Hz]. destruct (cut percent s) as [s' z].
    destruct (bool_decide _); [done|]. destruct (ipv6_groups s'); [|done]. intros [= <- <-].
    cbn [snd] in Hz. destruct z as [z|]; [by apply Hz|constructor].
Qed.

Definition zone_bytes (a : Addr) : Prop := match a with Addr6 _ zone => Forall is_byte zone | Addr4 _ => True end.

Lemma ParseAddr_zone_bytes s a : Forall is_byte s -> ParseAddr s = Some a -> zone_bytes a.
Proof. intros Hs Ha. destruct a as [|n zone]; [done|]. by eapply ParseAddr_zone. Qed.

Lemma Unmap_zone_bytes a : zone_bytes a -> zone_bytes (Unmap a).
Proof. destruct a as [n|n z]; [done|]. cbn [Unmap]. by destruct (Is4In6 n). Qed.

Lemma decimal_bytes v : 0 <= v -> Forall is_byte (decimal v).
Proof. intros Hv. eapply Forall_impl; [by apply decimal_digits|]. unfold is_byte. intros d Hd. cbn in Hd. lia. Qed.

Lemma join_bytes sep parts : is_byte sep -> Forall (Forall is_byte) parts -> Forall is_byte (join_on sep parts).
Proof.
  intros Hsep. induction 1 as [|p parts Hp Hparts IH]; [constructor|]. destruct parts; [done|].
  change (Forall is_byte (p ++ sep :: join_on sep (l :: parts))). apply Forall_app_2; [done|by constructor].
Qed.

Lemma string4_bytes n : Forall is_byte (string4 n).
Proof.
  apply join_bytes; [unfold is_byte, dot; lia|]. apply Forall_fmap.
  eapply Forall_impl; [by apply (to_digits_range 256)|]. intros d Hd. change (is_byte d) in Hd. change (Forall is_byte (decimal d)). apply decimal_bytes. apply Hd.
Qed.

Lemma hex_bytes g : Forall is_byte (hex g).
Proof.
  unfold hex. apply Forall_fmap. assert (Forall (fun d => 0 <= d < 16) (hex_digits g)) as H.
  { unfold hex_digits. repeat case_match; by apply to_digits_range. }
  eapply Forall_impl; [exact H|]. intros d Hd. cbn beta in Hd. change (is_byte (hex_char d)). unfold hex_char, is_byte. destruct (Z.ltb_spec d 10); lia.
Qed.

Lemma string6_bytes gs : Forall is_byte (string6 gs).
Proof.
  assert (forall l, Forall is_byte (join_on colon (hex <$> l))) as Hj.
  { intros l. apply join_bytes; [unfold is_byte, colon; lia|]. apply Forall_fmap, Forall_true. intros g. apply hex_bytes. }
  unfold string6. destruct (zero_run gs) as [start l]. destruct (l =? 0)%nat; [apply Hj|].
  repeat apply Forall_app_2; [apply Hj| |apply Hj]. unfold colon, is_byte. repeat constructor; lia.
Qed.

Lemma Addr_String_bytes a : zone_bytes a -> Forall is_byte (Addr_String a).
Proof.
  destruct a as [n|n zone]; cbn [zone_bytes Addr_String]; intros Hz; [apply string4_bytes|].
  apply Forall_app_2.
  - destruct (Is4In6 n); [|apply string6_bytes]. apply Forall_app_2; [apply bytes_range|apply string4_bytes].
  - destruct (bool_decide (zone = [])); [constructor|]. constructor; [unfold is_byte, percent; lia|done].
Qed.

Lemma trim_space_Forall (P : Z -> Prop) s : Forall P s -> Forall P (trim_space s).
Proof.
  intros Hs. assert (forall fuel s, Forall P s -> Forall P (trim_left_fuel fuel s)) as Hleft.
  { clear. induction fuel as [|fuel IH]; intros s Hs; [done|]. destruct s as [|b s]; [done|]. cbn [trim_left_fuel].
    destruct (IsSpace _); [|done]. apply IH. by apply Forall_drop. }
  assert (forall fuel s, Forall P s -> Forall P (trim_right_fuel fuel s)) as Hright.
  { clear. induction fuel as [|fuel IH]; intros s Hs; [done|]. destruct s as [|b s]; [done|]. cbn [trim_right_fuel].
    destruct (IsSpace _); [|done]. apply IH. by apply Forall_take. }
  unfold trim_space. auto.
Qed.
