(* ===== verification/Postgres.v ===== *)
(** * Package [postgresql]: error mapping and transactions

    [errors.go] translates driver errors to [apperr] errors; [tx.go] runs a
    function inside a transaction.  A transaction is observed through the calls
    it receives. *)

From S2P Require Export Apperr Context.

(** ** errors.go *)

Definition CodeUniqueViolation : string := "23505".
Definition CodeForeignKeyViolation : string := "23503".
Definition CodeNotNullViolation : string := "23502".
Definition CodeCheckViolation : string := "23514".
Definition CodeExclusionViolation : string := "23P01".
Definition CodeSerializationFailure : string := "40001".
Definition CodeDeadlockDetected : string := "40P01".
Definition CodeQueryCanceled : string := "57014".
Definition CodeLockNotAvailable : string := "55P03".

(** The type test of [errors.As(err, &pgErr)]: code and constraint name. *)
Definition is_PgError (e : error) : option (string * string) :=
  match e with PgError code constraint _ => Some (code, constraint) | _ => None end.

(** The closure [mapped] of [MapError]. *)
Definition mapped (err : option error) (pgErr : string * string) (kind : Kind) (code message : string)
  : outcome (option error) :=
  p ← WithField (Wrap err kind code message) "pg_code" pgErr.1;
  p ← WithField p "pg_constraint" pgErr.2;
  Ret (Some (to_error p)).

Definition MapError (err : option error) : outcome (option error) :=
  match err with
  | None => Ret None
  | Some e =>
      norows ← errors_Is err ErrNoRows;
      if norows : bool then Ret (Some (to_error (Wrap err KindNotFound "not_found" "resource not found")))
      else
        found ← errors_As is_PgError e;
        match found with
        | None => Ret (Some (to_error (Wrap err KindInternal "database_error" "internal error")))
        | Some pgErr =>
            let mapped := mapped err pgErr in
            let code := pgErr.1 in
            if code == CodeUniqueViolation then
              mapped KindAlreadyExists "already_exists" "resource already exists"
            else if code == CodeForeignKeyViolation then
              mapped KindFailedPrecondition "foreign_key_violation" "related resource is missing"
            else if (code == CodeNotNullViolation) || (code == CodeCheckViolation)
                    || (code == CodeExclusionViolation) then
              mapped KindInvalidArgument "constraint_violation" "request violates a data constraint"
            else if (code == CodeSerializationFailure) || (code == CodeDeadlockDetected)
                    || (code == CodeLockNotAvailable) then
              mapped KindConflict "write_conflict" "concurrent update, please retry"
            else if code == CodeQueryCanceled then
              mapped KindTimeout "query_canceled" "request timed out"
            else mapped KindInternal "database_error" "internal error"
        end
  end.

Definition asPgError (err : option error) : outcome (option (string * string)) :=
  match err with None => Ret None | Some e => errors_As is_PgError e end.

Definition IsUniqueViolation (err : option error) (constraints : list string) : outcome bool :=
  pgErr ← asPgError err;
  match pgErr with
  | None => Ret false
  | Some (code, constraint) =>
      if code != CodeUniqueViolation then Ret false
      else match constraints with
           | [] => Ret true
           | _ => Ret (existsb (fun c => constraint == c) constraints)
           end
  end.

Definition IsForeignKeyViolation (err : option error) : outcome bool :=
  pgErr ← asPgError err;
  Ret (match pgErr with Some (code, _) => code == CodeForeignKeyViolation | None => false end).

Definition IsNoRows (err : option error) : outcome bool := errors_Is err ErrNoRows.

(** *** The mapping as a table *)

Definition pg_table : list (string * (Kind * string * string)) :=
  [ (CodeUniqueViolation, (KindAlreadyExists, "already_exists", "resource already exists"));
    (CodeForeignKeyViolation, (KindFailedPrecondition, "foreign_key_violation", "related resource is missing"));
    (CodeNotNullViolation, (KindInvalidArgument, "constraint_violation", "request violates a data constraint"));
    (CodeCheckViolation, (KindInvalidArgument, "constraint_violation", "request violates a data constraint"));
    (CodeExclusionViolation, (KindInvalidArgument, "constraint_violation", "request violates a data constraint"));
    (CodeSerializationFailure, (KindConflict, "write_conflict", "concurrent update, please retry"));
    (CodeDeadlockDetected, (KindConflict, "write_conflict", "concurrent update, please retry"));
    (CodeLockNotAvailable, (KindConflict, "write_conflict", "concurrent update, please retry"));
    (CodeQueryCanceled, (KindTimeout, "query_canceled", "request timed out")) ].

Definition internal_row : Kind * string * string := (KindInternal, "database_error", "internal error").

Definition pg_row (code : string) : Kind * string * string :=
  default internal_row ((list_to_map pg_table : gmap string (Kind * string * string)) !! code).

(** What an error tree is about: no rows, a server error, or anything else. *)
Definition has_no_rows (e : error) : bool := bool_decide (first_some (is_sentinel 3) (preorder e) = Some ()).

Definition pg_class (e : error) : Kind * string * string :=
  if has_no_rows e then (KindNotFound, "not_found", "resource not found")
  else match first_some is_PgError (preorder e) with
       | Some (code, _) => pg_row code
       | None => internal_row
       end.

Definition pg_fields (e : error) : gmap string string :=
  if has_no_rows e then ∅
  else match first_some is_PgError (preorder e) with
       | Some (code, constraint) => <["pg_constraint" := constraint]> {["pg_code" := code]}
       | None => ∅
       end.

Lemma pg_class_rows e :
  pg_class e ∈ (KindNotFound, "not_found", "resource not found") :: internal_row :: pg_table.*2.
Proof.
  unfold pg_class. case_match; [by left|]. case_match; [|by right; left].
  case_match; subst. unfold pg_row.
  destruct (_ !! _) as [row|] eqn:Hrow; cbn -[pg_table]; [|by right; left].
  right; right. apply elem_of_list_to_map_2 in Hrow.
  apply list_elem_of_fmap. by eexists (_, row).
Qed.

Lemma errors_Is_nil_free e id text :
  nil_free e = true ->
  errors_Is (Some e) (errorString id text) =
  Ret (bool_decide (first_some (is_sentinel id) (preorder e) = Some ())).
Proof. intros Hn. cbn. by rewrite errors_As_nil_free. Qed.

Lemma MapError_classified e :
  nil_free e = true ->
  MapError (Some e) =
  Ret (Some (appError (pg_class e).1.1 (pg_class e).1.2 (pg_class e).2 (pg_fields e) (Some e))).
Proof.
  intros Hn.
  unfold MapError, pg_class, pg_fields. unfold ErrNoRows. rewrite errors_Is_nil_free by done.
  fold (has_no_rows e). cbn [mbind outcome_bind]. destruct (has_no_rows e); [done|].
  rewrite errors_As_nil_free by done. cbn [mbind outcome_bind].
  destruct (first_some is_PgError (preorder e)) as [[code constraint]|]; [|done].
  unfold pg_row, pg_table. cbn [fst snd list_to_map foldr uncurry].
  repeat (case_bool_decide; [subst code; reflexivity|]). cbn [orb].
  rewrite !lookup_insert_ne by congruence. rewrite lookup_empty. reflexivity.
Qed.

(** [MapError] is the documented table: a tree with [pgx.ErrNoRows] is
    not-found, otherwise the first server error of the tree picks the row of its
    SQLSTATE, and anything else is internal.  The original error stays wrapped,
    the SQLSTATE and constraint go to the fields, and the client message is one
    of the fixed texts, never a text of the driver. *)
Theorem MapError_table (e : error) (Hn : nil_free e = true) :
  MapError (Some e) =
  Ret (Some (appError (pg_class e).1.1 (pg_class e).1.2 (pg_class e).2 (pg_fields e) (Some e))).
Proof. by apply MapError_classified. Qed.

Example MapError_table_witness :
  nil_free (wrapError "insert user" (PgError "23505" "users_email_key" "duplicate key (email)=(a@b.c)")) = true /\
  MapError (Some (wrapError "insert user" (PgError "23505" "users_email_key" "duplicate key (email)=(a@b.c)"))) =
  Ret (Some (appError KindAlreadyExists "already_exists" "resource already exists"
    (<["pg_constraint" := "users_email_key"]> {["pg_code" := "23505"]})
    (Some (wrapError "insert user" (PgError "23505" "users_email_key" "duplicate key (email)=(a@b.c)"))))).
Proof. split; [reflexivity|]. rewrite MapError_table by reflexivity. reflexivity. Defined.

(** ** tx.go *)

(** What the source uses of [pgx]: a connection state [S] on which a transaction
    is begun, committed and rolled back under a context.  [committed] is the data
    other connections see, [pending] the data of the open transaction. *)
Class TxDriver (S D TxOptions : Type) := {
  committed : S -> D;
  pending : S -> option D;
  Begin : Context -> S -> S * option error;
  BeginTx : Context -> TxOptions -> S -> S * option error;
  Commit : Context -> S -> S * option error;
  Rollback : Context -> S -> S * option error
}.

(** The documented behaviour: a failed begin leaves no transaction; a commit that
    answers nil has published the transaction, one that answers an error may or
    may not have; a rollback under a live context always ends the transaction,
    under a dead one it may not even reach the server. *)
Class TxDriverLaws (S D TxOptions : Type) `{!TxDriver S D TxOptions} : Prop := {
  begin_ok ctx s s' : Begin ctx s = (s', None) ->
    committed s' = committed s /\ pending s' = Some (committed s);
  begin_err ctx s s' e : pending s = None -> Begin ctx s = (s', Some e) ->
    committed s' = committed s /\ pending s' = None;
  begin_options_ok ctx o s s' : BeginTx ctx o s = (s', None) ->
    committed s' = committed s /\ pending s' = Some (committed s);
  begin_options_err ctx o s s' e : pending s = None -> BeginTx ctx o s = (s', Some e) ->
    committed s' = committed s /\ pending s' = None;
  commit_ok ctx s s' d : pending s = Some d -> Commit ctx s = (s', None) ->
    committed s' = d /\ pending s' = None;
  commit_err ctx s s' d e : pending s = Some d -> Commit ctx s = (s', Some e) ->
    committed s' = committed s \/ committed s' = d;
  rollback_live ctx s : ctx_err ctx = None ->
    committed (Rollback ctx s).1 = committed s /\ pending (Rollback ctx s).1 = None
}.

Section tx.
Context {S D TxOptions : Type} `{!TxDriver S D TxOptions}.

(** [runTx]: the deferred rollback runs on an error, on a failed commit and on
    a panic of [fn], under a context that can no longer be cancelled. *)
Definition runTx (ctx : Context) (fn : S -> S * outcome (option error)) (s : S)
  : S * outcome (option error) :=
  let rollback s := (Rollback (WithoutCancel ctx) s).1 in
  match fn s with
  | (s, Panic v) => (rollback s, Panic v)
  | (s, Ret (Some err)) => (rollback s, Ret (Some err))
  | (s, Ret None) =>
      match Commit ctx s with
      | (s, Some err) => (rollback s, Ret (Some (Errorf "postgresql: commit tx" err)))
      | (s, None) => (s, Ret None)
      end
  end.

Definition InTx (ctx : Context) (fn : S -> S * outcome (option error)) (s : S)
  : S * outcome (option error) :=
  match Begin ctx s with
  | (s, Some err) => (s, Ret (Some (Errorf "postgresql: begin tx" err)))
  | (s, None) => runTx ctx fn s
  end.

Definition InTxOptions (ctx : Context) (options : TxOptions) (fn : S -> S * outcome (option error)) (s : S)
  : S * outcome (option error) :=
  match BeginTx ctx options s with
  | (s, Some err) => (s, Ret (Some (Errorf "postgresql: begin tx" err)))
  | (s, None) => runTx ctx fn s
  end.

(** [fn] works on the open transaction only: [work] is what it does to the data. *)
Definition works_inside (fn : S -> S * outcome (option error)) (work : D -> D) : Prop :=
  forall s d, pending s = Some d ->
    committed (fn s).1 = committed s /\ pending (fn s).1 = Some (work d).

(** What a caller may rely on after a run that began with [begun] on [s]. *)
Definition atomic (fn : S -> S * outcome (option error)) (work : D -> D) (s : S)
  (begun : S * option error) (run : S * outcome (option error)) : Prop :=
  pending run.1 = None /\
  match run.2 with
  | Ret None => committed run.1 = work (committed s)
  | Ret (Some err) =>
      committed run.1 = committed s \/
      (exists e, err = Errorf "postgresql: commit tx" e /\ (fn begun.1).2 = Ret None /\
                 committed run.1 = work (committed s))
  | Panic v => committed run.1 = committed s /\ (fn begun.1).2 = Panic v
  end /\
  (forall err, begun.2 = None -> (fn begun.1).2 = Ret (Some err) ->
     run.2 = Ret (Some err) /\ committed run.1 = committed s).

Lemma runTx_atomic `{!TxDriverLaws S D TxOptions} ctx fn work s s1 :
  works_inside fn work -> committed s1 = committed s -> pending s1 = Some (committed s) ->
  atomic fn work s (s1, None) (runTx ctx fn s1).
Proof.
  intros Hfn Hc1 Hp1. unfold atomic, runTx.
  specialize (Hfn _ _ Hp1) as [Hc2 Hp2].
  destruct (fn s1) as [s2 r] eqn:Hf; cbn -[Errorf] in *.
  destruct (rollback_live (WithoutCancel ctx) s2 eq_refl) as [Hrc Hrp]. rewrite Hf.
  destruct r as [[err|]|v]; cbn -[Errorf].
  - split_and!; [done|left; congruence|]. intros ? _ [= ->]. split; congruence.
  - destruct (Commit ctx s2) as [s3 [e|]] eqn:Hcm; cbn -[Errorf].
    + destruct (rollback_live (WithoutCancel ctx) s3 eq_refl) as [Hrc3 Hrp3].
      destruct (commit_err _ _ _ _ _ Hp2 Hcm); (split_and!; [done| |done]);
        [left; congruence|right; exists e; split_and!; congruence].
    + destruct (commit_ok _ _ _ _ Hp2 Hcm). split_and!; done.
  - split_and!; try done; congruence.
Qed.

Lemma begin_failed_atomic fn work s s1 e :
  committed s1 = committed s -> pending s1 = None ->
  atomic fn work s (s1, Some e) (s1, Ret (Some (Errorf "postgresql: begin tx" e))).
Proof. intros Hc Hp. split_and!; [done|by left|done]. Qed.

(** C9. Atomicity of [InTx] and [InTxOptions]: whatever [fn] does (return, fail
    or panic) and even when the caller's context is already cancelled, no
    transaction is left open on the connection; a nil result means exactly the
    work of [fn] was committed; when [fn] fails or panics the committed data is
    untouched and its error or panic is what the caller gets; a failed begin
    leaves the data untouched. *)
Theorem InTx_atomic (HL : TxDriverLaws S D TxOptions) ctx options fn work s
  (Hfn : works_inside fn work) (Hidle : pending s = None) :
  atomic fn work s (Begin ctx s) (InTx ctx fn s) /\
  atomic fn work s (BeginTx ctx options s) (InTxOptions ctx options fn s).
Proof.
  unfold InTx, InTxOptions. split.
  - destruct (Begin ctx s) as [s1 [e|]] eqn:Hb.
    + apply begin_err in Hb as [? ?]; [|done]. by apply begin_failed_atomic.
    + apply begin_ok in Hb as [? ?]. by apply runTx_atomic.
  - destruct (BeginTx ctx options s) as [s1 [e|]] eqn:Hb.
    + apply begin_options_err in Hb as [? ?]; [|done]. by apply begin_failed_atomic.
    + apply begin_options_ok in Hb as [? ?]. by apply runTx_atomic.
Qed.
End tx.

(** A driver with one integer of data: a commit and a rollback under a dead
    context do not reach it. *)
#[export] Instance cell_driver : TxDriver (Z * option Z) Z unit := {
  committed := fst;
  pending := snd;
  Begin ctx s := match ctx_err ctx with None => ((s.1, Some s.1), None) | Some e => ((s.1, None), Some e) end;
  BeginTx ctx _ s := match ctx_err ctx with None => ((s.1, Some s.1), None) | Some e => ((s.1, None), Some e) end;
  Commit ctx s := match ctx_err ctx with None => ((default s.1 s.2, None), None) | Some e => (s, Some e) end;
  Rollback ctx s := match ctx_err ctx with None => ((s.1, None), None) | Some e => (s, Some e) end
}.

#[export] Instance cell_driver_laws : TxDriverLaws (Z * option Z) Z unit.
Proof.
  split; cbn; intros; repeat match goal with s : Z * option Z |- _ => destruct s end;
    repeat (case_match; simplify_eq/=); auto.
Qed.

(** Work that adds one and then fails: nothing is committed. *)
Example InTx_atomic_witness :
  let fn s := match s with
              | (c, Some d) => ((c, Some (d + 1)), Ret (Some (errors_New "profile exists")))
              | s => (s, Ret None) end in
  let s' := (InTx Background fn (7, None)).1 in
  pending s' = None /\ committed s' = 7 /\ (InTx Background fn (7, None)).2 = Ret (Some (errors_New "profile exists")).
Proof.
  intros fn s'.
  assert (works_inside fn (fun d => d + 1)) as Hfn by (intros [c p] d; cbn; intros ->; done).
  destruct (InTx_atomic _ Background () fn _ (7, None) Hfn eq_refl) as [(Hp & _ & Herr) _].
  specialize (Herr (errors_New "profile exists") eq_refl eq_refl) as [H1 H2]. split_and!; done.
Defined.
