(* ===== verification/GrpcErrors.v ===== *)
(** * [grpcserver/errors.go]: domain errors to gRPC statuses

    The status API of grpc-go is a class: [Status.Err], [status.FromError] and
    [Status.WithDetails], with the laws the mapping relies on. *)

From S2P Require Export Apperr Postgres.

(** ** The gRPC vocabulary *)

Module codes.
(** [google.golang.org/grpc/codes] *)
Inductive Code : Type :=
| OK | Canceled | Unknown | InvalidArgument | DeadlineExceeded | NotFound | AlreadyExists
| PermissionDenied | ResourceExhausted | FailedPrecondition | Aborted | OutOfRange
| Unimplemented | Internal | Unavailable | DataLoss | Unauthenticated.

#[global] Instance Code_eq_dec : EqDecision Code.
Proof. solve_decision. Defined.
End codes.

(** [errdetails.ErrorInfo] and [errdetails.BadRequest]: what the source attaches. *)
Inductive Detail : Type :=
| ErrorInfo (reason domain : string)
| BadRequest (violations : list (string * string)).

Record Status := mkStatus {
  Status_code : codes.Code;
  Status_message : string;
  Status_details : list Detail
}.

Class GrpcStatus := {
  Status_Err : Status -> option error;       (** [st.Err()] *)
  FromError : error -> option Status;        (** [status.FromError], when it answers true *)
  WithDetails : Status -> Detail -> option Status  (** [st.WithDetails], nil on an error *)
}.

(** The documented behaviour.  The error of a status is opaque: it is not one of
    the repository's own error types, wraps nothing and is no sentinel. *)
Class GrpcStatusLaws `{!GrpcStatus} : Prop := {
  Err_OK st : Status_code st = codes.OK -> Status_Err st = None;
  Err_error st : Status_code st <> codes.OK -> exists e, Status_Err st = Some e /\
    FromError e = Some st /\ preorder e = [e] /\ is_Error e = None;
  WithDetails_kept st d st' : WithDetails st d = Some st' ->
    st' = mkStatus (Status_code st) (Status_message st) (Status_details st ++ [d])
}.

Section mapping.
Context `{!GrpcStatus}.

(** [status.New] and [status.Error] *)
Definition status_New (code : codes.Code) (message : string) : Status := mkStatus code message [].
Definition status_Error (code : codes.Code) (message : string) : option error :=
  Status_Err (status_New code message).

Definition errorDomain : string := "hockeynights".

Definition CodeOf (kind : Kind) : codes.Code :=
  match kind with
  | KindInvalidArgument => codes.InvalidArgument
  | KindUnauthenticated => codes.Unauthenticated
  | KindPermissionDenied => codes.PermissionDenied
  | KindNotFound => codes.NotFound
  | KindAlreadyExists => codes.AlreadyExists
  | KindConflict => codes.Aborted
  | KindFailedPrecondition => codes.FailedPrecondition
  | KindRateLimited => codes.ResourceExhausted
  | KindTimeout => codes.DeadlineExceeded
  | KindUnavailable => codes.Unavailable
  | _ => codes.Internal
  end.

Definition MapError (err : option error) : outcome (option error) :=
  match err with
  | None => Ret None
  | Some e =>
      r ← As err;
      match r with
      | (_, false) =>
          match FromError e with
          | Some _ => Ret err
          | None =>
              c ← errors_Is err Canceled;
              if c : bool then Ret (status_Error codes.Canceled "request canceled") else
              d ← errors_Is err DeadlineExceeded;
              if d : bool then Ret (status_Error codes.DeadlineExceeded "request timed out") else
              Ret (status_Error codes.Internal "internal server error")
          end
      | (None, true) => Panic nil_dereference
      | (Some appErr, true) =>
          let code := CodeOf (Error_Kind appErr) in
          if code == codes.Internal then Ret (status_Error codes.Internal "internal server error")
          else
            let st := status_New code (Error_Message appErr) in
            let st := if Error_Code appErr != "" then
                        match WithDetails st (ErrorInfo (Error_Code appErr) errorDomain) with
                        | Some withDetails => withDetails
                        | None => st
                        end
                      else st in
            Ret (Status_Err st)
      end
  end.

Context `{!GrpcStatusLaws}.

Lemma CodeOf_not_OK kind : CodeOf kind <> codes.OK.
Proof. by destruct kind. Qed.

(** An error that is the [Err] of the given status. *)
Definition status_of (err : option error) (st : Status) : Prop :=
  exists e, err = Some e /\ FromError e = Some st /\ first_some is_Error (preorder e) = None.

Lemma Status_Err_status st : Status_code st <> codes.OK -> status_of (Status_Err st) st.
Proof.
  intros Hst. destruct (Err_error st Hst) as (e & -> & He & Hp & Ha).
  exists e. rewrite Hp. cbn. by rewrite Ha.
Qed.

Lemma status_Error_status code message :
  code <> codes.OK -> status_of (status_Error code message) (status_New code message).
Proof. intros. by apply Status_Err_status. Qed.

(** *** What the client sees *)

Definition internal_status : Status := status_New codes.Internal "internal server error".

(** The status a domain error stands for. *)
Definition app_status (a : Error) : Status :=
  if CodeOf (Error_Kind a) == codes.Internal then internal_status
  else
    let st := status_New (CodeOf (Error_Kind a)) (Error_Message a) in
    if Error_Code a != "" then default st (WithDetails st (ErrorInfo (Error_Code a) errorDomain)) else st.

Definition carries (id : positive) (e : error) : bool :=
  bool_decide (first_some (is_sentinel id) (preorder e) = Some ()).

(** Reference: the status of an error, from the first domain error of its tree,
    else from a status it already is, else from the context error it carries. *)
Definition client_status (e : error) : Status :=
  match first_some is_Error (preorder e) with
  | Some (Some a) => app_status a
  | _ =>
      match FromError e with
      | Some st => st
      | None =>
          if carries 1 e then status_New codes.Canceled "request canceled"
          else if carries 2 e then status_New codes.DeadlineExceeded "request timed out"
          else internal_status
      end
  end.

Lemma nil_free_no_nil_Error e : nil_free e = true -> first_some is_Error (preorder e) <> Some None.
Proof.
  intros Hn%nil_free_spec. induction (preorder e) as [|x l IH]; [done|].
  apply not_elem_of_cons in Hn as [Hx Hl]. cbn.
  destruct x; cbn in *; (congruence || by apply IH).
Qed.

Lemma app_status_not_OK a : Status_code (app_status a) <> codes.OK.
Proof.
  unfold app_status. case_bool_decide; [done|].
  case_match; [|apply CodeOf_not_OK].
  destruct (WithDetails _ _) as [st'|] eqn:Hw; cbn; [|apply CodeOf_not_OK].
  apply WithDetails_kept in Hw as ->. apply CodeOf_not_OK.
Qed.

Lemma MapError_app e a :
  first_some is_Error (preorder e) = Some (Some a) ->
  MapError (Some e) = Ret (Status_Err (app_status a)).
Proof.
  intros Ha. unfold MapError. rewrite As_returns, Ha. cbn [mbind outcome_bind].
  unfold app_status, default. case_bool_decide; [done|]. case_match; [|done].
  by destruct (WithDetails _ _).
Qed.

(** The mapping of a tree without domain errors. *)
Lemma MapError_foreign e :
  nil_free e = true -> first_some is_Error (preorder e) = None -> FromError e = None ->
  MapError (Some e) = Ret (Status_Err (client_status e)).
Proof.
  intros Hn Ha Hf. unfold MapError, client_status. rewrite As_returns, Ha, Hf.
  cbn [mbind outcome_bind]. unfold Canceled, DeadlineExceeded.
  rewrite !errors_Is_nil_free by done. cbn [mbind outcome_bind].
  fold (carries 1 e) (carries 2 e). destruct (carries 1 e); [done|]. by destruct (carries 2 e).
Qed.

Lemma MapError_returns e :
  GrpcStatusLaws -> nil_free e = true ->
  exists err, MapError (Some e) = Ret (Some err) /\ FromError err = Some (client_status e).
Proof.
  intros HL Hn.
  destruct (first_some is_Error (preorder e)) as [[a|]|] eqn:Ha.
  - rewrite (MapError_app e a Ha). unfold client_status. rewrite Ha.
    destruct (Status_Err_status _ (app_status_not_OK a)) as (err & -> & Hf & _). by exists err.
  - by apply nil_free_no_nil_Error in Ha.
  - destruct (FromError e) as [st|] eqn:Hf.
    + exists e. unfold client_status, MapError. by rewrite As_returns, Ha, Hf.
    + rewrite MapError_foreign by done.
      assert (Status_code (client_status e) <> codes.OK) as Hok.
      { unfold client_status. rewrite Ha, Hf. by repeat case_match. }
      destruct (Status_Err_status _ Hok) as (err & -> & Hf' & _). by exists err.
Qed.

(** C8. [MapError] always answers a status error, and it is the reference status:
    the first domain error of the tree decides the code, message and
    [ErrorInfo]; without one an existing status passes unchanged; cancellation
    and deadline become their codes; everything else is [Internal]. *)
Theorem MapError_client_status (HL : GrpcStatusLaws) (e : error) (Hn : nil_free e = true) :
  exists err, MapError (Some e) = Ret (Some err) /\ FromError err = Some (client_status e).
Proof. by apply MapError_returns. Qed.

(** C31. Confidentiality: an internal error reaches the client as one fixed
    status.  If the first domain error of the tree has an internal kind, or
    there is none and the error is neither a status nor a context error, the
    client sees [Internal] with the fixed message and no details, whatever the
    texts and fields of the error. *)
Theorem MapError_hides_internal (HL : GrpcStatusLaws) (e : error) (Hn : nil_free e = true)
  (Hint : match first_some is_Error (preorder e) with
          | Some (Some a) => CodeOf (Error_Kind a) = codes.Internal
          | _ => FromError e = None /\ carries 1 e = false /\ carries 2 e = false
          end) :
  MapError (Some e) = Ret (status_Error codes.Internal "internal server error").
Proof.
  destruct (first_some is_Error (preorder e)) as [[a|]|] eqn:Ha.
  - rewrite (MapError_app e a Ha). unfold app_status. by rewrite bool_decide_true.
  - by apply nil_free_no_nil_Error in Ha.
  - destruct Hint as (Hf & H1 & H2). rewrite MapError_foreign by done.
    unfold client_status. by rewrite Ha, Hf, H1, H2.
Qed.

(** A mapped error is stable: passing the result of [MapError] through the
    interceptor again changes nothing, so mapping twice on the way out is
    harmless. *)
Theorem MapError_idempotent (HL : GrpcStatusLaws) (e : error) (Hn : nil_free e = true) :
  (r ← MapError (Some e); MapError r) = MapError (Some e).
Proof.
  assert (forall st, Status_code st <> codes.OK ->
            MapError (Status_Err st) = Ret (Status_Err st)) as Hstable.
  { intros st Hst. destruct (Err_error st Hst) as (err & -> & Hf & Hp & Ha).
    unfold MapError. rewrite As_returns, Hp. cbn. by rewrite Ha, Hf. }
  destruct (first_some is_Error (preorder e)) as [[a|]|] eqn:Ha.
  - rewrite (MapError_app e a Ha). apply Hstable, app_status_not_OK.
  - by apply nil_free_no_nil_Error in Ha.
  - destruct (FromError e) as [st|] eqn:Hf.
    + assert (MapError (Some e) = Ret (Some e)) as E; [|by rewrite E].
      unfold MapError. by rewrite As_returns, Ha, Hf.
    + rewrite MapError_foreign by done. apply Hstable.
      unfold client_status. rewrite Ha, Hf. by repeat case_match.
Qed.

(** From the database to the client: a repository error mapped by
    [postgresql.MapError] and then by the interceptor reaches the client with
    the code of its SQLSTATE row, the row's fixed message and the row's reason
    in the details; a row of internal kind is the fixed internal status.  No
    text of the driver, table or constraint is in the status. *)
Theorem pg_error_to_client (HL : GrpcStatusLaws) (e : error) (Hn : nil_free e = true) :
  let row := pg_class e in
  (r ← Postgres.MapError (Some e); MapError r) =
    Ret (Status_Err (app_status (mkError row.1.1 row.1.2 row.2 ∅ None))) /\
  row ∈ (KindNotFound, "not_found", "resource not found") :: internal_row :: pg_table.*2.
Proof.
  intros row. split.
  - rewrite Postgres.MapError_classified by done.
    etransitivity; [by apply MapError_app|]. reflexivity.
  - apply pg_class_rows.
Qed.
End mapping.

#[export] Hint Resolve Status_Err_status status_Error_status CodeOf_not_OK : golib.

(** ** A concrete status API

    Statuses are numbered and their errors carry the number, above the numbers of
    the sentinels; every detail is accepted. *)
Definition all_codes : list codes.Code :=
  [ codes.OK; codes.Canceled; codes.Unknown; codes.InvalidArgument; codes.DeadlineExceeded;
    codes.NotFound; codes.AlreadyExists; codes.PermissionDenied; codes.ResourceExhausted;
    codes.FailedPrecondition; codes.Aborted; codes.OutOfRange; codes.Unimplemented;
    codes.Internal; codes.Unavailable; codes.DataLoss; codes.Unauthenticated ].

Definition code_index (c : codes.Code) : nat := from_option fst 0%nat (list_find (fun d => c = d) all_codes).

#[export] Instance Code_countable : Countable codes.Code.
Proof.
  refine (inj_countable code_index (fun n => all_codes !! n) _).
  intros c. by destruct c.
Defined.

Definition Detail_sum (d : Detail) : string * string + list (string * string) :=
  match d with ErrorInfo r m => inl (r, m) | BadRequest vs => inr vs end.
Definition sum_Detail (s : string * string + list (string * string)) : Detail :=
  match s with inl (r, m) => ErrorInfo r m | inr vs => BadRequest vs end.

#[export] Instance Detail_eq_dec : EqDecision Detail.
Proof. solve_decision. Defined.
#[export] Instance Detail_countable : Countable Detail.
Proof. refine (inj_countable' Detail_sum sum_Detail _). by intros []. Defined.

#[export] Instance Status_eq_dec : EqDecision Status.
Proof. solve_decision. Defined.
#[export] Instance Status_countable : Countable Status.
Proof.
  refine (inj_countable' (fun st => (Status_code st, Status_message st, Status_details st))
            (fun t => mkStatus t.1.1 t.1.2 t.2) _). by intros [].
Defined.

#[export] Instance numbered_status : GrpcStatus := {
  Status_Err st :=
    if Status_code st == codes.OK then None
    else Some (errorString (100 + encode st) ("rpc error: " +:+ Status_message st));
  FromError e :=
    match e with
    | errorString id _ => if (100 <? id)%positive then decode (id - 100) else None
    | _ => None
    end;
  WithDetails st d := Some (mkStatus (Status_code st) (Status_message st) (Status_details st ++ [d]))
}.

#[export] Instance numbered_status_laws : GrpcStatusLaws.
Proof.
  split.
  - intros st Hst. cbn. by rewrite bool_decide_true.
  - intros st Hst. cbn. rewrite bool_decide_false by done. eexists. split_and!; try done.
    cbn. rewrite (proj2 (Pos.ltb_lt 100 _)) by lia.
    rewrite Pos.add_comm, Pos.add_sub. apply decode_encode.
  - cbn. by intros st d st' [= <-].
Qed.

(** A repository error with personal data in its text. *)
Definition leaky : error := wrapError "get user a@b.c: relation users" (errors_New "relation users does not exist").
Definition taken : error := wrapError "register" (to_error (AlreadyExists "email_taken" "email is taken")).

Example MapError_client_status_witness :
  nil_free taken = true /\ exists err, MapError (Some taken) = Ret (Some err) /\
  FromError err = Some (mkStatus codes.AlreadyExists "email is taken" [ErrorInfo "email_taken" "hockeynights"]).
Proof. split; [reflexivity|]. apply (MapError_client_status numbered_status_laws taken eq_refl). Defined.

Example MapError_hides_internal_witness :
  MapError (Some leaky) = Ret (status_Error codes.Internal "internal server error").
Proof. apply (MapError_hides_internal numbered_status_laws leaky eq_refl). by split_and!. Defined.

Example MapError_idempotent_witness : (r ← MapError (Some taken); MapError r) = MapError (Some taken).
Proof. apply (MapError_idempotent numbered_status_laws taken eq_refl). Defined.

Definition duplicate : error :=
  wrapError "insert user" (PgError "23505" "users_email_key" "duplicate key (email)=(a@b.c)").

Example pg_error_to_client_witness :
  (r ← Postgres.MapError (Some duplicate); MapError r) =
  Ret (Status_Err (mkStatus codes.AlreadyExists "resource already exists" [ErrorInfo "already_exists" "hockeynights"])).
Proof. exact (proj1 (pg_error_to_client numbered_status_laws duplicate eq_refl)). Defined.
