(* ===== verification/OutboxTable.v ===== *)
(** * [outbox/outbox.go]: the outbox table and its repository

    The table of the migration is a finite map from ids to rows; every method of
    [Repository] is the SQL statement it sends, as a function on the table, under
    an environment that stands for the database: the statement's [now()], the
    rows other sessions hold locked, the order in which ties are broken and rows
    returned, and whether the statement's answer arrives.  A lost answer leaves
    open whether the statement was applied, so the environment says both. *)

From S2P Require Export Utf8 Apperr.

(** ** Data *)

(** [uuid.UUID] *)
Abbreviation uuid := N (only parsing).

Record Message := mkMessage {
  msg_ID : uuid;
  msg_Kind : string;
  msg_Payload : string;
  msg_Attempts : Z;      (** int16 *)
  msg_MaxAttempts : Z    (** int *)
}.

(** A row of the table [outbox]; instants are in nanoseconds. *)
Record Row := mkRow {
  row_kind : string;
  row_payload : string;
  row_attempts : Z;          (** smallint *)
  row_max_attempts : Z;      (** smallint *)
  row_next_attempt_at : Z;
  row_failed_at : option Z;
  row_last_error : option string;  (** varchar(512) *)
  row_created_at : Z
}.

Abbreviation Table := (gmap N Row).

(** What the server does with parameter values: [jsonb_in] is the stored form of
    a JSON text, [None] when it is rejected; [text_ok] says whether a string is
    accepted as text. *)
Class PgServer := {
  jsonb_in : string -> option string;
  text_ok : string -> bool
}.

(** Documented: a UTF-8 database rejects text that is not valid UTF-8. *)
Class PgServerLaws `{!PgServer} : Prop := {
  text_ok_valid s : text_ok s = true -> ValidString s = true
}.

(** The environment of one statement. *)
Record Stmt := mkStmt {
  stmt_now : Z;
  stmt_reply : option (error * bool)  (** the driver's error, and whether the statement was applied *)
}.

(** How the rows of [Claim] reach the client: all; an error of [Query]; one of [Scan];
    an error of [rows.Err()] after some rows, the statement being applied; or one
    without a row and without effect.  (That rows arrive of a statement that is then
    rolled back is left out: the worker drops the rows of a claim with an error, and
    the table is as after [RowsLost].) *)
Inductive rows_reply : Type :=
| AllRows
| QueryError (e : error) (applied : bool)
| ScanError (e : error)
| RowsError (received : nat) (e : error)
| RowsLost (e : error).

Record ClaimEnv := mkClaimEnv {
  claim_now : Z;
  claim_locked : gset N;         (** rows another session holds *)
  claim_tie : N -> Z;            (** order among equal [next_attempt_at] *)
  claim_return : N -> Z;         (** order of RETURNING *)
  claim_reply : rows_reply
}.

(** ** Helpers *)

(** [truncate(reason)] *)
Definition maxErrorLength : nat := 512.

Definition truncate (reason : string) : option string :=
  if reason == "" then None
  else
    let rs := string_runes reason in
    if (maxErrorLength <? length rs)%nat then Some (runes_string (take maxErrorLength rs))
    else Some reason.

(** A statement under its environment: an error of the server leaves the table,
    a lost answer may or may not. *)
Definition exec {A} (env : Stmt) (sql : Table -> result error (Table * A)) (t : Table)
  : Table * result error A :=
  match sql t with
  | Err e => (t, Err e)
  | Ok (t', a) =>
      match stmt_reply env with
      | None => (t', Ok a)
      | Some (e, applied) => (if applied : bool then t' else t, Err e)
      end
  end.

(** [make_interval(secs => $n::int)] for [int32(d.Seconds())] *)
Definition interval (d : Z) : Z := int32_seconds d * Second.

(** ** Enqueue *)

Definition defaultMaxAttempts : Z := 5.

Section repository.
Context `{!PgServer}.

(** Server errors, by SQLSTATE. *)
Definition pg_error (code constraint : string) : error := PgError code constraint ("SQLSTATE " +:+ code).

Definition sql_insert (now : Z) (id : uuid) (kind payload : string) (max_attempts : Z) (t : Table)
  : result error (Table * unit) :=
  if negb (text_ok kind) then Err (pg_error "22021" "")
  else match jsonb_in payload with
       | None => Err (pg_error "22P02" "")
       | Some stored =>
           match t !! id with
           | Some _ => Err (pg_error "23505" "outbox_pkey")
           | None => Ok (<[id := mkRow kind stored 0 max_attempts now None None now]> t, ())
           end
       end.

(** [new_id] is the answer of [uuid.NewV7]. *)
Definition Enqueue (env : Stmt) (new_id : result error uuid) (kind payload : string) (maxAttempts : Z)
  (t : Table) : Table * (uuid * option error) :=
  if kind == "" then (t, (0%N, Some (errors_New "outbox: kind is required")))
  else if (String.length payload =? 0)%nat then (t, (0%N, Some (errors_New "outbox: payload is required")))
  else
    let maxAttempts := if maxAttempts <=? 0 then defaultMaxAttempts else maxAttempts in
    match new_id with
    | Err e => (t, (0%N, Some (Errorf "outbox: generate id" e)))
    | Ok id =>
        match exec env (sql_insert (stmt_now env) id kind payload maxAttempts) t with
        | (t, Err e) => (t, (0%N, Some (Errorf "outbox: enqueue" e)))
        | (t, Ok _) => (t, (id, None))
        end
    end.

(** ** Claim *)

(** [failed_at IS NULL AND next_attempt_at <= now()], not locked elsewhere *)
Definition claimable (env : ClaimEnv) (p : uuid * Row) : Prop :=
  row_failed_at p.2 = None /\ row_next_attempt_at p.2 <= claim_now env /\ (p.1 ∉ claim_locked env).

#[global] Instance claimable_dec env p : Decision (claimable env p).
Proof. unfold claimable. apply _. Defined.

(** [ORDER BY next_attempt_at] *)
Definition claim_before (env : ClaimEnv) (p q : uuid * Row) : Prop :=
  row_next_attempt_at p.2 < row_next_attempt_at q.2 \/
  (row_next_attempt_at p.2 = row_next_attempt_at q.2 /\ claim_tie env p.1 <= claim_tie env q.1).

#[global] Instance claim_before_dec env : RelDecision (claim_before env).
Proof. intros p q. unfold claim_before. apply _. Defined.

Definition selected (env : ClaimEnv) (batchSize : Z) (t : Table) : list (uuid * Row) :=
  take (Z.to_nat batchSize) (merge_sort (claim_before env) (filter (claimable env) (map_to_list t))).

Definition claimed_row (now visibility : Z) (r : Row) : Row :=
  mkRow (row_kind r) (row_payload r) (row_attempts r + 1) (row_max_attempts r)
    (now + interval visibility) (row_failed_at r) (row_last_error r) (row_created_at r).

Definition message_of (p : uuid * Row) : Message :=
  mkMessage p.1 (row_kind p.2) (row_payload p.2) (row_attempts p.2) (row_max_attempts p.2).

Definition return_before (env : ClaimEnv) (p q : uuid * Row) : Prop := claim_return env p.1 <= claim_return env q.1.

#[global] Instance return_before_dec env : RelDecision (return_before env).
Proof. intros p q. unfold return_before. apply _. Defined.

Definition sql_claim (env : ClaimEnv) (batchSize visibility : Z) (t : Table)
  : result error (Table * list Message) :=
  if batchSize <? 0 then Err (pg_error "2201W" "")
  else
    let updated := prod_map id (claimed_row (claim_now env) visibility) <$> selected env batchSize t in
    if existsb (fun p => 2 ^ 15 <=? row_attempts p.2) updated then Err (pg_error "22003" "")
    else Ok (list_to_map updated ∪ t, message_of <$> merge_sort (return_before env) updated).

(** Whether an error of the server comes with the rows, and so is not wrapped. *)
Definition late_error (env : ClaimEnv) : bool :=
  match claim_reply env with RowsError _ _ | RowsLost _ => true | _ => false end.

Definition Claim (env : ClaimEnv) (batchSize visibility : Z) (t : Table)
  : Table * (list Message * option error) :=
  match sql_claim env batchSize visibility t with
  | Err e => (t, ([], Some (if late_error env then e else Errorf "outbox: claim" e)))
  | Ok (t', messages) =>
      match claim_reply env with
      | AllRows => (t', (messages, None))
      | QueryError e applied => (if applied : bool then t' else t, ([], Some (Errorf "outbox: claim" e)))
      | ScanError e => (t', ([], Some (Errorf "outbox: scan" e)))
      | RowsError received e => (t', (take received messages, Some e))
      | RowsLost e => (t, ([], Some e))
      end
  end.

(** ** Complete, Retry, Defer, Fail *)

Definition finish {A} (prefix : string) (r : Table * result error A) : Table * option error :=
  match r with
  | (t, Ok _) => (t, None)
  | (t, Err e) => (t, Some (Errorf prefix e))
  end.

Definition Complete (env : Stmt) (id : uuid) (t : Table) : Table * option error :=
  finish "outbox: complete" (exec env (fun t => Ok (delete id t, ())) t).

(** An update of the row [id], if it matches [hit], that stores an error text:
    the text must be accepted, and short enough for the column when a row is
    updated. *)
Definition sql_store_reason (id : uuid) (hit : Row -> bool) (reason : option string) (f : Row -> Row)
  (t : Table) : result error (Table * unit) :=
  let matched := match t !! id with Some r => hit r | None => false end in
  let t' := if matched then alter f id t else t in
  match reason with
  | Some s =>
      if negb (text_ok s) then Err (pg_error "22021" "")
      else if (512 <? RuneCount s) && matched then Err (pg_error "22001" "")
      else Ok (t', ())
  | None => Ok (t', ())
  end.

Definition retried_row (now backoff : Z) (reason : option string) (r : Row) : Row :=
  mkRow (row_kind r) (row_payload r) (row_attempts r) (row_max_attempts r)
    (now + interval backoff)
    (if row_attempts r >=? row_max_attempts r then Some now else None)
    reason (row_created_at r).

Definition Retry (env : Stmt) (id : uuid) (backoff : Z) (reason : string) (t : Table) : Table * option error :=
  let reason := truncate reason in
  finish "outbox: retry"
    (exec env (sql_store_reason id (fun _ => true) reason (retried_row (stmt_now env) backoff reason)) t).

Definition deferred_row (now delay : Z) (r : Row) : Row :=
  mkRow (row_kind r) (row_payload r) (Z.max (row_attempts r - 1) 0) (row_max_attempts r)
    (now + interval delay) (row_failed_at r) (row_last_error r) (row_created_at r).

Definition Defer (env : Stmt) (id : uuid) (delay : Z) (t : Table) : Table * option error :=
  finish "outbox: defer" (exec env (fun t => Ok (alter (deferred_row (stmt_now env) delay) id t, ())) t).

Definition not_failed (r : Row) : bool := match row_failed_at r with None => true | Some _ => false end.

Definition failed_row (now : Z) (reason : option string) (r : Row) : Row :=
  mkRow (row_kind r) (row_payload r) (row_attempts r) (row_max_attempts r)
    (row_next_attempt_at r) (Some now) reason (row_created_at r).

Definition Fail (env : Stmt) (id : uuid) (reason : string) (t : Table) : Table * option error :=
  let reason := truncate reason in
  finish "outbox: fail" (exec env (sql_store_reason id not_failed reason (failed_row (stmt_now env) reason)) t).

(** ** Counting and cleanup *)

Definition count (P : Row -> Prop) `{!forall r, Decision (P r)} (t : Table) : Z :=
  Z.of_nat (length (filter (fun p : uuid * Row => P p.2) (map_to_list t))).

Definition answer (prefix : string) (r : Table * result error Z) : Table * (Z * option error) :=
  match r with
  | (t, Ok n) => (t, (n, None))
  | (t, Err e) => (t, (0, Some (Errorf prefix e)))
  end.

Definition CountPending (env : Stmt) (t : Table) : Table * (Z * option error) :=
  answer "outbox: count pending" (exec env (fun t => Ok (t, count (fun r => row_failed_at r = None) t)) t).

Definition CountFailed (env : Stmt) (t : Table) : Table * (Z * option error) :=
  answer "outbox: count failed" (exec env (fun t => Ok (t, count (fun r => is_Some (row_failed_at r)) t)) t).

(** [failed_at IS NOT NULL AND failed_at < now() - make_interval(...)] *)
Definition expired (now retention : Z) (r : Row) : Prop :=
  match row_failed_at r with Some f => f < now - interval retention | None => False end.

#[global] Instance expired_dec now retention r : Decision (expired now retention r).
Proof. unfold expired. destruct (row_failed_at r); apply _. Defined.

Definition DeleteOldFailed (env : Stmt) (retention : Z) (t : Table) : Table * (Z * option error) :=
  answer "outbox: cleanup"
    (exec env (fun t => Ok (filter (fun p : uuid * Row => ~ expired (stmt_now env) retention p.2) t,
                            count (expired (stmt_now env) retention) t)) t).
End repository.

(** ** Error texts *)

Lemma string_runes_valid s : Forall (fun r => valid_rune r = true) (string_runes s).
Proof. apply runes_valid, bytes_range. Qed.

Lemma runes_string_nonempty rs : rs <> [] -> runes_string rs <> "".
Proof.
  intros Hrs Heq. apply (f_equal bytes) in Heq. unfold runes_string in Heq.
  rewrite bytes_of_bytes in Heq by auto with golib. destruct rs as [|r rs]; [done|].
  unfold encode_runes in Heq. cbn in Heq.
  destruct (encode_rune r) eqn:E; [by apply (encode_rune_nonempty r)|done].
Qed.

Lemma long_nonempty s : (maxErrorLength < length (string_runes s))%nat -> s <> "".
Proof. intros Hl ->. change (length (string_runes "")) with 0%nat in Hl. lia. Qed.

(** A truncated text is the re-encoding of the first runes. *)
Lemma truncate_long s :
  (maxErrorLength < length (string_runes s))%nat ->
  truncate s = Some (runes_string (take maxErrorLength (string_runes s))).
Proof.
  intros Hl. unfold truncate. case_bool_decide; [subst; by apply long_nonempty in Hl|].
  by rewrite (proj2 (Nat.ltb_lt _ _)).
Qed.

Lemma truncate_short s :
  s <> "" -> (length (string_runes s) <= maxErrorLength)%nat -> truncate s = Some s.
Proof.
  intros Hs Hl. unfold truncate. case_bool_decide; [done|].
  by rewrite (proj2 (Nat.ltb_ge _ _)).
Qed.

Lemma truncate_cases s :
  s = "" \/ (s <> "" /\ (length (string_runes s) <= maxErrorLength)%nat) \/
  (maxErrorLength < length (string_runes s))%nat.
Proof.
  destruct (decide (s = "")); [by left|]. right.
  destruct (Nat.le_gt_cases (length (string_runes s)) maxErrorLength); auto.
Qed.

Lemma truncate_runes s s' :
  truncate s = Some s' -> string_runes s' = take maxErrorLength (string_runes s) /\ s' <> "".
Proof.
  intros Ht. destruct (truncate_cases s) as [->|[[Hs Hl]|Hl]]; [done| |].
  - rewrite truncate_short in Ht by done. simplify_eq. by rewrite take_ge.
  - rewrite truncate_long in Ht by done. simplify_eq. split.
    + apply string_runes_string, Forall_take, string_runes_valid.
    + apply runes_string_nonempty. apply long_nonempty in Hl as Hne.
      destruct (string_runes s); [cbn in Hl; lia|done].
Qed.

(** [truncate] keeps the first 512 runes and never cuts a rune: a non-empty
    text is stored with at most 512 characters, so the [varchar(512)] column
    always takes it; it decodes to a prefix of the runes of the text; valid text
    stays valid and is cut to a prefix of its bytes; an empty text becomes NULL. *)
Theorem truncate_fits (s : string) :
  (truncate s = None <-> s = "") /\
  forall s', truncate s = Some s' ->
    s' <> "" /\ RuneCount s' <= 512 /\
    string_runes s' = take 512 (string_runes s) /\
    (ValidString s = true -> ValidString s' = true /\ bytes s' `prefix_of` bytes s) /\
    (RuneCount s <= 512 -> s' = s).
Proof.
  split.
  { destruct (truncate_cases s) as [->|[[Hs Hl]|Hl]]; [done| |].
    - by rewrite truncate_short by done.
    - rewrite truncate_long by done. apply long_nonempty in Hl. done. }
  intros s' Ht. destruct (truncate_runes s s' Ht) as [Hr Hne]. split_and!; try done.
  - unfold RuneCount. rewrite Hr, length_take. unfold maxErrorLength. lia.
  - intros Hv. destruct (truncate_cases s) as [->|[[Hs Hl]|Hl]]; [done| |].
    + rewrite truncate_short in Ht by done. by simplify_eq.
    + rewrite truncate_long in Ht by done. simplify_eq. split.
      * apply runes_string_valid, Forall_take, string_runes_valid.
      * unfold runes_string. rewrite bytes_of_bytes by auto with golib.
        by apply encode_runes_take; [apply bytes_range|].
  - unfold RuneCount, maxErrorLength. intros Hl. destruct (decide (s = "")) as [->|]; [done|].
    rewrite truncate_short in Ht by (unfold maxErrorLength; (done || lia)). by simplify_eq.
Qed.

Example truncate_fits_witness :
  truncate "отказ" = Some "отказ" /\ RuneCount "отказ" <= 512.
Proof.
  split; [vm_compute; reflexivity|].
  apply (proj2 (truncate_fits "отказ") "отказ"). vm_compute. reflexivity.
Defined.

(** ** What a claim selects *)

Section claim.
Context `{!PgServer}.
Implicit Types (t : Table) (env : ClaimEnv).

#[local] Instance claim_before_total env : Total (claim_before env).
Proof. intros p q. unfold claim_before. lia. Qed.
#[local] Instance claim_before_trans env : Transitive (claim_before env).
Proof. intros p q s. unfold claim_before. lia. Qed.

Lemma selected_sub env b t :
  exists rest, merge_sort (claim_before env) (filter (claimable env) (map_to_list t)) = selected env b t ++ rest.
Proof. eexists. symmetry. apply take_drop. Qed.

Lemma claim_candidates env t i r :
  (i, r) ∈ merge_sort (claim_before env) (filter (claimable env) (map_to_list t)) <->
  t !! i = Some r /\ claimable env (i, r).
Proof.
  rewrite (merge_sort_Permutation (claim_before env)), list_elem_of_filter, elem_of_map_to_list. tauto.
Qed.

Lemma selected_elem env b t i r :
  (i, r) ∈ selected env b t -> t !! i = Some r /\ claimable env (i, r).
Proof.
  intros Hin. destruct (selected_sub env b t) as [rest Hrest].
  apply claim_candidates. rewrite Hrest. apply elem_of_app. by left.
Qed.

Lemma selected_NoDup env b t : NoDup (selected env b t).*1.
Proof.
  destruct (selected_sub env b t) as [rest Hrest].
  assert (NoDup (selected env b t ++ rest).*1) as Hnd; [|by rewrite fmap_app, NoDup_app in Hnd; apply Hnd].
  rewrite <- Hrest, (merge_sort_Permutation (claim_before env)).
  pose proof (NoDup_fst_map_to_list t) as Hnd. revert Hnd.
  generalize (map_to_list t) as l. induction l as [|p l IH]; [constructor|].
  cbn [fmap list_fmap]. intros [Hp Hl]%NoDup_cons. rewrite filter_cons. case_decide; [|auto].
  cbn [fmap list_fmap]. constructor; [|auto]. contradict Hp.
  apply list_elem_of_fmap in Hp as (q & -> & [_ Hq]%list_elem_of_filter). by apply list_elem_of_fmap_2.
Qed.

Lemma selected_length env b t : 0 <= b -> Z.of_nat (length (selected env b t)) <= b.
Proof. intros Hb. unfold selected. rewrite length_take. lia. Qed.

(** A batch that is not full has taken every claimable row. *)
Lemma selected_complete env b t i r :
  Z.of_nat (length (selected env b t)) < b -> t !! i = Some r -> claimable env (i, r) ->
  (i, r) ∈ selected env b t.
Proof.
  intros Hlen Hi Hc. pose proof (proj2 (claim_candidates env t i r) (conj Hi Hc)) as Hin.
  unfold selected in *. rewrite length_take in Hlen. by rewrite take_ge by lia.
Qed.

(** A row left behind is not due before any row taken. *)
Lemma selected_earliest env b t i r j q :
  (i, r) ∈ selected env b t -> t !! j = Some q -> claimable env (j, q) -> (j, q) ∉ selected env b t ->
  row_next_attempt_at r <= row_next_attempt_at q.
Proof.
  intros Hi Hj Hc Hout. pose proof (proj2 (claim_candidates env t j q) (conj Hj Hc)) as Hin.
  destruct (selected_sub env b t) as [rest Hrest]. rewrite Hrest in Hin.
  apply elem_of_app in Hin as [|Hin]; [done|].
  pose proof (StronglySorted_merge_sort (claim_before env) (filter (claimable env) (map_to_list t))) as Hs.
  rewrite Hrest in Hs. apply list_elem_of_lookup in Hi as [n Hn].
  apply list_elem_of_lookup in Hin as [m Hm].
  assert (claim_before env (i, r) (j, q)) as Hb; [|unfold claim_before in Hb; cbn in Hb; lia].
  clear -Hs Hn Hm. revert n Hn. induction (selected env b t) as [|p l IH]; intros [|n] Hn; [done..| |].
  - cbn in Hn. simplify_eq. apply StronglySorted_inv in Hs as [_ Hall].
    rewrite Forall_forall in Hall. apply Hall, elem_of_app. right. by eapply list_elem_of_lookup_2.
  - apply StronglySorted_inv in Hs as [Hs _]. by apply (IH Hs n).
Qed.

(** The rows after a claim that was applied. *)
Definition claimed_table env (b v : Z) t : Table :=
  list_to_map (prod_map id (claimed_row (claim_now env) v) <$> selected env b t) ∪ t.

Lemma updated_fst env b v t :
  (prod_map id (claimed_row (claim_now env) v) <$> selected env b t).*1 = (selected env b t).*1.
Proof. rewrite <- list_fmap_compose. by apply list_fmap_ext. Qed.

Lemma claimed_table_in env b v t i r :
  (i, r) ∈ selected env b t -> claimed_table env b v t !! i = Some (claimed_row (claim_now env) v r).
Proof.
  intros Hin. unfold claimed_table. apply lookup_union_Some_l, elem_of_list_to_map.
  - rewrite updated_fst. apply selected_NoDup.
  - apply list_elem_of_fmap. by exists (i, r).
Qed.

Lemma claimed_table_out env b v t i :
  i ∉ (selected env b t).*1 -> claimed_table env b v t !! i = t !! i.
Proof.
  intros Hout. unfold claimed_table. apply lookup_union_r, not_elem_of_list_to_map.
  by rewrite updated_fst.
Qed.

Lemma claimed_table_cases env b v t i :
  claimed_table env b v t !! i = t !! i \/
  exists r, (i, r) ∈ selected env b t /\ t !! i = Some r /\ claimable env (i, r) /\
            claimed_table env b v t !! i = Some (claimed_row (claim_now env) v r).
Proof.
  destruct (decide (i ∈ (selected env b t).*1)) as [Hin|Hout].
  - right. apply list_elem_of_fmap in Hin as ([j r] & -> & Hin). exists r.
    pose proof (selected_elem _ _ _ _ _ Hin) as [Hi Hc]. split_and!; try done.
    by apply claimed_table_in.
  - left. by apply claimed_table_out.
Qed.

(** The statement either fails or does exactly this, returning the rows taken. *)
Lemma sql_claim_ok env b v t t' ms :
  sql_claim env b v t = Ok (t', ms) ->
  0 <= b /\ t' = claimed_table env b v t /\
  (forall i r, (i, r) ∈ selected env b t -> row_attempts r + 1 < 2 ^ 15) /\
  ms ≡ₚ (fun p => message_of (prod_map id (claimed_row (claim_now env) v) p)) <$> selected env b t.
Proof.
  unfold sql_claim. case_match eqn:Hb; [done|]. case_match eqn:Hx; [done|]. intros [= <- <-]. go_bool.
  split_and!; [done|done| |].
  - intros i r Hin.
    assert ((2 ^ 15 <=? row_attempts r + 1) = false) as Ha; [|by go_bool].
    apply not_true_iff_false. intros Ht. apply not_true_iff_false in Hx. apply Hx, existsb_exists.
    exists (prod_map id (claimed_row (claim_now env) v) (i, r)). split; [|done].
    apply list_elem_of_In, list_elem_of_fmap_2, Hin.
  - by rewrite (merge_sort_Permutation (return_before env)), <- list_fmap_compose.
Qed.

Lemma Claim_table env b v t :
  (Claim env b v t).1 = t \/
  ((Claim env b v t).1 = claimed_table env b v t /\
   forall i r, (i, r) ∈ selected env b t -> row_attempts r + 1 < 2 ^ 15).
Proof.
  unfold Claim. destruct (sql_claim env b v t) as [[t' ms]|e] eqn:Hsql; [|by left].
  apply sql_claim_ok in Hsql as (_ & -> & Ha & _).
  destruct (claim_reply env) as [|? []|?|? ?|?]; cbn; auto.
Qed.

(** A claim that answers nil has the messages of exactly the rows it took. *)
Lemma Claim_ok env b v t t' ms :
  Claim env b v t = (t', (ms, None)) ->
  0 <= b /\ t' = claimed_table env b v t /\
  ms ≡ₚ (fun p => message_of (prod_map id (claimed_row (claim_now env) v) p)) <$> selected env b t.
Proof.
  unfold Claim. destruct (sql_claim env b v t) as [[t1 ms1]|e] eqn:Hsql; [|done].
  intros Hc. apply sql_claim_ok in Hsql as (Hb & -> & _ & Hp).
  destruct (claim_reply env) as [|? []|?|? ?|?]; simplify_eq; done.
Qed.

(** Whatever a claim answers, its messages are of rows it took. *)
Lemma Claim_messages env b v t t' ms err m :
  Claim env b v t = (t', (ms, err)) -> m ∈ ms ->
  exists r, (msg_ID m, r) ∈ selected env b t /\ t' = claimed_table env b v t /\
            m = message_of (msg_ID m, claimed_row (claim_now env) v r).
Proof.
  unfold Claim. destruct (sql_claim env b v t) as [[t1 ms1]|e] eqn:Hsql;
    [|intros [= <- <- <-] Hm; by apply elem_of_nil in Hm].
  apply sql_claim_ok in Hsql as (_ & -> & _ & Hp). intros Hc Hm.
  assert (m ∈ ms1 /\ t' = claimed_table env b v t) as [Hm1 ->].
  { destruct (claim_reply env) as [|? a|?|? ?|?]; simplify_eq; try done.
    - by apply elem_of_nil in Hm.
    - by apply elem_of_nil in Hm.
    - split; [|done]. by eapply subseteq_take.
    - by apply elem_of_nil in Hm. }
  rewrite Hp in Hm1. apply list_elem_of_fmap in Hm1 as ([i r] & -> & Hin). by exists r.
Qed.
End claim.

(** ** The contract of Claim *)

Section contract.
Context `{!PgServer}.
Implicit Types (t : Table) (env : ClaimEnv).

Lemma ids_of_claim env b v t ms :
  ms ≡ₚ (fun p => message_of (prod_map id (claimed_row (claim_now env) v) p)) <$> selected env b t ->
  msg_ID <$> ms ≡ₚ (selected env b t).*1.
Proof. intros ->. by rewrite <- list_fmap_compose. Qed.

Lemma Claim_length env b v t t' ms :
  Claim env b v t = (t', (ms, None)) -> length ms = length (selected env b t).
Proof. intros (_ & _ & Hp)%Claim_ok. by rewrite Hp, length_fmap. Qed.

Lemma Claim_ids env b v t t' ms :
  Claim env b v t = (t', (ms, None)) -> msg_ID <$> ms ≡ₚ (selected env b t).*1.
Proof. intros (_ & _ & Hp)%Claim_ok. by eapply ids_of_claim. Qed.

Lemma Claim_NoDup env b v t t' ms : Claim env b v t = (t', (ms, None)) -> NoDup (msg_ID <$> ms).
Proof. intros ->%Claim_ids. apply selected_NoDup. Qed.

Lemma Claim_fits env b v t t' ms : Claim env b v t = (t', (ms, None)) -> Z.of_nat (length ms) <= b.
Proof.
  intros Hc. rewrite (Claim_length _ _ _ _ _ _ Hc). apply Claim_ok in Hc as (Hb & _ & _). by apply selected_length.
Qed.

(** The row of a message, before and after. *)
Lemma Claim_rows env b v t t' ms err m :
  Claim env b v t = (t', (ms, err)) -> m ∈ ms -> exists r, t !! msg_ID m = Some r /\
    row_failed_at r = None /\ row_next_attempt_at r <= claim_now env /\ (msg_ID m ∉ claim_locked env) /\
    m = mkMessage (msg_ID m) (row_kind r) (row_payload r) (row_attempts r + 1) (row_max_attempts r) /\
    t' !! msg_ID m = Some (claimed_row (claim_now env) v r).
Proof.
  intros Hc Hm. apply (Claim_messages _ _ _ _ _ _ _ m Hc) in Hm as (r & Hr & -> & Hmr). exists r.
  pose proof (claimed_table_in env b v t _ _ Hr) as Ht. apply selected_elem in Hr as (Ht0 & Hf & Hd & Hl).
  by split_and!.
Qed.

Lemma Claim_others env b v t t' ms i :
  Claim env b v t = (t', (ms, None)) -> i ∉ (msg_ID <$> ms) -> t' !! i = t !! i.
Proof.
  intros Hc. rewrite (Claim_ids _ _ _ _ _ _ Hc). apply Claim_ok in Hc as (_ & -> & _). apply claimed_table_out.
Qed.

Lemma Claim_exhaustive env b v t t' ms i r :
  Claim env b v t = (t', (ms, None)) -> Z.of_nat (length ms) < b ->
  t !! i = Some r -> claimable env (i, r) -> i ∈ (msg_ID <$> ms).
Proof.
  intros Hc. rewrite (Claim_length _ _ _ _ _ _ Hc). rewrite (Claim_ids _ _ _ _ _ _ Hc). intros Hl Hi Hcl.
  apply (list_elem_of_fmap_2 fst _ (i, r)). by apply selected_complete.
Qed.

(** C14. A claim that answers nil takes distinct rows, at most [batchSize] of
    them, each live, due and not locked by another session; every message carries
    the row's id, kind, payload and limit and the attempt it starts; exactly the
    rows taken are charged an attempt and hidden until the visibility timeout;
    earlier rows go first, and a batch that is not full has left nothing
    claimable behind. *)
Theorem Claim_contract env b v t t' ms (Hclaim : Claim env b v t = (t', (ms, None))) :
  NoDup (msg_ID <$> ms) /\ Z.of_nat (length ms) <= b /\
  (forall m, m ∈ ms -> exists r, t !! msg_ID m = Some r /\
     row_failed_at r = None /\ row_next_attempt_at r <= claim_now env /\ (msg_ID m ∉ claim_locked env) /\
     m = mkMessage (msg_ID m) (row_kind r) (row_payload r) (row_attempts r + 1) (row_max_attempts r) /\
     t' !! msg_ID m = Some (mkRow (row_kind r) (row_payload r) (row_attempts r + 1) (row_max_attempts r)
       (claim_now env + interval v) None (row_last_error r) (row_created_at r))) /\
  (forall i, i ∉ (msg_ID <$> ms) -> t' !! i = t !! i) /\
  (Z.of_nat (length ms) < b -> forall i r, t !! i = Some r -> claimable env (i, r) -> i ∈ (msg_ID <$> ms)) /\
  (forall m j q, m ∈ ms -> t !! j = Some q -> claimable env (j, q) -> j ∉ (msg_ID <$> ms) ->
     exists r, t !! msg_ID m = Some r /\ row_next_attempt_at r <= row_next_attempt_at q).
Proof.
  split_and!.
  - by eapply Claim_NoDup.
  - by eapply Claim_fits.
  - intros m Hm. destruct (Claim_rows _ _ _ _ _ _ _ m Hclaim Hm) as (r & Hr & Hf & Hd & Hl & Hmr & Ht).
    exists r. split_and!; try done. rewrite Ht. unfold claimed_row. by rewrite Hf.
  - intros i. by apply (Claim_others env b v).
  - intros Hfull i r. by apply (Claim_exhaustive env b v t t').
  - intros m j q Hm Hj Hc Hout. destruct (Claim_messages _ _ _ _ _ _ _ m Hclaim Hm) as (r & Hr & _). exists r.
    split; [by apply selected_elem in Hr as [? _]|].
    eapply selected_earliest; [done..|]. contradict Hout.
    rewrite (Claim_ids _ _ _ _ _ _ Hclaim). by apply (list_elem_of_fmap_2 fst) in Hout.
Qed.
End contract.

(** ** Statements and their traces *)

Inductive op : Type :=
| OpEnqueue (env : Stmt) (new_id : result error uuid) (kind payload : string) (maxAttempts : Z)
| OpClaim (env : ClaimEnv) (batchSize visibility : Z)
| OpComplete (env : Stmt) (id : uuid)
| OpRetry (env : Stmt) (id : uuid) (backoff : Z) (reason : string)
| OpDefer (env : Stmt) (id : uuid) (delay : Z)
| OpFail (env : Stmt) (id : uuid) (reason : string)
| OpCountPending (env : Stmt)
| OpCountFailed (env : Stmt)
| OpDeleteOldFailed (env : Stmt) (retention : Z).

Section trace.
Context `{!PgServer}.
Implicit Types (t : Table).

Definition run_op (o : op) (t : Table) : Table :=
  match o with
  | OpEnqueue env new_id kind payload m => (Enqueue env new_id kind payload m t).1
  | OpClaim env b v => (Claim env b v t).1
  | OpComplete env id => (Complete env id t).1
  | OpRetry env id backoff reason => (Retry env id backoff reason t).1
  | OpDefer env id delay => (Defer env id delay t).1
  | OpFail env id reason => (Fail env id reason t).1
  | OpCountPending env => (CountPending env t).1
  | OpCountFailed env => (CountFailed env t).1
  | OpDeleteOldFailed env retention => (DeleteOldFailed env retention t).1
  end.

(** The one Go type that narrows an argument: [maxAttempts int16]. *)
Definition op_ok (o : op) : Prop :=
  match o with OpEnqueue _ _ _ _ m => is_int16 m | _ => True end.

(** Histories of the table: any replicas, in any order. *)
Inductive trace : Table -> list op -> Table -> Prop :=
| trace_nil t : trace t [] t
| trace_step t o os t' : op_ok o -> trace (run_op o t) os t' -> trace t (o :: os) t'.

Definition reachable (t : Table) : Prop := exists os, trace ∅ os t.

(** What one statement can do to the row [i]. *)
Inductive row_change (i : uuid) : op -> option Row -> option Row -> Prop :=
| change_none o x : row_change i o x x
| change_enqueue env kind payload stored m :
    kind <> "" -> text_ok kind = true -> jsonb_in payload = Some stored ->
    row_change i (OpEnqueue env (Ok i) kind payload m) None
      (Some (mkRow kind stored 0 (if m <=? 0 then defaultMaxAttempts else m)
               (stmt_now env) None None (stmt_now env)))
| change_claim env b v r :
    claimable env (i, r) -> row_attempts r + 1 < 2 ^ 15 ->
    row_change i (OpClaim env b v) (Some r) (Some (claimed_row (claim_now env) v r))
| change_complete env r : row_change i (OpComplete env i) (Some r) None
| change_retry env backoff reason r :
    (forall s, truncate reason = Some s -> text_ok s = true) ->
    row_change i (OpRetry env i backoff reason) (Some r)
      (Some (retried_row (stmt_now env) backoff (truncate reason) r))
| change_defer env delay r :
    row_change i (OpDefer env i delay) (Some r) (Some (deferred_row (stmt_now env) delay r))
| change_fail env reason r :
    row_failed_at r = None -> (forall s, truncate reason = Some s -> text_ok s = true) ->
    row_change i (OpFail env i reason) (Some r) (Some (failed_row (stmt_now env) (truncate reason) r))
| change_cleanup env retention r :
    expired (stmt_now env) retention r ->
    row_change i (OpDeleteOldFailed env retention) (Some r) None.

Lemma exec_table {A} env (sql : Table -> result error (Table * A)) t :
  (exec env sql t).1 = t \/ exists t' a, sql t = Ok (t', a) /\ (exec env sql t).1 = t'.
Proof.
  unfold exec. destruct (sql t) as [[t' a]|e]; [|by left].
  destruct (stmt_reply env) as [[e []]|]; [right|by left|right]; by exists t', a.
Qed.

Lemma finish_table {A} prefix (r : Table * result error A) : (finish prefix r).1 = r.1.
Proof. by destruct r as [? []]. Qed.

Lemma answer_table prefix r : (answer prefix r).1 = r.1.
Proof. by destruct r as [? []]. Qed.

Lemma sql_store_reason_ok id hit reason f t t' u :
  sql_store_reason id hit reason f t = Ok (t', u) ->
  (forall s, reason = Some s -> text_ok s = true) /\
  (t' = t \/ exists r, t !! id = Some r /\ hit r = true /\ t' = <[id := f r]> t).
Proof.
  intros Hsql.
  assert ((forall s, reason = Some s -> text_ok s = true) /\
          t' = if match t !! id with Some r => hit r | None => false end then alter f id t else t) as [Hr ->].
  { unfold sql_store_reason in Hsql. destruct reason as [s|]; simplify_eq; [|done].
    destruct (text_ok s) eqn:Hs; [|done]. cbn [negb] in Hsql.
    destruct (_ && _); [done|]. simplify_eq. split; [|done]. by intros ? [= <-]. }
  split; [done|]. destruct (t !! id) as [r|] eqn:Hi; [|by left].
  destruct (hit r) eqn:Hh; [|by left]. right. exists r. split_and!; try done.
  apply map_eq. intros j. destruct (decide (id = j)) as [->|].
  - by rewrite lookup_alter_eq, lookup_insert_eq, Hi.
  - by rewrite lookup_alter_ne, lookup_insert_ne.
Qed.

(** Every statement changes every row by one of these rules. *)
Lemma Enqueue_change env new_id kind payload m t i :
  row_change i (OpEnqueue env new_id kind payload m) (t !! i) ((Enqueue env new_id kind payload m t).1 !! i).
Proof.
  unfold Enqueue. case_bool_decide; [constructor|]. case_match; [constructor|].
  destruct new_id as [id|e]; [|constructor].
  destruct (exec_table env (sql_insert (stmt_now env) id kind payload (if m <=? 0 then defaultMaxAttempts else m)) t)
    as [Ht|(t' & a & Hsql & Ht)]; destruct (exec _ _ _) as [t'' [?|?]]; cbn in *; subst; try constructor;
    (unfold sql_insert in Hsql; destruct (text_ok kind) eqn:Hk; [|done];
     destruct (jsonb_in payload) as [stored|] eqn:Hj; [|done]; destruct (t !! id) eqn:Hi; [done|];
     cbn in Hsql; simplify_eq;
     destruct (decide (id = i)) as [<-|]; [|rewrite lookup_insert_ne by done; constructor];
     rewrite Hi, lookup_insert_eq; by constructor).
Qed.

Lemma Claim_change env b v t i :
  row_change i (OpClaim env b v) (t !! i) ((Claim env b v t).1 !! i).
Proof.
  destruct (Claim_table env b v t) as [->|[-> Ha]]; [constructor|].
  destruct (claimed_table_cases env b v t i) as [->|(r & Hin & -> & Hc & ->)]; constructor; eauto.
Qed.

Lemma Complete_change env id t i :
  row_change i (OpComplete env id) (t !! i) ((Complete env id t).1 !! i).
Proof.
  unfold Complete. rewrite finish_table.
  destruct (exec_table env (fun t => Ok (delete id t, ())) t) as [->|(? & ? & [= <- <-] & ->)]; [constructor|].
  destruct (decide (id = i)) as [<-|]; [|rewrite lookup_delete_ne by done; constructor].
  rewrite lookup_delete_eq. destruct (t !! id); constructor.
Qed.

Lemma Retry_change env id backoff reason t i :
  row_change i (OpRetry env id backoff reason) (t !! i) ((Retry env id backoff reason t).1 !! i).
Proof.
  unfold Retry. rewrite finish_table.
  destruct (exec_table env (sql_store_reason id (fun _ => true) (truncate reason)
              (retried_row (stmt_now env) backoff (truncate reason))) t) as [->|(t' & ? & Hsql & ->)]; [constructor|].
  apply sql_store_reason_ok in Hsql as [Hr [->|(r & Hi & _ & ->)]]; [constructor|].
  destruct (decide (id = i)) as [<-|]; [|rewrite lookup_insert_ne by done; constructor].
  rewrite Hi, lookup_insert_eq. by constructor.
Qed.

Lemma Defer_change env id delay t i :
  row_change i (OpDefer env id delay) (t !! i) ((Defer env id delay t).1 !! i).
Proof.
  unfold Defer. rewrite finish_table.
  destruct (exec_table env (fun t => Ok (alter (deferred_row (stmt_now env) delay) id t, ())) t)
    as [->|(? & ? & [= <- <-] & ->)]; [constructor|].
  destruct (decide (id = i)) as [<-|]; [|rewrite lookup_alter_ne by done; constructor].
  rewrite lookup_alter_eq. destruct (t !! id); constructor.
Qed.

Lemma Fail_change env id reason t i :
  row_change i (OpFail env id reason) (t !! i) ((Fail env id reason t).1 !! i).
Proof.
  unfold Fail. rewrite finish_table.
  destruct (exec_table env (sql_store_reason id not_failed (truncate reason)
              (failed_row (stmt_now env) (truncate reason))) t) as [->|(t' & ? & Hsql & ->)]; [constructor|].
  apply sql_store_reason_ok in Hsql as [Hr [->|(r & Hi & Hh & ->)]]; [constructor|].
  destruct (decide (id = i)) as [<-|]; [|rewrite lookup_insert_ne by done; constructor].
  rewrite Hi, lookup_insert_eq. constructor; [|done].
  unfold not_failed in Hh. by destruct (row_failed_at r).
Qed.

Lemma DeleteOldFailed_change env retention t i :
  row_change i (OpDeleteOldFailed env retention) (t !! i) ((DeleteOldFailed env retention t).1 !! i).
Proof.
  unfold DeleteOldFailed. rewrite answer_table.
  destruct (exec_table env (fun t => Ok (filter (fun p : N * Row => ~ expired (stmt_now env) retention p.2) t,
              count (expired (stmt_now env) retention) t)) t) as [->|(? & ? & [= <- <-] & ->)]; [constructor|].
  rewrite map_lookup_filter. destruct (t !! i) as [r|]; cbn; [|constructor].
  case_guard as Hx; cbn; [constructor|].
  by constructor.
Qed.

Lemma count_unchanged P `{!forall r, Decision (P r)} prefix env t :
  (answer prefix (exec env (fun t => Ok (t, count P t)) t)).1 = t.
Proof.
  rewrite answer_table.
  by destruct (exec_table env (fun t => Ok (t, count P t)) t) as [->|(? & ? & [= <- <-] & ->)].
Qed.

Lemma run_op_change o t i : row_change i o (t !! i) (run_op o t !! i).
Proof.
  destruct o; cbn [run_op];
    auto using Enqueue_change, Claim_change, Complete_change, Retry_change, Defer_change, Fail_change,
      DeleteOldFailed_change.
  - unfold CountPending. rewrite count_unchanged. constructor.
  - unfold CountFailed. rewrite count_unchanged. constructor.
Qed.

Lemma trace_app t os t' os' t'' : trace t os t' -> trace t' os' t'' -> trace t (os ++ os') t''.
Proof. induction 1; [done|]. intros. constructor; auto. Qed.

(** A property of single rows that every rule preserves holds of every row of
    every reachable table. *)
Lemma row_invariant (P : Row -> Prop) :
  (forall i o x r', op_ok o -> row_change i o x (Some r') -> (forall r, x = Some r -> P r) -> P r') ->
  forall t os t', trace t os t' -> map_Forall (fun _ => P) t -> map_Forall (fun _ => P) t'.
Proof.
  intros HP t os t'. induction 1 as [|t o os t' Ho _ IH]; [done|]. intros Ht. apply IH.
  intros i r' Hr'. pose proof (run_op_change o t i) as Hc. rewrite Hr' in Hc.
  eapply HP; [done..|]. intros r Hr. by apply (Ht i).
Qed.

(** ** Rows are well formed *)

(** [text_ok] texts of at most 512 characters, counters in range of their
    columns, a kind, a stored payload. *)
Definition row_ok (r : Row) : Prop :=
  row_kind r <> "" /\ text_ok (row_kind r) = true /\
  (exists payload, jsonb_in payload = Some (row_payload r)) /\
  0 <= row_attempts r < 2 ^ 15 /\ 1 <= row_max_attempts r < 2 ^ 15 /\
  (forall s, row_last_error r = Some s -> s <> "" /\ text_ok s = true /\ RuneCount s <= 512).

Lemma truncate_stored reason s :
  truncate reason = Some s -> s <> "" /\ RuneCount s <= 512.
Proof.
  intros Ht. destruct (truncate_runes _ _ Ht) as [Hr Hne]. split; [done|].
  unfold RuneCount. rewrite Hr, length_take. unfold maxErrorLength. lia.
Qed.

Lemma row_ok_change i o x r' :
  op_ok o -> row_change i o x (Some r') -> (forall r, x = Some r -> row_ok r) -> row_ok r'.
Proof.
  intros Ho Hc Hx. inversion Hc; subst; try (by apply Hx).
  1: { split_and!; cbn in *; unfold defaultMaxAttempts, is_int16 in *; try done; try lia; try (go_cases; lia).
       by exists payload. }
  all: destruct (Hx _ eq_refl) as (Hk & Htk & Hp & Ha & Hm & He); split_and!; cbn in *; try done; try lia.
  all: intros s Hs; destruct (truncate_stored _ _ Hs); auto.
Qed.

Lemma trace_rows_ok t os t' :
  trace t os t' -> map_Forall (fun _ => row_ok) t -> map_Forall (fun _ => row_ok) t'.
Proof. apply row_invariant, row_ok_change. Qed.

Lemma reachable_rows t : reachable t -> map_Forall (fun _ => row_ok) t.
Proof. intros [os Htr]. eapply trace_rows_ok; [done|]. apply map_Forall_empty. Qed.

(** C29. Type invariant of the table: in every history of enqueues, claims,
    completions, retries, defers, failures and cleanups, by any number of
    replicas and with any lost answers, every row keeps its columns in range: a
    non-empty kind, a stored payload, attempts in smallint, at least one allowed
    attempt, and an error text of at most 512 characters. *)
Theorem reachable_rows_ok t (Hr : reachable t) : map_Forall (fun _ => row_ok) t.
Proof.
  by apply reachable_rows.
Qed.

(** ** No message is lost *)

(** What identifies a message to its receiver. *)
Definition same_message (r r' : Row) : Prop :=
  row_kind r = row_kind r' /\ row_payload r = row_payload r' /\
  row_max_attempts r = row_max_attempts r' /\ row_created_at r = row_created_at r'.

(** The row had failed before the instant [T]. *)
Definition failed_before (r : Row) (T : Z) : Prop := exists f, row_failed_at r = Some f /\ f < T.

Lemma expired_failed_before now retention r :
  expired now retention r -> failed_before r (now - interval retention).
Proof. unfold expired, failed_before. destruct (row_failed_at r) as [f|]; [|done]. by exists f. Qed.

(** The statements that may remove the row [i] when it is [r]. *)
Definition removes (i : uuid) (r : Row) (o : op) : Prop :=
  (exists env, o = OpComplete env i) \/
  (exists env retention, o = OpDeleteOldFailed env retention /\
     failed_before r (stmt_now env - interval retention)).

Lemma row_change_kept i o r x :
  row_change i o (Some r) x -> (exists r', x = Some r' /\ same_message r r') \/ (x = None /\ removes i r o).
Proof.
  inversion 1; subst; try (left; by eexists).
  - right. split; [done|]. left. by eexists.
  - right. split; [done|]. right. eexists _, _. by split; [|apply expired_failed_before].
Qed.

(** The fate of a row over a history. *)
Lemma trace_row_fate t os t' i r :
  trace t os t' -> t !! i = Some r ->
  (exists r', t' !! i = Some r' /\ same_message r r') \/
  (exists os1 o os2 tm rm, os = os1 ++ o :: os2 /\ trace t os1 tm /\ tm !! i = Some rm /\
     same_message r rm /\ removes i rm o).
Proof.
  intros Htr. revert r. induction Htr as [t|t o os t' Ho Htr IH]; intros r Hi; [left; by exists r|].
  pose proof (run_op_change o t i) as Hc. rewrite Hi in Hc.
  apply row_change_kept in Hc as [(r1 & Hr1 & Hs)|[Hn Hrem]].
  - destruct (IH r1 Hr1) as [(r' & Hr' & Hs')|(os1 & o' & os2 & tm & rm & -> & Htm & Hrm & Hsm & Hrem)].
    + left. exists r'. split; [done|]. unfold same_message in *. intuition congruence.
    + right. exists (o :: os1), o', os2, tm, rm. split_and!; try done; [by constructor|].
      unfold same_message in *. intuition congruence.
  - right. exists [], o, os, t, r. split_and!; done || constructor.
Qed.

(** C4. No message is lost or altered: after any history, a message of the table
    is still there with the same kind, payload, limit and creation time, unless
    somewhere in the history it was completed, or it had failed longer ago than
    the retention and a cleanup removed it. *)
Theorem message_never_lost t os t' i r (Htr : trace t os t') (Hi : t !! i = Some r) :
  (exists r', t' !! i = Some r' /\ same_message r r') \/
  (exists os1 o os2 tm rm, os = os1 ++ o :: os2 /\ trace t os1 tm /\ tm !! i = Some rm /\
     same_message r rm /\ removes i rm o).
Proof. by apply trace_row_fate. Qed.

(** ** Leases *)

(** The row [i] is not claimable before the instant [T]. *)
Definition hidden_until (i : uuid) (T : Z) (t : Table) : Prop :=
  forall r, t !! i = Some r -> row_failed_at r <> None \/ T <= row_next_attempt_at r.

(** Statements that do not release the lease of [i]: claims before [T], and no
    retry, defer or enqueue of [i]. *)
Definition respects_lease (i : uuid) (T : Z) (o : op) : Prop :=
  match o with
  | OpClaim env _ _ => claim_now env < T
  | OpRetry _ id _ _ | OpDefer _ id _ => id <> i
  | OpEnqueue _ (Ok id) _ _ _ => id <> i
  | _ => True
  end.

Lemma hidden_kept i T o t :
  respects_lease i T o -> hidden_until i T t -> hidden_until i T (run_op o t).
Proof.
  intros Ho Ht r' Hr'. pose proof (run_op_change o t i) as Hc. rewrite Hr' in Hc.
  inversion Hc; subst; cbn in Ho; try done; try (by apply Ht); try (by left).
  match goal with H : claimable _ _ |- _ => destruct H as (Hf & Hd & _) end. cbn in *.
  assert (t !! i = Some r) as Hi by done. destruct (Ht r Hi) as [?|?]; [done|lia].
Qed.

Lemma hidden_trace i T t os t' :
  trace t os t' -> Forall (respects_lease i T) os -> hidden_until i T t -> hidden_until i T t'.
Proof.
  induction 1 as [|t o os t' Ho _ IH]; [done|]. intros [Ho1 Hos]%Forall_cons Ht.
  apply IH; [done|]. by apply hidden_kept.
Qed.

Lemma hidden_not_claimed i T env b v t t' ms err :
  hidden_until i T t -> claim_now env < T -> Claim env b v t = (t', (ms, err)) -> i ∉ (msg_ID <$> ms).
Proof.
  intros Ht Hnow Hc Hin. apply list_elem_of_fmap in Hin as (m & -> & Hm).
  apply (Claim_messages _ _ _ _ _ _ _ m Hc) in Hm as (r & Hr & _).
  apply selected_elem in Hr as (Hr & Hf & Hd & _). cbn in *.
  destruct (Ht r Hr) as [?|?]; [done|lia].
Qed.

(** C3. A lease is exclusive: once a claim has handed out a message, no claim of
    any replica at an instant before the end of its lease (the claim's [now()]
    plus the whole seconds of the visibility timeout) hands it out again,
    whatever statements run in between, as long as nobody reschedules that
    message; completions, failures and cleanups cannot break the lease. *)
Theorem lease_is_exclusive env b v t t1 ms err os t2 env2 b2 v2 t3 ms2 err2 m
  (Hclaim : Claim env b v t = (t1, (ms, err))) (Hm : m ∈ ms)
  (Htr : trace t1 os t2)
  (Hos : Forall (respects_lease (msg_ID m) (claim_now env + interval v)) os)
  (Hnow : claim_now env2 < claim_now env + interval v)
  (Hclaim2 : Claim env2 b2 v2 t2 = (t3, (ms2, err2))) :
  msg_ID m ∉ (msg_ID <$> ms2).
Proof.
  eapply hidden_not_claimed; [|done|done]. eapply hidden_trace; [done..|].
  destruct (Claim_messages _ _ _ _ _ _ _ m Hclaim Hm) as (r & Hr & -> & _).
  intros r' Hr'. rewrite (claimed_table_in _ _ _ _ _ _ Hr) in Hr'. simplify_eq. by right.
Qed.

(** C28. A crashed worker does not lose its messages: if nothing has touched the
    row of a claimed message since the claim, then every claim at or after the end
    of the lease that does not fill its batch hands the message out again (while
    the attempt counter fits its column and no session locks the row). *)
Theorem abandoned_message_returns env b v t t1 ms err t2 env2 b2 v2 t3 ms2 m
  (Hclaim : Claim env b v t = (t1, (ms, err))) (Hm : m ∈ ms)
  (Hsame : t2 !! msg_ID m = t1 !! msg_ID m)
  (Hnow : claim_now env + interval v <= claim_now env2)
  (Hlock : msg_ID m ∉ claim_locked env2)
  (Hclaim2 : Claim env2 b2 v2 t2 = (t3, (ms2, None)))
  (Hroom : Z.of_nat (length ms2) < b2) :
  msg_ID m ∈ (msg_ID <$> ms2).
Proof.
  destruct (Claim_messages _ _ _ _ _ _ _ m Hclaim Hm) as (r & Hr & -> & _).
  rewrite (claimed_table_in _ _ _ _ _ _ Hr) in Hsame.
  apply selected_elem in Hr as (_ & Hf & _).
  by eapply (Claim_exhaustive env2 b2 v2 t2 t3).
Qed.

(** ** The life of a message under temporary errors *)

Lemma exec_ok {A} env (sql : Table -> result error (Table * A)) t t' a :
  exec env sql t = (t', Ok a) -> sql t = Ok (t', a).
Proof.
  unfold exec. destruct (sql t) as [[t1 a1]|e]; [|done].
  destruct (stmt_reply env) as [[e []]|]; by intros [= <- <-].
Qed.

Lemma finish_ok {A} prefix (r : Table * result error A) t' :
  finish prefix r = (t', None) -> exists a, r = (t', Ok a).
Proof. destruct r as [t [a|e]]; [|done]. intros [= ->]. by exists a. Qed.

Lemma Retry_ok env i backoff reason t t' r :
  Retry env i backoff reason t = (t', None) -> t !! i = Some r ->
  t' !! i = Some (retried_row (stmt_now env) backoff (truncate reason) r).
Proof.
  intros Hret Hi. apply finish_ok in Hret as [u Hu]. apply exec_ok in Hu.
  unfold sql_store_reason in Hu. rewrite Hi in Hu.
  assert (t' = alter (retried_row (stmt_now env) backoff (truncate reason)) i t) as ->.
  { destruct (truncate reason); simplify_eq; [|done]. by repeat case_match; simplify_eq. }
  by rewrite lookup_alter_eq, Hi.
Qed.

Lemma Defer_ok env i delay t t' r :
  Defer env i delay t = (t', None) -> t !! i = Some r ->
  t' !! i = Some (deferred_row (stmt_now env) delay r).
Proof.
  intros Hd Hi. apply finish_ok in Hd as [u Hu]. apply exec_ok in Hu. simplify_eq.
  by rewrite lookup_alter_eq, Hi.
Qed.

(** One delivery that fails with a temporary error: a claim that hands out [i]
    and the retry of [i]; other rows may change in between. *)
Inductive attempt (i : uuid) : Table -> Table -> Prop :=
| attempt_intro env b v t t1 ms err t2 env' backoff reason t3 :
    Claim env b v t = (t1, (ms, err)) -> i ∈ (msg_ID <$> ms) ->
    t2 !! i = t1 !! i ->
    Retry env' i backoff reason t2 = (t3, None) ->
    attempt i t t3.

Inductive attempts (i : uuid) : nat -> Table -> Table -> Prop :=
| attempts_none t : attempts i 0 t t
| attempts_others n t t' t'' : t' !! i = t !! i -> attempts i n t' t'' -> attempts i n t t''
| attempts_one n t t' t'' : attempt i t t' -> attempts i n t' t'' -> attempts i (S n) t t''.

Lemma attempt_row i t t' r :
  attempt i t t' -> t !! i = Some r ->
  row_failed_at r = None /\
  exists r', t' !! i = Some r' /\ row_attempts r' = row_attempts r + 1 /\
    row_max_attempts r' = row_max_attempts r /\
    (row_failed_at r' = None <-> row_attempts r + 1 < row_max_attempts r).
Proof.
  destruct 1 as [env b v t t1 ms err t2 env' backoff reason t3 Hc Hin Heq Hret]. intros Hi.
  apply list_elem_of_fmap in Hin as (m & -> & Hm).
  destruct (Claim_messages _ _ _ _ _ _ _ m Hc Hm) as (r0 & Hr0 & -> & _).
  rewrite (claimed_table_in _ _ _ _ _ _ Hr0) in Heq.
  apply selected_elem in Hr0 as (Hr0 & Hf & _). simplify_eq. split; [done|].
  rewrite (Retry_ok _ _ _ _ _ _ _ Hret Heq). eexists. split_and!; try done.
  cbn. case_match; go_bool; split; (done || lia).
Qed.

(** A failed row is never attempted again. *)
Lemma attempts_stop i n t t' r :
  attempts i n t t' -> t !! i = Some r -> row_failed_at r <> None -> n = 0%nat.
Proof.
  induction 1 as [t|n t t1 t2 Heq _ IH|n t t1 t2 H1 _ _]; intros Hi Hf; [done| |].
  - apply IH; [|done]. by rewrite Heq.
  - by destruct (attempt_row _ _ _ _ H1 Hi) as [? _].
Qed.

Lemma attempts_zero i t t' : attempts i 0 t t' -> t' !! i = t !! i.
Proof.
  intros Hatt. remember 0%nat as n eqn:Hn.
  induction Hatt as [t|n t t1 t2 Heq _ IH|]; [done|by rewrite IH|done].
Qed.

Lemma attempts_count i n t t' r :
  attempts i n t t' -> t !! i = Some r ->
  row_failed_at r = None -> row_attempts r < row_max_attempts r ->
  row_attempts r + Z.of_nat n <= row_max_attempts r /\
  exists r', t' !! i = Some r' /\ row_attempts r' = row_attempts r + Z.of_nat n /\
    row_max_attempts r' = row_max_attempts r /\
    (row_failed_at r' = None <-> row_attempts r + Z.of_nat n < row_max_attempts r).
Proof.
  intros Hatt. revert r. induction Hatt as [t|n t t1 t2 Heq _ IH|n t t1 t2 H1 H2 IH]; intros r Hi Hl Hlt.
  - split; [lia|]. exists r. split_and!; try done; [lia|]. split; [lia|done].
  - rewrite <- Heq in Hi. by apply IH.
  - destruct (attempt_row _ _ _ _ H1 Hi) as (_ & r1 & Hr1 & Ha1 & Hm1 & Hf1).
    destruct (decide (row_attempts r + 1 < row_max_attempts r)) as [Hlt'|Hge].
    + destruct (IH r1 Hr1) as (Hle & r' & ? & ? & ? & Hf); [apply Hf1; lia|lia|].
      split; [lia|]. exists r'. split_and!; try done; try lia. rewrite Hf. lia.
    + assert (n = 0%nat) as -> by (eapply attempts_stop; [done..|]; rewrite Hf1; lia).
      apply attempts_zero in H2 as Heq. split; [lia|].
      exists r1. rewrite Heq. split_and!; try done; try lia.
Qed.

(** C25. A message under temporary errors is attempted at most [max_attempts]
    times: starting from a fresh row, after [n] deliveries that each ended with a
    retry, the row has [n] attempts, [n] never exceeds the limit, and the row has
    failed exactly when [n] has reached it (so it is never claimed again). *)
Theorem attempts_are_bounded i n t t' r
  (Hatt : attempts i n t t') (Hi : t !! i = Some r)
  (Hfresh : row_attempts r = 0) (Hlive : row_failed_at r = None) (Hmax : 1 <= row_max_attempts r) :
  Z.of_nat n <= row_max_attempts r /\
  exists r', t' !! i = Some r' /\ row_attempts r' = Z.of_nat n /\
    row_max_attempts r' = row_max_attempts r /\
    (row_failed_at r' <> None <-> Z.of_nat n = row_max_attempts r).
Proof.
  destruct (attempts_count _ _ _ _ _ Hatt Hi Hlive) as (Hle & r' & Hr' & Ha & Hm & Hf); [lia|].
  split; [lia|]. exists r'. split_and!; try done; [lia|]. rewrite Hf. lia.
Qed.

(** A conflict costs no attempt: when a claimed message is deferred, its row is
    the row before the claim except for the next attempt, which is due after the
    delay; in particular a deferred message never runs out of attempts. *)
Theorem defer_returns_the_attempt env b v t t1 ms err m t2 env' delay t3
  (Hreach : reachable t)
  (Hclaim : Claim env b v t = (t1, (ms, err))) (Hm : m ∈ ms)
  (Hsame : t2 !! msg_ID m = t1 !! msg_ID m)
  (Hdefer : Defer env' (msg_ID m) delay t2 = (t3, None)) :
  exists r, t !! msg_ID m = Some r /\
    t3 !! msg_ID m = Some (mkRow (row_kind r) (row_payload r) (row_attempts r) (row_max_attempts r)
      (stmt_now env' + interval delay) None (row_last_error r) (row_created_at r)).
Proof.
  destruct (Claim_messages _ _ _ _ _ _ _ m Hclaim Hm) as (r & Hr & -> & _).
  rewrite (claimed_table_in _ _ _ _ _ _ Hr) in Hsame.
  apply selected_elem in Hr as (Hr & Hf & _). exists r. split; [done|].
  rewrite (Defer_ok _ _ _ _ _ _ Hdefer Hsame).
  destruct (reachable_rows t Hreach _ _ Hr) as (_ & _ & _ & Ha & _).
  cbn in Hf. unfold deferred_row, claimed_row. cbn. rewrite Hf. do 2 f_equal. lia.
Qed.

Lemma unstorable_truncate reason :
  reason <> "" -> ValidString reason = false -> RuneCount reason <= 512 -> truncate reason = Some reason.
Proof. intros Hne _ Hl. apply truncate_short; [done|]. unfold RuneCount, maxErrorLength in *. lia. Qed.

(** A limit of [truncate]: a short error text that is not valid UTF-8 goes to
    the server unchanged and is rejected, so neither [Retry] nor [Fail] takes
    effect; a message at its last attempt is then not marked failed, and its row
    stays live and becomes claimable again when the lease ends.  Only texts over
    512 runes are made valid. *)
Theorem invalid_text_is_not_recorded (HL : PgServerLaws) env i backoff reason t r
  (Hne : reason <> "") (Hinvalid : ValidString reason = false) (Hshort : RuneCount reason <= 512)
  (Hi : t !! i = Some r) (Hlive : row_failed_at r = None) :
  (exists err, Retry env i backoff reason t = (t, Some err)) /\
  (exists err, Fail env i reason t = (t, Some err)) /\
  (forall cenv, row_next_attempt_at r <= claim_now cenv -> (i ∉ claim_locked cenv) -> claimable cenv (i, r)).
Proof.
  assert (text_ok reason = false) as Hbad.
  { apply not_true_iff_false. intros Hok. apply text_ok_valid in Hok. congruence. }
  unfold Retry, Fail, exec, sql_store_reason. rewrite unstorable_truncate by done.
  rewrite Hbad. cbn. split_and!; [by eexists..|done].
Qed.
End trace.

(** ** Concrete histories *)

(** A server that stores JSON as it is and checks the encoding of texts. *)
#[export] Instance plain_server : PgServer := { jsonb_in s := Some s; text_ok := ValidString }.
#[export] Instance plain_server_laws : PgServerLaws.
Proof. split. done. Qed.

Definition at_ (now : Z) : Stmt := mkStmt now None.
Definition claim_at (now : Z) : ClaimEnv := mkClaimEnv now ∅ (fun _ => 0) (fun _ => 0) AllRows.

(** Two messages enqueued, the second with one allowed attempt. *)
Definition history : list op :=
  [ OpEnqueue (at_ 0) (Ok 1%N) "email" "{}" 2; OpEnqueue (at_ 5) (Ok 2%N) "sms" "{}" 1 ].
Definition table0 : Table := foldl (fun t o => run_op o t) ∅ history.

Lemma trace_run t os : Forall op_ok os -> trace t os (foldl (fun t o => run_op o t) t os).
Proof. intros Hos. revert t. induction Hos; intros t; constructor; auto. Qed.

Lemma table0_reachable : reachable table0.
Proof. exists history. apply trace_run. repeat constructor; cbn; lia. Qed.

Definition claim1 := Claim (claim_at 10) 20 (2 * Minute) table0.
Definition message1 : Message := mkMessage 1 "email" "{}" 1 2.

Example reachable_rows_ok_witness : map_Forall (fun _ => row_ok) table0.
Proof. apply (reachable_rows_ok table0 table0_reachable). Defined.

Example Claim_contract_witness :
  claim1.2 = ([message1; mkMessage 2 "sms" "{}" 1 1], None) /\ NoDup (msg_ID <$> claim1.2.1).
Proof.
  split; [vm_compute; reflexivity|].
  apply (Claim_contract (claim_at 10) 20 (2 * Minute) table0 claim1.1 claim1.2.1). vm_compute. reflexivity.
Defined.

Definition retry2 : op := OpRetry (at_ 20) 2 Second "timeout".

Definition history2 : list op := [OpClaim (claim_at 10) 20 (2 * Minute); retry2].
Definition table2 : Table := foldl (fun t o => run_op o t) table0 history2.

Lemma history2_trace : trace table0 history2 table2.
Proof. apply trace_run. repeat constructor. Qed.

Example message_never_lost_witness :
  exists r', table2 !! 2%N = Some r' /\
    row_payload r' = "{}" /\ row_failed_at r' = Some 20.
Proof.
  assert (exists r, table0 !! 2%N = Some r) as [r Hr] by (eexists; vm_compute; reflexivity).
  destruct (message_never_lost table0 history2 table2 2 r history2_trace Hr) as [(r' & Hr' & _)|(os1 & o & os2 & tm & rm & Heq & _ & _ & _ & Hrem)].
  - exists r'. split; [done|]. vm_compute in Hr'. by simplify_eq.
  - exfalso. assert (o = OpClaim (claim_at 10) 20 (2 * Minute) \/ o = retry2) as [-> | ->].
    { unfold history2 in Heq. destruct os1 as [|? [|? [|? ?]]]; cbn in Heq; simplify_eq; auto. }
    + by destruct Hrem as [[? ?]|(? & ? & ? & _)].
    + by destruct Hrem as [[? ?]|(? & ? & ? & _)].
Defined.

(** A second replica claims a minute later, after the first has rescheduled the
    other message: the lease of message 1 holds. *)
Example lease_is_exclusive_witness :
  let t2 := foldl (fun t o => run_op o t) claim1.1 [retry2] in
  1%N ∉ (msg_ID <$> (Claim (claim_at (10 + Minute)) 20 (2 * Minute) t2).2.1).
Proof.
  intros t2. refine (lease_is_exclusive (claim_at 10) 20 (2 * Minute) table0 claim1.1 claim1.2.1 claim1.2.2 [retry2] t2
    (claim_at (10 + Minute)) 20 (2 * Minute) (Claim (claim_at (10 + Minute)) 20 (2 * Minute) t2).1 _ (Claim (claim_at (10 + Minute)) 20 (2 * Minute) t2).2.2 message1 _ _ _ _ _ _).
  - vm_compute. reflexivity.
  - vm_compute. left.
  - apply trace_run. repeat constructor.
  - constructor; [cbn; lia|constructor].
  - vm_compute. reflexivity.
  - vm_compute. reflexivity.
Defined.

Example abandoned_message_returns_witness :
  1%N ∈ (msg_ID <$> (Claim (claim_at (10 + 2 * Minute)) 20 (2 * Minute) claim1.1).2.1).
Proof.
  refine (abandoned_message_returns (claim_at 10) 20 (2 * Minute) table0 claim1.1 claim1.2.1 claim1.2.2 claim1.1
    (claim_at (10 + 2 * Minute)) 20 (2 * Minute) (Claim (claim_at (10 + 2 * Minute)) 20 (2 * Minute) claim1.1).1 _
    message1 _ _ eq_refl _ _ _ _); try (vm_compute; reflexivity).
  - vm_compute. left.
  - vm_compute. discriminate.
  - apply not_elem_of_empty.
Defined.

(** Both attempts of message 1 fail: it is failed, after exactly two. *)
Definition again : Z := 10 + 2 * Second.
Definition after_first : Table := (Retry (at_ 20) 1 Second "timeout" claim1.1).1.
Definition claim2 := Claim (claim_at again) 20 (2 * Minute) after_first.
Definition after_second : Table := (Retry (at_ again) 1 Second "timeout" claim2.1).1.

Lemma two_attempts : attempts 1 2 table0 after_second.
Proof.
  eapply attempts_one; [|eapply attempts_one; [|constructor]].
  - eapply (attempt_intro 1 (claim_at 10) 20 (2 * Minute) table0 claim1.1 claim1.2.1 claim1.2.2 claim1.1
      (at_ 20) Second "timeout" after_first); [vm_compute; reflexivity|vm_compute; left|done|vm_compute; reflexivity].
  - eapply (attempt_intro 1 (claim_at again) 20 (2 * Minute) after_first claim2.1 claim2.2.1 claim2.2.2 claim2.1
      (at_ again) Second "timeout"); [vm_compute; reflexivity|vm_compute; left|done|vm_compute; reflexivity].
Qed.

Example attempts_are_bounded_witness :
  exists r', after_second !! 1%N = Some r' /\ row_attempts r' = 2 /\ row_failed_at r' <> None.
Proof.
  assert (exists r, table0 !! 1%N = Some r /\ row_attempts r = 0 /\ row_failed_at r = None /\ row_max_attempts r = 2)
    as (r & Hr & Ha & Hf & Hm) by (eexists; vm_compute; done).
  destruct (attempts_are_bounded 1 2 table0 after_second r two_attempts Hr Ha Hf) as (_ & r' & Hr' & Ha' & _ & Hf');
    [lia|].
  exists r'. split_and!; [done|lia|]. apply Hf'. lia.
Defined.

Example defer_returns_the_attempt_witness :
  exists r, table0 !! 1%N = Some r /\
    (Defer (at_ 20) 1 (15 * Second) claim1.1).1 !! 1%N =
    Some (mkRow (row_kind r) (row_payload r) (row_attempts r) (row_max_attempts r) (20 + 15 * Second) None
            (row_last_error r) (row_created_at r)).
Proof.
  refine (defer_returns_the_attempt (claim_at 10) 20 (2 * Minute) table0 claim1.1 claim1.2.1 claim1.2.2 message1
    claim1.1 (at_ 20) (15 * Second) _ table0_reachable _ _ eq_refl _); try (vm_compute; reflexivity).
  vm_compute. left.
Defined.

(** The one-byte text 0xFF at the last attempt of message 2. *)
Definition garbage : string := of_bytes [255].

Example invalid_text_is_not_recorded_witness :
  (exists err, Retry (at_ 20) 2 Second garbage claim1.1 = (claim1.1, Some err)) /\
  claimable (claim_at (10 + 2 * Minute)) (2%N, mkRow "sms" "{}" 1 1 (10 + 2 * Minute) None None 5).
Proof.
  destruct (invalid_text_is_not_recorded plain_server_laws (at_ 20) 2 Second garbage claim1.1
    (mkRow "sms" "{}" 1 1 (10 + 2 * Minute) None None 5)) as (H1 & _ & H3); try (vm_compute; (reflexivity || discriminate)).
  split; [done|]. apply H3; [done|apply not_elem_of_empty].
Defined.
