(* ===== verification/OutboxWorker.v ===== *)
(** * [outbox/worker.go], [terminal.go], [metrics.go]: the delivery worker

    The worker is written against the interface [Queue], a class here as it is an
    interface in Go; [Repository] is its instance.  The environment of a delivery
    is what [Send] answers, the state of the context afterwards and the
    environment of the queue call; the goroutines of a batch share nothing but the
    queue and the counters and each makes one queue call, so a batch is its
    deliveries in some order.  Log lines are not modelled. *)

From S2P Require Export OutboxTable.

(** ** terminal.go *)

Definition Terminal (err : option error) : option error :=
  match err with None => None | Some e => Some (terminalError e) end.

Definition is_terminal (e : error) : option unit :=
  match e with terminalError _ => Some () | _ => None end.

Definition IsTerminal (err : option error) : outcome bool :=
  match err with
  | None => Ret false
  | Some e => r ← errors_As is_terminal e; Ret (bool_decide (r = Some ()))
  end.

Definition Conflict (err : option error) : option error :=
  match err with None => None | Some e => Some (conflictError e) end.

Definition is_conflict (e : error) : option unit :=
  match e with conflictError _ => Some () | _ => None end.

Definition IsConflict (err : option error) : outcome bool :=
  match err with
  | None => Ret false
  | Some e => r ← errors_As is_conflict e; Ret (bool_decide (r = Some ()))
  end.

(** ** metrics.go *)

Definition resultSent : string := "sent".
Definition resultRetried : string := "retried".
Definition resultDeferred : string := "deferred".
Definition resultFailed : string := "failed".

(** The gauges and the counter by kind and result; a nil [*Metrics] is [None]. *)
Record Metrics := mkMetrics {
  pending : Z;
  failed : Z;
  messages : gmap (string * string) Z
}.

(** [NewMetrics(registry)]; [MustRegister] panics on a registry that already has
    collectors of these names. *)
Definition NewMetrics (taken : bool) : outcome Metrics :=
  if taken then Panic "duplicate metrics collector registration attempted" else Ret (mkMetrics 0 0 ∅).

(** Label values are valid UTF-8, since kinds come from a text column;
    [WithLabelValues] panics on others. *)
Definition observe (m : option Metrics) (kind result : string) : option Metrics :=
  match m with
  | None => None
  | Some m => Some (mkMetrics (pending m) (failed m)
                      (partial_alter (fun n => Some (default 0 n + 1)) (kind, result) (messages m)))
  end.

Definition depth (m : option Metrics) (pending failed : Z) : option Metrics :=
  match m with
  | None => None
  | Some m => Some (mkMetrics pending failed (messages m))
  end.

(** ** Config *)

Record Config := mkConfig {
  PollInterval : Z;
  BatchSize : Z;          (** int32 *)
  Concurrency : Z;        (** int *)
  VisibilityTimeout : Z;
  SendTimeout : Z;
  BaseBackoff : Z;
  MaxBackoff : Z;
  ConflictBackoff : Z;
  FailedRetention : Z;
  CleanupInterval : Z
}.

(** [if x <= 0 { x = d }] *)
Definition or_default (x d : Z) : Z := if x <=? 0 then d else x.

Definition withDefaults (c : Config) : Config :=
  mkConfig
    (or_default (PollInterval c) (2 * Second))
    (or_default (BatchSize c) 20)
    (or_default (Concurrency c) 8)
    (or_default (VisibilityTimeout c) (2 * Minute))
    (or_default (SendTimeout c) (30 * Second))
    (or_default (BaseBackoff c) (30 * Second))
    (or_default (MaxBackoff c) (30 * Minute))
    (or_default (ConflictBackoff c) (15 * Second))
    (or_default (FailedRetention c) (7 * 24 * Hour))
    (or_default (CleanupInterval c) Hour).

(** The error of [validate]; its text also prints the configured values. *)
Definition lease_too_short : error := errors_New "outbox: аренда короче обработки пачки".

Definition validate (c : Config) : outcome (option error) :=
  if Concurrency c =? 0 then Panic "runtime error: integer divide by zero"
  else
    let waves := int64 (Z.quot (int64 (int64 (BatchSize c + Concurrency c) - 1)) (Concurrency c)) in
    let needed := int64 (waves * SendTimeout c) in
    Ret (if needed >? VisibilityTimeout c then Some lease_too_short else None).

(** ** Backoff *)

Fixpoint backoff_loop (rounds : nat) (backoff max_backoff : Z) : Z :=
  match rounds with
  | O => backoff
  | S rounds =>
      let backoff := int64 (backoff * 2) in
      if backoff >=? max_backoff then max_backoff else backoff_loop rounds backoff max_backoff
  end.

Definition backoffFor (c : Config) (attempts : Z) : Z :=
  backoff_loop (Z.to_nat (Z.max (attempts - 1) 0)) (BaseBackoff c) (MaxBackoff c).

(** ** Queue *)

(** [Q] is the state behind the queue, [CE] and [E] the environments of a claim
    and of any other call. *)
Class Queue (Q CE E : Type) := {
  q_claim : CE -> Z -> Z -> Q -> Q * (list Message * option error);
  q_complete : E -> uuid -> Q -> Q * option error;
  q_retry : E -> uuid -> Z -> string -> Q -> Q * option error;
  q_defer : E -> uuid -> Z -> Q -> Q * option error;
  q_fail : E -> uuid -> string -> Q -> Q * option error;
  q_delete_old_failed : E -> Z -> Q -> Q * (Z * option error)
}.

(** [Counter], which a queue may also implement. *)
Class Counter (Q E : Type) := {
  q_count_pending : E -> Q -> Q * (Z * option error);
  q_count_failed : E -> Q -> Q * (Z * option error)
}.

#[export] Instance repository_queue `{!PgServer} : Queue Table ClaimEnv Stmt := {
  q_claim := Claim;
  q_complete := Complete;
  q_retry := Retry;
  q_defer := Defer;
  q_fail := Fail;
  q_delete_old_failed := DeleteOldFailed
}.

#[export] Instance repository_counter `{!PgServer} : Counter Table Stmt := {
  q_count_pending := CountPending;
  q_count_failed := CountFailed
}.

Section worker.
Context {Q CE E : Type} `{!Queue Q CE E}.

(** The queue and the metrics. *)
Abbreviation World := (Q * option Metrics)%type.

(** The environment of one delivery: what [Send] answers, [ctx.Err()] after it,
    and the environment of the queue call. *)
Record Delivery := mkDelivery {
  d_send : outcome (option error);
  d_ctx : option error;
  d_env : E
}.

Definition deliver (cfg : Config) (d : Delivery) (message : Message) (w : World) : outcome World :=
  let '(q, metrics) := w in
  err ← d_send d;
  match err with
  | None =>
      match q_complete (d_env d) (msg_ID message) q with
      | (q, Some _) => Ret (q, metrics)
      | (q, None) => Ret (q, observe metrics (msg_Kind message) resultSent)
      end
  | Some e =>
      canceled ← errors_Is (d_ctx d) Canceled;
      if canceled : bool then Ret w else
      terminal ← IsTerminal err;
      if terminal : bool then
        reason ← error_text e;
        let '(q, _) := q_fail (d_env d) (msg_ID message) reason q in
        Ret (q, observe metrics (msg_Kind message) resultFailed)
      else
        conflict ← IsConflict err;
        if conflict : bool then
          let '(q, _) := q_defer (d_env d) (msg_ID message) (ConflictBackoff cfg) q in
          Ret (q, observe metrics (msg_Kind message) resultDeferred)
        else
          let backoff := backoffFor cfg (msg_Attempts message) in
          let metrics :=
            if msg_Attempts message >=? msg_MaxAttempts message
            then observe metrics (msg_Kind message) resultFailed
            else observe metrics (msg_Kind message) resultRetried in
          reason ← error_text e;
          let '(q, _) := q_retry (d_env d) (msg_ID message) backoff reason q in
          Ret (q, metrics)
  end.

(** The deliveries of a batch in the order of their queue calls. *)
Fixpoint deliver_all (cfg : Config) (ds : uuid -> Delivery) (batch : list Message) (w : World) : outcome World :=
  match batch with
  | [] => Ret w
  | m :: batch => w ← deliver cfg (ds (msg_ID m)) m w; deliver_all cfg ds batch w
  end.

(** The environment of one [processBatch]; [b_order] is the order in which the
    goroutines get to the queue. *)
Record Batch := mkBatch {
  b_claim : CE;
  b_deliveries : uuid -> Delivery;
  b_order : list Message -> list Message
}.

Definition processBatch (cfg : Config) (b : Batch) (w : World) : outcome (World * (Z * option error)) :=
  let '(q, metrics) := w in
  match q_claim (b_claim b) (BatchSize cfg) (VisibilityTimeout cfg) q with
  | (q, (_, Some err)) => Ret ((q, metrics), (0, Some err))
  | (q, ([], None)) => Ret ((q, metrics), (0, None))
  | (q, (messages, None)) =>
      w ← deliver_all cfg (b_deliveries b) (b_order b messages) (q, metrics);
      Ret (w, (Z.of_nat (length messages), None))
  end.

Definition cleanupFailed (cfg : Config) (env : E) (w : World) : World :=
  ((q_delete_old_failed env (FailedRetention cfg) w.1).1, w.2).

(** [counter] is the result of the type assertion [w.queue.(Counter)]. *)
Definition observeDepth (counter : option (Counter Q E)) (env_pending env_failed : E) (w : World) : World :=
  let '(q, metrics) := w in
  match counter, metrics with
  | Some c, Some _ =>
      match q_count_pending env_pending q with
      | (q, (_, Some _)) => (q, metrics)
      | (q, (pending, None)) =>
          match q_count_failed env_failed q with
          | (q, (_, Some _)) => (q, metrics)
          | (q, (failed, None)) => (q, depth metrics pending failed)
          end
      end
  | _, _ => w
  end.

(** ** Run *)

(** The environment of one round of the loop: the batch, [ctx.Err()] after it,
    whether the cleanup ticker has fired, and whether the pause ends by
    cancellation. *)
Record Round := mkRound {
  r_batch : Batch;
  r_ctx : option error;
  r_cleanup : option (E * E * E);
  r_cancelled : bool
}.

Inductive next : Type := Return | Continue | Poll.

Definition run_round (cfg : Config) (counter : option (Counter Q E)) (r : Round) (w : World)
  : outcome (World * next) :=
  res ← processBatch cfg (r_batch r) w;
  let '(w, (processed, err)) := res in
  match err, r_ctx r with
  | Some _, Some _ => Ret (w, Return)
  | _, _ =>
      let w := match r_cleanup r with
               | Some (e1, e2, e3) => observeDepth counter e2 e3 (cleanupFailed cfg e1 w)
               | None => w
               end in
      if bool_decide (err = None) && (processed >=? BatchSize cfg) then Ret (w, Continue)
      else if r_cancelled r then Ret (w, Return)
      else Ret (w, Poll)
  end.

(** [Run] over the rounds its environment offers: the world and, when the loop
    has returned (always nil), the rounds left. *)
Fixpoint Run (cfg : Config) (counter : option (Counter Q E)) (rounds : list Round) (w : World)
  : outcome (World * option (list Round)) :=
  match rounds with
  | [] => Ret (w, None)
  | r :: rounds =>
      res ← run_round cfg counter r w;
      match res with
      | (w, Return) => Ret (w, Some rounds)
      | (w, _) => Run cfg counter rounds w
      end
  end.

(** ** NewWorker *)

Record Worker := mkWorker {
  w_cfg : Config;
  w_metrics : option Metrics
}.

(** [WithMetrics(registry)]: [None] is a nil registry, [Some taken] says whether
    the registry already has the collectors. *)
Definition WithMetrics (registry : option bool) (w : Worker) : outcome Worker :=
  match registry with
  | Some taken => m ← NewMetrics taken; Ret (mkWorker (w_cfg w) (Some m))
  | None => Ret w
  end.

Fixpoint apply_options (opts : list (Worker -> outcome Worker)) (w : Worker) : outcome Worker :=
  match opts with
  | [] => Ret w
  | opt :: opts => w ← opt w; apply_options opts w
  end.

Definition NewWorker (cfg : Config) (opts : list (Worker -> outcome Worker))
  : outcome (option Worker * option error) :=
  let cfg := withDefaults cfg in
  err ← validate cfg;
  match err with
  | Some e => Ret (None, Some e)
  | None => worker ← apply_options opts (mkWorker cfg None); Ret (Some worker, None)
  end.
End worker.
Arguments Delivery : clear implicits.
Arguments Batch : clear implicits.
Arguments Round : clear implicits.
