(* ===== verification/OutboxConfig.v ===== *)
(** * The worker's configuration: backoff, validation and the batch schedule

    Closed form of [backoffFor], what [NewWorker] accepts, and what the
    acceptance is for: no send of an accepted worker's batch outlives the lease
    its claim took, but for the time it takes to settle messages.  The concurrency limit of [errgroup] is an assumption on the
    start and end times of the goroutines of a batch. *)

From S2P Require Export OutboxWorker.

(** ** Backoff *)

Lemma backoff_loop_closed n b m :
  0 < b < 2 ^ 62 -> 0 < m <= 2 ^ 62 ->
  backoff_loop (S n) b m = Z.min m (b * 2 ^ Z.of_nat (S n)).
Proof.
  revert b. induction n as [|n IH]; intros b Hb Hm; cbn [backoff_loop];
    rewrite int64_id by (unfold is_int64; lia); case_match eqn:Hge; go_bool.
  - cbn. lia.
  - cbn. lia.
  - rewrite (Nat2Z.inj_succ (S n)), Z.pow_succ_r by lia.
    assert (1 <= 2 ^ Z.of_nat (S n)) by (apply (Z.pow_le_mono_r 2 0); lia). nia.
  - cbn [backoff_loop] in IH. rewrite IH by lia.
    rewrite (Nat2Z.inj_succ (S n)), Z.pow_succ_r by lia. f_equal. lia.
Qed.

(** C30. [backoffFor] is exponential with a cap: the first attempt waits
    [BaseBackoff] and attempt [a > 1] waits [min MaxBackoff (BaseBackoff *
    2^(a-1))], without overflow for bounds below 2^62 ns (146 years) and any
    number of attempts; it never decreases with the attempts, and it stays
    between the two bounds when they are in order.  (The first wait is not
    capped: with [BaseBackoff > MaxBackoff] it exceeds [MaxBackoff].) *)
Theorem backoffFor_closed_form (c : Config) (a : Z)
  (Hbase : 0 < BaseBackoff c < 2 ^ 62) (Hmax : 0 < MaxBackoff c <= 2 ^ 62) :
  backoffFor c a = (if a <=? 1 then BaseBackoff c else Z.min (MaxBackoff c) (BaseBackoff c * 2 ^ (a - 1))) /\
  (BaseBackoff c <= MaxBackoff c -> BaseBackoff c <= backoffFor c a <= MaxBackoff c) /\
  (BaseBackoff c <= MaxBackoff c -> backoffFor c a <= backoffFor c (a + 1)) /\
  (MaxBackoff c < BaseBackoff c -> a <= 1 -> MaxBackoff c < backoffFor c a).
Proof.
  assert (forall a, backoffFor c a =
    if a <=? 1 then BaseBackoff c else Z.min (MaxBackoff c) (BaseBackoff c * 2 ^ (a - 1))) as Hform.
  { clear a. intros a. unfold backoffFor. case_match eqn:Ha; go_bool.
    - by rewrite Z.max_r by lia.
    - rewrite Z.max_l by lia. replace (Z.to_nat (a - 1)) with (S (Z.to_nat (a - 2))) by lia.
      rewrite backoff_loop_closed by done. do 3 f_equal. lia. }
  rewrite !Hform.
  assert (forall k, 0 <= k -> 1 <= 2 ^ k) as Hpow by (intros k Hk; apply (Z.pow_le_mono_r 2 0); lia).
  split_and!; [done| | |].
  - intros. case_match; go_bool; [lia|]. specialize (Hpow (a - 1)). nia.
  - intros. replace (a + 1 - 1) with a by lia. do 2 case_match; go_bool; try lia.
    + specialize (Hpow a). nia.
    + replace a with (Z.succ (a - 1)) at 2 by lia. rewrite Z.pow_succ_r by lia. specialize (Hpow (a - 1)). nia.
  - intros. case_match; go_bool; lia.
Qed.

(** ** Validation *)

Lemma or_default_pos x d : 0 < d -> 0 < or_default x d.
Proof. unfold or_default. intros. go_cases; lia. Qed.

Lemma or_default_idem x d : 0 < x -> or_default x d = x.
Proof. unfold or_default. intros. go_cases; lia. Qed.

(** Every field is positive. *)
Definition config_positive (c : Config) : Prop :=
  0 < PollInterval c /\ 0 < BatchSize c /\ 0 < Concurrency c /\ 0 < VisibilityTimeout c /\
  0 < SendTimeout c /\ 0 < BaseBackoff c /\ 0 < MaxBackoff c /\ 0 < ConflictBackoff c /\
  0 < FailedRetention c /\ 0 < CleanupInterval c.

Lemma withDefaults_positive c : config_positive (withDefaults c).
Proof.
  unfold config_positive, withDefaults; cbn. split_and!; apply or_default_pos; vm_compute; done.
Qed.

Lemma withDefaults_id c : config_positive c -> withDefaults c = c.
Proof.
  destruct c. unfold config_positive, withDefaults; cbn. intros. destruct_and!.
  by rewrite !or_default_idem.
Qed.

(** [ceil(BatchSize / Concurrency)], the waves a full batch takes. *)
Definition waves (c : Config) : Z := (BatchSize c + Concurrency c - 1) / Concurrency c.

(** The ranges in which [validate] does not wrap around. *)
Definition config_small (c : Config) : Prop :=
  BatchSize c < 2 ^ 31 /\ Concurrency c < 2 ^ 62 /\ waves c * SendTimeout c < 2 ^ 63.

Lemma validate_exact c :
  config_positive c -> config_small c ->
  validate c = Ret (if waves c * SendTimeout c <=? VisibilityTimeout c then None else Some lease_too_short).
Proof.
  unfold config_positive, config_small, validate. intros Hp (Hb & Hc & Hw). destruct_and!.
  rewrite (proj2 (Z.eqb_neq _ _)) by lia.
  assert (0 <= waves c <= BatchSize c + Concurrency c - 1) as Hwaves.
  { unfold waves. split; [apply Z.div_pos; lia|]. apply Z.div_le_upper_bound; nia. }
  rewrite (int64_id (_ + _)) by (unfold is_int64; lia).
  rewrite (int64_id (_ - 1)) by (unfold is_int64; lia).
  rewrite Z.quot_div_nonneg by lia. fold (waves c).
  rewrite (int64_id (waves c)) by (unfold is_int64; lia).
  rewrite int64_id by (unfold is_int64; nia).
  f_equal. rewrite Z.gtb_ltb. by destruct (Z.ltb_spec (VisibilityTimeout c) (waves c * SendTimeout c)),
    (Z.leb_spec (waves c * SendTimeout c) (VisibilityTimeout c)); try lia.
Qed.

Definition has_registry (registries : list (option bool)) : bool :=
  existsb (fun r => bool_decide (is_Some r)) registries.

Lemma apply_registries c registries m :
  Some true ∉ registries ->
  apply_options (WithMetrics <$> registries) (mkWorker c m) =
  Ret (mkWorker c (if has_registry registries then Some (mkMetrics 0 0 ∅) else m)).
Proof.
  unfold has_registry.
  revert m. induction registries as [|[[]|] rs IH]; intros m Hfree; [done|by destruct Hfree; left|..];
    cbn; rewrite IH by (contradict Hfree; by right); [by destruct (existsb _ rs)|done].
Qed.

(** [NewWorker] fills every non-positive field with a positive default and
    keeps the positive ones; on registries that are free it never panics (the
    division by [Concurrency] comes after the defaults) and, when the arithmetic
    of [validate] does not wrap, answers a worker exactly when
    [ceil(BatchSize / Concurrency)] sends one after another fit in the visibility
    timeout; a refused configuration gives no worker and registers nothing. *)
Theorem NewWorker_accepts (cfg : Config) (registries : list (option bool))
  (Hsmall : config_small (withDefaults cfg)) (Hfree : Some true ∉ registries) :
  let c := withDefaults cfg in
  config_positive c /\ (config_positive cfg -> c = cfg) /\
  NewWorker cfg (WithMetrics <$> registries) =
    Ret (if waves c * SendTimeout c <=? VisibilityTimeout c
         then (Some (mkWorker c (if has_registry registries then Some (mkMetrics 0 0 ∅) else None)), None)
         else (None, Some lease_too_short)).
Proof.
  intros c. pose proof (withDefaults_positive cfg : config_positive c) as Hpos.
  split_and!; [done|apply withDefaults_id|].
  unfold NewWorker. fold c. rewrite validate_exact by done. cbn [mbind outcome_bind].
  destruct (_ <=? _); [|done]. by rewrite apply_registries.
Qed.

(** ** The schedule of a batch *)

(** Delivery [i] of a batch of [n] that begins at [t0] runs from [start i] to
    [finish i].  Documented for an [errgroup] with limit [c]: [Go] is called for
    the messages in order and waits only while [c] goroutines are active. *)
Definition active (start finish : nat -> Z) (i : nat) (t : Z) : list nat :=
  filter (fun j => start j <= t < finish j) (seq 0 i).

Record errgroup_schedule (c n : nat) (t0 : Z) (start finish : nat -> Z) : Prop := {
  go_waits i t :
    (i < n)%nat -> (match i with O => t0 | S j => start j end) <= t < start i ->
    (c <= length (active start finish i t))%nat
}.

Lemma filter_seq_length (P : nat -> Prop) `{!forall j, Decision (P j)} k i :
  (forall j, (j < i)%nat -> P j -> (k <= j)%nat) ->
  (length (filter P (seq 0 i)) <= i - k)%nat.
Proof.
  intros HP. induction i as [|i IH]; [cbn; lia|].
  rewrite seq_S, filter_app, filter_cons, filter_nil, length_app. cbn [Nat.add].
  assert (length (filter P (seq 0 i)) <= i - k)%nat by (apply IH; intros; apply HP; [lia|done]).
  case_decide as Hi; cbn; [|lia]. apply HP in Hi; lia.
Qed.

(** A delivery waits at most for the waves before its own. *)
Lemma schedule_bound c n t0 start finish T i :
  (0 < c)%nat -> errgroup_schedule c n t0 start finish -> 0 <= T ->
  (forall j, (j < n)%nat -> finish j <= start j + T) ->
  (i < n)%nat -> start i <= t0 + Z.of_nat (i / c) * T.
Proof.
  intros Hc Hs HT Hlen. induction (lt_wf i) as [i _ IH]. intros Hi.
  destruct (Z.le_gt_cases (start i) (t0 + Z.of_nat (i / c) * T)) as [|Hlate]; [done|]. exfalso.
  assert (forall j, (j < i)%nat -> start j <= t0 + Z.of_nat (j / c) * T) as IH' by (intros; apply IH; lia).
  pose proof (go_waits _ _ _ _ _ Hs i (t0 + Z.of_nat (i / c) * T) Hi) as Hw.
  assert (c <= i - c * (i / c))%nat as Hcount.
  { etrans; [apply Hw; split; [|done]|].
    - destruct i as [|i]; [cbn; nia|]. etrans; [apply IH'; lia|].
      pose proof (Nat.Div0.div_le_mono i (S i) c). nia.
    - apply filter_seq_length. intros j Hj [_ Hf].
      specialize (IH' j Hj). specialize (Hlen j ltac:(lia)).
      assert (i / c <= j / c)%nat as Hd by nia.
      pose proof (Nat.Div0.mul_div_le j c). nia. }
  pose proof (Nat.mod_upper_bound i c). pose proof (Nat.div_mod_eq i c). lia.
Qed.

Lemma wave_of_index c n i :
  (0 < c)%nat -> (i < n)%nat -> Z.of_nat (i / c) + 1 <= (Z.of_nat n + Z.of_nat c - 1) / Z.of_nat c.
Proof.
  intros Hc Hi. apply Z.div_le_lower_bound; [lia|]. pose proof (Nat.Div0.mul_div_le i c). nia.
Qed.

(** The wave of a message of a batch. *)
Lemma last_wave c n i :
  0 < Concurrency c -> (i < n)%nat -> Z.of_nat n <= BatchSize c ->
  0 <= Z.of_nat (i / Z.to_nat (Concurrency c)) /\ Z.of_nat (i / Z.to_nat (Concurrency c)) + 1 <= waves c.
Proof.
  intros Hc Hi Hn. split; [lia|]. pose proof (wave_of_index (Z.to_nat (Concurrency c)) n i ltac:(lia) Hi) as Hw.
  rewrite Z2Nat.id in Hw by lia. etrans; [exact Hw|]. apply Z.div_le_mono; lia.
Qed.

Section lease.
Context `{!PgServer}.

(** C26. What [validate] makes sure of, and what it leaves out.  An accepted worker
    claims a batch; each send ends within [SendTimeout] of the start of its delivery,
    when its context does (the sender obeys it), and the delivery, whose last statement has no time limit,
    [settle] after its send.  Then under the concurrency limit every send, the last one
    included, has ended a visibility timeout after the batch began, but for the time
    the waves before it took to settle: with deliveries that settle at once no send
    outlives the lease.  A delivery ends at most one settling later.  Both outlive the
    lease of their row by no more than that, the time between the claim's [now()] and
    the start of the batch and the fraction of a second that
    [int32(visibility.Seconds())] drops. *)
Theorem batch_ends_within_lease (cfg : Config) (opts : list (Worker -> outcome Worker)) (w : Worker)
  (env : ClaimEnv) (t t' : Table) (ms : list Message) (t0 settle : Z) (start sent finish : nat -> Z)
  (Hsmall : config_small (withDefaults cfg))
  (Hnew : NewWorker cfg opts = Ret (Some w, None))
  (Hclaim : Claim env (BatchSize (withDefaults cfg)) (VisibilityTimeout (withDefaults cfg)) t = (t', (ms, None)))
  (Hsched : errgroup_schedule (Z.to_nat (Concurrency (withDefaults cfg))) (length ms) t0 start finish)
  (Hsend : forall i, (i < length ms)%nat -> sent i <= start i + SendTimeout (withDefaults cfg))
  (Hsettle : 0 <= settle /\ forall i, (i < length ms)%nat -> finish i <= sent i + settle) :
  forall i m, ms !! i = Some m ->
    let late := Z.of_nat (i / Z.to_nat (Concurrency (withDefaults cfg))) * settle in
    sent i <= t0 + VisibilityTimeout (withDefaults cfg) + late /\
    finish i <= t0 + VisibilityTimeout (withDefaults cfg) + late + settle /\
    late + settle <= waves (withDefaults cfg) * settle /\
    exists r, t' !! msg_ID m = Some r /\
      sent i <= row_next_attempt_at r + late + (t0 - claim_now env) +
        (VisibilityTimeout (withDefaults cfg) - interval (VisibilityTimeout (withDefaults cfg))).
Proof.
  intros i m Hi. set (c := withDefaults cfg) in *. cbn zeta.
  pose proof (withDefaults_positive cfg : config_positive c) as Hpos.
  unfold NewWorker in Hnew. fold c in Hnew. rewrite validate_exact in Hnew by done.
  destruct (waves c * SendTimeout c <=? VisibilityTimeout c) eqn:Hfit; [|done]. apply Z.leb_le in Hfit. clear Hnew.
  pose proof (Claim_fits _ _ _ _ _ _ Hclaim) as Hlen.
  destruct (Claim_rows _ _ _ _ _ _ _ m Hclaim) as (r & _ & _ & _ & _ & _ & Hr); [by eapply list_elem_of_lookup_2|].
  apply lookup_lt_Some in Hi. destruct Hsettle as [Hsettle0 Hsettle].
  unfold config_positive in Hpos. destruct_and!.
  destruct (last_wave c (length ms) i) as [Hw Hw']; [done..|].
  assert (start i <= t0 + Z.of_nat (i / Z.to_nat (Concurrency c)) * (SendTimeout c + settle)) as Hstart.
  { eapply schedule_bound; [lia|done|lia| |done]. intros k Hk. specialize (Hsend k Hk). pose proof (Hsettle k Hk). lia. }
  set (k := Z.of_nat (i / Z.to_nat (Concurrency c))) in *. specialize (Hsend i Hi). pose proof (Hsettle i Hi).
  assert ((k + 1) * SendTimeout c <= waves c * SendTimeout c) by (apply Z.mul_le_mono_nonneg_r; lia).
  assert ((k + 1) * settle <= waves c * settle) by (apply Z.mul_le_mono_nonneg_r; lia).
  assert (sent i <= t0 + VisibilityTimeout c + k * settle) by lia.
  split_and!; [lia..|]. eexists. split; [exact Hr|]. cbn [row_next_attempt_at claimed_row]. lia.
Qed.
End lease.

(** ** The default configuration *)

Definition default_config : Config := withDefaults (mkConfig 0 0 0 0 0 0 0 0 0 0).

Lemma default_small : config_small default_config.
Proof. vm_compute. done. Qed.

Example backoffFor_closed_form_witness :
  map (backoffFor default_config) [1; 2; 3; 6; 7; 32767] =
  map (fun s => s * Second) [30; 60; 120; 960; 1800; 1800] /\
  backoffFor default_config 7 = Z.min (30 * Minute) (30 * Second * 2 ^ 6).
Proof.
  split; [vm_compute; reflexivity|].
  apply (backoffFor_closed_form default_config 7); vm_compute; done.
Defined.

Example NewWorker_accepts_witness :
  NewWorker default_config (WithMetrics <$> [Some false]) =
    Ret (Some (mkWorker default_config (Some (mkMetrics 0 0 ∅))), None) /\
  waves default_config = 3.
Proof.
  split; [|vm_compute; reflexivity].
  destruct (NewWorker_accepts default_config [Some false]) as (_ & _ & Hnew);
    [vm_compute; done|by intros [|[]%elem_of_nil]%elem_of_cons|].
  rewrite Hnew. vm_compute. reflexivity.
Defined.

(** The two messages of [table0] sent one after the other by a worker with one
    goroutine, thirty seconds each. *)
Definition one_at_a_time : Config := mkConfig 0 2 1 Minute (30 * Second) 0 0 0 0 0.
Definition claim_two := Claim (claim_at 10) 2 Minute table0.
Definition sequential_start (i : nat) : Z := 10 + Z.of_nat i * (30 * Second).
Definition sequential_sent (i : nat) : Z := sequential_start i + 30 * Second.
Definition sequential_finish (i : nat) : Z := sequential_start i + 30 * Second.

Lemma sequential_schedule : errgroup_schedule 1 2 10 sequential_start sequential_finish.
Proof.
  split. intros i t Hi Ht. unfold active, sequential_finish, sequential_start, Second in *.
  destruct i as [|[|i]]; [lia| |lia]. cbn [seq].
  rewrite filter_cons, decide_True by (cbn in *; lia).
  cbn. lia.
Qed.

Example batch_ends_within_lease_witness : sequential_sent 1 <= 10 + Minute /\ sequential_finish 1 <= 10 + Minute.
Proof.
  destruct (batch_ends_within_lease one_at_a_time [] (mkWorker (withDefaults one_at_a_time) None)
    (claim_at 10) table0 claim_two.1 claim_two.2.1 10 0 sequential_start sequential_sent sequential_finish) with (i := 1%nat)
    (m := mkMessage 2 "sms" "{}" 1 1) as (H1 & H2 & _).
  - vm_compute. done.
  - vm_compute. reflexivity.
  - vm_compute. reflexivity.
  - apply sequential_schedule.
  - intros. vm_compute (SendTimeout _). unfold sequential_sent, Second. lia.
  - split; [lia|]. intros. unfold sequential_finish, sequential_sent. lia.
  - vm_compute. reflexivity.
  - split; [exact H1|exact H2].
Defined.

(** The same worker with statements that take a second: it is accepted all the same,
    and the second message is still being sent when its lease has ended. *)
Definition slow_start (i : nat) : Z := 10 + Z.of_nat i * (31 * Second).
Definition slow_sent (i : nat) : Z := slow_start i + 30 * Second.
Definition slow_finish (i : nat) : Z := slow_sent i + Second.

Lemma settling_outlives_the_lease :
  NewWorker one_at_a_time [] = Ret (Some (mkWorker (withDefaults one_at_a_time) None), None) /\
  errgroup_schedule 1 2 10 slow_start slow_finish /\
  row_next_attempt_at <$> claim_two.1 !! 2%N = Some (10 + Minute) /\ 10 + Minute < slow_sent 1.
Proof.
  split_and!; [by vm_compute| |by vm_compute|by vm_compute].
  split. intros i t Hi Ht. unfold active, slow_finish, slow_sent, slow_start, Second in *.
  destruct i as [|[|i]]; [lia| |lia]. cbn [seq].
  rewrite filter_cons, decide_True by (cbn in *; lia). cbn. lia.
Qed.
