(* ===== verification/OutboxDelivery.v ===== *)
(** * What a delivery and a batch do to the table

    Abstractly, a delivery has a verdict, read off the error tree that [Send]
    answered, and the verdict decides what becomes of the row and which counter
    moves; [deliver] and [processBatch] are proved to refine that.  Order
    independence of a batch is proved once against [QueueLaws], the interface a
    queue has to offer, and [Repository] is shown to offer it. *)

From S2P Require Export OutboxWorker.

(** ** Classification of a send *)

Inductive verdict : Type := Sent | Abandoned | Rejected | Conflicted | Temporary.

(** Some error of the tree passes the test. *)
Definition has (f : error -> option unit) (e : error) : bool :=
  existsb (fun e => bool_decide (f e = Some ())) (preorder e).

Definition is_canceled (err : option error) : bool :=
  match err with Some e => has (is_sentinel 1) e | None => false end.

(** Cancellation of the worker's own context comes first, then the markers, a
    terminal one before a conflict. *)
Definition verdict_of (send ctx : option error) : verdict :=
  match send with
  | None => Sent
  | Some e =>
      if is_canceled ctx then Abandoned
      else if has is_terminal e then Rejected
      else if has is_conflict e then Conflicted
      else Temporary
  end.

(** The row of a delivered message, given the text of the error. *)
Definition row_after (cfg : Config) (now : Z) (text : string) (v : verdict) (r : Row) : option Row :=
  match v with
  | Sent => None
  | Abandoned => Some r
  | Rejected =>
      Some (mkRow (row_kind r) (row_payload r) (row_attempts r) (row_max_attempts r)
              (row_next_attempt_at r) (Some now) (truncate text) (row_created_at r))
  | Conflicted =>
      Some (mkRow (row_kind r) (row_payload r) (row_attempts r - 1) (row_max_attempts r)
              (now + interval (ConflictBackoff cfg)) (row_failed_at r) (row_last_error r) (row_created_at r))
  | Temporary =>
      Some (mkRow (row_kind r) (row_payload r) (row_attempts r) (row_max_attempts r)
              (now + interval (backoffFor cfg (row_attempts r)))
              (if row_attempts r <? row_max_attempts r then None else Some now)
              (truncate text) (row_created_at r))
  end.

(** The counter that moves. *)
Definition counted (v : verdict) (r : Row) : option string :=
  match v with
  | Sent => Some "sent"
  | Abandoned => None
  | Rejected => Some "failed"
  | Conflicted => Some "deferred"
  | Temporary => Some (if row_attempts r <? row_max_attempts r then "retried" else "failed")
  end.

Definition count_result (metrics : option Metrics) (kind : string) (label : option string) : option Metrics :=
  match label with Some l => observe metrics kind l | None => metrics end.

(** ** Classification lemmas *)

Lemma has_first f e : bool_decide (first_some f (preorder e) = Some ()) = has f e.
Proof.
  unfold has. induction (preorder e) as [|x l IH]; [done|]. cbn.
  destruct (f x) as [[]|]; [done|]. by rewrite IH.
Qed.

Lemma errors_As_has f e :
  nil_free e = true -> (r ← errors_As f e; Ret (bool_decide (r = Some ()))) = Ret (has f e).
Proof. intros He. rewrite errors_As_nil_free by done. cbn. by rewrite has_first. Qed.

Lemma IsTerminal_has e : nil_free e = true -> IsTerminal (Some e) = Ret (has is_terminal e).
Proof. apply errors_As_has. Qed.

Lemma IsConflict_has e : nil_free e = true -> IsConflict (Some e) = Ret (has is_conflict e).
Proof. apply errors_As_has. Qed.

(** What [Send] and the context can answer without making the worker panic. *)
Definition no_nil (err : option error) : bool := match err with Some e => nil_free e | None => true end.

Lemma is_canceled_spec err : no_nil err = true -> errors_Is err Canceled = Ret (is_canceled err).
Proof. destruct err as [e|]; [|done]. apply errors_As_has. Qed.

(** ** One delivery as one queue call *)

Inductive settle_call (E : Type) : Type :=
| SComplete (env : E) (id : uuid)
| SRetry (env : E) (id : uuid) (backoff : Z) (reason : string)
| SDefer (env : E) (id : uuid) (delay : Z)
| SFail (env : E) (id : uuid) (reason : string).
Arguments SComplete {E}. Arguments SRetry {E}. Arguments SDefer {E}. Arguments SFail {E}.

Definition settle_id {E} (s : settle_call E) : uuid :=
  match s with SComplete _ i | SRetry _ i _ _ | SDefer _ i _ | SFail _ i _ => i end.

Definition run_settle {Q CE E} `{!Queue Q CE E} (s : settle_call E) (q : Q) : Q * option error :=
  match s with
  | SComplete env i => q_complete env i q
  | SRetry env i backoff reason => q_retry env i backoff reason q
  | SDefer env i delay => q_defer env i delay q
  | SFail env i reason => q_fail env i reason q
  end.

(** What a queue promises to the worker: the messages of a claim are distinct,
    and calls that settle different messages do not see each other. *)
Class QueueLaws (Q CE E : Type) `{!Queue Q CE E} : Prop := {
  claim_distinct ce b v (q q' : Q) ms :
    q_claim ce b v q = (q', (ms, None)) -> NoDup (msg_ID <$> ms);
  settle_commute (a b : settle_call E) (q : Q) :
    settle_id a <> settle_id b ->
    run_settle b (run_settle a q).1 = ((run_settle a (run_settle b q).1).1, (run_settle b q).2)
}.

Section deliver.
Context {Q CE E : Type} `{!Queue Q CE E}.

(** The queue call of a delivery, the counter it moves and whether that needs the
    call's success. *)
Definition plan (cfg : Config) (d : Delivery E) (m : Message)
  : outcome (option (settle_call E * string * bool)) :=
  err ← d_send d;
  match err with
  | None => Ret (Some (SComplete (d_env d) (msg_ID m), resultSent, true))
  | Some e =>
      canceled ← errors_Is (d_ctx d) Canceled;
      if canceled : bool then Ret None else
      terminal ← IsTerminal err;
      if terminal : bool then
        reason ← error_text e; Ret (Some (SFail (d_env d) (msg_ID m) reason, resultFailed, false))
      else
        conflict ← IsConflict err;
        if conflict : bool then
          Ret (Some (SDefer (d_env d) (msg_ID m) (ConflictBackoff cfg), resultDeferred, false))
        else
          reason ← error_text e;
          Ret (Some (SRetry (d_env d) (msg_ID m) (backoffFor cfg (msg_Attempts m)) reason,
            if msg_Attempts m >=? msg_MaxAttempts m then resultFailed else resultRetried, false))
  end.

Definition carry_out (kind : string) (p : option (settle_call E * string * bool)) (w : Q * option Metrics)
  : Q * option Metrics :=
  match p with
  | None => w
  | Some (call, label, on_success) =>
      let '(q, err) := run_settle call w.1 in
      (q, match err with Some _ => if on_success : bool then w.2 else observe w.2 kind label
                       | None => observe w.2 kind label end)
  end.

Lemma deliver_plan cfg d m w :
  deliver cfg d m w = (p ← plan cfg d m; Ret (carry_out (msg_Kind m) p w)).
Proof.
  destruct w as [q mt]. unfold deliver, plan.
  destruct (d_send d) as [[e|]|]; cbn; [| |done].
  - destruct (errors_Is (d_ctx d) Canceled) as [[]|]; cbn; [done| |done].
    destruct (IsTerminal (Some e)) as [[]|] eqn:Ht; cbn in Ht |- *; rewrite ?Ht; cbn; [| |done].
    + destruct (error_text e); cbn; [|done]. by destruct (q_fail _ _ _ _) as [? []].
    + destruct (IsConflict (Some e)) as [[]|] eqn:Hc; cbn in Hc |- *; rewrite ?Hc; cbn; [| |done].
      * by destruct (q_defer _ _ _ _) as [? []].
      * destruct (error_text e); cbn; [|done]. destruct (q_retry _ _ _ _ _) as [? []]; by case_match.
  - by destruct (q_complete _ _ _) as [? []].
Qed.

Lemma plan_id cfg d m call label b :
  plan cfg d m = Ret (Some (call, label, b)) -> settle_id call = msg_ID m.
Proof.
  unfold plan. destruct (d_send d) as [[e|]|]; cbn; [| |done].
  - destruct (errors_Is (d_ctx d) Canceled) as [[]|]; cbn; [done| |done].
    destruct (IsTerminal (Some e)) as [[]|] eqn:Ht; cbn in Ht |- *; rewrite ?Ht; cbn; [| |done].
    + destruct (error_text e); cbn; [|done]. by intros [= <- <- <-].
    + destruct (IsConflict (Some e)) as [[]|] eqn:Hc; cbn in Hc |- *; rewrite ?Hc; cbn; [| |done].
      * by intros [= <- <- <-].
      * destruct (error_text e); cbn; [|done]. by intros [= <- <- <-].
  - by intros [= <- <- <-].
Qed.

(** ** Batches in any order *)

Lemma partial_alter_comm `{Countable K} {A} (f g : option A -> option A) (i j : K) (m : gmap K A) :
  i <> j -> partial_alter g j (partial_alter f i m) = partial_alter f i (partial_alter g j m).
Proof.
  intros Hij. apply map_eq. intros k.
  destruct (decide (i = k)), (decide (j = k)); simplify_eq;
    by repeat first [rewrite lookup_partial_alter_eq | rewrite lookup_partial_alter_ne by done].
Qed.

Context `{!QueueLaws Q CE E}.

Lemma observe_commute mt k l k' l' : observe (observe mt k l) k' l' = observe (observe mt k' l') k l.
Proof.
  destruct mt as [mt|]; [|done]. cbn. f_equal. f_equal.
  destruct (decide ((k, l) = (k', l'))) as [[= -> ->]|Hne]; [done|].
  by apply partial_alter_comm.
Qed.

Lemma carry_out_commute cfg d d' m m' p p' w :
  plan cfg d m = Ret p -> plan cfg d' m' = Ret p' -> msg_ID m <> msg_ID m' ->
  carry_out (msg_Kind m') p' (carry_out (msg_Kind m) p w) =
  carry_out (msg_Kind m) p (carry_out (msg_Kind m') p' w).
Proof.
  intros Hp Hp' Hne. destruct p as [[[a la] sa]|], p' as [[[b lb] sb]|]; [|done..].
  apply plan_id in Hp, Hp'. destruct w as [q mt]. cbn.
  assert (settle_id a <> settle_id b) as Hid by congruence.
  pose proof (settle_commute a b q Hid) as Hab.
  pose proof (settle_commute b a q (not_eq_sym Hid)) as Hba.
  destruct (run_settle a q) as [qa ea], (run_settle b q) as [qb eb]. cbn in *.
  destruct (run_settle b qa) as [qab eab], (run_settle a qb) as [qba eba]. cbn in *. simplify_eq.
  f_equal. destruct ea, eb, sa, sb; auto using observe_commute.
Qed.

Lemma deliver_all_perm cfg ds ms ms' w w' :
  ms ≡ₚ ms' -> NoDup (msg_ID <$> ms) ->
  deliver_all cfg ds ms w = Ret w' -> deliver_all cfg ds ms' w = Ret w'.
Proof.
  intros Hp. revert w w'. induction Hp as [|m ms ms' Hp IH|m m' ms|ms1 ms2 ms3 Hp1 IH1 Hp2 IH2]; intros w w' Hnd.
  - done.
  - cbn in *. destruct (deliver cfg (ds (msg_ID m)) m w); cbn; [|done].
    apply IH. by apply NoDup_cons in Hnd as [_ Hnd].
  - cbn in *. apply NoDup_cons in Hnd as [Hm _]. rewrite !deliver_plan.
    destruct (plan cfg (ds (msg_ID m')) m') as [p'|] eqn:Hp'; cbn; [|done]. rewrite deliver_plan.
    destruct (plan cfg (ds (msg_ID m)) m) as [p|] eqn:Hp; cbn; [|done].
    rewrite deliver_plan, Hp'. cbn.
    rewrite (carry_out_commute cfg (ds (msg_ID m')) (ds (msg_ID m)) m' m) by (done || set_solver). done.
  - intros Hd. apply IH2; [by rewrite <- Hp1|]. by apply IH1.
Qed.

(** C27. The order of a batch does not matter: if the goroutines of a batch reach
    the queue in one order without a panic, then in every other order the batch
    leaves the same queue and the same counters and answers the same, whatever
    each call answers and even when a message is settled with an error. *)
Theorem batch_order_irrelevant cfg ce ds order order' w res
  (Hres : processBatch cfg (mkBatch ce ds order) w = Ret res)
  (Horder : forall ms, order ms ≡ₚ ms) (Horder' : forall ms, order' ms ≡ₚ ms) :
  processBatch cfg (mkBatch ce ds order') w = Ret res.
Proof.
  destruct w as [q mt]. unfold processBatch in *. cbn in *.
  destruct (q_claim ce (BatchSize cfg) (VisibilityTimeout cfg) q) as [q' [ms [err|]]] eqn:Hc; [done|].
  destruct ms as [|m ms]; [done|]. apply claim_distinct in Hc.
  destruct (deliver_all cfg ds (order (m :: ms)) (q', mt)) as [w'|] eqn:Hd; [|done].
  rewrite (deliver_all_perm cfg ds (order (m :: ms)) (order' (m :: ms)) _ w'); [done| | |done].
  - by rewrite Horder, Horder'.
  - by rewrite Horder.
Qed.
End deliver.

(** ** Repository keeps the promise *)

Section repository.
Context `{!PgServer}.
Implicit Types (t : Table).

(** A statement that reads and writes the row [i] only. *)
Definition local_sql (i : uuid) (sql : Table -> result error (Table * unit)) : Prop :=
  exists k : option Row -> result error (option Row),
    forall t, sql t = match k (t !! i) with
                      | Ok x => Ok (partial_alter (fun _ => x) i t, ())
                      | Err e => Err e
                      end.

Definition local_call (i : uuid) (call : Table -> Table * option error) : Prop :=
  exists h : option Row -> option Row * option error,
    forall t, call t = (partial_alter (fun x => (h x).1) i t, (h (t !! i)).2).

Lemma partial_alter_const (f : option Row -> option Row) i t :
  partial_alter (fun _ => f (t !! i)) i t = partial_alter f i t.
Proof. by apply partial_alter_ext; intros ? <-. Qed.

Lemma finish_local prefix env i sql :
  local_sql i sql -> local_call i (fun t => finish prefix (exec env sql t)).
Proof.
  intros [k Hk].
  exists (fun x => match k x with
                   | Err e => (x, Some (Errorf prefix e))
                   | Ok x' => match stmt_reply env with
                              | None => (x', None)
                              | Some (e, applied) => (if applied : bool then x' else x, Some (Errorf prefix e))
                              end
                   end).
  intros t. rewrite <- partial_alter_const. unfold exec. rewrite Hk.
  destruct (k (t !! i)) as [x|e]; [destruct (stmt_reply env) as [[e []]|]|]; cbn;
    by rewrite ?partial_alter_self.
Qed.

Lemma alter_local f i : local_sql i (fun t => Ok (alter f i t, ())).
Proof.
  exists (fun x => Ok (f <$> x)). intros t. do 2 f_equal. symmetry. apply (partial_alter_const (fmap f)).
Qed.

Lemma store_reason_local i hit reason f : local_sql i (sql_store_reason i hit reason f).
Proof.
  exists (fun x =>
    let matched := match x with Some r => hit r | None => false end in
    let x' := if matched then f <$> x else x in
    match reason with
    | Some s => if negb (text_ok s) then Err (pg_error "22021" "")
                else if (512 <? RuneCount s) && matched then Err (pg_error "22001" "") else Ok x'
    | None => Ok x'
    end).
  intros t. unfold sql_store_reason. cbn zeta.
  assert (partial_alter (fun _ => f <$> t !! i) i t = alter f i t) as Ha
    by apply (partial_alter_const (fmap f)).
  destruct (match t !! i with Some r => hit r | None => false end);
    repeat case_match; by rewrite ?Ha, ?partial_alter_self.
Qed.

Lemma settle_local s : local_call (settle_id s) (run_settle s).
Proof.
  destruct s; cbn; apply finish_local; try apply store_reason_local; try apply alter_local.
  by exists (fun _ => Ok None).
Qed.

#[export] Instance repository_laws : QueueLaws Table ClaimEnv Stmt.
Proof.
  split.
  - intros ce b v q q' ms. apply Claim_NoDup.
  - intros a b t Hne. destruct (settle_local a) as [h Ha], (settle_local b) as [k Hb].
    rewrite !Ha, !Hb. cbn. rewrite lookup_partial_alter_ne by done. f_equal. by apply partial_alter_comm.
Qed.
End repository.

(** ** Deliveries without database errors *)

Section settle.
Context `{!PgServer}.
Implicit Types (t : Table) (d : Delivery Stmt).

Definition send_result d : option error := match d_send d with Ret err => err | Panic _ => None end.

Definition send_text d : string :=
  match send_result d with
  | Some e => match error_text e with Ret s => s | Panic _ => "" end
  | None => ""
  end.

(** The queue call is answered, nothing panics, and the server takes the text. *)
Record clean d : Prop := {
  clean_reply : stmt_reply (d_env d) = None;
  clean_send : d_send d = Ret (send_result d);
  clean_nil : no_nil (send_result d) = true;
  clean_ctx : no_nil (d_ctx d) = true;
  clean_text s : truncate (send_text d) = Some s -> text_ok s = true
}.

(** [r] is the row of [m] as its claim left it. *)
Definition row_of (m : Message) (r : Row) : Prop :=
  row_failed_at r = None /\ row_attempts r = msg_Attempts m /\
  row_max_attempts r = msg_MaxAttempts m /\ 1 <= row_attempts r.

Definition put (i : uuid) (x : option Row) t : Table :=
  match x with Some r => <[i := r]> t | None => delete i t end.

Lemma lookup_put i x t : put i x t !! i = x.
Proof. destruct x; cbn; [apply lookup_insert_eq|apply lookup_delete_eq]. Qed.

Lemma lookup_put_ne i j x t : i <> j -> put i x t !! j = t !! j.
Proof. intros. destruct x; cbn; [by apply lookup_insert_ne|by apply lookup_delete_ne]. Qed.

Lemma insert_alter (f : Row -> Row) i t r : t !! i = Some r -> alter f i t = <[i := f r]> t.
Proof.
  intros Hi. apply map_eq. intros j. destruct (decide (i = j)) as [->|].
  - by rewrite lookup_alter_eq, lookup_insert_eq, Hi.
  - by rewrite lookup_alter_ne, lookup_insert_ne.
Qed.

Lemma store_reason_clean i hit reason f t r :
  t !! i = Some r -> hit r = true -> (forall s, truncate reason = Some s -> text_ok s = true) ->
  sql_store_reason i hit (truncate reason) f t = Ok (<[i := f r]> t, ()).
Proof.
  intros Hi Hh Ht. unfold sql_store_reason. rewrite Hi, Hh, (insert_alter _ _ _ _ Hi).
  destruct (truncate reason) as [s|] eqn:Hs; [|done]. rewrite Ht by done.
  apply truncate_stored in Hs as [_ Hs]. by rewrite (proj2 (Z.ltb_ge _ _)).
Qed.

(** The text of a nil-free error. *)
Lemma send_text_spec d e : send_result d = Some e -> nil_free e = true -> error_text e = Ret (send_text d).
Proof.
  intros He Hn. unfold send_text. rewrite He.
  by destruct (error_text_returns e Hn) as [s ->].
Qed.

Definition delivery_verdict d : verdict := verdict_of (send_result d) (d_ctx d).

Lemma deliver_clean cfg d m t mt r :
  clean d -> t !! msg_ID m = Some r -> row_of m r ->
  deliver cfg d m (t, mt) =
    Ret (put (msg_ID m) (row_after cfg (stmt_now (d_env d)) (send_text d) (delivery_verdict d) r) t,
         count_result mt (msg_Kind m) (counted (delivery_verdict d) r)).
Proof.
  intros [Hreply Hsend Hnil Hctx Htext] Hi (Hlive & Ha & Hm & Hpos).
  unfold deliver, delivery_verdict, verdict_of. rewrite Hsend. cbn [mbind outcome_bind].
  destruct (send_result d) as [e|] eqn:He.
  2: { cbn. unfold Complete, exec. by rewrite Hreply. }
  cbn in Hnil. rewrite is_canceled_spec by done. cbn [mbind outcome_bind].
  pose proof (send_text_spec d e He Hnil) as Htxt.
  destruct (is_canceled (d_ctx d)); [cbn; by rewrite insert_id|].
  rewrite IsTerminal_has by done. cbn [mbind outcome_bind]. destruct (has is_terminal e).
  { rewrite Htxt. cbn. unfold Fail, exec.
    rewrite (store_reason_clean _ _ _ _ _ r); [|done|unfold not_failed; by rewrite Hlive|done].
    by rewrite Hreply. }
  rewrite IsConflict_has by done. cbn [mbind outcome_bind]. destruct (has is_conflict e).
  { cbn. unfold Defer, exec. rewrite Hreply, (insert_alter _ _ _ _ Hi). cbn.
    unfold deferred_row. by rewrite Z.max_l by lia. }
  rewrite Htxt. cbn. unfold Retry, exec. rewrite (store_reason_clean _ _ _ _ _ r) by done.
  rewrite Hreply. cbn. unfold retried_row. rewrite Ha, Hm, Z.geb_leb, Z.leb_antisym.
  by destruct (msg_Attempts m <? msg_MaxAttempts m).
Qed.

(** C15. A delivery does what its verdict says: sent removes the row; cancellation
    of the worker leaves the row to its lease; a terminal error anywhere in the
    tree fails it at once, a conflict returns the attempt, any other error is
    retried after the backoff or, at the last attempt, failed.  The row keeps the
    truncated text of the error, no other row is touched, and the counter
    [failed] moves exactly when the row has become failed. *)
Theorem deliver_refines_verdict cfg d m t mt r
  (Hclean : clean d) (Hrow : t !! msg_ID m = Some r) (Hm : row_of m r) :
  exists t', deliver cfg d m (t, mt) =
      Ret (t', count_result mt (msg_Kind m) (counted (delivery_verdict d) r)) /\
    t' !! msg_ID m = row_after cfg (stmt_now (d_env d)) (send_text d) (delivery_verdict d) r /\
    (forall i, i <> msg_ID m -> t' !! i = t !! i) /\
    (counted (delivery_verdict d) r = Some resultFailed <->
     exists r', t' !! msg_ID m = Some r' /\ row_failed_at r' <> None).
Proof.
  eexists. split; [by apply deliver_clean|]. rewrite lookup_put. split_and!; [done| |].
  - intros i Hi. by apply lookup_put_ne.
  - destruct Hm as (Hlive & _). destruct (delivery_verdict d); cbn; try case_match; split; try done;
      (intros (r' & Hr' & Hf); simplify_eq/=) || (intros _; by eexists).
Qed.

Lemma deliver_all_clean cfg ds ms t mt :
  NoDup (msg_ID <$> ms) ->
  (forall m, m ∈ ms -> clean (ds (msg_ID m)) /\ exists r, t !! msg_ID m = Some r /\ row_of m r) ->
  exists t' mt', deliver_all cfg ds ms (t, mt) = Ret (t', mt') /\
    (forall m r, m ∈ ms -> t !! msg_ID m = Some r ->
       let d := ds (msg_ID m) in
       t' !! msg_ID m = row_after cfg (stmt_now (d_env d)) (send_text d) (delivery_verdict d) r) /\
    (forall i, i ∉ (msg_ID <$> ms) -> t' !! i = t !! i).
Proof.
  revert t mt. induction ms as [|m ms IH]; intros t mt Hnd Hms.
  { exists t, mt. split_and!; [done| |done]. by intros m r Hm%not_elem_of_nil. }
  cbn [fmap list_fmap] in Hnd. apply NoDup_cons in Hnd as [Hm Hnd].
  destruct (Hms m) as (Hc & r & Hr & Hrow); [by left|].
  cbn [deliver_all]. rewrite (deliver_clean _ _ _ _ _ r) by done. cbn [mbind outcome_bind].
  set (t1 := put _ _ t).
  assert (forall m', m' ∈ ms -> msg_ID m <> msg_ID m') as Hne.
  { intros m' Hm' Heq. apply Hm. rewrite Heq. by apply list_elem_of_fmap_2. }
  edestruct (IH t1) as (t' & mt' & Hd & Hin & Hout); [done| |].
  { intros m' Hm'. destruct (Hms m') as (Hc' & r' & Hr' & Hrow'); [by right|]. split; [done|].
    exists r'. split; [|done]. unfold t1. rewrite lookup_put_ne; auto. }
  exists t', mt'. split_and!; [exact Hd| |].
  - intros m' r' [->|Hm']%elem_of_cons Hr'; cbn zeta.
    + simplify_eq. rewrite Hout by done. apply lookup_put.
    + apply Hin; [done|]. unfold t1. rewrite lookup_put_ne; auto.
  - intros i Hi. cbn [fmap list_fmap] in Hi. apply not_elem_of_cons in Hi as [Hi Hi'].
    rewrite Hout by done. by apply lookup_put_ne.
Qed.

Lemma claimed_row_of env b v t t' ms m :
  map_Forall (fun _ => row_ok) t -> Claim env b v t = (t', (ms, None)) -> m ∈ ms ->
  exists r, t !! msg_ID m = Some r /\ t' !! msg_ID m = Some (claimed_row (claim_now env) v r) /\
    row_of m (claimed_row (claim_now env) v r).
Proof.
  intros Hok Hc Hm. destruct (Claim_rows _ _ _ _ _ _ _ m Hc Hm) as (r & Hr & Hf & _ & _ & Hmr & Hr').
  exists r. split_and!; [done..|]. destruct (Hok _ _ Hr) as (_ & _ & _ & Ha & _).
  rewrite Hmr. unfold row_of. cbn. split_and!; (done || lia).
Qed.

(** C2. A batch settles every message it claimed, once: with the concurrency in
    any order and no database error, each claimed row ends as the verdict of its
    own send says, starting from the row its claim left; rows that were not
    claimed are not touched; and the number of messages is answered. *)
Theorem processBatch_settles cfg (b : Batch ClaimEnv Stmt) t mt t1 ms
  (Hreach : reachable t)
  (Hclaim : Claim (b_claim b) (BatchSize cfg) (VisibilityTimeout cfg) t = (t1, (ms, None)))
  (Horder : forall l, b_order b l ≡ₚ l)
  (Hclean : forall m, m ∈ ms -> clean (b_deliveries b (msg_ID m))) :
  exists t' mt', processBatch cfg b (t, mt) = Ret ((t', mt'), (Z.of_nat (length ms), None)) /\
    (forall m, m ∈ ms -> exists r, t !! msg_ID m = Some r /\
       let d := b_deliveries b (msg_ID m) in
       t' !! msg_ID m = row_after cfg (stmt_now (d_env d)) (send_text d) (delivery_verdict d)
         (claimed_row (claim_now (b_claim b)) (VisibilityTimeout cfg) r)) /\
    (forall i, i ∉ (msg_ID <$> ms) -> t' !! i = t !! i).
Proof.
  pose proof (reachable_rows t Hreach) as Hok.
  pose proof (Claim_NoDup _ _ _ _ _ _ Hclaim) as Hnd.
  assert (forall i, i ∉ (msg_ID <$> ms) -> t1 !! i = t !! i) as Hothers
    by (intros i; by apply (Claim_others _ _ _ _ _ _ i Hclaim)).
  destruct (deliver_all_clean cfg (b_deliveries b) (b_order b ms) t1 mt) as (t' & mt' & Hd & Hin & Hout).
  { by rewrite Horder. }
  { intros m Hm. rewrite Horder in Hm. split; [by apply Hclean|].
    destruct (claimed_row_of _ _ _ _ _ _ m Hok Hclaim Hm) as (r & _ & Hr & Hrow). by eexists. }
  assert (forall i, i ∉ (msg_ID <$> ms) -> t' !! i = t !! i) as Hrest.
  { intros i Hi. rewrite Hout by (by rewrite Horder). by apply Hothers. }
  assert (forall m, m ∈ ms -> exists r, t !! msg_ID m = Some r /\
       let d := b_deliveries b (msg_ID m) in
       t' !! msg_ID m = row_after cfg (stmt_now (d_env d)) (send_text d) (delivery_verdict d)
         (claimed_row (claim_now (b_claim b)) (VisibilityTimeout cfg) r)) as Hms.
  { intros m Hm. destruct (claimed_row_of _ _ _ _ _ _ m Hok Hclaim Hm) as (r & Hr & Hr1 & _).
    exists r. split; [done|]. apply Hin; [by rewrite Horder|done]. }
  unfold processBatch. cbn [q_claim repository_queue]. rewrite Hclaim. destruct ms as [|m ms].
  - exists t1, mt. split_and!; [done|by intros m Hm%not_elem_of_nil|done].
  - exists t', mt'. rewrite Hd. done.
Qed.
End settle.

(** ** A batch of two *)

Definition pair_config : Config := withDefaults (mkConfig 0 2 0 0 0 0 0 0 0 0).

(** Message 1 is rejected by its receiver, message 2 times out at its only
    attempt. *)
Definition pair_deliveries (i : uuid) : Delivery Stmt :=
  mkDelivery
    (Ret (Some (if (i =? 1)%N then wrapError "mail: no such address" (terminalError (errors_New "no such address"))
                else DeadlineExceeded)))
    None (at_ (20 + Z.of_N i)).

Definition pair_batch (order : list Message -> list Message) : Batch ClaimEnv Stmt :=
  mkBatch (claim_at 10) pair_deliveries order.

Definition pair_world : Table * option Metrics := (table0, Some (mkMetrics 0 0 ∅)).
Definition pair_outcome := processBatch pair_config (pair_batch (fun l => l)) pair_world.

Lemma pair_clean i : clean (pair_deliveries i).
Proof.
  unfold pair_deliveries. split; try done; cbn; destruct (i =? 1)%N; try done;
    intros s Hs; vm_compute in Hs; simplify_eq; vm_compute; done.
Qed.

Definition pair_row : Row := mkRow "sms" "{}" 1 1 (10 + 2 * Minute) None None 5.

Example deliver_refines_verdict_witness :
  exists t', deliver pair_config (pair_deliveries 2) (mkMessage 2 "sms" "{}" 1 1) (claim1.1, pair_world.2) =
    Ret (t', Some (mkMetrics 0 0 {[("sms", "failed") := 1]})) /\
    (exists r', t' !! 2%N = Some r' /\ row_failed_at r' <> None).
Proof.
  destruct (deliver_refines_verdict pair_config (pair_deliveries 2) (mkMessage 2 "sms" "{}" 1 1)
    claim1.1 pair_world.2 pair_row (pair_clean 2)) as (t' & Hd & _ & _ & Hf).
  - vm_compute. reflexivity.
  - vm_compute. split_and!; congruence.
  - exists t'. split; [rewrite Hd; vm_compute; reflexivity|]. apply Hf. vm_compute. reflexivity.
Defined.

Example processBatch_settles_witness :
  exists t' mt', pair_outcome = Ret ((t', mt'), (2, None)) /\
    t' !! 1%N = Some (mkRow "email" "{}" 1 2 (10 + 2 * Minute) (Some 21) (Some "mail: no such address") 0) /\
    t' !! 2%N = Some (mkRow "sms" "{}" 1 1 (22 + 30 * Second) (Some 22) (Some "context deadline exceeded") 5).
Proof.
  destruct (processBatch_settles pair_config (pair_batch (fun l => l)) table0 pair_world.2 claim1.1
    [message1; mkMessage 2 "sms" "{}" 1 1] table0_reachable) as (t' & mt' & Hp & Hms & _).
  - vm_compute. reflexivity.
  - done.
  - intros. apply pair_clean.
  - exists t', mt'. split; [exact Hp|]. split.
    + destruct (Hms message1) as (r & Hr & Hr'); [by left|]. etrans; [exact Hr'|]. vm_compute in Hr. by simplify_eq.
    + destruct (Hms (mkMessage 2 "sms" "{}" 1 1)) as (r & Hr & Hr'); [by right; left|].
      etrans; [exact Hr'|]. vm_compute in Hr. by simplify_eq.
Defined.

Example batch_order_irrelevant_witness :
  processBatch pair_config (pair_batch (@rev Message)) pair_world = pair_outcome /\
  (exists res, pair_outcome = Ret res).
Proof.
  assert (exists res, pair_outcome = Ret res) as [res Hres] by (eexists; vm_compute; reflexivity).
  split; [|by exists res]. rewrite Hres.
  apply (batch_order_irrelevant pair_config (claim_at 10) pair_deliveries (fun l => l) (@rev Message) pair_world res Hres).
  - done.
  - intros ms. symmetry. apply Permutation_rev.
Defined.
