(* ===== verification/OutboxRun.v ===== *)
(** * The worker among other sessions

    A run of the worker is embedded in the histories of the table: the
    environment of each of its calls also carries the statements other sessions
    (producers, other replicas) have executed since its previous call.  So what
    is proved of histories holds of runs, and the delivery guarantee of the whole
    package can be stated of [Run]. *)

From S2P Require Export OutboxDelivery.

Section others.
Context `{!PgServer}.

(** What other sessions may do. *)
Context (others : op -> Prop).

Definition Foreign : Type := {o : op | op_ok o /\ others o}.
Definition Shared (A : Type) : Type := list Foreign * A.

Definition run_others (os : list Foreign) (t : Table) : Table := foldl (fun t o => run_op (proj1_sig o) t) t os.

#[export] Instance shared_queue : Queue Table (Shared ClaimEnv) (Shared Stmt) := {
  q_claim env b v t := Claim env.2 b v (run_others env.1 t);
  q_complete env i t := Complete env.2 i (run_others env.1 t);
  q_retry env i backoff reason t := Retry env.2 i backoff reason (run_others env.1 t);
  q_defer env i delay t := Defer env.2 i delay (run_others env.1 t);
  q_fail env i reason t := Fail env.2 i reason (run_others env.1 t);
  q_delete_old_failed env retention t := DeleteOldFailed env.2 retention (run_others env.1 t)
}.

#[export] Instance shared_counter : Counter Table (Shared Stmt) := {
  q_count_pending env t := CountPending env.2 (run_others env.1 t);
  q_count_failed env t := CountFailed env.2 (run_others env.1 t)
}.

(** ** Histories of a run *)

Abbreviation Rounds := (list (Round (Shared ClaimEnv) (Shared Stmt))).
Abbreviation World := (Table * option Metrics)%type.

(** The calls of [Send] a run makes: the message and the answer. *)
Abbreviation Sends := (list (uuid * outcome (option error))).

Definition batch_sends (cfg : Config) (b : Batch (Shared ClaimEnv) (Shared Stmt)) (w : World) : Sends :=
  match q_claim (b_claim b) (BatchSize cfg) (VisibilityTimeout cfg) w.1 with
  | (_, (ms, None)) => (fun m => (msg_ID m, d_send (b_deliveries b (msg_ID m)))) <$> b_order b ms
  | _ => []
  end.

Fixpoint run_sends (cfg : Config) (rounds : Rounds) (w : World) : Sends :=
  match rounds with
  | [] => []
  | r :: rounds =>
      batch_sends cfg (r_batch r) w ++
      match run_round cfg (Some shared_counter) r w with
      | Ret (w, Continue) | Ret (w, Poll) => run_sends cfg rounds w
      | _ => []
      end
  end.

Definition answered (S : Sends) (i : uuid) (answer : option error -> Prop) : Prop :=
  exists err, (i, Ret err) ∈ S /\ answer err.

(** The statements of the worker, and what they rest on. *)
Definition by_worker (cfg : Config) (S : Sends) (o : op) : Prop :=
  match o with
  | OpClaim _ b v => b = BatchSize cfg /\ v = VisibilityTimeout cfg
  | OpComplete _ i => answered S i (fun err => err = None)
  | OpRetry _ i _ _ => answered S i is_Some
  | OpDefer _ i delay => answered S i is_Some /\ delay = ConflictBackoff cfg
  | OpFail _ i _ => answered S i is_Some
  | OpDeleteOldFailed _ retention => retention = FailedRetention cfg
  | OpCountPending _ | OpCountFailed _ => True
  | OpEnqueue _ _ _ _ _ => False
  end.

Definition allowed (cfg : Config) (S : Sends) (o : op) : Prop := by_worker cfg S o \/ others o.

(** [t'] is reached from [t] by allowed statements. *)
Definition reached (cfg : Config) (S : Sends) (t t' : Table) : Prop :=
  exists os, trace t os t' /\ Forall (allowed cfg S) os.

Lemma reached_refl cfg S t : reached cfg S t t.
Proof. exists []. split; constructor. Qed.

Lemma reached_trans cfg S t1 t2 t3 :
  reached cfg S t1 t2 -> reached cfg S t2 t3 -> reached cfg S t1 t3.
Proof.
  intros (os1 & H1 & F1) (os2 & H2 & F2). exists (os1 ++ os2).
  split; [by eapply trace_app|by apply Forall_app].
Qed.

Lemma reached_mono cfg S S' t t' :
  S ⊆ S' -> reached cfg S t t' -> reached cfg S' t t'.
Proof.
  intros Hsub (os & Htr & Hos). exists os. split; [done|]. eapply Forall_impl; [done|].
  intros o [Ho|Ho]; [left|by right].
  assert (forall i P, answered S i P -> answered S' i P) as Hans
    by (intros i P (err & ? & ?); exists err; auto).
  destruct o; cbn in *; intuition eauto.
Qed.

Lemma reached_op cfg S o t : op_ok o -> by_worker cfg S o -> reached cfg S t (run_op o t).
Proof.
  intros Hok Ho. exists [o]. split; [by repeat constructor|]. by repeat constructor.
Qed.

Lemma reached_others cfg S os t : reached cfg S t (run_others os t).
Proof.
  revert t. induction os as [|[o [Hok Ho]] os IH]; intros t; [apply reached_refl|].
  eapply reached_trans; [|apply IH]. exists [o]. split; [by repeat constructor|].
  constructor; [by right|done].
Qed.

(** A call of the worker after what others did. *)
Lemma reached_call cfg S os o t :
  op_ok o -> by_worker cfg S o -> reached cfg S t (run_op o (run_others os t)).
Proof. intros. eapply reached_trans; [apply reached_others|by apply reached_op]. Qed.

Lemma deliver_reached cfg S d m t mt t' mt' :
  (msg_ID m, d_send d) ∈ S -> deliver cfg d m (t, mt) = Ret (t', mt') -> reached cfg S t t'.
Proof.
  intros Hin. unfold deliver.
  destruct (d_send d) as [[e|]|]; cbn [mbind outcome_bind]; [| |done].
  - assert (answered S (msg_ID m) is_Some) as Hans by (exists (Some e); done).
    destruct (errors_Is _ _) as [[]|]; cbn [mbind outcome_bind]; [|destruct (IsTerminal _) as [[]|]|done];
      cbn [mbind outcome_bind]; [| | |done].
    + intros [= <- <-]. apply reached_refl.
    + destruct (error_text e) as [s|]; cbn; [|done].
      destruct (Fail _ _ _ _) as [t1 e1] eqn:Hf. intros [= <- <-].
      change t1 with ((t1, e1).1). rewrite <- Hf.
      by apply (reached_call cfg S _ (OpFail (d_env d).2 (msg_ID m) s)).
    + destruct (IsConflict _) as [[]|]; cbn [mbind outcome_bind]; [| |done].
      * cbn. destruct (Defer _ _ _ _) as [t1 e1] eqn:Hf. intros [= <- <-].
        change t1 with ((t1, e1).1). rewrite <- Hf.
        by apply (reached_call cfg S _ (OpDefer (d_env d).2 (msg_ID m) (ConflictBackoff cfg))).
      * destruct (error_text e) as [s|]; cbn; [|done].
        destruct (Retry _ _ _ _ _) as [t1 e1] eqn:Hf. intros [= <- <-].
        change t1 with ((t1, e1).1). rewrite <- Hf.
        by apply (reached_call cfg S _ (OpRetry (d_env d).2 (msg_ID m) (backoffFor cfg (msg_Attempts m)) s)).
  - cbn. destruct (Complete _ _ _) as [t1 [e1|]] eqn:Hf; intros [= <- <-];
      change t1 with ((t1, Some e1).1) || change t1 with ((t1, None : option error).1); rewrite <- Hf;
      apply (reached_call cfg S _ (OpComplete (d_env d).2 (msg_ID m))); (done || by exists None).
Qed.

Lemma deliver_all_reached cfg S ds ms t mt t' mt' :
  ((fun m => (msg_ID m, d_send (ds (msg_ID m)))) <$> ms) ⊆ S ->
  deliver_all cfg ds ms (t, mt) = Ret (t', mt') -> reached cfg S t t'.
Proof.
  revert t mt. induction ms as [|m ms IH]; intros t mt Hsub; cbn [deliver_all].
  { intros [= <- <-]. apply reached_refl. }
  destruct (deliver _ _ _ _) as [[t1 mt1]|] eqn:Hd; [|done]. cbn [mbind outcome_bind]. intros Hall.
  eapply reached_trans; [eapply deliver_reached; [apply Hsub; by left|done]|].
  eapply IH; [|done]. intros x Hx. apply Hsub. by right.
Qed.

Lemma processBatch_reached cfg S b t mt t' mt' res :
  batch_sends cfg b (t, mt) ⊆ S ->
  processBatch cfg b (t, mt) = Ret ((t', mt'), res) -> reached cfg S t t'.
Proof.
  unfold batch_sends, processBatch. cbn [q_claim shared_queue fst].
  pose proof (reached_call cfg S (b_claim b).1
    (OpClaim (b_claim b).2 (BatchSize cfg) (VisibilityTimeout cfg)) t I (conj eq_refl eq_refl)) as Hclaim.
  cbn [run_op] in Hclaim.
  destruct (Claim _ _ _ _) as [t1 [[|m ms] [err|]]]; cbn [fst] in Hclaim |- *;
    try (by intros _ [= <- <- <-]).
  destruct (deliver_all _ _ _ _) as [[t2 mt2]|] eqn:Hd; [|done]. cbn. intros Hsub [= <- <- <-].
  eapply reached_trans; [done|]. by eapply deliver_all_reached.
Qed.

Lemma cleanup_reached cfg S e t mt : reached cfg S t (cleanupFailed cfg e (t, mt)).1.
Proof. by apply (reached_call cfg S e.1 (OpDeleteOldFailed e.2 (FailedRetention cfg))). Qed.

Lemma observeDepth_reached cfg S e1 e2 t mt :
  reached cfg S t (observeDepth (Some shared_counter) e1 e2 (t, mt)).1.
Proof.
  unfold observeDepth. destruct mt as [mt|]; [|apply reached_refl]. cbn [q_count_pending q_count_failed shared_counter].
  pose proof (reached_call cfg S e1.1 (OpCountPending e1.2) t I I) as H1. cbn [run_op] in H1.
  destruct (CountPending _ _) as [t1 [n [err|]]]; [done|]. cbn in H1.
  pose proof (reached_call cfg S e2.1 (OpCountFailed e2.2) t1 I I) as H2. cbn [run_op] in H2.
  destruct (CountFailed _ _) as [t2 [k [err|]]]; cbn in *; by eapply reached_trans.
Qed.

Lemma run_round_reached cfg S r t mt t' mt' nx :
  batch_sends cfg (r_batch r) (t, mt) ⊆ S ->
  run_round cfg (Some shared_counter) r (t, mt) = Ret ((t', mt'), nx) -> reached cfg S t t'.
Proof.
  intros Hsub. unfold run_round.
  destruct (processBatch _ _ _) as [[[t1 mt1] [n err]]|] eqn:Hp; [|done]. cbn [mbind outcome_bind].
  pose proof (processBatch_reached _ _ _ _ _ _ _ _ Hsub Hp) as H1.
  assert (reached cfg S t1
    (match r_cleanup r with
     | Some (e1, e2, e3) => observeDepth (Some shared_counter) e2 e3 (cleanupFailed cfg e1 (t1, mt1))
     | None => (t1, mt1)
     end).1) as H2.
  { destruct (r_cleanup r) as [[[e1 e2] e3]|]; [|apply reached_refl].
    pose proof (cleanup_reached cfg S e1 t1 mt1) as Hc.
    destruct (cleanupFailed cfg e1 (t1, mt1)) as [t2 mt2]. eapply reached_trans; [done|].
    apply observeDepth_reached. }
  destruct (match r_cleanup r with Some _ => _ | None => _ end) as [t2 mt2]. cbn in H2.
  pose proof (reached_trans _ _ _ _ _ H1 H2) as H3.
  destruct err as [err|], (r_ctx r); repeat case_match; intros [= <- <- <-]; done.
Qed.

Lemma Run_reached cfg rounds t mt t' mt' rest :
  Run cfg (Some shared_counter) rounds (t, mt) = Ret ((t', mt'), rest) ->
  reached cfg (run_sends cfg rounds (t, mt)) t t'.
Proof.
  revert t mt. induction rounds as [|r rounds IH]; intros t mt; cbn [Run run_sends].
  { intros [= <- <- <-]. apply reached_refl. }
  destruct (run_round _ _ _ _) as [[[t1 mt1] nx]|] eqn:Hr; [|done]. cbn [mbind outcome_bind]. intros Hrun.
  destruct nx; simplify_eq; [|eapply reached_trans..];
    try (eapply run_round_reached, Hr; apply list_subseteq_app_l; reflexivity);
    (eapply reached_mono, IH; [|done]); by apply list_subseteq_app_r.
Qed.

(** C1. The delivery guarantee: whatever the senders answer, whatever the
    database loses, and whatever other sessions do that delete no message they
    have not delivered, after any run of the worker a message that was in the
    table is still there with its content, or has been received - the worker's own
    [Send] of it returned nil in this run, or another session delivered it - or it
    had failed longer ago than the retention when it was cleaned up. *)
Theorem worker_delivers_or_keeps (received : uuid -> Prop) cfg rounds t mt t' mt' rest i r
  (Hothers : forall env j, others (OpComplete env j) -> received j)
  (Hrun : Run cfg (Some shared_counter) rounds (t, mt) = Ret ((t', mt'), rest))
  (Hi : t !! i = Some r) :
  (exists r', t' !! i = Some r' /\ same_message r r') \/
  (i, Ret None) ∈ run_sends cfg rounds (t, mt) \/
  received i \/
  (exists os tm rm now retention, trace t os tm /\ tm !! i = Some rm /\ same_message r rm /\
     failed_before rm (now - interval retention) /\
     (retention = FailedRetention cfg \/ exists env, others (OpDeleteOldFailed env retention))).
Proof.
  destruct (Run_reached _ _ _ _ _ _ _ Hrun) as (os & Htr & Hos).
  destruct (trace_row_fate _ _ _ _ _ Htr Hi) as [Hkept|(os1 & o & os2 & tm & rm & -> & Htm & Hrm & Hs & Hrem)];
    [by left|right].
  apply Forall_app in Hos as [_ Hos]. apply Forall_cons in Hos as [Ho _].
  destruct Hrem as [[env ->]|(env & retention & -> & Hx)], Ho as [Ho|Ho].
  - destruct Ho as (err & Hin & ->). by left.
  - right. left. by eapply Hothers.
  - right. right. eexists _, _, _, _, _. split_and!; try done. by left.
  - right. right. eexists _, _, _, _, _. split_and!; try done. right. by eexists.
Qed.
End others.

(** ** When the loop stops *)

Section control.
Context {Q CE E : Type} `{!Queue Q CE E}.

Lemma run_round_return cfg counter (r : Round CE E) w w' :
  run_round cfg counter r w = Ret (w', Return) ->
  (r_ctx r <> None \/ r_cancelled r = true) /\
  forall w1 n, processBatch cfg (r_batch r) w = Ret (w1, (n, None)) -> n < BatchSize cfg.
Proof.
  unfold run_round. destruct (processBatch _ _ _) as [[w1 [n err]]|] eqn:Hp; [|done]. cbn [mbind outcome_bind].
  intros Hr. destruct err as [err|].
  - split; [|done]. destruct (r_ctx r); [by left|right]. by destruct (r_cancelled r).
  - cbn in Hr. destruct (n >=? BatchSize cfg) eqn:Hn; [by destruct (r_ctx r)|]. go_bool. split.
    + right. by destruct (r_ctx r), (r_cancelled r).
    + intros w2 k. intros [= -> ->]. lia.
Qed.

(** [Run] returns only on cancellation: when the loop has returned, its last
    round was cancelled, either while its batch failed or during the pause, and
    that batch was not a full one: a failed claim is retried after a pause and
    never ends the worker, and a full batch is followed by the next one at once. *)
Theorem Run_returns_on_cancellation cfg counter (rounds : list (Round CE E)) w w' rest
  (Hrun : Run cfg counter rounds w = Ret (w', Some rest)) :
  exists before r w1, rounds = before ++ r :: rest /\
    Run cfg counter before w = Ret (w1, None) /\
    run_round cfg counter r w1 = Ret (w', Return) /\
    (r_ctx r <> None \/ r_cancelled r = true) /\
    (forall w2 n, processBatch cfg (r_batch r) w1 = Ret (w2, (n, None)) -> n < BatchSize cfg).
Proof.
  revert w Hrun. induction rounds as [|r rounds IH]; intros w; [done|]. cbn [Run].
  destruct (run_round cfg counter r w) as [[w1 nx]|] eqn:Hr; [|done]. cbn [mbind outcome_bind].
  destruct nx; intros Hrun.
  - simplify_eq. exists [], r, w. pose proof (run_round_return _ _ _ _ _ Hr) as [? ?]. by split_and!.
  - destruct (IH w1 Hrun) as (before & r1 & w2 & -> & Hb & Hrest). exists (r :: before), r1, w2.
    split_and!; try apply Hrest; [done|]. cbn [Run]. by rewrite Hr.
  - destruct (IH w1 Hrun) as (before & r1 & w2 & -> & Hb & Hrest). exists (r :: before), r1, w2.
    split_and!; try apply Hrest; [done|]. cbn [Run]. by rewrite Hr.
Qed.
End control.

(** ** A run *)

(** Two messages per batch; producers may enqueue. *)
Definition small_batches : Config := withDefaults (mkConfig 0 2 0 0 0 0 0 0 0 0).

Definition producer (o : op) : Prop := match o with OpEnqueue _ _ _ _ _ => True | _ => False end.

Definition enqueue3 : op := OpEnqueue (at_ 30) (Ok 3%N) "push" "{}" 0.

Lemma enqueue3_ok : op_ok enqueue3 /\ producer enqueue3.
Proof. split; [split; cbn; lia|exact I]. Qed.

Definition rejected : error := terminalError (errors_New "no such address").

(** Message 1 is sent, message 2 rejected, message 3 times out. *)
Definition answers (i : uuid) : outcome (option error) :=
  Ret (if (i =? 1)%N then None else if (i =? 2)%N then Some (wrapError "mail: no such address" rejected)
       else Some DeadlineExceeded).

Definition deliveries (now : Z) (i : uuid) : Delivery (Shared producer Stmt) :=
  mkDelivery (answers i) None ([], at_ now).

Definition two_rounds : list (Round (Shared producer ClaimEnv) (Shared producer Stmt)) :=
  [ mkRound (mkBatch ([], claim_at 10) (deliveries 20) (@rev Message)) None None false;
    mkRound (mkBatch ([exist _ enqueue3 enqueue3_ok], claim_at 40) (deliveries 50) (@rev Message)) None None true ].

Definition end_of_run := Run small_batches (Some (shared_counter producer)) two_rounds (table0, None).
Definition final_table : Table := match end_of_run with Ret ((t, _), _) => t | Panic _ => ∅ end.

Example worker_delivers_or_keeps_witness :
  final_table !! 1%N = None /\ (1%N, Ret None) ∈ run_sends producer small_batches two_rounds (table0, None).
Proof.
  split; [vm_compute; reflexivity|].
  assert (exists r, table0 !! 1%N = Some r) as [r Hr] by (eexists; vm_compute; reflexivity).
  destruct (worker_delivers_or_keeps producer (fun _ => False) small_batches two_rounds table0 None final_table None
    (Some []) 1%N r) as [(r' & Hr' & _)|[Hsent|[[]|(os & tm & rm & now & retention & Htr & Hrm & Hs & Hx & _)]]].
  - done.
  - vm_compute. reflexivity.
  - done.
  - vm_compute in Hr'. done.
  - done.
  - vm_compute. right. left.
Defined.

Example Run_returns_on_cancellation_witness :
  exists before r, two_rounds = before ++ [r] /\ (r_ctx r <> None \/ r_cancelled r = true).
Proof.
  destruct (Run_returns_on_cancellation small_batches (Some (shared_counter producer)) two_rounds (table0, None)
    (final_table, None) []) as (before & r & w1 & Heq & _ & _ & Hc & _); [vm_compute; reflexivity|].
  exists before, r. done.
Defined.
