(* ===== verification/Token.v ===== *)
(** * Packages [token] and [token/context.go]: signed tokens

    The JWT library and the key formats are classes: signing, parsing and the
    checks its documentation promises for the parser options the source sets.
    Instants are in nanoseconds; the clock is an argument. *)

From S2P Require Export Quote Context.

Definition AlgHS256 : string := "HS256".
Definition AlgEdDSA : string := "EdDSA".
Definition MinSecretLength : nat := 32.
Definition RoleService : string := "service".

Definition ErrInvalidToken : error := errorString 10 "token: invalid token".
Definition ErrWrongType : error := errorString 11 "token: unexpected token type".

(** ** Claims

    The methods take a [*Claims]. *)
Definition UserID (c : option Claims) : string :=
  match c with None => "" | Some c => Subject c end.

Definition HasRole (c : option Claims) (role : string) : bool :=
  match c with
  | None => false
  | Some c => existsb (fun existing => existing == role) (Roles c)
  end.

(** ** Signing and parsing, as the source uses them *)

Inductive Method : Type := SigningMethodHS256 | SigningMethodEdDSA.
Definition Alg (m : Method) : string :=
  match m with SigningMethodHS256 => "HS256" | SigningMethodEdDSA => "EdDSA" end.

(** [crypto/ed25519], [crypto/x509] and [encoding/pem].  The parsers answer a key
    of the wanted type or the name of another type. *)
Class Ed25519 := {
  PrivateKey : Type;
  PublicKey : Type;
  Public : PrivateKey -> PublicKey;
  pem_Decode : string -> option string;
  pem_Encode : string -> string -> string;
  ParsePKCS8PrivateKey : string -> result error (PrivateKey + string);
  ParsePKIXPublicKey : string -> result error (PublicKey + string);
  MarshalPKCS8PrivateKey : PrivateKey -> result error string;
  MarshalPKIXPublicKey : PublicKey -> result error string
}.

(** Documented: decoding undoes encoding and parsing undoes marshalling. *)
Class Ed25519Laws `{!Ed25519} : Prop := {
  pem_round_trip type bytes : pem_Decode (pem_Encode type bytes) = Some bytes;
  private_round_trip key bytes : MarshalPKCS8PrivateKey key = Ok bytes -> ParsePKCS8PrivateKey bytes = Ok (inl key);
  public_round_trip key bytes : MarshalPKIXPublicKey key = Ok bytes -> ParsePKIXPublicKey bytes = Ok (inl key);
  pem_nonempty type bytes : pem_Encode type bytes <> ""
}.

Section token.
Context `{!Ed25519}.

(** The dynamic values of [sign] and [verify]. *)
Inductive AnyKey : Type :=
| Secret (bytes : string)
| Private (key : PrivateKey)
| PublicOnly (key : PublicKey).

Inductive ParserOption : Type :=
| WithValidMethods (methods : list string)
| WithIssuer (issuer : string)
| WithLeeway (leeway : Z)
| WithExpirationRequired
| WithAudience (audience : string).

(** [verifies m key raw claims]: the header of [raw] names the method [m], its
    payload is [claims] and its signature checks with [key].  The parser answers
    the claims and [parsed.Valid]. *)
Class Jwt := {
  SignedString : Method -> AnyKey -> Claims -> result error string;
  ParseWithClaims : list ParserOption -> AnyKey -> Z -> string -> result error (Claims * bool);
  verifies : Method -> AnyKey -> string -> Claims -> Prop
}.

Definition leeway_of (opts : list ParserOption) : Z :=
  foldl (fun l o => match o with WithLeeway l' => l' | _ => l end) 0 opts.

(** What an option asks of a token signed by [m]. *)
Definition option_ok (m : Method) (c : Claims) (o : ParserOption) : Prop :=
  match o with
  | WithValidMethods methods => Alg m ∈ methods
  | WithIssuer issuer => Issuer c = issuer
  | WithLeeway _ => True
  | WithExpirationRequired => is_Some (ExpiresAt c)
  | WithAudience audience => audience ∈ Audience c
  end.

(** The time checks, which are made for the claims that are present. *)
Definition in_time (leeway now : Z) (c : Claims) : Prop :=
  (forall e, ExpiresAt c = Some e -> now < e + leeway) /\
  (forall n, NotBefore c = Some n -> n - leeway <= now).

Definition is_audience (o : ParserOption) : bool := match o with WithAudience _ => true | _ => false end.

(** Claims that JSON keeps: valid texts and dates of whole seconds. *)
Definition whole_second (t : Z) : Prop := t mod Second = 0.
Definition json_safe (c : Claims) : Prop :=
  ValidString (Subject c) = true /\ ValidString (Issuer c) = true /\
  Forall (fun a => ValidString a = true) (Audience c) /\
  ValidString (ID c) = true /\ ValidString (Claims_Type c) = true /\
  ValidString (SessionID c) = true /\ Forall (fun r => ValidString r = true) (Roles c) /\
  (forall t, IssuedAt c = Some t -> whole_second t) /\
  (forall t, NotBefore c = Some t -> whole_second t) /\
  (forall t, ExpiresAt c = Some t -> whole_second t).

(** The two keys of a pair. *)
Inductive key_pair : Method -> AnyKey -> AnyKey -> Prop :=
| hmac_pair s : key_pair SigningMethodHS256 (Secret s) (Secret s)
| ed25519_pair k : key_pair SigningMethodEdDSA (Private k) (PublicOnly (Public k)).

(** Documented: a token made with one key of a pair parses with the other when
    every option is satisfied; an accepted token verifies and satisfies the
    options; tokens are visible ASCII (base64url and
    dots).  What several [WithAudience] ask together is not documented: a token that
    satisfies all of them parses, and one that parses satisfies one of them, so that
    a single one is required as documented. *)
Class JwtLaws `{!Jwt} : Prop := {
  signed_parses m ks kv c raw opts now :
    key_pair m ks kv -> SignedString m ks c = Ok raw -> json_safe c ->
    (forall o, o ∈ opts -> option_ok m c o) -> in_time (leeway_of opts) now c ->
    ParseWithClaims opts kv now raw = Ok (c, true);
  parsed_checked opts kv now raw c :
    ParseWithClaims opts kv now raw = Ok (c, true) ->
    exists m, verifies m kv raw c /\ in_time (leeway_of opts) now c /\
      (forall o, o ∈ opts -> is_audience o = false -> option_ok m c o) /\
      (forall o, o ∈ opts -> is_audience o = true -> exists o', o' ∈ opts /\ is_audience o' = true /\ option_ok m c o');
  signed_compact m ks c raw : SignedString m ks c = Ok raw -> raw <> "" /\ Forall visible (bytes raw)
}.

(** ** Config and Manager *)

Record Config := mkConfig {
  Algorithm : string;
  cfg_Secret : string;
  PrivateKeyPEM : string;
  PublicKeyPEM : string;
  cfg_Issuer : string;
  cfg_Audience : list string;
  cfg_AccessTTL : Z;
  Leeway : Z
}.

Definition withDefaults (c : Config) : Config :=
  mkConfig
    (if Algorithm c == "" then AlgHS256 else Algorithm c)
    (cfg_Secret c) (PrivateKeyPEM c) (PublicKeyPEM c)
    (if cfg_Issuer c == "" then "hockeynights" else cfg_Issuer c)
    (cfg_Audience c)
    (if cfg_AccessTTL c =? 0 then 15 * Minute else cfg_AccessTTL c)
    (if Leeway c =? 0 then 30 * Second else Leeway c).

Record Manager := mkManager {
  m_cfg : Config;
  m_method : Method;
  m_sign : option AnyKey;
  m_verify : option AnyKey;
  m_parser : list ParserOption
}.

Definition parseEd25519PrivateKey (encoded : string) : result error PrivateKey :=
  match pem_Decode encoded with
  | None => Err (errors_New "token: private key is not valid PEM")
  | Some block =>
      match ParsePKCS8PrivateKey block with
      | Err err => Err (Errorf "token: parse private key" err)
      | Ok (inl key) => Ok key
      | Ok (inr T) => Err (errors_New ("token: private key must be ed25519, got " +:+ T))
      end
  end.

Definition parseEd25519PublicKey (encoded : string) : result error PublicKey :=
  match pem_Decode encoded with
  | None => Err (errors_New "token: public key is not valid PEM")
  | Some block =>
      match ParsePKIXPublicKey block with
      | Err err => Err (Errorf "token: parse public key" err)
      | Ok (inl key) => Ok key
      | Ok (inr T) => Err (errors_New ("token: public key must be ed25519, got " +:+ T))
      end
  end.

Definition parser_options (m : Method) (cfg : Config) : list ParserOption :=
  [WithValidMethods [Alg m]; WithIssuer (cfg_Issuer cfg); WithLeeway (Leeway cfg); WithExpirationRequired]
  ++ (WithAudience <$> cfg_Audience cfg).

(** The keys of an EdDSA manager: [sign] and [verify]. *)
Definition ed25519_keys (cfg : Config) : result error (option AnyKey * option AnyKey) :=
  private ← (if PrivateKeyPEM cfg != "" then k ← parseEd25519PrivateKey (PrivateKeyPEM cfg); Ok (Some k)
             else Ok None);
  public ← (if PublicKeyPEM cfg != "" then k ← parseEd25519PublicKey (PublicKeyPEM cfg); Ok (Some k)
            else Ok None);
  Ok (Private <$> private,
      match public with
      | Some k => Some (PublicOnly k)
      | None => PublicOnly ∘ Public <$> private
      end).

Definition NewManager (cfg : Config) : result error Manager :=
  let cfg := withDefaults cfg in
  if Algorithm cfg == AlgHS256 then
    if (String.length (cfg_Secret cfg) <? MinSecretLength)%nat
    then Err (errors_New ("token: HS256 secret must be at least " +:+ itoa (Z.of_nat MinSecretLength) +:+ " bytes, got "
                     +:+ itoa (Z.of_nat (String.length (cfg_Secret cfg)))))
    else Ok (mkManager cfg SigningMethodHS256 (Some (Secret (cfg_Secret cfg))) (Some (Secret (cfg_Secret cfg)))
               (parser_options SigningMethodHS256 cfg))
  else if Algorithm cfg == AlgEdDSA then
    keys ← ed25519_keys cfg;
    match keys with
    | (_, None) => Err (errors_New "token: EdDSA requires JWT_PRIVATE_KEY or JWT_PUBLIC_KEY")
    | (sign, verify) => Ok (mkManager cfg SigningMethodEdDSA sign verify (parser_options SigningMethodEdDSA cfg))
    end
  else Err (errors_New ("token: unsupported algorithm " +:+ Quote (Algorithm cfg))).

(** ** Issue and Parse *)

Record IssueOptions := mkIssueOptions {
  opt_SessionID : string;
  opt_Roles : list string;
  opt_TTL : Z;
  opt_ID : string
}.

(** [jwt.NewNumericDate]: the time truncated to the second. *)
Definition NewNumericDate (t : Z) : Z := t / Second * Second.

Context `{!Jwt}.

Definition Issue (m : Manager) (now : Z) (userID tokenType : string) (opts : IssueOptions)
  : result error (string * Claims) :=
  match m_sign m with
  | None => Err (errors_New "token: signing key is not configured")
  | Some sign =>
      if userID == "" then Err (errors_New "token: user id is required")
      else if (opt_TTL opts =? 0) && (tokenType != TypeAccess) then Err (errors_New ("token: TTL is required for " +:+ Quote tokenType +:+ " tokens"))
      else
        let ttl := if opt_TTL opts =? 0 then cfg_AccessTTL (m_cfg m) else opt_TTL opts in
        let claims :=
          mkClaims userID (cfg_Issuer (m_cfg m)) (cfg_Audience (m_cfg m))
            (Some (NewNumericDate now)) (Some (NewNumericDate now)) (Some (NewNumericDate (now + ttl)))
            (opt_ID opts) tokenType (opt_SessionID opts) (opt_Roles opts) in
        match SignedString (m_method m) sign claims with
        | Err err => Err (Errorf "token: sign" err)
        | Ok signed => Ok (signed, claims)
        end
  end.

Definition IssueAccess (m : Manager) (now : Z) (userID : string) (opts : IssueOptions) :=
  Issue m now userID TypeAccess opts.

(** [fmt.Errorf("%w: %w", ErrInvalidToken, err)]; the text of the type error also
    quotes the two types. *)
Definition invalid_token (err : error) : error :=
  wrapErrors ("token: invalid token: " +:+ fmt_error err) [ErrInvalidToken; err].
Definition wrong_type (got want : string) : error :=
  wrapError ("token: unexpected token type: got " +:+ Quote got +:+ ", want " +:+ Quote want) ErrWrongType.

(** A manager of [NewManager] has a verification key; a nil key makes the parser
    answer an error. *)
Definition Parse (m : Manager) (now : Z) (raw expected : string) : result error Claims :=
  match m_verify m with
  | None => Err (invalid_token (errors_New "token is unverifiable"))
  | Some verify =>
      match ParseWithClaims (m_parser m) verify now raw with
      | Err err => Err (invalid_token err)
      | Ok (claims, valid) =>
          if negb valid then Err ErrInvalidToken
          else if (expected != "") && (Claims_Type claims != expected) then Err (wrong_type (Claims_Type claims) expected)
          else Ok claims
      end
  end.

Definition ParseAccess (m : Manager) (now : Z) (raw : string) : result error Claims := Parse m now raw TypeAccess.
Definition AccessTTL (m : Manager) : Z := cfg_AccessTTL (m_cfg m).

(** [GenerateKey] answers [key]. *)
Definition GenerateEd25519Keys (key : result error PrivateKey) : result error (string * string) :=
  match key with
  | Err err => Err (Errorf "token: generate key" err)
  | Ok private =>
      match MarshalPKCS8PrivateKey private with
      | Err err => Err (Errorf "token: marshal private key" err)
      | Ok privateBytes =>
          match MarshalPKIXPublicKey (Public private) with
          | Err err => Err (Errorf "token: marshal public key" err)
          | Ok publicBytes => Ok (pem_Encode "PRIVATE KEY" privateBytes, pem_Encode "PUBLIC KEY" publicBytes)
          end
      end
  end.

(** ** context.go *)

Definition NewContext (ctx : Context) (claims : option Claims) : Context :=
  WithValue ctx token_claimsContextKey (VClaims claims).

Definition FromContext (ctx : Context) : option Claims :=
  match ctx_Value ctx token_claimsContextKey with
  | Some (VClaims claims) => claims
  | _ => None
  end.

Definition context_UserID (ctx : Context) : string :=
  match FromContext ctx with None => "" | Some claims => Subject claims end.

Definition context_HasRole (ctx : Context) (role : string) : bool :=
  match FromContext ctx with None => false | Some claims => HasRole (Some claims) role end.

(** ** What NewManager builds *)

Context `{!JwtLaws}.

Lemma leeway_of_options m cfg : leeway_of (parser_options m cfg) = Leeway cfg.
Proof.
  unfold leeway_of, parser_options. cbn. generalize (Leeway cfg) as l.
  induction (cfg_Audience cfg) as [|a l IH]; intros l0; [done|]. apply IH.
Qed.

Lemma parser_option_elem m cfg o :
  o ∈ parser_options m cfg <->
  o = WithValidMethods [Alg m] \/ o = WithIssuer (cfg_Issuer cfg) \/ o = WithLeeway (Leeway cfg) \/
  o = WithExpirationRequired \/ exists a, a ∈ cfg_Audience cfg /\ o = WithAudience a.
Proof.
  unfold parser_options. rewrite elem_of_app, list_elem_of_fmap, !elem_of_cons, elem_of_nil. split.
  - intros [[->|[->|[->|[->|[]]]]]|(a & -> & Ha)]; eauto 10.
  - intros [->|[->|[->|[->|(a & Ha & ->)]]]]; eauto 10.
Qed.

(** A manager keeps its configuration, its parser is built from it, and it can
    verify. *)
Lemma NewManager_shape cfg m :
  NewManager cfg = Ok m ->
  m_cfg m = withDefaults cfg /\ m_parser m = parser_options (m_method m) (withDefaults cfg) /\
  is_Some (m_verify m).
Proof.
  unfold NewManager. case_bool_decide; [case_match; [done|]; intros [= <-]; by split_and!|].
  case_bool_decide; [|done]. destruct (ed25519_keys _) as [[sign [verify|]]|]; cbn; [|done..].
  intros [= <-]. by split_and!.
Qed.

Lemma Alg_inj m m' : Alg m = Alg m' -> m = m'.
Proof. by destruct m, m'. Qed.

(** ** Issue and Parse together *)

(** The texts a token is made of are valid UTF-8. *)
Definition issue_texts (m : Manager) (userID tokenType : string) (opts : IssueOptions) : Prop :=
  ValidString userID = true /\ ValidString tokenType = true /\ ValidString (opt_ID opts) = true /\
  ValidString (opt_SessionID opts) = true /\ Forall (fun r => ValidString r = true) (opt_Roles opts) /\
  ValidString (cfg_Issuer (m_cfg m)) = true /\ Forall (fun a => ValidString a = true) (cfg_Audience (m_cfg m)).

Lemma NewNumericDate_whole t : whole_second (NewNumericDate t).
Proof. unfold whole_second, NewNumericDate. by apply Z.mod_mul. Qed.

(** The lifetime a token gets. *)
Definition lifetime (m : Manager) (opts : IssueOptions) : Z :=
  if opt_TTL opts =? 0 then cfg_AccessTTL (m_cfg m) else opt_TTL opts.

Lemma Issue_ok m now userID tokenType opts raw c :
  Issue m now userID tokenType opts = Ok (raw, c) ->
  exists sign, m_sign m = Some sign /\ SignedString (m_method m) sign c = Ok raw /\ userID <> "" /\
    (opt_TTL opts = 0 -> tokenType = TypeAccess) /\
    c = mkClaims userID (cfg_Issuer (m_cfg m)) (cfg_Audience (m_cfg m))
          (Some (NewNumericDate now)) (Some (NewNumericDate now)) (Some (NewNumericDate (now + lifetime m opts)))
          (opt_ID opts) tokenType (opt_SessionID opts) (opt_Roles opts).
Proof.
  unfold Issue. destruct (m_sign m) as [sign|]; [|done]. case_bool_decide; [done|].
  destruct ((opt_TTL opts =? 0) && _) eqn:Ht; [done|]. fold (lifetime m opts).
  destruct (SignedString _ _ _) as [signed|] eqn:Hs; [|done]. intros [= <- <-].
  exists sign. split_and!; try done. intros Hz. rewrite (proj2 (Z.eqb_eq _ _) Hz) in Ht. cbn in Ht. by go_bool.
Qed.

Lemma issued_parses cfg1 cfg2 m1 m2 ks kv now now' userID tokenType expected raw opts c :
  NewManager cfg1 = Ok m1 -> NewManager cfg2 = Ok m2 -> m_sign m1 = Some ks -> m_verify m2 = Some kv ->
  m_method m1 = m_method m2 -> key_pair (m_method m1) ks kv -> cfg_Issuer (m_cfg m1) = cfg_Issuer (m_cfg m2) ->
  (forall a, a ∈ cfg_Audience (m_cfg m2) -> a ∈ cfg_Audience (m_cfg m1)) ->
  issue_texts m1 userID tokenType opts -> Issue m1 now userID tokenType opts = Ok (raw, c) ->
  NewNumericDate now - Leeway (m_cfg m2) <= now' ->
  now' < NewNumericDate (now + lifetime m1 opts) + Leeway (m_cfg m2) ->
  expected = "" \/ expected = tokenType ->
  Parse m2 now' raw expected = Ok c.
Proof.
  intros Hm1 Hm2 Hks Hkv Hmethod Hpair Hissuer Haudience Htexts Hissue Hfrom Hto Hexpected.
  apply Issue_ok in Hissue as (sign & Hsign & Hraw & _ & _ & ->). simplify_eq.
  destruct (NewManager_shape _ _ Hm2) as (Hcfg2 & Hopts & _).
  unfold Parse. rewrite Hkv.
  erewrite (signed_parses (m_method m1) ks kv); [|done|done| | |].
  - cbn [negb]. destruct Hexpected as [->| ->]; cbn; [done|].
    rewrite (bool_decide_eq_true_2 (tokenType = tokenType)) by done. by rewrite andb_false_r.
  - destruct Htexts as (? & ? & ? & ? & ? & ? & ?). split_and!; try done; intros t [= <-]; apply NewNumericDate_whole.
  - rewrite Hopts. intros o Ho. apply parser_option_elem in Ho as [->|[->|[->|[->|(a & Ha & ->)]]]]; cbn [option_ok].
    + rewrite Hmethod. apply list_elem_of_singleton. done.
    + cbn [Issuer]. by rewrite Hissuer, Hcfg2.
    + done.
    + by eexists.
    + cbn [Audience]. apply Haudience. by rewrite Hcfg2.
  - rewrite Hopts, leeway_of_options, <- Hcfg2. split; intros e [= <-]; done.
Qed.

(** C7. What one service issues another accepts: a token issued by [m1] is parsed
    by every manager that has the other key of the pair, the same issuer and only
    audiences the token names, at any time from its issue to its expiry (widened
    by the verifier's leeway), as the expected type or as any; the claims are
    exactly the issued ones: the user, the type, the roles, the session, and an
    expiry of the requested or the default lifetime. *)
Theorem issued_token_parses (cfg1 cfg2 : Config) (m1 m2 : Manager) (ks kv : AnyKey)
  (now now' : Z) (userID tokenType expected raw : string) (opts : IssueOptions) (c : Claims)
  (Hm1 : NewManager cfg1 = Ok m1) (Hm2 : NewManager cfg2 = Ok m2)
  (Hks : m_sign m1 = Some ks) (Hkv : m_verify m2 = Some kv)
  (Hmethod : m_method m1 = m_method m2) (Hpair : key_pair (m_method m1) ks kv)
  (Hissuer : cfg_Issuer (m_cfg m1) = cfg_Issuer (m_cfg m2))
  (Haudience : forall a, a ∈ cfg_Audience (m_cfg m2) -> a ∈ cfg_Audience (m_cfg m1))
  (Htexts : issue_texts m1 userID tokenType opts)
  (Hissue : Issue m1 now userID tokenType opts = Ok (raw, c))
  (Hfrom : NewNumericDate now - Leeway (m_cfg m2) <= now')
  (Hto : now' < NewNumericDate (now + lifetime m1 opts) + Leeway (m_cfg m2))
  (Hexpected : expected = "" \/ expected = tokenType) :
  Parse m2 now' raw expected = Ok c /\
  UserID (Some c) = userID /\ Claims_Type c = tokenType /\ Roles c = opt_Roles opts /\
  SessionID c = opt_SessionID opts /\ ExpiresAt c = Some (NewNumericDate (now + lifetime m1 opts)).
Proof.
  split; [by eapply (issued_parses cfg1 cfg2 m1 m2)|].
  apply Issue_ok in Hissue as (sign & _ & _ & _ & _ & ->). by split_and!.
Qed.

(** What is known of accepted claims. *)
Definition accepted (cfg : Config) (m : Manager) (now : Z) (raw expected : string) (c : Claims) : Prop :=
  (exists kv, m_verify m = Some kv /\ verifies (m_method m) kv raw c) /\
  Issuer c = cfg_Issuer (withDefaults cfg) /\
  (exists e, ExpiresAt c = Some e /\ now < e + Leeway (withDefaults cfg)) /\
  (forall n, NotBefore c = Some n -> n - Leeway (withDefaults cfg) <= now) /\
  (expected <> "" -> Claims_Type c = expected) /\
  (cfg_Audience cfg <> [] -> exists a, a ∈ cfg_Audience cfg /\ a ∈ Audience c).

Lemma Parse_accepted cfg m now raw expected c :
  NewManager cfg = Ok m -> Parse m now raw expected = Ok c -> accepted cfg m now raw expected c.
Proof.
  intros Hm. destruct (NewManager_shape _ _ Hm) as (Hcfg & Hopts & kv & Hkv). unfold accepted.
  unfold Parse. rewrite Hkv. destruct (ParseWithClaims _ _ _ _) as [[c' [|]]|err] eqn:Hp; cbn [negb]; [|done..].
  destruct (_ && _) eqn:Ht; [done|]. intros [= <-].
  apply parsed_checked in Hp as (m' & Hv & [Hexp Hnbf] & Hok & Haud). rewrite Hopts, leeway_of_options in *.
  assert (forall o, o ∈ parser_options (m_method m) (withDefaults cfg) -> is_audience o = false -> option_ok m' c' o)
    as Hopt by done.
  assert (m' = m_method m) as ->.
  { apply Alg_inj, list_elem_of_singleton.
    apply (Hopt (WithValidMethods [Alg (m_method m)])); [|done]. apply parser_option_elem. by left. }
  assert (is_Some (ExpiresAt c')) as [e He].
  { apply (Hopt WithExpirationRequired); [|done]. apply parser_option_elem. auto. }
  split_and!; try done.
  - by exists kv.
  - apply (Hopt (WithIssuer (cfg_Issuer (withDefaults cfg)))); [|done]. apply parser_option_elem. auto.
  - exists e. auto.
  - intros Hne. apply andb_false_iff in Ht as [Ht|Ht]; by go_bool.
  - intros Hne. destruct (cfg_Audience cfg) as [|a l] eqn:Hcfga; [done|].
    destruct (Haud (WithAudience a)) as (o & Ho & Hisaud & Hoa); [|done|].
    { apply parser_option_elem. do 4 right. exists a. split; [|done]. cbn. rewrite Hcfga. by left. }
    apply parser_option_elem in Ho as [->|[->|[->|[->|(a' & Ha' & ->)]]]]; try done.
    exists a'. split; [|exact Hoa]. cbn in Ha'. by rewrite Hcfga in Ha'.
Qed.

Lemma Parse_rejected m now raw expected e :
  Parse m now raw expected = Err e ->
  (errors_Is (Some e) ErrInvalidToken = Ret true \/ errors_Is (Some e) ErrWrongType = Ret true) /\
  exists text, error_text e = Ret text.
Proof.
  unfold Parse. destruct (m_verify m) as [kv|]; [|by intros [= <-]; split; [left|by eexists]].
  destruct (ParseWithClaims _ _ _ _) as [[c [|]]|err]; cbn [negb].
  - destruct (_ && _); [|done]. intros [= <-]. split; [by right|by eexists].
  - intros [= <-]. split; [by left|by eexists].
  - intros [= <-]. split; [by left|by eexists].
Qed.

(** C24. Parse accepts nothing else: accepted claims come from a token signed with
    the manager's own algorithm (no other, not [none]) and key, by its issuer,
    with an expiry that has not passed by more than the leeway and a start that
    is not further ahead than the leeway, of the expected type and, when audiences
    are configured, for one of them (the one, when it is one); every error is
    [ErrInvalidToken] or [ErrWrongType] for [errors.Is]. *)
Theorem Parse_sound (cfg : Config) (m : Manager) (now : Z) (raw expected : string)
  (Hm : NewManager cfg = Ok m) :
  match Parse m now raw expected with
  | Ok c =>
      (exists kv, m_verify m = Some kv /\ verifies (m_method m) kv raw c) /\
      Issuer c = cfg_Issuer (withDefaults cfg) /\
      (exists e, ExpiresAt c = Some e /\ now < e + Leeway (withDefaults cfg)) /\
      (forall n, NotBefore c = Some n -> n - Leeway (withDefaults cfg) <= now) /\
      (expected <> "" -> Claims_Type c = expected) /\
      (cfg_Audience cfg <> [] -> exists a, a ∈ cfg_Audience cfg /\ a ∈ Audience c)
  | Err e =>
      errors_Is (Some e) ErrInvalidToken = Ret true \/ errors_Is (Some e) ErrWrongType = Ret true
  end.
Proof.
  destruct (Parse m now raw expected) as [c|e] eqn:Hp; [by apply Parse_accepted|by eapply Parse_rejected].
Qed.

(** Generated keys work together: the PEM texts of [GenerateEd25519Keys] make
    a manager that signs and, on another service that has only the public text, a
    manager that verifies with the matching key and cannot sign. *)
Theorem generated_keys_pair `{!Ed25519Laws} (key : PrivateKey) (privatePEM publicPEM : string) (cfg : Config)
  (Hgen : GenerateEd25519Keys (Ok key) = Ok (privatePEM, publicPEM)) (Halg : Algorithm cfg = AlgEdDSA) :
  exists signer verifier,
    NewManager (mkConfig AlgEdDSA (cfg_Secret cfg) privatePEM "" (cfg_Issuer cfg) (cfg_Audience cfg)
                  (cfg_AccessTTL cfg) (Leeway cfg)) = Ok signer /\
    NewManager (mkConfig AlgEdDSA (cfg_Secret cfg) "" publicPEM (cfg_Issuer cfg) (cfg_Audience cfg)
                  (cfg_AccessTTL cfg) (Leeway cfg)) = Ok verifier /\
    m_method signer = SigningMethodEdDSA /\ m_method verifier = SigningMethodEdDSA /\
    (exists ks kv, m_sign signer = Some ks /\ m_verify signer = Some kv /\ m_verify verifier = Some kv /\
       key_pair SigningMethodEdDSA ks kv) /\
    (forall now userID tokenType opts, exists e, Issue verifier now userID tokenType opts = Err e).
Proof.
  unfold GenerateEd25519Keys in Hgen.
  destruct (MarshalPKCS8PrivateKey key) as [pb|] eqn:Hpriv; [|done].
  destruct (MarshalPKIXPublicKey (Public key)) as [ub|] eqn:Hpub; [|done]. simplify_eq.
  assert (parseEd25519PrivateKey (pem_Encode "PRIVATE KEY" pb) = Ok key) as Hk
    by (unfold parseEd25519PrivateKey; by rewrite pem_round_trip, (private_round_trip key)).
  assert (parseEd25519PublicKey (pem_Encode "PUBLIC KEY" ub) = Ok (Public key)) as Hp
    by (unfold parseEd25519PublicKey; by rewrite pem_round_trip, (public_round_trip (Public key))).
  unfold NewManager, ed25519_keys, withDefaults. cbn.
  rewrite !(bool_decide_eq_false_2 (pem_Encode _ _ = "")) by apply pem_nonempty.
  cbn. rewrite Hk, Hp. cbn. eexists _, _. split_and!; [done..| |].
  - eexists _, _. split_and!; [done..|]. constructor.
  - intros. by eexists.
Qed.
End token.

(** ** A concrete library

    Keys are numbers, a token is the encoding of its method, key and claims. *)

#[export] Instance Claims_eq_dec : EqDecision Claims.
Proof. solve_decision. Defined.

#[export] Instance Claims_countable : Countable Claims.
Proof.
  apply (inj_countable'
    (fun c => (Subject c, Issuer c, Audience c, IssuedAt c, NotBefore c, ExpiresAt c, (ID c, Claims_Type c, SessionID c, Roles c)))
    (fun '(a, b, c, d, e, f, (g, h, i, j)) => mkClaims a b c d e f g h i j)).
  by intros [].
Defined.

Fixpoint pos_string (p : positive) : string :=
  match p with
  | xH => ""
  | xO p => String "0" (pos_string p)
  | xI p => String "1" (pos_string p)
  end.

Fixpoint string_pos (s : string) : positive :=
  match s with
  | EmptyString => xH
  | String c s => if Ascii.eqb c "1"%char then xI (string_pos s) else xO (string_pos s)
  end.

Lemma string_pos_string p : string_pos (pos_string p) = p.
Proof. induction p; cbn; congruence. Qed.

Lemma pos_string_visible p : Forall visible (bytes (pos_string p)).
Proof.
  induction p; unfold bytes; cbn [pos_string String.list_ascii_of_string fmap list_fmap];
    constructor; done || (vm_compute; split; congruence).
Qed.

#[export] Instance numbered_keys : Ed25519 := {
  PrivateKey := N;
  PublicKey := N;
  Public := fun k => k;
  pem_Decode s := match s with EmptyString => None | String _ s => Some s end;
  pem_Encode _ s := String "P" s;
  ParsePKCS8PrivateKey s := Ok (inl (Pos.pred_N (string_pos s)));
  ParsePKIXPublicKey s := Ok (inl (Pos.pred_N (string_pos s)));
  MarshalPKCS8PrivateKey k := Ok (pos_string (N.succ_pos k));
  MarshalPKIXPublicKey k := Ok (pos_string (N.succ_pos k))
}.

#[export] Instance numbered_keys_laws : Ed25519Laws.
Proof.
  split; try done; intros key bytes [= <-]; cbn; rewrite string_pos_string;
    by rewrite N.pos_pred_succ.
Qed.

(** The signing key of a verification key. *)
Definition signing_code (m : Method) (kv : AnyKey) : option (N + string) :=
  match m, kv with
  | SigningMethodHS256, Secret s => Some (inr s)
  | SigningMethodEdDSA, PublicOnly k => Some (inl k)
  | _, _ => None
  end.

Definition key_code (ks : AnyKey) : N + string :=
  match ks with Secret s => inr s | Private k => inl k | PublicOnly k => inl k end.

Definition is_hmac (m : Method) : bool := match m with SigningMethodHS256 => true | _ => false end.

Definition toy_token (m : Method) (code : N + string) (c : Claims) : string :=
  String "e" (pos_string (encode (is_hmac m, code, c))).

Definition toy_decode (raw : string) : option (bool * (N + string) * Claims) :=
  match raw with EmptyString => None | String _ s => decode (string_pos s) end.

Lemma toy_decode_token m code c : toy_decode (toy_token m code c) = Some (is_hmac m, code, c).
Proof. unfold toy_decode, toy_token. by rewrite string_pos_string, decode_encode. Qed.

#[export] Instance option_ok_dec m c o : Decision (option_ok m c o).
Proof. destruct o; unfold option_ok; apply _. Defined.

Definition in_timeb (leeway now : Z) (c : Claims) : bool :=
  match ExpiresAt c with Some e => now <? e + leeway | None => true end &&
  match NotBefore c with Some n => n - leeway <=? now | None => true end.

Lemma in_timeb_spec leeway now c : in_timeb leeway now c = true <-> in_time leeway now c.
Proof.
  unfold in_timeb, in_time. rewrite andb_true_iff. destruct (ExpiresAt c), (NotBefore c);
    rewrite ?Z.ltb_lt, ?Z.leb_le; split; intros [H1 H2]; split; intros; simplify_eq; auto.
Qed.

#[export] Instance toy_jwt : Jwt := {
  SignedString m ks c := Ok (toy_token m (key_code ks) c);
  ParseWithClaims opts kv now raw :=
    match toy_decode raw with
    | Some (h, code, c) =>
        let m := if h : bool then SigningMethodHS256 else SigningMethodEdDSA in
        if bool_decide (signing_code m kv = Some code) && in_timeb (leeway_of opts) now c &&
           bool_decide (Forall (option_ok m c) opts)
        then Ok (c, true) else Err (errors_New "token is invalid")
    | None => Err (errors_New "token is malformed")
    end;
  verifies m kv raw c := exists code, signing_code m kv = Some code /\ toy_decode raw = Some (is_hmac m, code, c)
}.

#[export] Instance toy_jwt_laws : JwtLaws.
Proof.
  split.
  - intros m ks kv c raw opts now Hpair [= <-] _ Hopts Htime. cbn [ParseWithClaims toy_jwt].
    rewrite toy_decode_token. cbn.
    replace (if is_hmac m then SigningMethodHS256 else SigningMethodEdDSA) with m by by destruct m.
    rewrite bool_decide_eq_true_2 by by destruct Hpair.
    rewrite (proj2 (in_timeb_spec _ _ _) Htime), bool_decide_eq_true_2; [done|]. by apply Forall_forall.
  - intros opts kv now raw c. cbn [ParseWithClaims toy_jwt].
    destruct (toy_decode raw) as [[[h code] c']|] eqn:Hraw; [|done].
    destruct (_ && _) eqn:Hok; [|done]. intros [= <-]. go_bool.
    exists (if h then SigningMethodHS256 else SigningMethodEdDSA). split_and!.
    + exists code. rewrite Hraw. by destruct h.
    + by apply in_timeb_spec.
    + intros o Ho _. by eapply (proj1 (Forall_forall _ _)).
    + intros o Ho Ha. exists o. split_and!; [done..|]. by eapply (proj1 (Forall_forall _ _)).
  - intros m ks c raw [= <-]. split; [done|]. unfold toy_token, bytes. cbn.
    constructor; [vm_compute; split; congruence|]. apply pos_string_visible.
Qed.

Definition secret32 : string := "01234567890123456789012345678901".
Definition hs_config : Config := mkConfig "" secret32 "" "" "" ["mobile"] 0 0.
Definition hs_manager : Manager :=
  mkManager (withDefaults hs_config) SigningMethodHS256 (Some (Secret secret32)) (Some (Secret secret32))
    (parser_options SigningMethodHS256 (withDefaults hs_config)).
Definition admin : IssueOptions := mkIssueOptions "session-1" ["admin"] 0 "".
Definition noon : Z := 43200 * Second + 5.

Lemma hs_manager_new : NewManager hs_config = Ok hs_manager.
Proof. vm_compute. reflexivity. Qed.

Definition admin_token : string * Claims :=
  match Issue hs_manager noon "user-1" TypeAccess admin with
  | Ok p => p
  | Err _ => ("", mkClaims "" "" [] None None None "" "" "" [])
  end.

Example issued_token_parses_witness :
  Parse hs_manager (noon + Minute) admin_token.1 TypeAccess = Ok admin_token.2 /\
  HasRole (Some admin_token.2) "admin" = true.
Proof.
  assert (issue_texts hs_manager "user-1" TypeAccess admin) as Htexts.
  { split_and!; try reflexivity; repeat constructor. }
  assert (Issue hs_manager noon "user-1" TypeAccess admin = Ok (admin_token.1, admin_token.2)) as Hissue
    by (unfold admin_token; reflexivity).
  destruct (issued_token_parses hs_config hs_config hs_manager hs_manager (Secret secret32) (Secret secret32)
    noon (noon + Minute) "user-1" TypeAccess TypeAccess admin_token.1 admin admin_token.2
    hs_manager_new hs_manager_new eq_refl eq_refl eq_refl (hmac_pair secret32) eq_refl (fun a Ha => Ha) Htexts Hissue
    ltac:(apply Z.leb_le; reflexivity) ltac:(apply Z.ltb_lt; reflexivity) (or_intror eq_refl)) as [H _].
  exact (conj H eq_refl).
Defined.

Example Parse_sound_witness :
  match Parse hs_manager (noon + Minute) admin_token.1 TypeRefresh with
  | Ok _ => False
  | Err e => errors_Is (Some e) ErrWrongType = Ret true
  end.
Proof.
  pose proof (Parse_sound hs_config hs_manager (noon + Minute) admin_token.1 TypeRefresh hs_manager_new) as H.
  vm_compute in H |- *. destruct H as [H|H]; [discriminate H|exact H].
Defined.

Definition key7 : @PrivateKey numbered_keys := 7%N.
Definition generated : string * string :=
  match GenerateEd25519Keys (Ok key7) with Ok p => p | Err _ => ("", "") end.

Example generated_keys_pair_witness :
  exists signer verifier, m_sign verifier = None /\ m_verify signer = m_verify verifier /\
    NewManager (mkConfig AlgEdDSA "" "" generated.2 "" [] 0 0) = Ok verifier.
Proof.
  destruct (generated_keys_pair key7 generated.1 generated.2 (mkConfig AlgEdDSA "" "" "" "" [] 0 0))
    as (signer & verifier & H1 & H2 & _ & _ & (ks & kv & _ & H3 & H4 & _) & _); [reflexivity..|].
  exists signer, verifier. split_and!; [|congruence|exact H2].
  vm_compute in H2. by injection H2 as <-.
Defined.
