(* ===== verification/Io.v ===== *)
(** * Effects: handles, logging and errors

    Opening a pool, a connection or an exporter leaves something that has to be
    closed.  [io] is the monad of code that does so: it threads the open handles
    and the log, and stops at the first error.  [balanced] code leaves the open
    handles as they were, [owning] code leaves exactly the handle it returns
    open when it succeeds and none when it fails. *)

From S2P Require Export Logger.

Record world := mkWorld {
  next_handle : nat;
  open_handles : gset nat;
  log_lines : list Line
}.

Definition io (A : Type) : Type := world -> world * result error A.

#[export] Instance io_ret : MRet io := fun _ a w => (w, Ok a).
#[export] Instance io_bind : MBind io := fun _ _ f m w =>
  match m w with
  | (w, Ok a) => f a w
  | (w, Err e) => (w, Err e)
  end.

Definition fail {A} (e : error) : io A := fun w => (w, Err e).
Definition of_result {A} (r : result error A) : io A := fun w => (w, r).
(** [if err != nil { return err }] for a call that only returns an error. *)
Definition check (e : option error) : io unit := match e with None => mret tt | Some e => fail e end.
(** [fmt.Errorf("message: %w", err)] around the error of a call. *)
Definition wrap {A} (message : string) (m : io A) : io A := fun w =>
  match m w with
  | (w, Err e) => (w, Err (Errorf message e))
  | answer => answer
  end.
(** A call whose error the caller handles itself. *)
Definition attempt {A} (m : io A) : io (result error A) := fun w => let '(w, r) := m w in (w, Ok r).
(** [defer cleanup()] *)
Definition defer {A} (cleanup : io unit) (m : io A) : io A := fun w =>
  let '(w, r) := m w in ((cleanup w).1, r).

Definition open_handle : io nat := fun w =>
  let h := next_handle w in (mkWorld (S h) ({[h]} ∪ open_handles w) (log_lines w), Ok h).
Definition close_handle (h : nat) : io unit := fun w =>
  (mkWorld (next_handle w) (open_handles w ∖ {[h]}) (log_lines w), Ok tt).
Definition say (lines : list Line) : io unit := fun w =>
  (mkWorld (next_handle w) (open_handles w) (log_lines w ++ lines), Ok tt).

Create HintDb io.

(** ** Reasoning about handles *)

(** Handles are used once. *)
Definition world_ok (w : world) : Prop := forall h, h ∈ open_handles w -> (h < next_handle w)%nat.

Definition balanced {A} (m : io A) : Prop := forall w, world_ok w ->
  world_ok (m w).1 /\ open_handles (m w).1 = open_handles w.

Definition owning (m : io nat) : Prop := forall w, world_ok w ->
  world_ok (m w).1 /\
  match (m w).2 with
  | Ok h => h ∉ open_handles w /\ open_handles (m w).1 = {[h]} ∪ open_handles w
  | Err _ => open_handles (m w).1 = open_handles w
  end.

Section balanced.
Context {A B : Type}.
Implicit Types m : io A.

Lemma balanced_ret (a : A) : balanced (mret a : io A).
Proof. by intros w Hw. Qed.
Lemma balanced_fail e : balanced (fail e : io A).
Proof. by intros w Hw. Qed.
Lemma balanced_result (r : result error A) : balanced (of_result r).
Proof. by intros w Hw. Qed.
Lemma balanced_check e : balanced (check e).
Proof. destruct e; by intros w Hw. Qed.
Lemma balanced_say lines : balanced (say lines).
Proof. by intros w Hw. Qed.

Lemma balanced_bind m (f : A -> io B) : balanced m -> (forall a, balanced (f a)) -> balanced (m ≫= f).
Proof.
  intros Hm Hf w Hw. unfold mbind, io_bind. destruct (Hm w Hw) as [Hok Hopen].
  destruct (m w) as [w' [a|e]]; [|done]. cbn in Hok, Hopen. destruct (Hf a w' Hok) as [? ->]. done.
Qed.

Lemma balanced_wrap message m : balanced m -> balanced (wrap message m).
Proof. intros Hm w Hw. unfold wrap. specialize (Hm w Hw). by destruct (m w) as [w' [a|e]]. Qed.

Lemma balanced_attempt m : balanced m -> balanced (attempt m).
Proof. intros Hm w Hw. unfold attempt. specialize (Hm w Hw). by destruct (m w). Qed.

(** What is opened and closed on every way out. *)
Lemma balanced_use (f : nat -> io A) :
  (forall h, balanced (f h)) -> balanced (h ← open_handle; defer (close_handle h) (f h)).
Proof.
  intros Hf w Hw. unfold mbind, io_bind, open_handle, defer. set (h := next_handle w).
  set (w1 := mkWorld (S h) ({[h]} ∪ open_handles w) (log_lines w)).
  assert (world_ok w1) as Hw1.
  { intros x. cbn. rewrite elem_of_union, elem_of_singleton. intros [->|Hx]; [lia|]. pose proof (Hw x Hx). lia. }
  destruct (Hf h w1 Hw1) as [Hok Hopen]. destruct (f h w1) as [w2 r]. cbn in *. split.
  - intros x Hx. apply Hok. cbn in Hx. set_solver.
  - rewrite Hopen. assert (h ∉ open_handles w) as Hh by (intros Hh; pose proof (Hw h Hh); lia). set_solver.
Qed.
End balanced.

Section owning.
Context {A : Type}.

Lemma owning_bind (m : io A) (f : A -> io nat) : balanced m -> (forall a, owning (f a)) -> owning (m ≫= f).
Proof.
  intros Hm Hf w Hw. unfold mbind, io_bind. destruct (Hm w Hw) as [Hok Hopen].
  destruct (m w) as [w' [a|e]]; [|done]. cbn in Hok, Hopen. rewrite <- Hopen. by apply Hf.
Qed.

Lemma owning_fail e : owning (fail e).
Proof. by intros w Hw. Qed.

(** Code that ends well with [h], and code that gives [h] up with an error. *)
Definition returning (h : nat) (m : io nat) : Prop := balanced m /\ forall w, (m w).2 = Ok h.
Definition giving_up (h : nat) (m : io nat) : Prop := forall w, world_ok w ->
  world_ok (m w).1 /\ open_handles (m w).1 = open_handles w ∖ {[h]} /\ exists e, (m w).2 = Err e.

Lemma returning_ret h : returning h (mret h).
Proof. split; [apply balanced_ret|done]. Qed.
Lemma returning_say h lines m : returning h m -> returning h (say lines ≫= fun _ => m).
Proof. intros [Hm Hr]. split; [by apply balanced_bind; [apply balanced_say|]|]. intros w. apply Hr. Qed.

Lemma giving_up_close h e : giving_up h (close_handle h ≫= fun _ => fail e).
Proof. intros w Hw. cbn. split_and!; [|done|by eexists]. intros x Hx. apply Hw. cbn in Hx. set_solver. Qed.
Lemma giving_up_say h lines m : giving_up h m -> giving_up h (say lines ≫= fun _ => m).
Proof. intros Hm w Hw. by apply (Hm (mkWorld (next_handle w) (open_handles w) (log_lines w ++ lines))). Qed.

(** A handle is opened and checked; when the check fails it is closed. *)
Lemma owning_checked (test : nat -> io A) (good : nat -> A -> io nat) (bad : nat -> error -> io nat) :
  (forall h, balanced (test h)) -> (forall h a, returning h (good h a)) -> (forall h e, giving_up h (bad h e)) ->
  owning (h ← open_handle; r ← attempt (test h); match r with Ok a => good h a | Err e => bad h e end).
Proof.
  intros Ht Hg Hb w Hw. unfold mbind, io_bind, open_handle, attempt. set (h := next_handle w).
  assert (h ∉ open_handles w) as Hh by (intros Hh; pose proof (Hw h Hh); lia).
  set (w1 := mkWorld (S h) ({[h]} ∪ open_handles w) (log_lines w)).
  assert (world_ok w1) as Hw1 by (intros x; cbn; intros [->%elem_of_singleton|Hx]%elem_of_union; [lia|pose proof (Hw x Hx); lia]).
  destruct (Ht h w1 Hw1) as [Hok2 Hopen2]. destruct (test h w1) as [w2 [a|e]]; cbn in Hok2, Hopen2.
  - destruct (Hg h a) as [Hbal Hret]. destruct (Hbal w2 Hok2) as [Hok3 Hopen3]. split; [done|].
    by rewrite Hret, Hopen3, Hopen2.
  - destruct (Hb h e w2 Hok2) as (Hok3 & Hopen3 & e' & ->). split; [done|]. rewrite Hopen3, Hopen2. set_solver.
Qed.
End owning.

#[export] Hint Resolve balanced_ret balanced_fail balanced_result balanced_check balanced_say balanced_bind
  balanced_wrap balanced_attempt balanced_use owning_fail owning_bind owning_checked
  returning_ret returning_say giving_up_close giving_up_say : io.
