(* ===== verification/Runner.v ===== *)
(** * Package [runner]: running components together

    [Run] starts every component in a goroutine of an [errgroup], cancels all of
    them as soon as one returns, and waits for the rest, but no longer than the
    shutdown timeout.  The goroutines' steps interleave freely, so [Run] is a step
    relation. *)

From S2P Require Export Text Logger.

Definition DefaultShutdownTimeout : Z := 30 * Second.

(** [Runner]: the names of its components and the timeout; what a component does
    is up to the steps. *)
Record Runner := mkRunner {
  run_logger : Logger;
  components : list string;
  shutdownTimeout : Z
}.

Definition New (default : Logger) (logger : option Logger) : Runner :=
  mkRunner (match logger with Some log => log | None => default end) [] DefaultShutdownTimeout.
Definition WithShutdownTimeout (timeout : Z) (r : Runner) : Runner :=
  if 0 <? timeout then mkRunner (run_logger r) (components r) timeout else r.
Definition Add (name : string) (r : Runner) : Runner :=
  mkRunner (run_logger r) (components r ++ [name]) (shutdownTimeout r).

Definition no_components : error := errors_New "runner: no components registered".
Definition component_error (name : string) (err : error) : error :=
  Errorf ("runner: component " +:+ name) err.
Definition timed_out (timeout : Z) : error :=
  errors_New ("runner: shutdown timed out after " +:+ Duration_String timeout).

(** ** One run *)

(** Where the goroutine of a component is: in [component.run]; after its deferred
    [cancel()], with what it returns; after the group took note of that. *)
Inductive status : Type :=
| Running
| Returned (err : option error)
| Recorded (err : option error).

(** Where [Run] itself is: in its first [select], in its second with the timer's
    deadline, or done. *)
Inductive phase : Type :=
| Serving
| Draining (deadline : Z)
| Finished (err : option error).

Record state := mkState {
  statuses : list status;
  group_err : option error;       (** the first error the group recorded *)
  cancelled : option Z;           (** when [groupCtx] was cancelled *)
  main : phase;
  clock : Z
}.

Section run.
Context (r : Runner).

Definition init (now : Z) : state := mkState (replicate (length (components r)) Running) None None Serving now.

Definition cancel (s : state) : state :=
  mkState (statuses s) (group_err s) (match cancelled s with Some t => Some t | None => Some (clock s) end) (main s) (clock s).

Definition recorded (st : status) : Prop := match st with Recorded _ => True | _ => False end.

(** Time does not pass while [Run] has something to receive, nor beyond its
    timer: the machine is fast compared with the timeout. *)
Definition may_wait (s : state) (t : Z) : Prop :=
  clock s <= t /\
  match main s with
  | Serving => cancelled s = None
  | Draining deadline => t <= deadline
  | Finished _ => True
  end.

Inductive step : state -> state -> Prop :=
| component_returns s i name err :
    statuses s !! i = Some Running -> components r !! i = Some name ->
    step s (cancel (mkState (<[i := Returned (component_error name <$> err)]> (statuses s))
                      (group_err s) (cancelled s) (main s) (clock s)))
| group_records s i err :
    statuses s !! i = Some (Returned err) ->
    step s (mkState (<[i := Recorded err]> (statuses s))
                      (match group_err s with Some e => Some e | None => err end)
                      (cancelled s) (main s) (clock s))
| parent_cancels s : step s (cancel s)
| all_done s :
    Forall recorded (statuses s) -> (forall e, main s <> Finished e) ->
    step s (mkState (statuses s) (group_err s) (cancelled s) (Finished (group_err s)) (clock s))
| shutdown_begins s t :
    main s = Serving -> cancelled s = Some t ->
    step s (mkState (statuses s) (group_err s) (cancelled s) (Draining (clock s + shutdownTimeout r)) (clock s))
| timer_fires s deadline :
    main s = Draining deadline -> deadline <= clock s ->
    step s (mkState (statuses s) (group_err s) (cancelled s) (Finished (Some (timed_out (shutdownTimeout r)))) (clock s))
| time_passes s t :
    may_wait s t ->
    step s (mkState (statuses s) (group_err s) (cancelled s) (main s) t).


(** The states a run begun at [now] goes through. *)
Inductive reachable (now : Z) : state -> Prop :=
| reachable_init : reachable now (init now)
| reachable_step s s' : reachable now s -> step s s' -> reachable now s'.

(** [Run] without components answers at once. *)
Definition Run (now : Z) (answer : option error) : Prop :=
  if components r == [] then answer = Some no_components
  else exists s, reachable now s /\ main s = Finished answer.
End run.

(** ** What holds in every state *)

Section properties.
Context (r : Runner) (Htimeout : 0 < shutdownTimeout r).

Definition failure (st : status) : option error :=
  match st with Running => None | Returned err | Recorded err => err end.

Record inv (s : state) : Prop := {
  inv_length : length (statuses s) = length (components r);
  inv_cancelled i st : statuses s !! i = Some st -> st <> Running -> cancelled s <> None;
  inv_named i st e : statuses s !! i = Some st -> failure st = Some e ->
    exists name err, components r !! i = Some name /\ e = component_error name err;
  inv_group e : group_err s = Some e -> exists i, statuses s !! i = Some (Recorded (Some e));
  inv_no_group : group_err s = None -> forall i e, statuses s !! i <> Some (Recorded (Some e));
  inv_main : match main s with
             | Serving => forall t, cancelled s = Some t -> clock s = t
             | Draining d => exists t, cancelled s = Some t /\ d = t + shutdownTimeout r /\ clock s <= d
             | Finished e =>
                 (Forall recorded (statuses s) /\ e = group_err s) \/
                 (e = Some (timed_out (shutdownTimeout r)) /\ exists t, cancelled s = Some t /\ t + shutdownTimeout r <= clock s)
             end
}.

Lemma inv_init now : inv (init r now).
Proof.
  constructor; cbn; try done.
  - by rewrite length_replicate.
  - intros i st [-> _]%lookup_replicate. done.
  - intros i st e [-> _]%lookup_replicate. done.
  - intros _ i e [? _]%lookup_replicate. done.
Qed.

(** Changing the status of a component that has not been recorded yet. *)
Lemma insert_lookup_cases (l : list status) i j x y z :
  l !! i = Some x -> <[i := y]> l !! j = Some z -> (j = i /\ z = y) \/ (j <> i /\ l !! j = Some z).
Proof.
  intros Hi Hj. destruct (decide (j = i)) as [->|Hne].
  - left. rewrite list_lookup_insert_eq in Hj by by eapply lookup_lt_Some. by simplify_eq.
  - right. by rewrite list_lookup_insert_ne in Hj.
Qed.

Lemma not_all_recorded (l : list status) i st : l !! i = Some st -> ~ recorded st -> ~ Forall recorded l.
Proof. intros Hi Hst Hall. by eapply Forall_lookup_1 in Hall. Qed.

Lemma inv_cancel s : inv s -> inv (cancel s).
Proof.
  intros [Hl Hc Hn Hg Hng Hm]. constructor; cbn; try done.
  - intros i st Hi Hst. specialize (Hc i st Hi Hst). by destruct (cancelled s).
  - destruct (main s) as [|d|e].
    + destruct (cancelled s); [done|]. by intros t [= <-].
    + by destruct Hm as (t & -> & Hd); exists t.
    + destruct Hm as [?|(He & t & -> & Ht)]; [by left|]. right. eauto.
Qed.

Lemma inv_return s i name err :
  inv s -> statuses s !! i = Some Running -> components r !! i = Some name ->
  inv (cancel (mkState (<[i := Returned (component_error name <$> err)]> (statuses s)) (group_err s) (cancelled s) (main s) (clock s))).
Proof.
  intros [Hl Hc Hn Hg Hng Hm] Hi Hname. constructor; cbn.
  - by rewrite length_insert.
  - intros j st _ _. by destruct (cancelled s).
  - intros j st e Hj He. apply (insert_lookup_cases _ i j Running) in Hj as [[-> ->]|[_ Hj]]; [|by eapply Hn|done].
    destruct err as [err|]; [|done]. cbn in He. simplify_eq. eauto.
  - intros e He. destruct (Hg e He) as [j Hj]. exists j. rewrite list_lookup_insert_ne; [done|]. intros ->. by simplify_eq.
  - intros He j e Hj. apply (insert_lookup_cases _ i j Running) in Hj as [[_ ?]|[_ Hj]]; [done| |done]. by eapply Hng.
  - destruct (main s) as [|d|e].
    + destruct (cancelled s); [done|]. by intros t [= <-].
    + destruct Hm as (t & -> & Hd). by exists t.
    + destruct Hm as [[Hall _]|(-> & t & -> & Ht)]; [by destruct (not_all_recorded _ i Running Hi (fun x => x) Hall)|]. right. eauto.
Qed.

Lemma inv_record s i err :
  inv s -> statuses s !! i = Some (Returned err) ->
  inv (mkState (<[i := Recorded err]> (statuses s)) (match group_err s with Some e => Some e | None => err end)
         (cancelled s) (main s) (clock s)).
Proof.
  intros [Hl Hc Hn Hg Hng Hm] Hi. constructor; cbn.
  - by rewrite length_insert.
  - intros j st Hj Hst. apply (insert_lookup_cases _ i j (Returned err)) in Hj as [[-> ->]|[_ Hj]]; [|by eapply Hc|done].
    by apply (Hc i (Returned err)).
  - intros j st e Hj He. apply (insert_lookup_cases _ i j (Returned err)) in Hj as [[-> ->]|[_ Hj]]; [|by eapply Hn|done].
    by apply (Hn i (Returned err)).
  - intros e He. destruct (group_err s) as [e'|] eqn:Hge.
    + destruct (Hg e He) as [j Hj]. exists j. rewrite list_lookup_insert_ne; [done|]. intros ->. by simplify_eq.
    + subst err. exists i. apply list_lookup_insert_eq. by eapply lookup_lt_Some.
  - intros He j e Hj. destruct (group_err s) as [e'|] eqn:Hge; [done|]. subst err.
    apply (insert_lookup_cases _ i j (Returned None)) in Hj as [[_ ?]|[_ Hj]]; [done| |done]. by eapply Hng.
  - destruct (main s) as [|d|e]; [done..|].
    destruct Hm as [[Hall _]|Hm]; [by destruct (not_all_recorded _ i (Returned err) Hi (fun x => x) Hall)|by right].
Qed.

Lemma inv_step s s' : inv s -> step r s s' -> inv s'.
Proof.
  intros Hinv Hstep. destruct Hstep as [s i name err Hi Hname|s i err Hi|s|s Hall Hm|s t Hm Ht|s d Hm Hd|s t [Hle Hw]].
  - by apply inv_return.
  - by apply inv_record.
  - by apply inv_cancel.
  - destruct Hinv. constructor; cbn; try done. by left.
  - destruct Hinv as [Hl Hc Hn Hg Hng Hmain]. constructor; cbn; try done. rewrite Hm in Hmain. exists t.
    rewrite (Hmain t Ht). split_and!; [done..|lia].
  - destruct Hinv as [Hl Hc Hn Hg Hng Hmain]. constructor; cbn; try done. rewrite Hm in Hmain.
    destruct Hmain as (t & Ht & -> & Hle). right. split; [done|]. exists t. split; [done|lia].
  - destruct Hinv as [Hl Hc Hn Hg Hng Hmain]. constructor; cbn; try done. destruct (main s) as [|d|e].
    + intros u Hu. by rewrite Hw in Hu.
    + destruct Hmain as (u & Hu & -> & _). eauto.
    + destruct Hmain as [?|(-> & u & Hu & Hlate)]; [by left|]. right. split; [done|]. exists u. split; [done|lia].
Qed.

Lemma reachable_inv now s : reachable r now s -> inv s.
Proof. induction 1; [apply inv_init|by eapply inv_step]. Qed.

(** C20. What [Run] answers means what it says, in every interleaving: [nil] only
    when every component has returned [nil]; the error of a component, with its
    name, only when all have returned; or the timeout, only when that long has
    passed since the cancellation.  And whatever one component returns cancels
    the others. *)
Theorem run_answer_means now s (Hreach : reachable r now s) :
  (forall i st, statuses s !! i = Some st -> st <> Running -> cancelled s <> None) /\
  match main s with
  | Finished None => Forall (fun st => st = Recorded None) (statuses s) /\ length (statuses s) = length (components r)
  | Finished (Some e) =>
      (Forall recorded (statuses s) /\
       exists i name err, components r !! i = Some name /\ e = component_error name err /\
         statuses s !! i = Some (Recorded (Some e))) \/
      (e = timed_out (shutdownTimeout r) /\ exists t, cancelled s = Some t /\ t + shutdownTimeout r <= clock s)
  | _ => True
  end.
Proof.
  apply reachable_inv in Hreach as [Hl Hc Hn Hg Hng Hm]. split; [done|].
  destruct (main s) as [| |[e|]]; try done.
  - destruct Hm as [[Hall He]|(? & Ht)]; [left|right; by simplify_eq]. split; [done|].
    destruct (Hg e (eq_sym He)) as [i Hi]. destruct (Hn i _ e Hi eq_refl) as (name & err & Hname & ->). eauto 6.
  - destruct Hm as [[Hall He]|[? _]]; [|done]. split; [|done]. apply Forall_lookup. intros i st Hi.
    eapply Forall_lookup_1 in Hall as Hrec; [|exact Hi]. destruct st as [| |[e|]]; try done. by apply (Hng (eq_sym He)) in Hi.
Qed.

(** C34. [Run] does not outlive a cancellation by more than the timeout: until
    then it may still be waiting, never afterwards; and from every such state it
    can finish by itself in that time, without any step of a component. *)
Theorem shutdown_is_bounded now s t (Hreach : reachable r now s) (Hcancelled : cancelled s = Some t) :
  ((forall e, main s <> Finished e) -> clock s <= t + shutdownTimeout r) /\
  exists s' e, rtc (step r) s s' /\ main s' = Finished e /\ statuses s' = statuses s /\
    clock s' <= Z.max (clock s) (t + shutdownTimeout r).
Proof.
  apply reachable_inv in Hreach as [Hl Hc Hn Hg Hng Hm].
  assert (forall d, main s = Draining d -> exists s' e, rtc (step r) s s' /\ main s' = Finished e /\ statuses s' = statuses s /\
    clock s' <= Z.max (clock s) (t + shutdownTimeout r)) as Hdrain.
  { intros d Hd. rewrite Hd in Hm. destruct Hm as (u & Hu & -> & Hle). assert (u = t) as -> by congruence.
    eexists _, _. split; [|split; [|split]].
    - eapply rtc_l; [apply (time_passes r s (t + shutdownTimeout r)); split; [done|by rewrite Hd]|].
      eapply rtc_once, timer_fires; cbn; [exact Hd|done].
    - done.
    - done.
    - cbn. lia. }
  split.
  - intros Hnot. destruct (main s) as [|d|e]; [rewrite (Hm t Hcancelled); lia| |by destruct (Hnot e)].
    destruct Hm as (u & Hu & -> & Hle). by simplify_eq.
  - destruct (main s) as [|d|e] eqn:Hmain; [|by apply (Hdrain d)|by eexists s, e; split_and!; [apply rtc_refl|..|lia]].
    specialize (Hm t Hcancelled). eexists _, _. split; [|split; [|split]].
    + eapply rtc_l; [by apply (shutdown_begins r s t)|].
      eapply rtc_l; [apply (time_passes r _ (clock s + shutdownTimeout r)); split; cbn; [lia|done]|].
      eapply rtc_once, timer_fires; cbn; [done|lia].
    + done.
    + done.
    + cbn. lia.
Qed.
End properties.

(** ** Signals

    The goroutine of [SignalContext]: the first signal cancels the context, the
    second ends the process; after [stop()] the goroutine is gone, and with it what
    it did with signals. *)
Definition exitCodeInterrupted : Z := 130.

Inductive signal_event : Type := SignalArrives | StopCalled.

Record signals := mkSignals {
  awaited : nat;             (** signals the goroutine still waits for *)
  ctx_cancelled : bool;
  exited : option Z
}.

Definition SignalContext : signals := mkSignals 2 false None.

Definition on_signal (e : signal_event) (s : signals) : signals :=
  match exited s, e, awaited s with
  | Some _, _, _ => s
  | None, SignalArrives, 2%nat => mkSignals 1 true None
  | None, SignalArrives, 1%nat => mkSignals 0 (ctx_cancelled s) (Some exitCodeInterrupted)
  | None, SignalArrives, _ => s
  | None, StopCalled, _ => mkSignals 0 true None
  end.

(** ** Witnesses and examples *)

Definition two_servers : Runner :=
  WithShutdownTimeout (5 * Second) (Add "http" (Add "grpc" (New (mkLogger LevelInfo [] true) None))).

Definition disk_full : error := errors_New "disk full".
Definition ctx_canceled : error := errors_New "context canceled".

(** The "grpc" component fails; its deferred [cancel()] wakes "http", whose error
    the group records first. *)
Definition s1 := cancel (mkState [Returned (Some (component_error "grpc" disk_full)); Running] None None Serving 0).
Definition s2 := cancel (mkState [Returned (Some (component_error "grpc" disk_full)); Returned (Some (component_error "http" ctx_canceled))] None (Some 0) Serving 0).
Definition s3 := mkState [Returned (Some (component_error "grpc" disk_full)); Recorded (Some (component_error "http" ctx_canceled))]
  (Some (component_error "http" ctx_canceled)) (Some 0) Serving 0.
Definition s4 := mkState [Recorded (Some (component_error "grpc" disk_full)); Recorded (Some (component_error "http" ctx_canceled))]
  (Some (component_error "http" ctx_canceled)) (Some 0) Serving 0.
Definition s5 := mkState (statuses s4) (group_err s4) (Some 0) (Finished (group_err s4)) 0.

Lemma s2_reachable : reachable two_servers 0 s2.
Proof.
  eapply reachable_step; [eapply reachable_step; [apply reachable_init|]|].
  - exact (component_returns two_servers (init two_servers 0) 0 "grpc" (Some disk_full) eq_refl eq_refl).
  - exact (component_returns two_servers s1 1 "http" (Some ctx_canceled) eq_refl eq_refl).
Qed.

(** The cause is lost: what [Run] answers is the error of the component that was
    only cancelled. *)
Lemma root_cause_lost : reachable two_servers 0 s5 /\ main s5 = Finished (Some (component_error "http" ctx_canceled)).
Proof.
  split; [|done]. eapply reachable_step; [eapply reachable_step; [eapply reachable_step; [apply s2_reachable|]|]|].
  - exact (group_records two_servers s2 1 _ eq_refl).
  - exact (group_records two_servers s3 0 _ eq_refl).
  - apply (all_done two_servers s4); [repeat constructor|done].
Qed.

Lemma run_answer_means_witness :
  Forall recorded (statuses s5) /\ exists i name err, components two_servers !! i = Some name /\
    component_error "http" ctx_canceled = component_error name err.
Proof.
  destruct (run_answer_means two_servers eq_refl 0 s5 (proj1 root_cause_lost)) as [_ [(H & i & name & err & Hn & He & _)|[He _]]].
  - split; [exact H|]. exists i, name, err. exact (conj Hn He).
  - discriminate He.
Defined.

Lemma shutdown_is_bounded_witness :
  clock s2 <= 0 + 5 * Second /\ exists s' e, rtc (step two_servers) s2 s' /\ main s' = Finished e.
Proof.
  destruct (shutdown_is_bounded two_servers ltac:(reflexivity) 0 s2 0 s2_reachable eq_refl) as [H (s' & e & Hs & Hm & _)].
  split; [apply H; discriminate|]. exists s', e. exact (conj Hs Hm).
Defined.

Example two_signals :
  let first := on_signal SignalArrives SignalContext in
  ctx_cancelled first = true /\ exited first = None /\
  exited (on_signal SignalArrives first) = Some 130 /\
  exited (on_signal SignalArrives (on_signal StopCalled first)) = None.
Proof. by vm_compute. Qed.
