(* ===== verification/GrpcServer.v ===== *)
(** * [grpcserver]: interceptors and the server's chain

    A handler is a function of the context on the state a call can touch: the
    response headers, the metrics and the log.  It answers or panics; a panic
    keeps what has been done so far, as a Go panic does.  Requests and replies
    are opaque; the environment of a call gives the clock, the fresh request id
    and the elapsed time. *)

From S2P Require Export Logger GrpcErrors.

(** ** State of a call *)

(** [Metrics]: the vectors by label values. *)
Record Metrics := mkMetrics {
  requests : gmap (string * string) Z;
  duration : gmap string Z;          (** number of observations *)
  inFlight : gmap string Z
}.

Record World := mkWorld {
  w_transport : bool;                 (** the context belongs to a server call *)
  w_headers : list (string * string);
  w_metrics : Metrics;
  w_log : list Line
}.

(** The environment of one call. *)
Record Env := mkEnv {
  e_default : Logger;   (** [slog.Default()] *)
  e_uuid : string;      (** [uuid.NewString()] *)
  e_elapsed : Z;        (** [time.Since(start)] *)
  e_stack : string;     (** [debug.Stack()] *)
  e_now : Z
}.

(** [grpc.SetHeader] fails outside a server call; the source ignores that. *)
Definition SetHeader (key value : string) (w : World) : World :=
  if w_transport w then mkWorld true (w_headers w ++ [(key, value)]) (w_metrics w) (w_log w) else w.

Definition write_log (lines : list Line) (w : World) : World :=
  mkWorld (w_transport w) (w_headers w) (w_metrics w) (w_log w ++ lines).

Definition with_metrics (f : Metrics -> Metrics) (w : World) : World :=
  mkWorld (w_transport w) (w_headers w) (f (w_metrics w)) (w_log w).

Definition add_to `{Countable K} (k : K) (n : Z) (m : gmap K Z) : gmap K Z :=
  partial_alter (fun x => Some (default 0 x + n)) k m.

Definition Reply (R : Type) : Type := option R * option error.
Definition Handler (R : Type) : Type := Context -> World -> World * outcome (Reply R).
Definition UnaryInterceptor (R : Type) : Type := string -> Handler R -> Handler R.

(** A stream handler has no reply. *)
Definition StreamHandler : Type := Context -> World -> World * outcome (option error).
Definition StreamInterceptor : Type := string -> StreamHandler -> StreamHandler.

(** ** Helpers of interceptors.go *)

Definition toSet (values : list string) : gset string := list_to_set values.

Definition orDefaultLogger (env : Env) (log : option Logger) : Logger := default (e_default env) log.

(** [toAttrs]: pairs of a key and a value; what is no key is skipped with its value. *)
Fixpoint toAttrs (args : list Value) : list Attr :=
  match args with
  | StringValue key :: value :: args => (key, value) :: toAttrs args
  | _ :: _ :: args => toAttrs args
  | _ => []
  end.

Definition isServerFault (code : codes.Code) : bool :=
  match code with
  | codes.Unknown | codes.Internal | codes.DataLoss | codes.Unimplemented => true
  | _ => false
  end.

Definition peerAddress (ctx : Context) : string :=
  match ctx_peer ctx with Some (Some address) => address | _ => "" end.

(** [codes.Code.String()] *)
Definition Code_String (c : codes.Code) : string :=
  match c with
  | codes.OK => "OK"
  | codes.Canceled => "Canceled"
  | codes.Unknown => "Unknown"
  | codes.InvalidArgument => "InvalidArgument"
  | codes.DeadlineExceeded => "DeadlineExceeded"
  | codes.NotFound => "NotFound"
  | codes.AlreadyExists => "AlreadyExists"
  | codes.PermissionDenied => "PermissionDenied"
  | codes.ResourceExhausted => "ResourceExhausted"
  | codes.FailedPrecondition => "FailedPrecondition"
  | codes.Aborted => "Aborted"
  | codes.OutOfRange => "OutOfRange"
  | codes.Unimplemented => "Unimplemented"
  | codes.Internal => "Internal"
  | codes.Unavailable => "Unavailable"
  | codes.DataLoss => "DataLoss"
  | codes.Unauthenticated => "Unauthenticated"
  end.

Section interceptors.
Context `{!GrpcStatus}.

(** [status.Code(err)] *)
Definition status_Code (err : option error) : codes.Code :=
  match err with
  | None => codes.OK
  | Some e => match FromError e with Some st => Status_code st | None => codes.Unknown end
  end.

Definition logRequest (env : Env) (ctx : Context) (log : Logger) (method : string) (err : option error)
  : outcome (list Line) :=
  let code := status_Code err in
  let attrs := [StringValue "method"; StringValue method; StringValue "code"; StringValue (Code_String code);
                StringValue "duration_ms"; Int64Value (Milliseconds (e_elapsed env))]
    ++ (if Get ctx != "" then [StringValue "request_id"; StringValue (Get ctx)] else [])
    ++ (if peerAddress ctx != "" then [StringValue "peer"; StringValue (peerAddress ctx)] else []) in
  match err with
  | None => Ret (LogAttrs log ctx LevelInfo "grpc request handled" (toAttrs attrs))
  | Some e =>
      text ← error_text e;
      let level := if isServerFault code then LevelError else LevelWarn in
      Ret (LogAttrs log ctx level "grpc request failed" (toAttrs (attrs ++ [StringValue "error"; StringValue text])))
  end.

Definition logPanic (ctx : Context) (log : Logger) (method recovered stack : string) : list Line :=
  LogAttrs log ctx LevelError "grpc panic recovered"
    [slog_String "method" method; slog_String "panic" recovered; slog_String "request_id" (Get ctx);
     slog_String "stack" stack].

(** ** Interceptors *)

Definition withRequestID (env : Env) (ctx : Context) : Context * string :=
  let id := match ctx_incoming ctx with Some md => metadataValue md MetadataKey | None => "" end in
  let id := if id == "" then e_uuid env else id in
  (Attrs (requestid_NewContext ctx id) [slog_String "request_id" id], id).

Definition RequestIDUnaryInterceptor {R} (env : Env) : UnaryInterceptor R := fun _ handler ctx w =>
  let '(ctx, id) := withRequestID env ctx in
  handler ctx (SetHeader MetadataKey id w).

Definition RequestIDStreamInterceptor (env : Env) : StreamInterceptor := fun _ handler ctx w =>
  let '(ctx, id) := withRequestID env ctx in
  handler ctx (SetHeader MetadataKey id w).

Definition LoggingUnaryInterceptor {R} (env : Env) (log : option Logger) (skipMethods : list string)
  : UnaryInterceptor R := fun method handler ctx w =>
  let log := orDefaultLogger env log in
  if bool_decide (method ∈ toSet skipMethods) then handler ctx w
  else
    let ctx := Into ctx (Some log) in
    match handler ctx w with
    | (w, Panic v) => (w, Panic v)
    | (w, Ret (resp, err)) =>
        match logRequest env ctx log method err with
        | Panic v => (w, Panic v)
        | Ret lines => (write_log lines w, Ret (resp, err))
        end
    end.

Definition LoggingStreamInterceptor (env : Env) (log : option Logger) (skipMethods : list string)
  : StreamInterceptor := fun method handler ctx w =>
  let log := orDefaultLogger env log in
  if bool_decide (method ∈ toSet skipMethods) then handler ctx w
  else
    let ctx := Into ctx (Some log) in
    match handler ctx w with
    | (w, Panic v) => (w, Panic v)
    | (w, Ret err) =>
        match logRequest env ctx log method err with
        | Panic v => (w, Panic v)
        | Ret lines => (write_log lines w, Ret err)
        end
    end.

Definition RecoveryUnaryInterceptor {R} (env : Env) (log : option Logger) : UnaryInterceptor R :=
  fun method handler ctx w =>
  match handler ctx w with
  | (w, Panic recovered) =>
      (write_log (logPanic ctx (orDefaultLogger env log) method recovered (e_stack env)) w,
       Ret (None, status_Error codes.Internal "internal server error"))
  | r => r
  end.

Definition RecoveryStreamInterceptor (env : Env) (log : option Logger) : StreamInterceptor :=
  fun method handler ctx w =>
  match handler ctx w with
  | (w, Panic recovered) =>
      (write_log (logPanic ctx (orDefaultLogger env log) method recovered (e_stack env)) w,
       Ret (status_Error codes.Internal "internal server error"))
  | r => r
  end.

Definition TimeoutUnaryInterceptor {R} (env : Env) (timeout : Z) : UnaryInterceptor R := fun _ handler ctx w =>
  match ctx_deadline ctx with
  | Some _ => handler ctx w
  | None => if timeout <=? 0 then handler ctx w else handler (WithTimeout ctx (e_now env) timeout) w
  end.

Definition ErrorMappingUnaryInterceptor {R} : UnaryInterceptor R := fun _ handler ctx w =>
  match handler ctx w with
  | (w, Ret (resp, None)) => (w, Ret (resp, None))
  | (w, Ret (_, Some err)) => (w, err ← MapError (Some err); Ret (None, err))
  | (w, Panic v) => (w, Panic v)
  end.

Definition ErrorMappingStreamInterceptor : StreamInterceptor := fun _ handler ctx w =>
  match handler ctx w with
  | (w, Ret err) => (w, MapError err)
  | (w, Panic v) => (w, Panic v)
  end.

(** ** metrics.go *)

Definition observe (method : string) (err : option error) (m : Metrics) : Metrics :=
  mkMetrics (add_to (method, Code_String (status_Code err)) 1 (requests m)) (add_to method 1 (duration m)) (inFlight m).

Definition in_flight (method : string) (n : Z) (m : Metrics) : Metrics :=
  mkMetrics (requests m) (duration m) (add_to method n (inFlight m)).

Definition Metrics_UnaryInterceptor {R} : UnaryInterceptor R := fun method handler ctx w =>
  match handler ctx (with_metrics (in_flight method 1) w) with
  | (w, Ret (resp, err)) => (with_metrics (in_flight method (-1)) (with_metrics (observe method err) w), Ret (resp, err))
  | (w, Panic v) => (with_metrics (in_flight method (-1)) w, Panic v)
  end.

Definition Metrics_StreamInterceptor : StreamInterceptor := fun method handler ctx w =>
  match handler ctx (with_metrics (in_flight method 1) w) with
  | (w, Ret err) => (with_metrics (in_flight method (-1)) (with_metrics (observe method err) w), Ret err)
  | (w, Panic v) => (with_metrics (in_flight method (-1)) w, Panic v)
  end.

(** ** server.go: the chain *)

(** [Config], but for the option and interceptor lists, which [serve_unary] and
    [serve_stream] take separately; of the TLS configuration and the registry,
    whether they are set. *)
Record Config := mkConfig {
  cfg_Address : string;
  cfg_Logger : option Logger;
  EnableHealth : bool;
  EnableReflection : bool;
  EnableTracing : bool;
  GracefulStopTimeout : Z;
  DrainDelay : Z;
  MaxRecvMsgSize : Z;
  MaxSendMsgSize : Z;
  MaxConcurrentStreams : Z;
  cfg_TLS : bool;
  cfg_Registry : bool;
  LogSkipMethods : list string
}.

Definition withDefaults (env : Env) (cfg : Config) : Config :=
  mkConfig (if cfg_Address cfg == "" then ":50051" else cfg_Address cfg)
    (Some (orDefaultLogger env (cfg_Logger cfg)))
    (EnableHealth cfg) (EnableReflection cfg) (EnableTracing cfg)
    (or_zero (GracefulStopTimeout cfg) (10 * Second)) (DrainDelay cfg)
    (or_zero (MaxRecvMsgSize cfg) (4 * 1024 * 1024)) (or_zero (MaxSendMsgSize cfg) (4 * 1024 * 1024))
    (or_zero (MaxConcurrentStreams cfg) 1000) (cfg_TLS cfg) (cfg_Registry cfg)
    (["/grpc.health.v1.Health/Check"; "/grpc.health.v1.Health/Watch";
      "/grpc.reflection.v1.ServerReflection/ServerReflectionInfo";
      "/grpc.reflection.v1alpha.ServerReflection/ServerReflectionInfo"] ++ LogSkipMethods cfg).

(** [grpc.ChainUnaryInterceptor] and [ChainStreamInterceptor]: the first is the
    outermost. *)
Definition chain {H : Type} (interceptors : list (string -> H -> H)) (method : string) (handler : H) : H :=
  foldr (fun i h => i method h) handler interceptors.

Definition unary_chain {R} (env : Env) (cfg : Config) (user : list (UnaryInterceptor R)) : list (UnaryInterceptor R) :=
  [RecoveryUnaryInterceptor env (cfg_Logger cfg); RequestIDUnaryInterceptor env;
   LoggingUnaryInterceptor env (cfg_Logger cfg) (LogSkipMethods cfg)]
  ++ (if cfg_Registry cfg then [Metrics_UnaryInterceptor] else [])
  ++ [ErrorMappingUnaryInterceptor]
  ++ user.

Definition stream_chain (env : Env) (cfg : Config) (user : list StreamInterceptor) : list StreamInterceptor :=
  [RecoveryStreamInterceptor env (cfg_Logger cfg); RequestIDStreamInterceptor env;
   LoggingStreamInterceptor env (cfg_Logger cfg) (LogSkipMethods cfg)]
  ++ (if cfg_Registry cfg then [Metrics_StreamInterceptor] else [])
  ++ [ErrorMappingStreamInterceptor]
  ++ user.

(** A call of a server made by [New(cfg)]. *)
Definition serve_unary {R} (env : Env) (cfg : Config) (user : list (UnaryInterceptor R)) (method : string)
  (handler : Handler R) : Handler R :=
  chain (unary_chain env (withDefaults env cfg) user) method handler.

Definition serve_stream (env : Env) (cfg : Config) (user : list StreamInterceptor) (method : string)
  (handler : StreamHandler) : StreamHandler :=
  chain (stream_chain env (withDefaults env cfg) user) method handler.
End interceptors.

(** ** The chain *)

#[local] Arguments MapError : simpl never.

Section server.
Context `{!GrpcStatus} {HL : GrpcStatusLaws}.

Lemma nil_free_singleton e : preorder e = [e] -> is_Error e = None -> nil_free e = true.
Proof. intros Hp Ha. unfold nil_free. rewrite Hp. destruct e; done. Qed.

Lemma Status_Err_nil_free st : Status_code st <> codes.OK -> exists e, Status_Err st = Some e /\ nil_free e = true.
Proof. intros Hst. destruct (Err_error st Hst) as (e & -> & _ & Hp & Ha). exists e. eauto using nil_free_singleton. Qed.

Lemma no_Error_nil_free e : first_some is_Error (preorder e) = None -> nil_free e = true.
Proof.
  intros Hf. apply nil_free_spec. induction (preorder e) as [|x l IH]; [apply not_elem_of_nil|].
  cbn in Hf. destruct (is_Error x) eqn:Hx; [done|]. apply not_elem_of_cons. split; [by intros <-|by apply IH].
Qed.

(** What the mapping answers is a status whose text can be read. *)
Lemma MapError_answers e :
  (exists v, MapError (Some e) = Panic v) \/
  exists e' st, MapError (Some e) = Ret (Some e') /\ FromError e' = Some st /\ nil_free e' = true.
Proof.
  destruct (first_some is_Error (preorder e)) as [[a|]|] eqn:Ha.
  - right. rewrite (MapError_app e a Ha).
    destruct (Err_error _ (app_status_not_OK a)) as (e' & -> & Hf & Hp & Hn). eauto 6 using nil_free_singleton.
  - left. unfold MapError. rewrite As_returns, Ha. by eexists.
  - right. apply no_Error_nil_free in Ha as Hn. destruct (MapError_returns e HL Hn) as (e' & He & Hf).
    exists e', (client_status e). split_and!; [done..|].
    destruct (FromError e) as [st|] eqn:Hfe.
    + unfold MapError in He. rewrite As_returns, Ha, Hfe in He. cbn in He. by simplify_eq.
    + rewrite MapError_foreign in He by done. destruct (Status_Err_nil_free (client_status e)) as (x & Hx & Hnx).
      * unfold client_status. rewrite Ha, Hfe. by repeat case_match.
      * by simplify_eq.
Qed.

Definition internal_error : option error := status_Error codes.Internal "internal server error".

(** The reply to the client, from what the inner handler did. *)
Definition client_reply {R} (out : outcome (Reply R)) : Reply R :=
  match out with
  | Ret (r, None) => (r, None)
  | Ret (_, Some e) => (None, match MapError (Some e) with Ret err => err | Panic _ => internal_error end)
  | Panic _ => (None, internal_error)
  end.

(** What the call panics with: the handler, or reading the error it returned. *)
Definition panic_value {R} (out : outcome (Reply R)) : option string :=
  match out with
  | Ret (_, None) => None
  | Ret (_, Some e) => match MapError (Some e) with Ret _ => None | Panic v => Some v end
  | Panic v => Some v
  end.

Definition panics {R} (out : outcome (Reply R)) : bool :=
  match panic_value out with Some _ => true | None => false end.

(** The context and the state the user's interceptors get. *)
Definition inner_context (env : Env) (cfg : Config) (method : string) (ctx : Context) : Context :=
  let ctx := (withRequestID env ctx).1 in
  if bool_decide (method ∈ toSet (LogSkipMethods (withDefaults env cfg))) then ctx
  else Into ctx (Some (orDefaultLogger env (cfg_Logger cfg))).

Definition inner_world (env : Env) (cfg : Config) (method : string) (ctx : Context) (w : World) : World :=
  let w := SetHeader MetadataKey (withRequestID env ctx).2 w in
  if cfg_Registry cfg then with_metrics (in_flight method 1) w else w.

(** The counters after the call. *)
Definition final_metrics (cfg : Config) (method : string) (panicked : bool) (err : option error) (m : Metrics) : Metrics :=
  if cfg_Registry cfg
  then in_flight method (-1) (if panicked then m else observe method err m)
  else m.

(** The interceptors next to the user's: mapping and, with a registry, metrics. *)
Lemma mapped_unary {R} (inner : Handler R) method ctx w w1 out :
  inner ctx w = (w1, out) ->
  exists out', ErrorMappingUnaryInterceptor method inner ctx w = (w1, out') /\
    out' = match panic_value out with Some v => Panic v | None => Ret (client_reply out) end.
Proof.
  intros Hi. unfold ErrorMappingUnaryInterceptor. rewrite Hi. destruct out as [[r [e|]]|v]; cbn.
  - destruct (MapError (Some e)) as [err|v]; eexists; (split; [reflexivity|done]).
  - by eexists.
  - by eexists.
Qed.

Definition core {R} (cfg : Config) (method : string) (inner : Handler R) : Handler R :=
  chain ((if cfg_Registry cfg then [Metrics_UnaryInterceptor] else []) ++ [ErrorMappingUnaryInterceptor]) method inner.

Lemma core_spec {R} cfg method (inner : Handler R) ctx w w1 out :
  inner ctx (if cfg_Registry cfg then with_metrics (in_flight method 1) w else w) = (w1, out) ->
  exists out', core cfg method inner ctx w =
      (with_metrics (final_metrics cfg method (panics out) (client_reply out).2) w1, out') /\
    out' = match panic_value out with Some v => Panic v | None => Ret (client_reply out) end.
Proof.
  intros Hi. unfold core, final_metrics, chain. destruct (cfg_Registry cfg); cbn [foldr app].
  - destruct (mapped_unary inner method _ _ _ _ Hi) as (out' & He & Ho).
    exists out'. split; [|done]. unfold Metrics_UnaryInterceptor. rewrite He.
    subst out'. unfold panics. destruct (panic_value out); [done|].
    by destruct (client_reply out).
  - destruct (mapped_unary inner method _ _ _ _ Hi) as (out' & He & Ho).
    exists out'. split; [|done]. rewrite He. by destruct w1.
Qed.

Lemma logRequest_returns env ctx log method {R} (out : outcome (Reply R)) :
  panics out = false -> exists lines, logRequest env ctx log method (client_reply out).2 = Ret lines.
Proof.
  destruct out as [[r [e|]]|v]; unfold panics; cbn [panic_value client_reply snd]; [|by eexists|done].
  destruct (MapError_answers e) as [[v ->]|(e' & st & -> & _ & Hn)]; [done|]. intros _.
  unfold logRequest. destruct (error_text_returns e' Hn) as [s ->]. by eexists.
Qed.

(** The chain, outermost first. *)
Lemma serve_unary_core {R} env cfg (user : list (UnaryInterceptor R)) method (handler : Handler R) :
  serve_unary env cfg user method handler =
  RecoveryUnaryInterceptor env (Some (orDefaultLogger env (cfg_Logger cfg))) method
    (RequestIDUnaryInterceptor env method
      (LoggingUnaryInterceptor env (Some (orDefaultLogger env (cfg_Logger cfg))) (LogSkipMethods (withDefaults env cfg))
        method (core cfg method (chain user method handler)))).
Proof.
  unfold serve_unary, unary_chain, core, chain. cbn [withDefaults cfg_Registry cfg_Logger LogSkipMethods].
  by rewrite !foldr_app.
Qed.

Lemma client_reply_panic {R} (out : outcome (Reply R)) : panics out = true -> client_reply out = (None, internal_error).
Proof. destruct out as [[r [e|]]|v]; unfold panics; cbn; [|done..]. by destruct (MapError (Some e)). Qed.

Lemma orDefault_Some env log : orDefaultLogger env (Some log) = log.
Proof. done. Qed.

Lemma withRequestID_spec env ctx :
  Get (withRequestID env ctx).1 = (withRequestID env ctx).2 /\
  slog_String "request_id" (withRequestID env ctx).2 ∈ context_attrs (withRequestID env ctx).1.
Proof.
  unfold withRequestID. cbn [fst snd]. autorewrite with golib. split; [done|].
  apply elem_of_app. right. by left.
Qed.

Lemma inner_context_spec env cfg method ctx :
  Get (inner_context env cfg method ctx) = (withRequestID env ctx).2 /\
  slog_String "request_id" (withRequestID env ctx).2 ∈ context_attrs (inner_context env cfg method ctx).
Proof.
  pose proof (withRequestID_spec env ctx) as Hid. unfold inner_context.
  destruct (bool_decide _); [done|]. unfold Into at 2. autorewrite with golib. done.
Qed.

Lemma inner_context_peer env cfg method ctx : ctx_peer (inner_context env cfg method ctx) = ctx_peer ctx.
Proof. unfold inner_context. by destruct (bool_decide _). Qed.

(** What a call should leave in the log: nothing under the configured level; of a
    panic an error line in the context outside the chain, with the recovered value; of
    a method that is skipped nothing else; of any other one line, in the context of the
    handler, that names the method, the final code, the time taken, the request id and
    the peer, at [Info] when it succeeded, else with the text of the error, at [Error]
    when the code is a fault of the server and at [Warn] otherwise. *)
Definition call_logged {R} env cfg method ctx (out : outcome (Reply R)) (lines : list Line) : Prop :=
  let log := default (e_default env) (cfg_Logger cfg) in
  let ctx_in := inner_context env cfg method ctx in
  match panic_value out with
  | Some recovered =>
      lines = LogAttrs log ctx LevelError "grpc panic recovered"
        [("method", StringValue method); ("panic", StringValue recovered); ("request_id", StringValue (Get ctx));
         ("stack", StringValue (e_stack env))]
  | None =>
      if bool_decide (method ∈ LogSkipMethods (withDefaults env cfg)) then lines = []
      else
        let code := status_Code (client_reply out).2 in
        let attrs := [("method", StringValue method); ("code", StringValue (Code_String code));
                      ("duration_ms", Int64Value (Milliseconds (e_elapsed env)))]
          ++ (if decide (Get ctx_in = "") then [] else [("request_id", StringValue (Get ctx_in))])
          ++ match ctx_peer ctx with
             | Some (Some address) => if decide (address = "") then [] else [("peer", StringValue address)]
             | _ => []
             end in
        match (client_reply out).2 with
        | None => lines = LogAttrs log ctx_in LevelInfo "grpc request handled" attrs
        | Some e => exists text, error_text e = Ret text /\
            lines = LogAttrs log ctx_in
              (if decide (code ∈ [codes.Unknown; codes.Internal; codes.DataLoss; codes.Unimplemented]) then LevelError else LevelWarn)
              "grpc request failed" (attrs ++ [("error", StringValue text)])
        end
  end.

Lemma isServerFault_spec code :
  isServerFault code = bool_decide (code ∈ [codes.Unknown; codes.Internal; codes.DataLoss; codes.Unimplemented]).
Proof. by destruct code. Qed.

(** The line of a request that did not panic. *)
Lemma logRequest_logged {R} env cfg method ctx (out : outcome (Reply R)) :
  panic_value out = None -> method ∉ LogSkipMethods (withDefaults env cfg) ->
  exists lines, logRequest env (inner_context env cfg method ctx) (orDefaultLogger env (cfg_Logger cfg)) method (client_reply out).2 = Ret lines /\
    call_logged env cfg method ctx out lines.
Proof.
  intros Hp Hskip. destruct (logRequest_returns env (inner_context env cfg method ctx) (orDefaultLogger env (cfg_Logger cfg)) method out)
    as [lines Hlines]; [unfold panics; by rewrite Hp|].
  exists lines. split; [done|]. unfold call_logged. rewrite Hp, bool_decide_eq_false_2 by done.
  unfold logRequest in Hlines. rewrite isServerFault_spec in Hlines. unfold peerAddress in Hlines. rewrite inner_context_peer in Hlines.
  set (rid := Get (inner_context env cfg method ctx)) in *. set (code := status_Code _) in *.
  assert (forall rest, toAttrs ((if rid != "" then [StringValue "request_id"; StringValue rid] else [])
      ++ (if match ctx_peer ctx with Some (Some address) => address | _ => "" end != ""
          then [StringValue "peer"; StringValue (match ctx_peer ctx with Some (Some address) => address | _ => "" end)] else []) ++ rest) =
    ((if decide (rid = "") then [] else [("request_id", StringValue rid)])
      ++ match ctx_peer ctx with
         | Some (Some address) => if decide (address = "") then [] else [("peer", StringValue address)]
         | _ => []
         end) ++ toAttrs rest) as Htail.
  { intros rest. destruct (decide (rid = "")) as [->|Hr]; [|rewrite (bool_decide_eq_false_2 (rid = "")) by done].
    all: destruct (ctx_peer ctx) as [[a|]|]; cbn; try done.
    all: by destruct (decide (a = "")) as [->|Ha]; [|rewrite (bool_decide_eq_false_2 (a = "")) by done]. }
  destruct (client_reply out).2 as [e|].
  - destruct (error_text e) as [text|]; cbn [mbind outcome_bind] in Hlines; [|done]. exists text. split; [done|].
    injection Hlines as <-. rewrite <- !app_assoc. cbn [app toAttrs]. rewrite Htail, <- !app_assoc.
    unfold orDefaultLogger, bool_decide. by repeat case_decide.
  - injection Hlines as <-. cbn [app toAttrs].
    specialize (Htail []). rewrite !app_nil_r in Htail. by rewrite Htail.
Qed.

(** What the chain does around the user's interceptors. *)
Lemma serve_unary_spec {R} env cfg (user : list (UnaryInterceptor R)) method (handler : Handler R) ctx w w1 out :
  chain user method handler (inner_context env cfg method ctx) (inner_world env cfg method ctx w) = (w1, out) ->
  exists w', serve_unary env cfg user method handler ctx w = (w', Ret (client_reply out)) /\
    w_headers w' = w_headers w1 /\
    w_metrics w' = final_metrics cfg method (panics out) (client_reply out).2 (w_metrics w1) /\
    exists lines, w_log w' = w_log w1 ++ lines /\ call_logged env cfg method ctx out lines.
Proof.
  intros Hin.
  rewrite serve_unary_core.
  destruct (core_spec cfg method (chain user method handler) (inner_context env cfg method ctx)
    (SetHeader MetadataKey (withRequestID env ctx).2 w) w1 out Hin) as (out' & Hcore & ->).
  pose proof (logRequest_logged env cfg method ctx out) as Hreq.
  unfold RecoveryUnaryInterceptor, RequestIDUnaryInterceptor.
  assert (method ∈ LogSkipMethods (withDefaults env cfg) <-> method ∈ toSet (LogSkipMethods (withDefaults env cfg))) as Hset.
  { unfold toSet. by rewrite elem_of_list_to_set. }
  destruct (panic_value out) as [v|] eqn:Hp.
  - assert (forall wl, call_logged env cfg method ctx out wl <->
      wl = logPanic ctx (orDefaultLogger env (cfg_Logger cfg)) method v (e_stack env)) as Hlog.
    { intros wl. unfold call_logged. by rewrite Hp. }
    assert (panics out = true) as Hpan by (unfold panics; by rewrite Hp). rewrite (client_reply_panic out Hpan) in *.
    unfold LoggingUnaryInterceptor, inner_context in *.
    destruct (withRequestID env ctx) as [ctx1 id]. cbn [fst snd] in *. rewrite !orDefault_Some.
    destruct (bool_decide _); rewrite Hcore; eexists;
      (split_and!; [done..|eexists; split; [done|by apply Hlog]]).
  - unfold LoggingUnaryInterceptor, inner_context in *.
    destruct (withRequestID env ctx) as [ctx1 id] eqn:Hid. cbn [fst snd] in *. rewrite !orDefault_Some.
    destruct (bool_decide (method ∈ toSet _)) eqn:Hs; rewrite Hcore.
    + eexists. split_and!; [done..|]. exists []. rewrite app_nil_r. split; [done|]. unfold call_logged.
      rewrite Hp. apply bool_decide_eq_true_1, Hset in Hs. by rewrite bool_decide_eq_true_2.
    + destruct Hreq as (lines & Hlines & Hl); [done|by apply bool_decide_eq_false_1 in Hs; rewrite Hset|].
      destruct (client_reply out) as [resp err]. cbn [snd] in *. rewrite Hlines.
      eexists. split_and!; [done..|]. by exists lines.
Qed.

(** C5. A call never panics out of the server and is always accounted for.
    Whatever the user's interceptors and the handler do: the client gets the
    reply, or the mapped status of the error, or the fixed [Internal] status
    after a panic; they run with the request id of the call in the context, in
    the log attributes and in the response header; the in-flight gauge goes back
    by one, and the request counter and the duration histogram get one more
    observation under the final code, unless the call panicked (a panic passes
    through the metrics interceptor and is not counted); and the log gets the lines of
    [call_logged] after those the call itself wrote, and no others. *)
Theorem unary_call_contract {R} env cfg (user : list (UnaryInterceptor R)) method (handler : Handler R) ctx w :
  let ctx_in := inner_context env cfg method ctx in
  let '(w1, out) := chain user method handler ctx_in (inner_world env cfg method ctx w) in
  let id := (withRequestID env ctx).2 in
  exists w', serve_unary env cfg user method handler ctx w = (w', Ret (client_reply out)) /\
    Get ctx_in = id /\ slog_String "request_id" id ∈ context_attrs ctx_in /\
    (w_transport w = true -> w_headers (inner_world env cfg method ctx w) = w_headers w ++ [("x-request-id", id)]) /\
    w_headers w' = w_headers w1 /\
    w_metrics w' = final_metrics cfg method (panics out) (client_reply out).2 (w_metrics w1) /\
    (exists lines, w_log w' = w_log w1 ++ lines /\ call_logged env cfg method ctx out lines) /\
    (forall r e, out = Ret (r, Some e) -> nil_free e = true -> exists e', (client_reply out).2 = Some e' /\
       FromError e' = Some (client_status e)).
Proof.
  intros ctx_in. destruct (chain user method handler ctx_in _) as [w1 out] eqn:Hin. intros id.
  destruct (inner_context_spec env cfg method ctx : Get ctx_in = id /\ slog_String "request_id" id ∈ context_attrs ctx_in)
    as [Hget Hattr].
  assert (w_transport w = true -> w_headers (inner_world env cfg method ctx w) = w_headers w ++ [("x-request-id", id)]) as Hhead.
  { intros Ht. unfold inner_world, SetHeader. rewrite Ht. by destruct (cfg_Registry cfg). }
  destruct (serve_unary_spec env cfg user method handler ctx w w1 out Hin) as (w' & ? & ? & ? & ?).
  exists w'. split_and!; auto. intros r e -> Hn. cbn.
  destruct (MapError_returns e HL Hn) as (e' & -> & He). by exists e'.
Qed.

Lemma panic_line ctx log method v stack :
  log_level log <= LevelError ->
  exists attrs, logPanic ctx log method v stack = [mkLine LevelError "grpc panic recovered" attrs] /\
    slog_String "request_id" (Get ctx) ∈ attrs.
Proof.
  intros Hl. unfold logPanic, LogAttrs. rewrite (proj2 (Z.ltb_ge _ _)) by lia. eexists. split; [done|].
  apply elem_of_app. right. destruct (log_context log).
  - unfold Handle. apply elem_of_app. left. by right; right; left.
  - by right; right; left.
Qed.

(** The log line of a panic does not find its request: [Recovery] is outside
    [RequestID], so a call that panics under the chain writes the empty request id
    of the outer context, while the handler and the client had one. *)
Theorem panic_line_without_request_id {R} env cfg (user : list (UnaryInterceptor R)) method (handler : Handler R) ctx w w1 v
  (Hpanic : chain user method handler (inner_context env cfg method ctx) (inner_world env cfg method ctx w) = (w1, Panic v))
  (Houter : ctx_Value ctx requestid_contextKey = None)
  (Hlevel : log_level (orDefaultLogger env (cfg_Logger cfg)) <= LevelError) :
  exists w' attrs, serve_unary env cfg user method handler ctx w = (w', Ret (None, internal_error)) /\
    w_log w' = w_log w1 ++ [mkLine LevelError "grpc panic recovered" attrs] /\
    slog_String "request_id" "" ∈ attrs /\
    Get (inner_context env cfg method ctx) = (withRequestID env ctx).2.
Proof.
  assert (Get ctx = "") as Hempty by (unfold Get, requestid_FromContext; by rewrite Houter).
  destruct (inner_context_spec env cfg method ctx) as [Hget _].
  rewrite serve_unary_core. unfold RecoveryUnaryInterceptor, RequestIDUnaryInterceptor, LoggingUnaryInterceptor.
  destruct (core_spec cfg method _ _ _ _ _ Hpanic) as (out' & Hcore & ->).
  destruct (withRequestID env ctx) as [ctx1 id] eqn:Hid. unfold inner_context in Hcore, Hget. rewrite Hid in Hcore, Hget.
  cbn [fst snd] in *. rewrite !orDefault_Some.
  set (lines := logPanic ctx (orDefaultLogger env (cfg_Logger cfg)) method v (e_stack env)).
  exists (write_log lines (with_metrics (final_metrics cfg method true internal_error) w1)).
  destruct (panic_line ctx (orDefaultLogger env (cfg_Logger cfg)) method v (e_stack env) Hlevel) as (attrs & Hline & Hin).
  exists attrs.
  split_and!.
  - destruct (bool_decide _); rewrite Hcore; reflexivity.
  - cbn. unfold lines. rewrite Hline. reflexivity.
  - by rewrite Hempty in Hin.
  - unfold inner_context. by rewrite Hid.
Qed.

(** ** Streams *)

(** A stream as a call without a reply. *)
Definition as_unary (handler : StreamHandler) : Handler unit := fun ctx w =>
  let '(w, out) := handler ctx w in (w, err ← out; Ret (None, err)).

Definition as_stream (r : World * outcome (Reply unit)) : World * outcome (option error) :=
  (r.1, reply ← r.2; Ret reply.2).

Lemma serve_stream_user env cfg user method handler :
  serve_stream env cfg user method handler = serve_stream env cfg [] method (chain user method handler).
Proof. unfold serve_stream, stream_chain, chain. by rewrite !app_nil_r, !foldr_app. Qed.

(** The stream interceptors of the chain do to a stream what the unary ones
    do to a call without a reply: recovery, request id, log line, metrics and
    error mapping are the same, on every outcome. *)
Theorem stream_chain_agrees env cfg (user : list StreamInterceptor) method (handler : StreamHandler) ctx w :
  serve_stream env cfg user method handler ctx w =
  as_stream (serve_unary env cfg [] method (as_unary (chain user method handler)) ctx w).
Proof.
  rewrite serve_stream_user. generalize (chain user method handler) as inner. intros inner.
  unfold serve_stream, serve_unary, stream_chain, unary_chain, chain, as_stream.
  rewrite !app_nil_r, !foldr_app. cbn [foldr cfg_Registry withDefaults].
  unfold RecoveryStreamInterceptor, RecoveryUnaryInterceptor, RequestIDStreamInterceptor, RequestIDUnaryInterceptor.
  destruct (withRequestID env ctx) as [ctx1 id]. unfold LoggingStreamInterceptor, LoggingUnaryInterceptor.
  set (ctx2 := Into ctx1 _). set (w2 := SetHeader _ _ _).
  assert (forall ctx w, ErrorMappingStreamInterceptor method inner ctx w =
    as_stream (ErrorMappingUnaryInterceptor method (as_unary inner) ctx w)) as Hmap.
  { intros c v. unfold ErrorMappingStreamInterceptor, ErrorMappingUnaryInterceptor, as_unary, as_stream.
    destruct (inner c v) as [v' [[e|]|p]]; cbn; [|done..]. by destruct (MapError (Some e)). }
  assert (forall ctx w,
    foldr (fun i (h : StreamHandler) => i method h) (ErrorMappingStreamInterceptor method inner)
      (if cfg_Registry cfg then [Metrics_StreamInterceptor] else []) ctx w =
    as_stream (foldr (fun i (h : Handler unit) => i method h) (ErrorMappingUnaryInterceptor method (as_unary inner))
      (if cfg_Registry cfg then [Metrics_UnaryInterceptor] else []) ctx w)) as Hcore.
  { intros c v. destruct (cfg_Registry cfg); cbn [foldr]; [|apply Hmap].
    unfold Metrics_StreamInterceptor, Metrics_UnaryInterceptor. rewrite Hmap. unfold as_stream.
    by destruct (ErrorMappingUnaryInterceptor _ _ _ _) as [v' [[r e]|p]]. }
  unfold UnaryInterceptor, StreamInterceptor, Handler, StreamHandler, Reply in *. cbn [foldr].
  destruct (bool_decide _); rewrite Hcore; unfold as_stream;
    match goal with |- context [foldr ?f ?a ?l ?c w2] => destruct (foldr f a l c w2) as [w3 [[r e]|p]] end;
    cbn [fst snd mbind outcome_bind]; try done.
  by destruct (logRequest _ _ _ _ _).
Qed.
End server.

(** ** Calls *)

Definition plain_logger : Logger := mkLogger LevelInfo [slog_String "service" "auth"] true.
Definition call_env : Env := mkEnv plain_logger "uuid-1" (5 * Millisecond) "main.go" 0.
Definition idle : World := mkWorld true [] (mkMetrics ∅ ∅ ∅) [].
Definition server_config : Config := mkConfig "" None true false false 0 (3 * Second) 0 0 0 false true [].
Definition login : string := "/auth.v1.AuthService/Login".

Definition conflicting : Handler string := fun _ w => (w, Ret (Some "dropped", Some taken)).
Definition panicking : Handler string := fun _ w => (w, Panic "boom").

(** A domain error: mapped, logged as a warning and counted. *)
Example unary_call_contract_witness :
  exists w', serve_unary call_env server_config [] login conflicting Background idle =
    (w', Ret (client_reply (Ret (Some "dropped", Some taken)))) /\
    w_headers w' = [("x-request-id", "uuid-1")] /\
    requests (w_metrics w') = {[(login, "AlreadyExists") := 1]} /\ inFlight (w_metrics w') = {[login := 0]}.
Proof.
  destruct (unary_call_contract (HL := numbered_status_laws) call_env server_config [] login conflicting Background idle)
    as (w' & Hw & _ & _ & Hhead & Hh & Hm & _).
  exists w'. split_and!.
  - exact Hw.
  - rewrite Hh. by apply Hhead.
  - rewrite Hm. by_decision.
  - rewrite Hm. by_decision.
Defined.

Example panic_line_without_request_id_witness :
  exists w' attrs, serve_unary call_env server_config [] login panicking Background idle = (w', Ret (None, internal_error)) /\
    w_log w' = [mkLine LevelError "grpc panic recovered" attrs] /\ slog_String "request_id" "" ∈ attrs /\
    w_headers w' = [("x-request-id", "uuid-1")].
Proof.
  destruct (panic_line_without_request_id call_env server_config [] login panicking Background idle
    (inner_world call_env server_config login Background idle) "boom") as (w' & attrs & Hw & Hlog & Hin & _);
    [reflexivity..|vm_compute; discriminate|].
  exists w', attrs. split_and!; [exact Hw|exact Hlog|exact Hin|].
  vm_compute in Hw. by injection Hw as <-.
Defined.

(** A panic is answered, logged, and not counted. *)
Example panicking_call :
  let '(w, r) := serve_unary call_env server_config [] login panicking Background idle in
  r = Ret (None, internal_error) /\ requests (w_metrics w) = ∅ /\
  w_log w = [mkLine LevelError "grpc panic recovered"
    [slog_String "service" "auth"; slog_String "method" login; slog_String "panic" "boom"; slog_String "request_id" ""; slog_String "stack" "main.go"]].
Proof. vm_compute. by split_and!. Qed.
