(* ===== verification/ClientIP.v ===== *)
(** * Package [grpcserver]: the client's address

    [clientip.go] and [loopback.go]: which address a request is counted under
    when it came through proxies. *)

From S2P Require Export NetipTexts Logger.

Definition TrustedProxies : Type := list Prefix.

(** [ParseTrustedProxies]; [parse_error] are the errors of [netip.ParseAddr]. *)
Fixpoint ParseTrustedProxies (parse_error : string -> error) (values : list string) : result error TrustedProxies :=
  match values with
  | [] => Ok []
  | value :: values =>
      let value := trim_space (bytes value) in
      if value == [] then ParseTrustedProxies parse_error values
      else match ParsePrefix value with
           | Some prefix => trusted ← ParseTrustedProxies parse_error values; Ok (prefix :: trusted)
           | None =>
               match ParseAddr value with
               | None => Err (Errorf ("grpcserver: trusted proxy " +:+ Quote (of_bytes value) +:+ " is neither address nor CIDR") (parse_error (of_bytes value)))
               | Some address =>
                   trusted ← ParseTrustedProxies parse_error values;
                   Ok (PrefixFrom address (BitLen address) :: trusted)
               end
           end
  end.

Definition Trust (t : TrustedProxies) (address : Addr) : bool :=
  existsb (fun prefix => Contains prefix (Unmap address)) t.

Definition peerAddr (ctx : Context) : option Addr :=
  match ctx_peer ctx with
  | Some (Some text) =>
      let raw := match SplitHostPort (bytes text) with Some (host, _) => host | None => bytes text end in
      Unmap <$> ParseAddr raw
  | _ => None
  end.

(** The loop over the hops, the last first. *)
Fixpoint nearest_hop (trusted : TrustedProxies) (hops : list (list Z)) : option Addr :=
  match hops with
  | [] => None
  | hop :: hops =>
      match ParseAddr (trim_space hop) with
      | None => nearest_hop trusted hops
      | Some hop => if Trust trusted hop then nearest_hop trusted hops else Some hop
      end
  end.

Definition ClientIP (ctx : Context) (trusted : TrustedProxies) : string :=
  match peerAddr ctx with
  | None => ""
  | Some address =>
      let own := of_bytes (Addr_String address) in
      if negb (Trust trusted address) then own
      else match ctx_incoming ctx with
           | None => own
           | Some md =>
               let forwarded := metadataValue md "x-forwarded-for" in
               if forwarded == "" then own
               else match nearest_hop trusted (rev (split_on 44 (bytes forwarded))) with
                    | Some hop => of_bytes (Addr_String (Unmap hop))
                    | None => own
                    end
           end
  end.

Definition ClientAddr (ctx : Context) (trusted : TrustedProxies) : option Addr :=
  let raw := ClientIP ctx trusted in
  if raw == "" then None else Unmap <$> ParseAddr (bytes raw).

(** ** loopback.go *)

Definition LoopbackTarget (listen : string) : string :=
  match SplitHostPort (bytes listen) with
  | None => of_bytes (JoinHostPort (bytes "localhost") (bytes listen))
  | Some (host, port) =>
      let host := if existsb (fun h => bytes h == host) [""; "0.0.0.0"; "::"; "[::]"] then bytes "localhost" else host in
      of_bytes (JoinHostPort host port)
  end.

(** ** What a client can forge *)

Lemma split_on_append sep s t :
  split_on sep (s ++ sep :: t) = split_on sep s ++ split_on sep t.
Proof.
  induction s as [|c s IH]; [cbn [app split_on]; by rewrite Z.eqb_refl|].
  cbn [app split_on]. rewrite IH. destruct (c =? sep); [done|].
  pose proof (split_on_nonempty sep s). by destruct (split_on sep s).
Qed.

Lemma nearest_hop_app trusted near far a :
  nearest_hop trusted near = Some a -> nearest_hop trusted (near ++ far) = Some a.
Proof.
  induction near as [|hop near IH]; [done|]. cbn [app nearest_hop].
  destruct (ParseAddr (trim_space hop)) as [b|]; [|done]. by destruct (Trust trusted b).
Qed.

Lemma nearest_hop_untrusted trusted hops a :
  nearest_hop trusted hops = Some a ->
  Trust trusted a = false /\ exists hop, hop ∈ hops /\ ParseAddr (trim_space hop) = Some a.
Proof.
  induction hops as [|hop hops IH]; [done|]. cbn [nearest_hop].
  destruct (ParseAddr (trim_space hop)) as [b|] eqn:Hb.
  - destruct (Trust trusted b) eqn:Hb2; [intros H; apply IH in H as (? & x & ? & ?)|intros [= <-]].
    + split; [done|]. exists x. split; [by right|done].
    + split; [done|]. exists hop. split; [by left|done].
  - intros H. apply IH in H as (? & x & ? & ?). split; [done|]. exists x. split; [by right|done].
Qed.

(** The hops of the header, the nearest first. *)
Definition forwarded_hops (ctx : Context) : list (list Z) :=
  match ctx_incoming ctx with
  | Some md =>
      let forwarded := metadataValue md "x-forwarded-for" in
      if forwarded == "" then [] else rev (split_on 44 (bytes forwarded))
  | None => []
  end.

Lemma ClientIP_spec ctx trusted address :
  peerAddr ctx = Some address ->
  ClientIP ctx trusted = of_bytes (Addr_String (
    if Trust trusted address
    then match nearest_hop trusted (forwarded_hops ctx) with Some hop => Unmap hop | None => address end
    else address)).
Proof.
  intros Hp. unfold ClientIP, forwarded_hops. rewrite Hp. destruct (Trust trusted address); [|done]. cbn [negb].
  destruct (ctx_incoming ctx) as [md|]; [|done]. cbv zeta. destruct (bool_decide _); [done|].
  by destruct (nearest_hop _ _).
Qed.

(** ** Texts and addresses agree *)

(** An address in the form the source prints: in range and not IPv4-mapped. *)
Record printable (a : Addr) : Prop := {
  printable_ok : addr_ok a;
  printable_zone : zone_bytes a;
  printable_plain : Unmap a = a
}.

Lemma Unmap_printable a : addr_ok a -> zone_bytes a -> printable (Unmap a).
Proof. intros. constructor; [by apply Unmap_ok|by apply Unmap_zone_bytes|apply Unmap_idem]. Qed.

Lemma peerAddr_printable ctx a : peerAddr ctx = Some a -> printable a.
Proof.
  unfold peerAddr. destruct (ctx_peer ctx) as [[text|]|]; try done.
  set (raw := match SplitHostPort (bytes text) with Some (host, _) => host | None => bytes text end).
  assert (Forall is_byte raw) as Hraw.
  { subst raw. pose proof (bytes_range text). destruct (SplitHostPort (bytes text)) as [[host port]|] eqn:E; [|done].
    by eapply SplitHostPort_Forall. }
  destruct (ParseAddr raw) as [b|] eqn:Hb; [|done]. intros [= <-].
  apply Unmap_printable; [by eapply ParseAddr_ok|by eapply ParseAddr_zone_bytes].
Qed.

Lemma nearest_hop_ok trusted hops a :
  Forall (Forall is_byte) hops -> nearest_hop trusted hops = Some a -> addr_ok a /\ zone_bytes a.
Proof.
  intros Hhops Ha. apply nearest_hop_untrusted in Ha as (_ & hop & Hin & Ha). split; [by eapply ParseAddr_ok|].
  eapply ParseAddr_zone_bytes; [|exact Ha]. apply trim_space_Forall. by eapply Forall_forall in Hhops.
Qed.

Lemma forwarded_hops_bytes ctx : Forall (Forall is_byte) (forwarded_hops ctx).
Proof.
  unfold forwarded_hops. destruct (ctx_incoming ctx) as [md|]; [|constructor]. cbv zeta.
  destruct (bool_decide _); [constructor|]. apply List.Forall_rev, split_on_Forall, bytes_range.
Qed.

(** The address whose text [ClientIP] is. *)
Definition client_address (ctx : Context) (trusted : TrustedProxies) (address : Addr) : Addr :=
  if Trust trusted address
  then match nearest_hop trusted (forwarded_hops ctx) with Some hop => Unmap hop | None => address end
  else address.

Lemma client_address_printable ctx trusted address :
  peerAddr ctx = Some address -> printable (client_address ctx trusted address).
Proof.
  intros Hp. pose proof (peerAddr_printable ctx address Hp). unfold client_address.
  destruct (Trust trusted address); [|done].
  destruct (nearest_hop trusted (forwarded_hops ctx)) as [hop|] eqn:Hh; [|done].
  apply nearest_hop_ok in Hh as [? ?]; [by apply Unmap_printable|apply forwarded_hops_bytes].
Qed.

Lemma bytes_ClientIP ctx trusted address :
  peerAddr ctx = Some address -> bytes (ClientIP ctx trusted) = Addr_String (client_address ctx trusted address).
Proof.
  intros Hp. rewrite (ClientIP_spec ctx trusted address Hp). fold (client_address ctx trusted address).
  apply bytes_of_bytes, Addr_String_bytes. by apply client_address_printable.
Qed.

(** What the nearest untrusted hop is: everything nearer is a trusted proxy or
    no address at all. *)
Lemma nearest_hop_at trusted forged hop proxies a :
  ParseAddr (trim_space hop) = Some a -> Trust trusted a = false ->
  Forall (fun p => forall b, ParseAddr (trim_space p) = Some b -> Trust trusted b = true) proxies ->
  nearest_hop trusted (rev (forged ++ hop :: proxies)) = Some a.
Proof.
  intros Ha Ht Hproxies. rewrite rev_app_distr. cbn [rev]. rewrite <- app_assoc.
  apply List.Forall_rev in Hproxies.
  induction Hproxies as [|p l Hp _ IH]; cbn [app nearest_hop]; [by rewrite Ha, Ht|].
  destruct (ParseAddr (trim_space p)) as [b|] eqn:Hb; [|done]. by rewrite (Hp b eq_refl).
Qed.

(** C10. A client cannot choose the address it is counted under, when the proxies' part
    of the header has a hop that can be read and is not trusted.  From a peer that
    is not a trusted proxy the answer is the peer's own address, whatever the
    metadata.  From a trusted proxy it is that hop, the nearest one of no trusted
    proxy: what the client put in front of it ([forged]) has no influence, and the
    answer is not the address of a trusted proxy.  Without such a hop the client's
    own text may decide ([unreadable_hop_trusts_the_client]). *)
Theorem client_ip_unspoofable ctx trusted address forged hop proxies a
  (Hpeer : peerAddr ctx = Some address)
  (Hhop : ParseAddr (trim_space hop) = Some a) (Huntrusted : Trust trusted a = false)
  (Hproxies : Forall (fun p => forall b, ParseAddr (trim_space p) = Some b -> Trust trusted b = true) proxies)
  (Hheader : forwarded_hops ctx = rev (forged ++ hop :: proxies)) :
  bytes (ClientIP ctx trusted) = Addr_String (if Trust trusted address then Unmap a else address) /\
  (Trust trusted address = false -> forall md, bytes (ClientIP (with_incoming ctx md) trusted) = Addr_String address) /\
  Trust trusted (if Trust trusted address then Unmap a else address) = false.
Proof.
  split_and!.
  - rewrite (bytes_ClientIP _ _ address) by done. unfold client_address.
    by rewrite Hheader, (nearest_hop_at _ _ _ _ a).
  - intros Ht md. assert (peerAddr (with_incoming ctx md) = Some address) as Hp by exact Hpeer.
    rewrite (bytes_ClientIP _ _ address) by done. unfold client_address. by rewrite Ht.
  - destruct (Trust trusted address) eqn:Ht; [|done]. unfold Trust in *. by rewrite Unmap_idem.
Qed.

(** [ClientAddr] is the address [ClientIP] prints: there is one exactly when
    the peer's address can be read, and reading the text back gives the same
    address, in its IPv4 form when it is an IPv4-mapped one. *)
Theorem client_addr_agrees ctx trusted :
  match peerAddr ctx with
  | None => ClientIP ctx trusted = "" /\ ClientAddr ctx trusted = None
  | Some address =>
      exists a, ClientAddr ctx trusted = Some a /\ bytes (ClientIP ctx trusted) = Addr_String a /\
        Unmap a = a /\ addr_ok a /\ (Trust trusted address = false -> a = address)
  end.
Proof.
  destruct (peerAddr ctx) as [address|] eqn:Hp.
  - pose proof (client_address_printable ctx trusted address Hp) as [Hok Hz Hu].
    pose proof (bytes_ClientIP ctx trusted address Hp) as Hb.
    exists (client_address ctx trusted address). split_and!; try done.
    + unfold ClientAddr. cbv zeta.
      pose proof (parse_string _ Hok) as Hparse. rewrite Hb, Hparse, bool_decide_eq_false_2.
      * cbn [fmap option_fmap option_map]. by rewrite Hu.
      * intros Hempty. rewrite Hempty in Hb. rewrite <- Hb in Hparse. discriminate Hparse.
    + intros Ht. unfold client_address. by rewrite Ht.
  - unfold ClientAddr, ClientIP. by rewrite Hp.
Qed.

(** ** Witness and examples *)

Definition behind (peer forwarded : string) : Context :=
  mkContext None None [] (Some {["x-forwarded-for" := [forwarded]]}) None (Some (Some peer)) None.

Definition private_proxies : TrustedProxies :=
  match ParseTrustedProxies errors_New ["10.0.0.0/8"; " "; "fd00::/8"; "192.0.2.10"] with Ok t => t | Err _ => [] end.

Lemma client_ip_unspoofable_witness :
  length private_proxies = 3%nat /\
  ClientIP (behind "10.0.0.7:51234" "1.2.3.4, 203.0.113.9 , 10.0.0.3, unknown") private_proxies = "203.0.113.9".
Proof.
  split; [vm_compute; reflexivity|]. apply bytes_inj.
  destruct (client_ip_unspoofable (behind "10.0.0.7:51234" "1.2.3.4, 203.0.113.9 , 10.0.0.3, unknown") private_proxies
    (Addr4 167772167) [bytes "1.2.3.4"] (bytes " 203.0.113.9 ") [bytes " 10.0.0.3"; bytes " unknown"] (Addr4 3405803785))
    as [H _]; [vm_compute; reflexivity..| |vm_compute; reflexivity|].
  - assert (ParseAddr (trim_space (bytes " 10.0.0.3")) = Some (Addr4 167772163)) as H3 by (vm_compute; reflexivity).
    assert (ParseAddr (trim_space (bytes " unknown")) = None) as Hu by (vm_compute; reflexivity).
    constructor; [intros b Hb; rewrite H3 in Hb; injection Hb as <-; vm_compute; reflexivity|].
    constructor; [intros b Hb; rewrite Hu in Hb; discriminate Hb|constructor].
  - exact H.
Defined.

(** A hop that is not an address is passed over, so what is left of it decides: a
    proxy that appends [host:port] lets the client choose. *)
Example unreadable_hop_trusts_the_client :
  ClientIP (behind "10.0.0.7:51234" "1.2.3.4, 203.0.113.9:4711") private_proxies = "1.2.3.4".
Proof. vm_compute. reflexivity. Qed.

(** A proxy written in IPv4-mapped form is never recognised. *)
Example mapped_proxy_is_not_trusted :
  match ParseTrustedProxies errors_New ["::ffff:10.0.0.7"] with
  | Ok t => Trust t (Addr4 167772167) = false /\ Trust t (Addr6 281470849482759 []) = false
  | Err _ => False
  end.
Proof. vm_compute. by split. Qed.

Example loopback_targets :
  LoopbackTarget ":50051" = "localhost:50051" /\ LoopbackTarget "[::]:80" = "localhost:80" /\
  LoopbackTarget "10.1.2.3:80" = "10.1.2.3:80" /\ LoopbackTarget "50051" = "localhost:50051".
Proof. vm_compute. by split_and!. Qed.
