(* ===== verification/GrpcAuth.v ===== *)
(** * [grpcserver/auth.go], [internal.go]: who may call a method

    Authentication turns the bearer token of the incoming metadata into claims in
    the context of the handler.  The interceptors are functions on the handlers
    of [GrpcServer]. *)

From S2P Require Export Text Token GrpcServer.

Definition AuthorizationKey : string := "authorization".
Definition bearerPrefix : string := "bearer ".

(** ** The bearer scheme *)


(** [strings.EqualFold(s, t)] for [t = bearerPrefix]: none of its letters has a
    case folding outside ASCII, so the bytes are compared up to ASCII case. *)
Definition EqualFold (s t : list Z) : bool := bool_decide (map lower_byte s = map lower_byte t).

(** The text after the scheme, when the header has it. *)
Definition after_scheme (header : string) : option string :=
  let h := bytes header in
  let n := length (bytes bearerPrefix) in
  if (length h <? n)%nat || negb (EqualFold (take n h) (bytes bearerPrefix)) then None
  else Some (TrimSpace (of_bytes (drop n h))).

Section auth.
Context `{!GrpcStatus} `{!Ed25519} `{!Jwt}.

Definition missing_credentials : option error := status_Error codes.Unauthenticated "missing credentials".

(** The token, or an error. *)
Definition BearerToken (ctx : Context) : string * option error :=
  match ctx_incoming ctx with
  | None => ("", missing_credentials)
  | Some md =>
      let header := metadataValue md AuthorizationKey in
      if header == "" then ("", missing_credentials)
      else match after_scheme header with
           | None => ("", status_Error codes.Unauthenticated "invalid authorization scheme")
           | Some raw => if raw == "" then ("", missing_credentials) else (raw, None)
           end
  end.

(** ** auth.go *)

(** [func(ctx, rawToken) (ctx, error)], at an instant. *)
Definition Authenticator : Type := Z -> Context -> string -> option Context * option error.

Record AuthConfig := mkAuthConfig {
  Authenticate : option Authenticator;
  PublicMethods : list string;
  Optional : bool
}.

(** The context, or an error; the reason goes to the log only, where a nil
    [*apperr.Error] would panic. *)
Definition authenticate (env : Env) (ctx : Context) (cfg : AuthConfig) (w : World)
  : World * outcome (option Context * option error) :=
  match Authenticate cfg with
  | None => (w, Ret (None, status_Error codes.Internal "authenticator is not configured"))
  | Some f =>
      match BearerToken ctx with
      | (_, Some err) => if Optional cfg then (w, Ret (Some ctx, None)) else (w, Ret (None, Some err))
      | (raw, None) =>
          match f (e_now env) ctx raw with
          | (_, Some err) =>
              match error_text err with
              | Panic v => (w, Panic v)
              | Ret text =>
                  (write_log (LogAttrs (From (e_default env) ctx) ctx LevelWarn "authentication failed"
                                [slog_String "error" text]) w,
                   Ret (None, status_Error codes.Unauthenticated "invalid credentials"))
              end
          | (authenticated, None) => (w, Ret (authenticated, None))
          end
      end
  end.

(** A nil context panics in the handler. *)
Definition AuthUnaryInterceptor {R} (env : Env) (cfg : AuthConfig) : UnaryInterceptor R := fun method handler ctx w =>
  if bool_decide (method ∈ toSet (PublicMethods cfg)) then handler ctx w
  else match authenticate env ctx cfg w with
       | (w, Panic v) => (w, Panic v)
       | (w, Ret (_, Some err)) => (w, Ret (None, Some err))
       | (w, Ret (None, None)) => (w, Panic nil_dereference)
       | (w, Ret (Some ctx, None)) => handler ctx w
       end.

Definition AuthStreamInterceptor (env : Env) (cfg : AuthConfig) : StreamInterceptor := fun method handler ctx w =>
  if bool_decide (method ∈ toSet (PublicMethods cfg)) then handler ctx w
  else match authenticate env ctx cfg w with
       | (w, Panic v) => (w, Panic v)
       | (w, Ret (_, Some err)) => (w, Ret (Some err))
       | (w, Ret (None, None)) => (w, Panic nil_dereference)
       | (w, Ret (Some ctx, None)) => handler ctx w
       end.

Definition TokenAuthenticator (manager : Manager) : Authenticator := fun now ctx raw =>
  match ParseAccess manager now raw with
  | Err err => (None, Some err)
  | Ok claims =>
      let ctx := NewContext ctx (Some claims) in
      (Some (Attrs ctx [slog_String "user_id" (Subject claims)]), None)
  end.

Definition RequireRole {R} (roles : list string) : UnaryInterceptor R := fun _ handler ctx w =>
  match FromContext ctx with
  | None => (w, Ret (None, missing_credentials))
  | Some claims =>
      if existsb (HasRole (Some claims)) roles then handler ctx w
      else (w, Ret (None, status_Error codes.PermissionDenied "insufficient permissions"))
  end.

(** ** internal.go *)

Record InternalAuthConfig := mkInternalAuthConfig {
  int_Manager : option Manager;
  int_Methods : list string;
  int_Role : string
}.

Definition InternalAuthUnaryInterceptor {R} (env : Env) (cfg : InternalAuthConfig) : UnaryInterceptor R :=
  fun method handler ctx w =>
  let role := if int_Role cfg == "" then RoleService else int_Role cfg in
  if negb (bool_decide (method ∈ toSet (int_Methods cfg))) then handler ctx w
  else match int_Manager cfg with
  | None => (w, Ret (None, status_Error codes.Internal "internal authenticator is not configured"))
  | Some manager =>
      match BearerToken ctx with
      | (_, Some err) => (w, Ret (None, Some err))
      | (raw, None) =>
          match ParseAccess manager (e_now env) raw with
          | Err err =>
              match error_text err with
              | Panic v => (w, Panic v)
              | Ret text =>
                  (write_log (LogAttrs (From (e_default env) ctx) ctx LevelWarn "internal authentication failed"
                                [slog_String "method" method; slog_String "error" text]) w,
                   Ret (None, status_Error codes.Unauthenticated "invalid credentials"))
              end
          | Ok claims =>
              if negb (HasRole (Some claims) role) then
                (write_log (LogAttrs (From (e_default env) ctx) ctx LevelWarn "internal call without required role"
                              [slog_String "method" method; slog_String "subject" (Subject claims)]) w,
                 Ret (None, status_Error codes.PermissionDenied "insufficient permissions"))
              else
                let ctx := NewContext ctx (Some claims) in
                handler (Attrs ctx [slog_String "caller_service" (Subject claims)]) w
          end
      end
  end.
End auth.

(** ** Who gets in *)

Section access.
Context `{!GrpcStatus} {HL : GrpcStatusLaws} `{!Ed25519} `{!Jwt} {HJ : JwtLaws}.

(** An error reply with the given code. *)
Definition refused {R} (w : World) (r : World * outcome (Reply R)) (code : codes.Code) : Prop :=
  exists w' err message, r = (w', Ret (None, Some err)) /\ FromError err = Some (status_New code message) /\
    w_headers w' = w_headers w /\ w_metrics w' = w_metrics w.

Lemma status_refused {R} w code message lines :
  code <> codes.OK -> exists err, status_Error code message = Some err /\
  @refused R w (write_log lines w, Ret (None, Some err)) code.
Proof.
  intros Hc. destruct (status_Error_status code message Hc) as (err & -> & Hf & _).
  exists err. split; [done|]. by exists (write_log lines w), err, message.
Qed.

Lemma write_log_nil w : write_log [] w = w.
Proof. destruct w. unfold write_log. cbn. by rewrite app_nil_r. Qed.

Lemma BearerToken_error ctx raw err :
  BearerToken ctx = (raw, Some err) ->
  exists message, FromError err = Some (status_New codes.Unauthenticated message).
Proof.
  assert (forall message e, status_Error codes.Unauthenticated message = Some e ->
    FromError e = Some (status_New codes.Unauthenticated message)) as Hst.
  { intros message e He. destruct (status_Error_status codes.Unauthenticated message) as (e' & He' & Hf & _); [done|].
    by simplify_eq. }
  unfold BearerToken, missing_credentials. repeat case_match; intros [= _ He]; eauto.
Qed.

Lemma refused_bearer {R} ctx raw err w :
  BearerToken ctx = (raw, Some err) -> @refused R w (w, Ret (None, Some err)) codes.Unauthenticated.
Proof. intros [message Hf]%BearerToken_error. by exists w, err, message. Qed.

(** Claims in a context, with attributes. *)
Lemma FromContext_NewContext ctx claims attrs : FromContext (Attrs (NewContext ctx claims) attrs) = claims.
Proof. unfold FromContext, NewContext. rewrite Attrs_value by done. by rewrite Value_WithValue_eq. Qed.

Lemma Get_NewContext_claims ctx claims attrs : Get (Attrs (NewContext ctx claims) attrs) = Get ctx.
Proof. rewrite Get_Attrs. unfold Get, requestid_FromContext, NewContext. by rewrite Value_WithValue_ne. Qed.

(** The context a handler gets for the bearer of [raw]. *)
Definition admitted (tcfg : Token.Config) (m : Manager) (now : Z) (ctx ctx' : Context) : Prop :=
  exists raw claims, BearerToken ctx = (raw, None) /\ accepted tcfg m now raw TypeAccess claims /\
    FromContext ctx' = Some claims /\ Get ctx' = Get ctx /\ ctx_deadline ctx' = ctx_deadline ctx.

Lemma Attrs_deadline ctx attrs : ctx_deadline (Attrs ctx attrs) = ctx_deadline ctx.
Proof. by destruct attrs. Qed.

Lemma TokenAuthenticator_cases tcfg m now ctx raw :
  NewManager tcfg = Ok m ->
  (exists err text, TokenAuthenticator m now ctx raw = (None, Some err) /\ error_text err = Ret text) \/
  (exists claims ctx', TokenAuthenticator m now ctx raw = (Some ctx', None) /\ accepted tcfg m now raw TypeAccess claims /\
     FromContext ctx' = Some claims /\ Get ctx' = Get ctx /\ ctx_deadline ctx' = ctx_deadline ctx).
Proof.
  intros Hm. unfold TokenAuthenticator, ParseAccess. destruct (Parse m now raw TypeAccess) as [claims|err] eqn:Hp.
  - right. eexists claims, _. split; [done|]. split; [by apply Parse_accepted|].
    split_and!; [apply FromContext_NewContext|apply Get_NewContext_claims|by rewrite Attrs_deadline].
  - left. apply Parse_rejected in Hp as [_ [text Ht]]. eauto.
Qed.

Lemma auth_cases {R} env tcfg m public optional method (handler : Handler R) ctx w :
  NewManager tcfg = Ok m -> method ∉ public ->
  let r := AuthUnaryInterceptor env (mkAuthConfig (Some (TokenAuthenticator m)) public optional) method handler ctx w in
  refused w r codes.Unauthenticated \/
  (exists ctx', r = handler ctx' w /\ admitted tcfg m (e_now env) ctx ctx') \/
  (optional = true /\ (exists raw err, BearerToken ctx = (raw, Some err)) /\ r = handler ctx w).
Proof.
  intros Hm Hpublic r. unfold r, AuthUnaryInterceptor, authenticate. cbn [Authenticate PublicMethods Optional].
  unfold toSet. rewrite bool_decide_eq_false_2 by by rewrite elem_of_list_to_set.
  destruct (BearerToken ctx) as [raw [err|]] eqn:Hb.
  - destruct optional; [right; right; split_and!; eauto|left; by eapply refused_bearer].
  - destruct (TokenAuthenticator_cases tcfg m (e_now env) ctx raw Hm)
      as [(err & text & -> & ->)|(claims & ctx' & -> & Hacc & Hctx & Hid & Hdl)].
    + left. destruct (@status_refused R w codes.Unauthenticated "invalid credentials"
        (LogAttrs (From (e_default env) ctx) ctx LevelWarn "authentication failed" [slog_String "error" text]))
        as (e & -> & Hr); done.
    + right; left. exists ctx'. split; [done|]. by exists raw, claims.
Qed.

(** C6. Authentication is closed by default: under [AuthUnaryInterceptor] with a
    token manager, the handler of a method that is not listed as public runs only
    for a bearer of a valid access token - signed by the manager's key and
    algorithm, of its issuer and type, within its time - whose claims it finds in
    the context, or, with [Optional], for a caller whose request has no readable
    bearer token, with the context unchanged.  Everybody else gets
    [Unauthenticated], also with [Optional] when the token is bad. *)
Theorem auth_admits_only_valid_tokens {R} env tcfg m public optional method (handler : Handler R) ctx w
  (Hm : NewManager tcfg = Ok m) (Hpublic : method ∉ public) :
  let r := AuthUnaryInterceptor env (mkAuthConfig (Some (TokenAuthenticator m)) public optional) method handler ctx w in
  refused w r codes.Unauthenticated \/
  (exists ctx', r = handler ctx' w /\ admitted tcfg m (e_now env) ctx ctx') \/
  (optional = true /\ (exists raw err, BearerToken ctx = (raw, Some err)) /\ r = handler ctx w).
Proof. by apply auth_cases. Qed.

Lemma HasRole_elem claims role : HasRole (Some claims) role = true <-> role ∈ Roles claims.
Proof.
  cbn. rewrite existsb_exists. split.
  - intros (x & Hx & Heq). go_bool. subst x. by apply list_elem_of_In.
  - intros Hr. exists role. split; [by apply list_elem_of_In|]. by apply bool_decide_eq_true_2.
Qed.

(** C13. Internal methods are for services: under [InternalAuthUnaryInterceptor] a
    listed method runs only for a valid access token that carries the configured
    role ([service] by default); a valid token without it gets
    [PermissionDenied], anything else [Unauthenticated], and without a manager
    the method is closed with [Internal].  Other methods pass unchanged. *)
Theorem internal_requires_role {R} env tcfg (mo : option Manager) methods role method (handler : Handler R) ctx w
  (Hm : forall m, mo = Some m -> NewManager tcfg = Ok m) :
  let r := InternalAuthUnaryInterceptor env (mkInternalAuthConfig mo methods role) method handler ctx w in
  let needed := if role == "" then "service" else role in
  (method ∉ methods -> r = handler ctx w) /\
  (method ∈ methods ->
     (mo = None /\ refused w r codes.Internal) \/
     refused w r codes.Unauthenticated \/
     (exists m raw claims, mo = Some m /\ BearerToken ctx = (raw, None) /\
        accepted tcfg m (e_now env) raw TypeAccess claims /\
        if bool_decide (needed ∈ Roles claims)
        then exists ctx', r = handler ctx' w /\ FromContext ctx' = Some claims /\ Get ctx' = Get ctx
        else refused w r codes.PermissionDenied)).
Proof.
  intros r needed. unfold r, InternalAuthUnaryInterceptor. cbn [int_Manager int_Methods int_Role].
  unfold toSet. split; intros Hmethod.
  { by rewrite bool_decide_eq_false_2 by by rewrite elem_of_list_to_set. }
  rewrite bool_decide_eq_true_2 by by rewrite elem_of_list_to_set. cbn [negb].
  destruct mo as [m|].
  2: { left. split; [done|]. destruct (@status_refused R w codes.Internal "internal authenticator is not configured" [])
         as (e & -> & Hr); [done|]. by rewrite write_log_nil in Hr. }
  destruct (BearerToken ctx) as [raw [err|]] eqn:Hb; [right; left; by eapply refused_bearer|].
  unfold ParseAccess. destruct (Parse m (e_now env) raw TypeAccess) as [claims|err] eqn:Hp.
  - right; right. exists m, raw, claims. split_and!; [done..| |].
    { eapply Parse_accepted; [by apply Hm|done]. }
    fold RoleService in needed. unfold RoleService in *. fold needed.
    destruct (HasRole (Some claims) needed) eqn:Hr; cbn [negb].
    + rewrite bool_decide_eq_true_2 by by apply HasRole_elem. eexists. split; [done|].
      split; [apply FromContext_NewContext|apply Get_NewContext_claims].
    + rewrite bool_decide_eq_false_2 by (rewrite <- HasRole_elem; congruence).
      destruct (@status_refused R w codes.PermissionDenied "insufficient permissions"
        (LogAttrs (From (e_default env) ctx) ctx LevelWarn "internal call without required role"
           [slog_String "method" method; slog_String "subject" (Subject claims)])) as (e & -> & Href); done.
  - right; left. apply Parse_rejected in Hp as [_ [text ->]].
    destruct (@status_refused R w codes.Unauthenticated "invalid credentials"
      (LogAttrs (From (e_default env) ctx) ctx LevelWarn "internal authentication failed"
         [slog_String "method" method; slog_String "error" text])) as (e & -> & Href); done.
Qed.

(** Authentication and [RequireRole] together: the handler runs only for a
    valid access token that carries one of the roles; a valid token without them
    gets [PermissionDenied], no valid token [Unauthenticated]. *)
Theorem role_gate {R} env tcfg m public roles method (handler : Handler R) ctx w
  (Hm : NewManager tcfg = Ok m) (Hpublic : method ∉ public) :
  let auth := AuthUnaryInterceptor env (mkAuthConfig (Some (TokenAuthenticator m)) public false) in
  let r := chain [auth; RequireRole roles] method handler ctx w in
  refused w r codes.Unauthenticated \/
  exists ctx' claims, admitted tcfg m (e_now env) ctx ctx' /\ FromContext ctx' = Some claims /\
    ((exists role, role ∈ roles /\ role ∈ Roles claims) /\ r = handler ctx' w \/
     (forall role, role ∈ roles -> role ∉ Roles claims) /\ refused w r codes.PermissionDenied).
Proof.
  intros auth r. unfold r, chain, auth. cbn [foldr].
  destruct (auth_cases env tcfg m public false method (RequireRole roles method handler) ctx w Hm Hpublic)
    as [Href|[(ctx' & Hr & Hadm)|[? _]]]; [by left| |done].
  right. rewrite Hr. pose proof Hadm as (raw & claims & _ & _ & Hctx & _).
  exists ctx', claims. split_and!; [done..|]. unfold RequireRole. rewrite Hctx.
  destruct (existsb (HasRole (Some claims)) roles) eqn:Hroles.
  - left. split; [|done]. apply existsb_exists in Hroles as (role & Hin & Hrole).
    exists role. split; [by apply list_elem_of_In|by apply HasRole_elem].
  - right. split.
    + intros role Hin Hrole. apply not_true_iff_false in Hroles. apply Hroles, existsb_exists.
      exists role. split; [by apply list_elem_of_In|by apply HasRole_elem].
    + destruct (@status_refused R w codes.PermissionDenied "insufficient permissions" []) as (e & -> & Href); [done|].
      by rewrite write_log_nil in Href.
Qed.
End access.

(** ** Calls with and without a token *)

Definition bearing (header : string) : Context :=
  with_incoming Background (Some {[AuthorizationKey := [header]]}).

Definition admin_call : Context := bearing ("BEARER  " +:+ admin_token.1).
Definition auth_env : Env := mkEnv plain_logger "uuid-1" (5 * Millisecond) "" (noon + Minute).
Definition profile : string := "/user.v1.UserService/GetProfile".
Definition whoami : Handler string := fun ctx w => (w, Ret (Some (context_UserID ctx), None)).

Example auth_admits_only_valid_tokens_witness :
  let r := AuthUnaryInterceptor auth_env (mkAuthConfig (Some (TokenAuthenticator hs_manager)) [login] true)
             profile whoami admin_call idle in
  r = (idle, Ret (Some "user-1", None)) /\ exists ctx', admitted hs_config hs_manager (noon + Minute) admin_call ctx'.
Proof.
  intros r. assert (r = (idle, Ret (Some "user-1", None))) as Hr by (vm_compute; reflexivity). split; [done|].
  destruct (auth_admits_only_valid_tokens (HL := numbered_status_laws) (HJ := toy_jwt_laws) auth_env hs_config hs_manager
    [login] true profile whoami admin_call idle hs_manager_new) as [(w' & e & msg & Hx & _)|[(ctx' & _ & Hadm)|(_ & (raw & e & Hb) & _)]].
  - rewrite list_elem_of_singleton. discriminate.
  - fold r in Hx. rewrite Hr in Hx. discriminate.
  - by exists ctx'.
  - vm_compute in Hb. discriminate.
Defined.

Example internal_requires_role_witness :
  refused idle (InternalAuthUnaryInterceptor auth_env (mkInternalAuthConfig (Some hs_manager) [profile] "")
    profile whoami admin_call idle) codes.PermissionDenied.
Proof.
  destruct (internal_requires_role (HL := numbered_status_laws) (HJ := toy_jwt_laws) auth_env hs_config (Some hs_manager)
    [profile] "" profile whoami admin_call idle) as [_ Hin].
  - by intros m [= <-]; apply hs_manager_new.
  - destruct Hin as [[? _]|[Href|(m & raw & claims & [= <-] & Hb & _ & Hif)]]; [by left|discriminate| |].
    + destruct Href as (w' & e & msg & Hx & Hf & _). vm_compute in Hx. injection Hx as _ <-. vm_compute in Hf. discriminate.
    + case_bool_decide as Hrole; [|done]. destruct Hif as (ctx' & Hx & _). vm_compute in Hx. discriminate.
Defined.

Example role_gate_witness :
  exists ctx', admitted hs_config hs_manager (noon + Minute) admin_call ctx' /\
    chain [AuthUnaryInterceptor auth_env (mkAuthConfig (Some (TokenAuthenticator hs_manager)) [] false); RequireRole ["support"; "admin"]]
      profile whoami admin_call idle = whoami ctx' idle.
Proof.
  destruct (role_gate (HL := numbered_status_laws) (HJ := toy_jwt_laws) auth_env hs_config hs_manager [] ["support"; "admin"]
    profile whoami admin_call idle hs_manager_new) as [Href|(ctx' & claims & Hadm & _ & [[_ Hr]|[_ Href]])].
  - apply not_elem_of_nil.
  - destruct Href as (w' & e & msg & Hx & _). vm_compute in Hx. discriminate.
  - exists ctx'. split; [exact Hadm|exact Hr].
  - destruct Href as (w' & e & msg & Hx & _). vm_compute in Hx. discriminate.
Defined.
