(* ===== verification/RateLimit.v ===== *)
(** * Rate limiting

    [ratelimit/ratelimit.go], a counter per key in redis with an expiry, and
    [grpcserver/ratelimit.go], the interceptor that counts requests by the
    client's address. *)

From S2P Require Export GrpcAuth ClientIP.

(** ** Redis

    The server is outside the repository.  [view] is what its keys hold: a number
    and the instant it expires at, in milliseconds of the server's clock. *)
Abbreviation Keyspace := (gmap string (Z * option Z)).

Inductive command : Type :=
| INCR (key : string)
| EXPIRE_NX (key : string) (ttl : Z)   (** milliseconds *)
| PTTL (key : string)
| DEL (key : string).

(** At the very instant of its expiry a key may count as expired or not. *)
Definition expires_well (expired : Z -> Z -> bool) : Prop :=
  forall at_ now, (now < at_ -> expired at_ now = false) /\ (at_ < now -> expired at_ now = true).

Definition live (expired : Z -> Z -> bool) (now : Z) (k : Keyspace) (key : string) : option (Z * option Z) :=
  match k !! key with
  | Some (n, Some at_) => if expired at_ now then None else Some (n, Some at_)
  | x => x
  end.

(** What the documentation says of the commands: the new keys and the reply; the
    reply of [PTTL] is a duration, negative without a key or an expiry. *)
Definition run_command (expired : Z -> Z -> bool) (now : Z) (c : command) (k : Keyspace) : Keyspace * Z :=
  match c with
  | INCR key =>
      let '(n, at_) := default (0, None) (live expired now k key) in (<[key := (n + 1, at_)]> k, n + 1)
  | EXPIRE_NX key ttl =>
      match live expired now k key with
      | Some (n, None) => (<[key := (n, Some (now + ttl))]> k, 1)
      | _ => (k, 0)
      end
  | PTTL key =>
      (k, match live expired now k key with
          | Some (_, Some at_) => (at_ - now) * Millisecond
          | Some (_, None) => -1
          | None => -2
          end)
  | DEL key => (delete key k, 1)
  end.

Fixpoint run_commands (expired : Z -> Z -> bool) (now : Z) (cs : list command) (k : Keyspace) : Keyspace * list Z :=
  match cs with
  | [] => (k, [])
  | c :: cs =>
      let '(k, reply) := run_command expired now c k in
      let '(k, replies) := run_commands expired now cs k in (k, reply :: replies)
  end.

(** [TxExec net now cmds s] runs a transaction; [net] decides how the network
    behaves.  [expire_millis] is the expiry the client asks for a duration. *)
Class Redis (RStore : Type) := {
  TxExec : N -> Z -> list command -> RStore -> RStore * result error (list Z);
  expire_millis : Z -> Z;
  view : RStore -> Keyspace;
  expired : Z -> Z -> bool
}.

(** Documented: a transaction whose replies arrive was run as a whole; of a failed
    one any of the commands may have been run (none, when the connection was lost
    before; all, when it was lost after; all but the increment, when the number
    would overflow).  Whole seconds are kept, and a window is never empty. *)
Class RedisLaws RStore `{!Redis RStore} : Prop := {
  TxExec_Ok net now cs s s' replies :
    TxExec net now cs s = (s', Ok replies) -> (view s', replies) = run_commands expired now cs (view s);
  TxExec_Err net now cs s s' err :
    TxExec net now cs s = (s', Err err) ->
    exists cs', cs' `sublist_of` cs /\ view s' = (run_commands expired now cs' (view s)).1;
  expired_well : expires_well expired;
  expire_whole d : 0 < d -> d mod Second = 0 -> expire_millis d = d / Millisecond;
  expire_positive d : 0 < d -> 0 < expire_millis d
}.

(** ** ratelimit.go *)

Record Config := mkConfig {
  Limit : Z;
  Window : Z
}.

Record Result := mkResult {
  Allowed : bool;
  Count : Z;
  RetryAfter : Z
}.

Record Limiter := mkLimiter {
  l_prefix : string;
  l_cfg : Config
}.

Definition New (prefix : string) (cfg : Config) : Limiter :=
  let cfg := if Limit cfg <=? 0 then mkConfig 20 (Window cfg) else cfg in
  let cfg := if Window cfg <=? 0 then mkConfig (Limit cfg) Minute else cfg in
  mkLimiter prefix cfg.

Definition limiter_key (l : Limiter) (key : string) : string := "ratelimit:" +:+ l_prefix l +:+ ":" +:+ key.

Section limiter.
Context {RStore : Type} `{!Redis RStore}.

(** The three commands of [Allow], in the order they are queued. *)
Definition allow_commands (l : Limiter) (key : string) : list command :=
  [INCR (limiter_key l key); EXPIRE_NX (limiter_key l key) (expire_millis (Window (l_cfg l))); PTTL (limiter_key l key)].

Definition Allow (l : Limiter) (net : N) (now : Z) (key : string) (s : RStore) : RStore * result error Result :=
  let redisKey := limiter_key l key in
  match TxExec net now (allow_commands l key) s with
  | (s, Err err) => (s, Err (Errorf ("ratelimit: incr " +:+ redisKey) err))
  | (s, Ok replies) =>
      let count := nth 0 replies 0 in
      let ttl := nth 2 replies 0 in
      let allowed := count <=? Limit (l_cfg l) in
      (s, Ok (mkResult allowed count
                (if allowed then 0 else if 0 <? ttl then ttl else Window (l_cfg l))))
  end.

Definition Reset (l : Limiter) (net : N) (now : Z) (key : string) (s : RStore) : RStore * option error :=
  match TxExec net now [DEL (limiter_key l key)] s with
  | (s, Err err) => (s, Some (Errorf ("ratelimit: del " +:+ limiter_key l key) err))
  | (s, Ok _) => (s, None)
  end.
End limiter.

(** ** The interceptor *)

Section interceptor.
Context `{!GrpcStatus}.

(** [RateLimitConfig]; a limiter is asked once per call and answers whether the
    call is allowed, after which time to retry, and an error. *)
Record RateLimitConfig := mkRateLimitConfig {
  rl_Limiter : option (Context -> string -> bool * Z * option error);
  rl_Methods : list string;
  rl_TrustedProxies : TrustedProxies;
  rl_Logger : option Logger
}.

(** [int(retryAfter.Seconds() + 0.5)]; for a positive duration below 2^22 seconds
    the sum in float64 does not cross a whole number the exact one does not reach. *)
Definition retry_seconds (retryAfter : Z) : Z := (retryAfter + Second / 2) / Second.

Definition too_many_requests : option error := status_Error codes.ResourceExhausted "too many requests".

Definition RateLimitUnaryInterceptor {R} (env : Env) (cfg : RateLimitConfig) : UnaryInterceptor R :=
  fun method handler ctx w =>
  let log := orDefaultLogger env (rl_Logger cfg) in
  let limited := toSet (rl_Methods cfg) in
  let all := rl_Methods cfg == [] in
  match rl_Limiter cfg with
  | None => handler ctx w
  | Some allow =>
      if negb (bool_decide (method ∈ limited)) && negb all then handler ctx w
      else
        let key := ClientIP ctx (rl_TrustedProxies cfg) in
        if key == "" then handler ctx w
        else match allow ctx key with
        | (_, _, Some err) =>
            handler ctx (write_log (LogAttrs log ctx LevelWarn "rate limiter unavailable"
                                      [slog_String "error" (fmt_error err); slog_String "method" method]) w)
        | (false, retryAfter, None) =>
            let w := write_log (LogAttrs (From (e_default env) ctx) ctx LevelWarn "rate limit exceeded"
                                  [slog_String "method" method; slog_String "retry_after" (Duration_String retryAfter)]) w in
            let w := if 0 <? retryAfter
                     then SetHeader "retry-after" (of_bytes (decimal (retry_seconds retryAfter))) w else w in
            (w, Ret (None, too_many_requests))
        | (true, _, None) => handler ctx w
        end
  end.
End interceptor.

(** ** How many calls a window lets through *)

(** What happens to the keys: a call of the limiter, or a transaction of anyone on
    other keys. *)
Inductive event : Type :=
| EAllow (net : N) (now : Z) (key : string)
| EOther (net : N) (now : Z) (cs : list command).

Definition event_time (e : event) : Z := match e with EAllow _ now _ | EOther _ now _ => now end.
Definition command_key (c : command) : string :=
  match c with INCR k | EXPIRE_NX k _ | PTTL k | DEL k => k end.

(** Events come in the order of the server's clock, and others leave the key alone. *)
Definition respects (redisKey : string) (e : event) : Prop :=
  match e with EAllow _ _ _ => True | EOther _ _ cs => Forall (fun c => command_key c <> redisKey) cs end.
Definition earlier (e1 e2 : event) : Prop := event_time e1 <= event_time e2.

Section runs.
Context {RStore : Type} `{!Redis RStore} {HR : RedisLaws RStore}.

Lemma sublist_Forall {A} (P : A -> Prop) (l k : list A) : l `sublist_of` k -> Forall P k -> Forall P l.
Proof. induction 1; [done|..]; intros [? ?]%Forall_cons; auto. Qed.

(** The times at which calls for [key] were allowed. *)
Fixpoint admissions (l : Limiter) (key : string) (events : list event) (s : RStore) : list Z :=
  match events with
  | [] => []
  | EAllow net now k :: events =>
      let '(s, r) := Allow l net now k s in
      match r with
      | Ok r => if Allowed r && (k == key) then [now] else []
      | Err _ => []
      end ++ admissions l key events s
  | EOther net now cs :: events => admissions l key events (TxExec net now cs s).1
  end.

(** Only the commands on a key change its entry. *)
Lemma run_commands_other now cs ks key :
  Forall (fun c => command_key c <> key) cs -> (run_commands expired now cs ks).1 !! key = ks !! key.
Proof.
  intros Hcs. revert ks. induction Hcs as [|c cs Hc _ IH]; intros ks; [done|]. cbn [run_commands].
  destruct (run_command expired now c ks) as [ks' reply] eqn:Hr. specialize (IH ks').
  destruct (run_commands expired now cs ks') as [ks'' replies]. cbn [fst] in *. rewrite IH.
  destruct c; cbn [run_command command_key] in *.
  - destruct (default _ _). simplify_eq. by rewrite lookup_insert_ne.
  - repeat case_match; simplify_eq; try done. by rewrite lookup_insert_ne.
  - by simplify_eq.
  - simplify_eq. by rewrite lookup_delete_ne.
Qed.

Lemma TxExec_other net now cs s key :
  Forall (fun c => command_key c <> key) cs -> view (TxExec net now cs s).1 !! key = view s !! key.
Proof.
  intros Hcs. destruct (TxExec net now cs s) as [s' [replies|err]] eqn:Hx; cbn [fst].
  - apply TxExec_Ok in Hx. replace (view s') with (run_commands expired now cs (view s)).1 by by rewrite <- Hx.
    by apply run_commands_other.
  - apply TxExec_Err in Hx as (cs' & Hsub & ->). apply run_commands_other.
    by eapply sublist_Forall.
Qed.

Lemma limiter_key_inj l k1 k2 : limiter_key l k1 = limiter_key l k2 -> k1 = k2.
Proof.
  unfold limiter_key. intros H. apply (f_equal bytes) in H. rewrite !bytes_app in H.
  repeat apply app_inv_head in H. by apply bytes_inj.
Qed.

Lemma allow_commands_other l k key :
  limiter_key l k <> key -> Forall (fun c => command_key c <> key) (allow_commands l k).
Proof. intros Hne. by repeat constructor. Qed.

(** The entry of the key after an increment at [now]. *)
Definition incremented (now : Z) (entry : option (Z * option Z)) : Z * option Z :=
  match entry with
  | Some (n, Some at_) => if expired at_ now then (1, None) else (n + 1, Some at_)
  | Some (n, None) => (n + 1, None)
  | None => (1, None)
  end.
(** With its expiry set when it has none. *)
Definition with_expiry (now window : Z) (entry : Z * option Z) : Z * option Z :=
  match entry.2 with Some _ => entry | None => (entry.1, Some (now + window)) end.

Lemma expired_later at_ now : now < at_ -> expired at_ now = false.
Proof. apply expired_well. Qed.
Lemma expired_past at_ now : at_ < now -> expired at_ now = true.
Proof. apply expired_well. Qed.

Lemma incremented_live now entry n at_ :
  incremented now entry = (n, Some at_) -> expired at_ now = false.
Proof. unfold incremented. destruct entry as [[c [e|]]|]; [destruct (expired e now) eqn:E|..]; by intros [= <- <-]. Qed.

Lemma run_incr now ks key : 
  run_command expired now (INCR key) ks =
    (<[key := incremented now (ks !! key)]> ks, (incremented now (ks !! key)).1).
Proof.
  cbn [run_command]. unfold live, incremented. destruct (ks !! key) as [[n [e|]]|]; cbn; [destruct (expired e now)|..]; done.
Qed.

(** The three commands of [Allow] together. *)
Lemma allow_effect l now key ks :
  0 < Window (l_cfg l) ->
  let entry := with_expiry now (expire_millis (Window (l_cfg l))) (incremented now (ks !! limiter_key l key)) in
  let '(ks', replies) := run_commands expired now (allow_commands l key) ks in
  ks' !! limiter_key l key = Some entry /\ nth 0 replies 0 = entry.1 /\
  exists at_, entry.2 = Some at_ /\ nth 2 replies 0 = (at_ - now) * Millisecond /\ now <= at_.
Proof.
  intros Hw entry. pose proof (expire_positive _ Hw) as Hp. set (rk := limiter_key l key) in *.
  unfold allow_commands. cbn [run_commands]. fold rk. rewrite run_incr.
  set (inc := incremented now (ks !! rk)) in *. cbn [run_command]. unfold live at 1. rewrite lookup_insert_eq.
  destruct inc as [n [e|]] eqn:Hinc; cbn [with_expiry fst snd] in *.
  - assert (expired e now = false) as He by (by apply (incremented_live now (ks !! rk) n)).
    rewrite He. unfold live. rewrite lookup_insert_eq, He. cbn. subst entry. cbn.
    split; [by rewrite ?lookup_insert_eq|]. split; [done|]. exists e. split_and!; [done..|].
    destruct (Z.le_gt_cases now e); [done|]. rewrite expired_past in He by done. done.
  - unfold live. rewrite lookup_insert_eq, expired_later by lia. cbn. subst entry. cbn.
    split; [by rewrite ?lookup_insert_eq|]. split; [done|]. exists (now + expire_millis (Window (l_cfg l))).
    split_and!; [done..|lia].
Qed.

(** What a failed call may have done to the entry. *)
Definition partial_effect (now window : Z) (old new : option (Z * option Z)) : Prop :=
  new = old \/ new = Some (incremented now old) \/
  new = Some (with_expiry now window (incremented now old)) \/
  exists n, old = Some (n, None) /\ new = Some (n, Some (now + window)).

Lemma run_PTTL now key ks : (run_command expired now (PTTL key) ks).1 = ks.
Proof. done. Qed.

Lemma run_EXPIRE now key ttl ks :
  (run_command expired now (EXPIRE_NX key ttl) ks).1 !! key = 
    match ks !! key with Some (n, None) => Some (n, Some (now + ttl)) | x => x end.
Proof.
  cbn [run_command]. unfold live. destruct (ks !! key) as [[n [e|]]|] eqn:E; cbn.
  - by destruct (expired e now).
  - by rewrite lookup_insert_eq.
  - done.
Qed.

Lemma run_cons now c cs ks :
  (run_commands expired now (c :: cs) ks).1 = (run_commands expired now cs (run_command expired now c ks).1).1.
Proof. cbn [run_commands]. destruct (run_command expired now c ks) as [k reply]. cbn [fst]. by destruct (run_commands expired now cs k). Qed.

Lemma allow_partial now window cs key ks :
  cs `sublist_of` [INCR key; EXPIRE_NX key window; PTTL key] ->
  partial_effect now window (ks !! key) ((run_commands expired now cs ks).1 !! key).
Proof.
  intros Hsub. unfold partial_effect.
  assert (forall cs, cs `sublist_of` [PTTL key] -> forall ks, (run_commands expired now cs ks).1 = ks) as Hp.
  { intros cs' Hs ks'. inversion Hs as [|c l1 l2 Hl|c l1 l2 Hl]; subst; inversion Hl; done. }
  assert (forall cs, cs `sublist_of` [EXPIRE_NX key window; PTTL key] -> forall ks,
    (run_commands expired now cs ks).1 !! key = ks !! key \/
    (run_commands expired now cs ks).1 !! key =
      match ks !! key with Some (n, None) => Some (n, Some (now + window)) | x => x end) as He.
  { intros cs' Hs ks'. inversion Hs as [|c l1 l2 Hl|c l1 l2 Hl]; subst; [right|left; by rewrite Hp].
    rewrite run_cons, Hp by done. apply run_EXPIRE. }
  inversion Hsub as [|c l1 l2 Hl|c l1 l2 Hl]; subst.
  - rewrite run_cons, run_incr. cbn [fst].
    destruct (He l1 Hl (<[key := incremented now (ks !! key)]> ks)) as [->| ->]; rewrite lookup_insert_eq; [auto|].
    right. right. left. unfold with_expiry. by destruct (incremented now (ks !! key)) as [n [e|]].
  - destruct (He cs Hl ks) as [->| ->]; [auto|]. destruct (ks !! key) as [[n [e|]]|] eqn:E; [by left| |by left].
    right. right. right. by exists n.
Qed.

(** A call of [Allow], as its key sees it. *)
Lemma Allow_cases l net now key s s' r :
  0 < Window (l_cfg l) -> Allow l net now key s = (s', r) ->
  let old := view s !! limiter_key l key in
  let window := expire_millis (Window (l_cfg l)) in
  match r with
  | Ok res =>
      let entry := with_expiry now window (incremented now old) in
      view s' !! limiter_key l key = Some entry /\ Count res = entry.1 /\
      Allowed res = (entry.1 <=? Limit (l_cfg l)) /\
      (Allowed res = false -> exists at_, entry.2 = Some at_ /\ now <= at_ /\
        RetryAfter res = if now <? at_ then (at_ - now) * Millisecond else Window (l_cfg l))
  | Err _ => partial_effect now window old (view s' !! limiter_key l key)
  end.
Proof.
  intros Hw. unfold Allow. destruct (TxExec net now (allow_commands l key) s) as [s1 [replies|err]] eqn:Hx; intros [= <- <-].
  - apply TxExec_Ok in Hx. pose proof (allow_effect l now key (view s) Hw) as He. cbv zeta in *. rewrite <- Hx in He.
    destruct He as (Hv & H0 & at_ & Hat & H2 & Hle). split; [done|]. cbn [Count Allowed RetryAfter]. rewrite H0, H2.
    split; [done|]. split; [done|]. intros Hd. exists at_. rewrite Hd. split_and!; [done..|].
    destruct (Z.ltb_spec now at_), (Z.ltb_spec 0 ((at_ - now) * Millisecond)); unfold Millisecond in *; done || lia.
  - apply TxExec_Err in Hx as (cs' & Hsub & ->). by apply allow_partial.
Qed.

(** *** The quota argument

    How many more calls the entry lets through before the instant [till]: what is
    left of the current window, and a fresh one if that ends before. *)
Definition quota (limit till : Z) (entry : option (Z * option Z)) : Z :=
  match entry with
  | None => limit
  | Some (n, None) => Z.max 0 (limit - n)
  | Some (n, Some at_) => Z.max 0 (limit - n) + (if till <=? at_ then 0 else limit)
  end.

Definition counted (entry : option (Z * option Z)) : Prop :=
  match entry with Some (n, _) => 0 <= n | None => True end.

Lemma quota_bound limit till entry : 0 <= limit -> counted entry -> 0 <= quota limit till entry <= 2 * limit.
Proof. intros Hl. unfold quota, counted. destruct entry as [[n [e|]]|]; try destruct (till <=? e); lia. Qed.

Lemma incremented_counted now entry : counted entry -> 0 < (incremented now entry).1.
Proof. unfold counted, incremented. destruct entry as [[n [e|]]|]; [destruct (expired e now)|..]; cbn; lia. Qed.

Lemma partial_counted now window old new : counted old -> partial_effect now window old new -> counted new.
Proof.
  intros Hc [->|[->|[->|(n & -> & ->)]]]; [done|..]; cbn in *; try done;
    pose proof (incremented_counted now old Hc); unfold with_expiry; destruct (incremented now old) as [n [e|]]; cbn in *; lia.
Qed.

Section window.
Context (limit window from : Z) (Hlimit : 0 <= limit) (Hwindow : 0 < window).

(** A successful call uses one of the quota when it is allowed. *)
Lemma quota_allowed now old :
  counted old -> from <= now < from + window ->
  let new := with_expiry now window (incremented now old) in
  (if new.1 <=? limit then 1 else 0) + quota limit (from + window) (Some new) <= quota limit (from + window) old.
Proof.
  intros Hc Hnow new. subst new. unfold incremented, counted in *. destruct old as [[n [e|]]|]; cbn [quota].
  - destruct (expired e now) eqn:He; cbn [with_expiry fst snd quota].
    + assert (e <= now) by (destruct (Z.le_gt_cases e now); [done|rewrite expired_later in He by done; done]).
      rewrite (proj2 (Z.leb_gt (from + window) e)), (proj2 (Z.leb_le (from + window) (now + window))) by lia.
      destruct (Z.leb_spec 1 limit); lia.
    + destruct (Z.leb_spec (n + 1) limit); destruct (from + window <=? e); lia.
  - cbn [with_expiry fst snd quota]. rewrite (proj2 (Z.leb_le (from + window) (now + window))) by lia.
    destruct (Z.leb_spec (n + 1) limit); lia.
  - cbn [with_expiry fst snd quota]. rewrite (proj2 (Z.leb_le (from + window) (now + window))) by lia.
    destruct (Z.leb_spec 1 limit); lia.
Qed.

(** A failed one never adds to it. *)
Lemma quota_failed now old new :
  counted old -> from <= now < from + window -> partial_effect now window old new ->
  quota limit (from + window) new <= quota limit (from + window) old.
Proof.
  intros Hc Hnow [->|[->|[->|(n & -> & ->)]]].
  - done.
  - unfold incremented, counted in *. destruct old as [[n [e|]]|]; cbn [quota]; [|lia..].
    destruct (expired e now) eqn:He; cbn [quota]; destruct (Z.leb_spec (from + window) e); try lia.
    rewrite expired_later in He by lia. done.
  - pose proof (quota_allowed now old Hc Hnow) as H. cbv zeta in H. destruct (_ <=? limit) in H; lia.
  - cbn [quota]. rewrite (proj2 (Z.leb_le (from + window) (now + window))) by lia. lia.
Qed.
End window.

Definition within (from window t : Z) : Prop := from <= t < from + window.
#[export] Instance within_dec from window t : Decision (within from window t).
Proof. unfold within. apply _. Defined.

Lemma admissions_after l key events s t :
  Forall (fun e => t <= event_time e) events -> Forall (fun u => t <= u) (admissions l key events s).
Proof.
  intros He. revert s. induction He as [|e events He _ IH]; intros s; [constructor|].
  destruct e as [net now k|net now cs]; cbn [admissions event_time] in *; [|apply IH].
  destruct (Allow l net now k s) as [s' [r|err]]; cbn [app]; [|apply IH]. destruct (_ && _); [by constructor|apply IH].
Qed.

Lemma within_nil l key events s from window :
  Forall (fun e => from + window <= event_time e) events -> filter (within from window) (admissions l key events s) = [].
Proof.
  intros He. apply (admissions_after l key events s) in He. induction He as [|u us Hu _ IH]; [done|].
  rewrite filter_cons, decide_False by (unfold within; lia). done.
Qed.


Lemma New_positive prefix cfg : 0 < Limit (l_cfg (New prefix cfg)) /\ 0 < Window (l_cfg (New prefix cfg)).
Proof.
  unfold New, Minute, Second. cbn [l_cfg].
  destruct (Z.leb_spec (Limit cfg) 0); cbn; destruct (Z.leb_spec (Window cfg) 0); cbn; lia.
Qed.

Section limiter.
Context (l : Limiter) (key : string) (Hlimit : 0 < Limit (l_cfg l)) (Hpos : 0 < Window (l_cfg l)).
Let window : Z := expire_millis (Window (l_cfg l)).
Let entry (s : RStore) := view s !! limiter_key l key.

(** One event: either a call for the key, or it leaves the entry alone. *)
Lemma event_cases e events s :
  respects (limiter_key l key) e ->
  (exists net now, e = EAllow net now key /\
     admissions l key (e :: events) s =
       match (Allow l net now key s).2 with
       | Ok r => if Allowed r then [now] else []
       | Err _ => []
       end ++ admissions l key events (Allow l net now key s).1) \/
  exists s', entry s' = entry s /\ admissions l key (e :: events) s = admissions l key events s'.
Proof.
  intros He. destruct e as [net now k|net now cs].
  - destruct (decide (k = key)) as [->|Hk].
    + left. exists net, now. split; [done|]. cbn [admissions]. destruct (Allow l net now key s) as [s' [r|err]]; cbn [fst snd]; [|done].
      rewrite bool_decide_eq_true_2 by done. by rewrite andb_true_r.
    + right. exists (Allow l net now k s).1. split.
      * unfold entry. assert (view (TxExec net now (allow_commands l k) s).1 !! limiter_key l key = view s !! limiter_key l key) as Ho
          by (apply TxExec_other, allow_commands_other; intros H; apply Hk; by eapply limiter_key_inj).
        unfold Allow. by destruct (TxExec net now (allow_commands l k) s) as [s' [replies|err]].
      * cbn [admissions]. destruct (Allow l net now k s) as [s' [r|err]]; cbn [fst]; [|done].
        rewrite (bool_decide_eq_false_2 (k = key)) by done. by rewrite andb_false_r.
  - right. exists (TxExec net now cs s).1. split; [|done]. unfold entry. by apply TxExec_other.
Qed.

(** What a call leaves of the quota, and of the sign of the count. *)
Lemma call_counted net now s s' r : Allow l net now key s = (s', r) -> counted (entry s) -> counted (entry s').
Proof.
  intros Hcall Hc. pose proof (Allow_cases l net now key s s' r Hpos Hcall) as H. cbv zeta in H. fold window in H.
  unfold entry in *. destruct r as [res|err].
  - destruct H as (-> & _). eapply (partial_counted now window); [exact Hc|]. unfold partial_effect. auto.
  - by eapply partial_counted.
Qed.

Lemma call_quota from net now s s' r :
  Allow l net now key s = (s', r) -> counted (entry s) -> from <= now < from + window ->
  (match r with Ok res => if Allowed res then 1 else 0 | Err _ => 0 end)
    + quota (Limit (l_cfg l)) (from + window) (entry s') <= quota (Limit (l_cfg l)) (from + window) (entry s).
Proof.
  intros Hcall Hc Hnow. pose proof (Allow_cases l net now key s s' r Hpos Hcall) as H. cbv zeta in H. fold window in H.
  unfold entry in *. destruct r as [res|err].
  - destruct H as (-> & _ & -> & _). by apply quota_allowed; [lia|..].
  - rewrite Z.add_0_l. apply (quota_failed (Limit (l_cfg l)) window from) with (now := now); done || lia.
Qed.

Lemma admissions_quota from events s :
  StronglySorted earlier events -> Forall (respects (limiter_key l key)) events ->
  Forall (fun e => from <= event_time e) events -> counted (entry s) ->
  Z.of_nat (length (filter (within from window) (admissions l key events s)))
    <= quota (Limit (l_cfg l)) (from + window) (entry s).
Proof.
  intros Hsort. revert s. induction Hsort as [|e events Hsort IH Hafter]; intros s Hresp Hfrom Hc.
  { cbn. apply quota_bound; [lia|done]. }
  apply Forall_cons in Hresp as [He Hresp]. apply Forall_cons in Hfrom as [Hef Hfrom].
  destruct (Z.lt_ge_cases (event_time e) (from + window)) as [Hin|Hout].
  2:{ rewrite within_nil; [cbn; apply quota_bound; [lia|done]|]. constructor; [done|].
      eapply Forall_impl; [exact Hafter|]. unfold earlier. intros e' ?. lia. }
  destruct (event_cases e events s He) as [(net & now & -> & ->)|(s' & Hs' & ->)].
  - destruct (Allow l net now key s) as [s' r] eqn:Hcall. cbn [fst snd event_time] in *.
    pose proof (call_quota from net now s s' r Hcall Hc ltac:(lia)) as Hq.
    specialize (IH s' Hresp Hfrom (call_counted net now s s' r Hcall Hc)).
    rewrite filter_app, length_app. destruct r as [res|err]; [destruct (Allowed res)|]; cbn [filter list_filter length] in *; [|lia..].
    rewrite decide_True by (unfold within; lia). cbn [length]. lia.
  - rewrite <- Hs' in *. by apply IH.
Qed.

Lemma admissions_bound from events s :
  StronglySorted earlier events -> Forall (respects (limiter_key l key)) events -> counted (entry s) ->
  Z.of_nat (length (filter (within from window) (admissions l key events s))) <= 2 * Limit (l_cfg l).
Proof.
  intros Hsort. revert s. induction Hsort as [|e events Hsort IH Hafter]; intros s Hresp Hc; [cbn; lia|].
  destruct (Z.lt_ge_cases (event_time e) from) as [Hbefore|Hfrom].
  - apply Forall_cons in Hresp as [He Hresp].
    destruct (event_cases e events s He) as [(net & now & -> & ->)|(s' & Hs' & ->)].
    + destruct (Allow l net now key s) as [s' r] eqn:Hcall. cbn [fst snd event_time] in *.
      specialize (IH s' Hresp (call_counted net now s s' r Hcall Hc)). rewrite filter_app, length_app.
      replace (filter (within from window) _) with (@nil Z) at 1; [done|].
      destruct r as [res|err]; [destruct (Allowed res)|]; [|done..]. cbn.
      by rewrite decide_False by (unfold within; lia).
    + rewrite <- Hs' in *. by apply IH.
  - etransitivity; [apply admissions_quota; [by constructor|done| |done]|apply quota_bound; [lia|done]].
    constructor; [done|]. eapply Forall_impl; [exact Hafter|]. unfold earlier. intros e' ?. lia.
Qed.
End limiter.

(** C11. However the calls of any number of processes interleave with each other,
    with calls for other keys and with other users of the server, and whether or
    not calls fail, a limiter lets at most twice its limit through for a key in
    any stretch of time as long as its window: the window is fixed, so a stretch
    can see the end of one and the beginning of the next.  A stretch that begins
    with no window open sees at most the limit. *)
Theorem rate_is_bounded prefix cfg key events (s : RStore) from
  (Hsorted : StronglySorted earlier events)
  (Hothers : Forall (respects (limiter_key (New prefix cfg) key)) events)
  (Hcount : counted (view s !! limiter_key (New prefix cfg) key)) :
  let l := New prefix cfg in
  let window := expire_millis (Window (l_cfg l)) in
  let n := Z.of_nat (length (filter (within from window) (admissions l key events s))) in
  n <= 2 * Limit (l_cfg l) /\
  (view s !! limiter_key l key = None -> Forall (fun e => from <= event_time e) events -> n <= Limit (l_cfg l)).
Proof.
  intros l window n. destruct (New_positive prefix cfg) as [Hl Hw]. split.
  - by apply admissions_bound.
  - intros Hnone Hfrom. pose proof (admissions_quota l key Hl Hw from events s Hsorted Hothers Hfrom Hcount) as H.
    fold l in H. cbv zeta beta in H. rewrite Hnone in H. exact H.
Qed.

(** A refused caller that waits longer than it was told is admitted: after a
    call that was refused with [RetryAfter], and whatever others do on other keys,
    the next call for the key later than that, if it gets an answer, is allowed,
    and it is the first of a new window. *)
Theorem retry_is_admitted prefix cfg key net net' now now' (s s' s1 s2 : RStore) res res'
  (Hrefused : Allow (New prefix cfg) net now key s = (s', Ok res)) (Hdenied : Allowed res = false)
  (Hothers : view s1 !! limiter_key (New prefix cfg) key = view s' !! limiter_key (New prefix cfg) key)
  (Hwait : now * Millisecond + RetryAfter res < now' * Millisecond)
  (Hretry : Allow (New prefix cfg) net' now' key s1 = (s2, Ok res')) :
  Allowed res' = true /\ Count res' = 1 /\ 0 < RetryAfter res.
Proof.
  set (l := New prefix cfg) in *. destruct (New_positive prefix cfg) as [Hl Hw]. fold l in Hl, Hw.
  pose proof (Allow_cases l net now key s s' _ Hw Hrefused) as (Hentry & Hn & Ha & Hr). specialize (Hr Hdenied) as (at_ & Hat & Hle & Hr).
  pose proof (Allow_cases l net' now' key s1 s2 _ Hw Hretry) as (_ & Hn' & Ha' & _).
  assert (0 < RetryAfter res /\ at_ < now') as [Hpos Hlate].
  { rewrite Hr in *. unfold Millisecond in *. destruct (Z.ltb_spec now at_); lia. }
  rewrite Hothers, Hentry in *. destruct (with_expiry _ _ (incremented now _)) as [n e] eqn:E. cbn [snd] in Hat. subst e.
  cbn [incremented] in *. rewrite (expired_past at_ now') in * by done. cbn [with_expiry fst snd] in *.
  rewrite Ha', Hn'. split_and!; [apply Z.leb_le; lia|done|done].
Qed.

End runs.

(** ** The interceptor's contract *)

Section gate.
Context `{!GrpcStatus} {HL : GrpcStatusLaws}.

Lemma retry_seconds_rounds after : 0 < after -> Z.abs (retry_seconds after * Second - after) <= Second / 2.
Proof.
  intros Ha. unfold retry_seconds, Second in *. change (1000000000 / 2) with 500000000.
  pose proof (Z.div_mod (after + 500000000) 1000000000). pose proof (Z.mod_pos_bound (after + 500000000) 1000000000). lia.
Qed.

(** C33. A call is refused exactly when it is subject to the limit (its method is
    listed, or none is, and it has a client address) and the limiter answers no:
    the client then gets [ResourceExhausted] and, with a wait, a [retry-after]
    header of whole seconds, at most half a second off; the handler does not run.
    In every other case it runs in the caller's context, a failure of the limiter
    included, which is only logged. *)
Theorem rate_limit_gate {R} env cfg method (handler : Handler R) ctx w :
  let key := ClientIP ctx (rl_TrustedProxies cfg) in
  let subject := (method ∈ rl_Methods cfg \/ rl_Methods cfg = []) /\ key <> "" in
  let r := RateLimitUnaryInterceptor env cfg method handler ctx w in
  match rl_Limiter cfg with
  | None => r = handler ctx w
  | Some allow =>
      (~ subject -> r = handler ctx w) /\
      (subject ->
       match allow ctx key with
       | (_, _, Some err) => exists lines, r = handler ctx (write_log lines w)
       | (true, _, None) => r = handler ctx w
       | (false, after, None) =>
           exists w' err header, r = (w', Ret (None, Some err)) /\
             FromError err = Some (status_New codes.ResourceExhausted "too many requests") /\
             w_metrics w' = w_metrics w /\
             w_headers w' = w_headers w ++ (if w_transport w && (0 <? after) then [("retry-after", header)] else []) /\
             (0 < after < 2 ^ 63 -> exists n, digits_value (bytes header) = n /\ Z.abs (n * Second - after) <= Second / 2)
       end)
  end.
Proof.
  intros key subject r. subst r. unfold RateLimitUnaryInterceptor. destruct (rl_Limiter cfg) as [allow|]; [|done].
  assert (method ∈ toSet (rl_Methods cfg) <-> method ∈ rl_Methods cfg) as Hset by (unfold toSet; set_solver).
  cbv zeta. fold key. split.
  - intros Hnot. destruct (negb (bool_decide (method ∈ toSet (rl_Methods cfg))) && _) eqn:Hm; [done|].
    destruct (bool_decide_reflect (key = "")) as [|Hkey]; [done|]. destruct Hnot. split; [|done].
    apply andb_false_iff in Hm as [Hm|Hm]; go_bool; [left; by apply Hset|by right].
  - intros [Hm Hkey]. assert (negb (bool_decide (method ∈ toSet (rl_Methods cfg))) && negb (rl_Methods cfg == []) = false) as ->.
    { apply andb_false_iff. destruct Hm as [Hm|Hm]; [left|right]; apply negb_false_iff, bool_decide_eq_true; [by apply Hset|done]. }
    rewrite bool_decide_eq_false_2 by done.
    destruct (allow ctx key) as [[[|] after] [err|]]; [by eexists|done|by eexists|].
    destruct (status_Error_status codes.ResourceExhausted "too many requests") as (e & He & Hf & _); [done|].
    unfold too_many_requests. rewrite He.
    eexists _, e, (of_bytes (decimal (retry_seconds after))). split; [reflexivity|]. split; [done|].
    unfold SetHeader. cbn [w_transport write_log]. split_and!.
    + by destruct (0 <? after), (w_transport w).
    + destruct (0 <? after), (w_transport w); cbn; by rewrite ?app_nil_r.
    + intros Ha. assert (0 <= retry_seconds after < 2 ^ 64) as Hr.
      { unfold retry_seconds, Second. change (1000000000 / 2) with 500000000. split; [apply Z.div_pos; lia|].
        apply Z.div_lt_upper_bound; lia. }
      exists (retry_seconds after). split; [|apply retry_seconds_rounds; lia].
      rewrite bytes_of_bytes by (apply decimal_bytes; lia). by apply decimal_value.
Qed.
End gate.

(** ** A concrete server, witnesses and examples *)

(** An instant counts as past from the next millisecond on; the network fails on
    odd attempts, after the commands were run. *)
#[export] Instance plain_redis : Redis Keyspace := {
  TxExec net now cs k :=
    let r := run_commands (fun at_ now => at_ <? now) now cs k in
    if N.even net then (r.1, Ok r.2) else (r.1, Err (errors_New "i/o timeout"));
  expire_millis d := Z.max 1 (d / Second) * 1000;
  view k := k;
  expired at_ now := at_ <? now
}.

#[export] Instance plain_redis_laws : RedisLaws Keyspace.
Proof.
  split.
  - intros net now cs s s' replies. cbn. destruct (N.even net); intros [= <- <-]. by destruct (run_commands _ _ _ _).
  - intros net now cs s s' err. cbn. destruct (N.even net); [done|]. intros [= <- <-]. by exists cs.
  - intros at_ now. cbn. rewrite Z.ltb_ge, Z.ltb_lt. lia.
  - intros d Hd Hm. cbn. unfold Second, Millisecond in *. pose proof (Z.div_mod d 1000000000). 
    rewrite Z.max_r by lia. apply Z.div_unique_exact; lia.
  - intros d Hd. cbn. lia.
Qed.

(** Two calls a second are allowed; a third waits for the window's end. *)
Definition two_per_second : Config := mkConfig 2 Second.
Definition login_limiter : Limiter := New "login" two_per_second.
Definition burst : list event :=
  [EAllow 0 900 "::1"; EAllow 0 1000 "::1"; EAllow 1 1100 "::1"; EOther 0 1200 [DEL "session"]; EAllow 0 1899 "::1";
   EAllow 0 1901 "::1"; EAllow 0 1902 "::1"; EAllow 0 1903 "::1"].

Example burst_admissions : admissions login_limiter "::1" burst (∅ : Keyspace) = [900; 1000; 1901; 1902].
Proof. vm_compute. reflexivity. Qed.

Lemma sortedb (es : list event) :
  (fix go (es : list event) := match es with e :: es => forallb (fun x => event_time e <=? event_time x) es && go es | [] => true end) es = true ->
  StronglySorted earlier es.
Proof.
  induction es as [|e es IH]; [constructor|]. intros [He Hes]%andb_true_iff. constructor; [by apply IH|].
  apply List.Forall_forall. intros x Hx. eapply forallb_forall in He; [|exact Hx]. unfold earlier. lia.
Qed.

Lemma rate_is_bounded_witness :
  Z.of_nat (length (filter (within 950 1000) (admissions (New "login" two_per_second) "::1" burst (∅ : Keyspace)))) <= 4.
Proof.
  destruct (rate_is_bounded "login" two_per_second "::1" burst (∅ : Keyspace) 950) as [H _].
  - apply sortedb. vm_compute. reflexivity.
  - repeat constructor. cbn. discriminate.
  - exact I.
  - exact H.
Defined.

Definition after_call (now : Z) (s : Keyspace) : Keyspace := (Allow login_limiter 0 now "::1" s).1.
Definition full_window : Keyspace := after_call 1000 (after_call 900 ∅).

Lemma retry_is_admitted_witness :
  exists res res', (Allow login_limiter 0 1200 "::1" full_window).2 = Ok res /\ RetryAfter res = 700 * Millisecond /\
    (Allow login_limiter 0 1901 "::1" (after_call 1200 full_window)).2 = Ok res' /\ Allowed res' = true.
Proof.
  exists (mkResult false 3 (700 * Millisecond)), (mkResult true 1 0).
  destruct (retry_is_admitted "login" two_per_second "::1" 0 0 1200 1901 full_window (after_call 1200 full_window)
    (after_call 1200 full_window) (after_call 1901 (after_call 1200 full_window))
    (mkResult false 3 (700 * Millisecond)) (mkResult true 1 0)) as (H & _ & _); [vm_compute; reflexivity..|].
  split_and!; [vm_compute; reflexivity|reflexivity|vm_compute; reflexivity|exact H].
Defined.

(** A wait of under half a second is announced as none. *)
Example announced_zero : retry_seconds (400 * Millisecond) = 0.
Proof. reflexivity. Qed.

(** Keys of different limiters can meet when a prefix has a colon. *)
Example prefixes_can_meet :
  limiter_key (New "login" two_per_second) "::1" = limiter_key (New "login:" two_per_second) ":1".
Proof. reflexivity. Qed.

Definition no_more (limiter_says : bool * Z * option error) : RateLimitConfig :=
  mkRateLimitConfig (Some (fun _ _ => limiter_says)) [login] private_proxies None.

(** A refused call, and one whose limiter cannot be reached. *)
Lemma rate_limit_gate_witness :
  (exists w' err, RateLimitUnaryInterceptor call_env (no_more (false, 1400 * Millisecond, None)) login panicking
      (behind "203.0.113.9:4711" "1.2.3.4") idle = (w', Ret (None, Some err)) /\
    FromError err = Some (status_New codes.ResourceExhausted "too many requests")) /\
  RateLimitUnaryInterceptor call_env (no_more (false, 1400 * Millisecond, None)) "/other" panicking
      (behind "203.0.113.9:4711" "1.2.3.4") idle = (idle, Panic "boom").
Proof.
  pose proof (rate_limit_gate (HL := numbered_status_laws) (R := string) call_env
    (no_more (false, 1400 * Millisecond, None)) login panicking (behind "203.0.113.9:4711" "1.2.3.4") idle) as [_ H].
  pose proof (rate_limit_gate (HL := numbered_status_laws) (R := string) call_env
    (no_more (false, 1400 * Millisecond, None)) "/other" panicking (behind "203.0.113.9:4711" "1.2.3.4") idle) as [H' _].
  split.
  - destruct H as (w' & err & header & Hr & Hf & _); [split; [left; constructor|vm_compute; discriminate]|].
    exists w', err. exact (conj Hr Hf).
  - apply H'. intros [[Hin|Hin] _]; [|discriminate Hin].
    apply list_elem_of_singleton in Hin. discriminate Hin.
Defined.
