(* ===== verification/Validation.v ===== *)
(** * [grpcserver/validate.go]: validated requests

    protovalidate is a class: its creation, and the verdict on a message. *)

From S2P Require Export GrpcServer.

(** [validate.Violation]: the path of its field as text, its rule and its message; a
    violation without its [Proto] is [None]. *)
Record Violation := mkViolation {
  v_Field : string;
  v_RuleId : string;
  v_Message : string
}.

(** What [Validate] answers; an error that [errors.As] a [ValidationError] has its
    violations. *)
Inductive verdict : Type :=
| Valid
| Invalid (violations : list (option Violation))
| ValidateFailed (err : error).

Class Protovalidate := {
  Message : Type;
  validator_error : option error;          (** of [protovalidate.New] *)
  Validate : Message -> verdict
}.

(** [strings.Join(parts, sep)] *)
Fixpoint Join (parts : list string) (sep : string) : string :=
  match parts with
  | [] => ""
  | [part] => part
  | part :: parts => part +:+ sep +:+ Join parts sep
  end.

Section validation.
Context `{!GrpcStatus} `{!Protovalidate}.

Definition field_violation (v : Violation) : string * string :=
  (if v_Field v == "" then v_RuleId v else v_Field v, v_Message v).

(** The loop: violations without a [Proto] are passed over. *)
Definition field_violations (violations : list (option Violation)) : list (string * string) :=
  field_violation <$> omap id violations.

Definition validationStatus (err : verdict) : option error :=
  match err with
  | Invalid violations =>
      let fields := field_violations violations in
      let st := status_New codes.InvalidArgument (Join ((fun '(f, d) => f +:+ ": " +:+ d) <$> fields) "; ") in
      match WithDetails st (BadRequest fields) with
      | None => Status_Err st
      | Some withDetails => Status_Err withDetails
      end
  | _ => status_Error codes.Internal "validation failed"
  end.

(** The interceptor on a request, which may be no protobuf message. *)
Definition validate_call {R} (req : option Message) (handler : Handler R) : Handler R := fun ctx w =>
  match req with
  | None => handler ctx w
  | Some message =>
      match Validate message with
      | Valid => handler ctx w
      | err => (w, Ret (None, validationStatus err))
      end
  end.

Definition ValidationUnaryInterceptor {R} : result error (option Message -> UnaryInterceptor R) :=
  match validator_error with
  | Some err => Err (Errorf "grpcserver: create validator" err)
  | None => Ok (fun req _ handler => validate_call req handler)
  end.

Definition MustValidationUnaryInterceptor {R} : outcome (option Message -> UnaryInterceptor R) :=
  match ValidationUnaryInterceptor with
  | Err err => Panic (fmt_error err)
  | Ok interceptor => Ret interceptor
  end.
End validation.

(** ** What reaches the handler and the client *)

Section gate.
Context `{!GrpcStatus} {HL : GrpcStatusLaws} `{!Protovalidate}.

Lemma MapError_of_status err st : status_of err st -> MapError err = Ret err.
Proof. intros (e & -> & He & Hno). unfold MapError. by rewrite As_returns, Hno, He. Qed.

Lemma Join_concat parts sep : Join parts sep = String.concat sep parts.
Proof. induction parts as [|part [|next parts] IH]; [done..|]. cbn [Join String.concat] in *. by rewrite IH. Qed.

(** The field and the text a client is told of a violation. *)
Definition told (v : Violation) (field : string * string) : Prop :=
  field.2 = v_Message v /\ (v_Field v <> "" -> field.1 = v_Field v) /\ (v_Field v = "" -> field.1 = v_RuleId v).

Lemma field_violations_told violations : Forall2 told (omap id violations) (field_violations violations).
Proof.
  unfold field_violations. induction (omap id violations) as [|v vs IH]; constructor; [|done]. unfold told, field_violation. cbn.
  by case_bool_decide.
Qed.

Lemma validationStatus_invalid violations :
  exists st fields, status_of (validationStatus (Invalid violations)) st /\ Forall2 told (omap id violations) fields /\
    Status_code st = codes.InvalidArgument /\
    Status_message st = String.concat "; " ((fun field => field.1 +:+ ": " +:+ field.2) <$> fields) /\
    Status_details st =
      (if WithDetails (status_New codes.InvalidArgument (Status_message st)) (BadRequest fields) then [BadRequest fields] else []).
Proof.
  unfold validationStatus. cbn zeta. set (fields := field_violations violations).
  assert ((fun '(f, d) => f +:+ ": " +:+ d) <$> fields = (fun field => field.1 +:+ ": " +:+ field.2) <$> fields) as ->.
  { apply list_fmap_ext. by intros ? []. }
  rewrite Join_concat. set (text := String.concat _ _).
  destruct (WithDetails _ _) as [st|] eqn:Hw.
  - exists st, fields. pose proof (WithDetails_kept _ _ _ Hw) as Hst. subst st. split; [by apply Status_Err_status|].
    split_and!; [apply field_violations_told|done..|]. change (WithDetails _ _) with (WithDetails (status_New codes.InvalidArgument text) (BadRequest fields)). by rewrite Hw.
  - exists (status_New codes.InvalidArgument text), fields. split; [by apply Status_Err_status|].
    split_and!; [apply field_violations_told|done..|]. change (WithDetails _ _) with (WithDetails (status_New codes.InvalidArgument text) (BadRequest fields)). by rewrite Hw.
Qed.

(** C40. A request that breaks its rules never reaches the handler, and the client
    learns which fields are wrong: the status is [InvalidArgument], its message lists
    every violation, one by one and in order, as field and text, the field being the
    rule's name when the path is empty, and its details (unless they cannot be
    attached) are the same list; a validator that fails otherwise is [Internal] with a
    fixed text.  The error mapping in front passes both on unchanged.  Valid requests,
    and those that are no protobuf messages, are the handler's. *)
Theorem validation_gate {R} req (handler : Handler R) method ctx w :
  match option_map Validate req with
  | None | Some Valid => validate_call req handler ctx w = handler ctx w
  | Some (Invalid violations) =>
      exists err st fields,
        ErrorMappingUnaryInterceptor method (validate_call req handler) ctx w = (w, Ret (None, Some err)) /\
        FromError err = Some st /\ Status_code st = codes.InvalidArgument /\
        Forall2 told (omap id violations) fields /\
        Status_message st = String.concat "; " ((fun field => field.1 +:+ ": " +:+ field.2) <$> fields) /\
        Status_details st =
          (if WithDetails (status_New codes.InvalidArgument (Status_message st)) (BadRequest fields) then [BadRequest fields] else [])
  | Some (ValidateFailed _) =>
      exists err, ErrorMappingUnaryInterceptor method (validate_call req handler) ctx w = (w, Ret (None, Some err)) /\
        FromError err = Some (status_New codes.Internal "validation failed")
  end.
Proof.
  destruct req as [message|]; [|done]. cbn [option_map]. unfold ErrorMappingUnaryInterceptor, validate_call.
  destruct (Validate message) as [|violations|err]; [done| |].
  - destruct (validationStatus_invalid violations) as (st & fields & Hst & H1 & H2 & H3 & H4).
    pose proof (MapError_of_status _ st Hst) as Hm. destruct Hst as (e & He & Hf & _). rewrite He in *. rewrite Hm.
    exists e, st, fields. by split_and!.
  - pose proof (status_Error_status codes.Internal "validation failed") as Hst.
    specialize (Hst ltac:(done)). pose proof (MapError_of_status _ _ Hst) as Hm. cbn [validationStatus].
    destruct Hst as (e & He & Hf & _). rewrite He in *. rewrite Hm. by exists e.
Qed.
End gate.

(** ** Witness *)

(** A validator of names. *)
#[local] Instance named : Protovalidate := {
  Message := string;
  validator_error := None;
  Validate name := if name == "" then Invalid [Some (mkViolation "name" "string.min_len" "is required"); None;
                                               Some (mkViolation "" "team.full" "the team is full")] else Valid
}.

Definition unnamed : @Message named := "".

Lemma validation_gate_witness :
  exists err st (fields : list (string * string)), ErrorMappingUnaryInterceptor "/club.v1.Club/AddPlayer" (validate_call (Some unnamed) (fun _ w => (w, Panic "reached")))
      Background (GrpcServer.mkWorld false [] (mkMetrics ∅ ∅ ∅) []) = (GrpcServer.mkWorld false [] (mkMetrics ∅ ∅ ∅) [], Ret (@None unit, Some err)) /\
    FromError err = Some st /\ length fields = 2%nat.
Proof.
  destruct (validation_gate (HL := numbered_status_laws) (R := unit) (Some unnamed) (fun _ w => (w, Panic "reached")) "/club.v1.Club/AddPlayer"
    Background (GrpcServer.mkWorld false [] (mkMetrics ∅ ∅ ∅) [])) as (err & st & fields & H1 & H2 & _ & H3 & _).
  exists err, st, fields. split; [exact H1|]. split; [exact H2|]. symmetry. exact (Forall2_length _ _ _ H3).
Defined.

Example unnamed_text :
  validationStatus (Validate unnamed) = match WithDetails (status_New codes.InvalidArgument "name: is required; team.full: the team is full")
      (BadRequest [("name", "is required"); ("team.full", "the team is full")]) with
    | None => Status_Err (status_New codes.InvalidArgument "name: is required; team.full: the team is full")
    | Some st => Status_Err st
    end.
Proof. reflexivity. Qed.
