(* ===== verification/GrpcClient.v ===== *)
(** * [grpcclient]: what a service sends with its calls

    Client interceptors are functions on the call that follows; a call is a
    function of the context, whose outgoing metadata it carries, on the log.
    [received] is what the called service finds: its incoming metadata is the
    caller's outgoing metadata. *)

From S2P Require Export GrpcAuth.

(** ** Calls and interceptors *)

(** The call the interceptors end in, and the interceptors, given the method.
    [conn.Target()] is a parameter. *)
Definition Invoker : Type := StreamHandler.
Definition ClientInterceptor : Type := string -> Invoker -> Invoker.

(** The context of a server whose caller used [ctx]. *)
Definition received (ctx : Context) : Context :=
  with_incoming Background (Some (default ∅ (ctx_outgoing ctx))).

(** ** interceptors.go *)

Definition client_withRequestID (ctx : Context) : Context :=
  match requestid_FromContext ctx with
  | (_, false) => ctx
  | (id, true) =>
      match ctx_outgoing ctx with
      | Some md => if (0 <? length (md_Get md MetadataKey))%nat then ctx
                   else AppendToOutgoingContext ctx MetadataKey id
      | None => AppendToOutgoingContext ctx MetadataKey id
      end
  end.

Definition client_RequestIDUnaryInterceptor : ClientInterceptor := fun _ invoker ctx => invoker (client_withRequestID ctx).
Definition client_RequestIDStreamInterceptor : ClientInterceptor := fun _ streamer ctx => streamer (client_withRequestID ctx).

Definition client_TimeoutUnaryInterceptor (env : Env) (timeout : Z) : ClientInterceptor := fun _ invoker ctx =>
  match ctx_deadline ctx with
  | Some _ => invoker ctx
  | None => if timeout <=? 0 then invoker ctx else invoker (WithTimeout ctx (e_now env) timeout)
  end.

Section client.
Context `{!GrpcStatus} `{!Ed25519} `{!Jwt}.

Definition logCall (env : Env) (ctx : Context) (log : Logger) (method target : string) (err : option error)
  : outcome (list Line) :=
  let attrs := [slog_String "method" method; slog_String "target" target;
                slog_String "code" (Code_String (status_Code err));
                slog_Int64 "duration_ms" (Milliseconds (e_elapsed env))]
               ++ (if Get ctx != "" then [slog_String "request_id" (Get ctx)] else []) in
  match err with
  | None => Ret (LogAttrs log ctx LevelDebug "grpc client call" attrs)
  | Some e => text ← error_text e; Ret (LogAttrs log ctx LevelWarn "grpc client call failed" (attrs ++ [slog_String "error" text]))
  end.

Definition client_LoggingUnaryInterceptor (env : Env) (log : option Logger) (target : string) : ClientInterceptor :=
  fun method invoker ctx w =>
  match invoker ctx w with
  | (w, Panic v) => (w, Panic v)
  | (w, Ret err) =>
      match logCall env ctx (orDefaultLogger env log) method target err with
      | Panic v => (w, Panic v)
      | Ret lines => (write_log lines w, Ret err)
      end
  end.

Definition client_LoggingStreamInterceptor (env : Env) (log : option Logger) (target : string) : ClientInterceptor :=
  client_LoggingUnaryInterceptor env log target.

(** [fmt.Errorf]-style text of the status: the reason is printed. *)
Definition StaticTokenInterceptor (token : Context -> result error string) : ClientInterceptor := fun _ invoker ctx w =>
  match token ctx with
  | Err err => (w, Ret (status_Error codes.Unauthenticated ("get service token: " +:+ fmt_error err)))
  | Ok value => invoker (AppendToOutgoingContext ctx AuthorizationKey ("Bearer " +:+ value)) w
  end.

(** ** token.go *)

Definition WithToken (ctx : Context) (rawToken : string) : Context :=
  if rawToken == "" then ctx else WithValue ctx grpcclient_tokenContextKey (VString rawToken).

(** The token and whether there is one. *)
Definition TokenFromContext (ctx : Context) : string * bool :=
  match ctx_Value ctx grpcclient_tokenContextKey with
  | Some (VString raw) => (raw, raw != "")
  | _ => ("", false)
  end.

Definition incomingBearer (ctx : Context) : string :=
  match ctx_incoming ctx with
  | None => ""
  | Some incoming =>
      match md_Get incoming AuthorizationKey with
      | [] => ""
      | header :: _ => default "" (after_scheme header)
      end
  end.

Definition withForwardedToken (ctx : Context) : Context :=
  let has_one := match ctx_outgoing ctx with
                 | Some outgoing => (0 <? length (md_Get outgoing AuthorizationKey))%nat
                 | None => false
                 end in
  if has_one then ctx
  else
    let raw := match TokenFromContext ctx with (raw, true) => raw | (_, false) => incomingBearer ctx end in
    if raw == "" then ctx else AppendToOutgoingContext ctx AuthorizationKey ("Bearer " +:+ raw).

Definition ForwardTokenUnaryInterceptor : ClientInterceptor := fun _ invoker ctx => invoker (withForwardedToken ctx).
Definition ForwardTokenStreamInterceptor : ClientInterceptor := fun _ streamer ctx => streamer (withForwardedToken ctx).

(** ** client.go: the chain and its configuration *)

(** The unary interceptors of [New], outermost first. *)
Definition client_unary_chain (env : Env) (log : option Logger) (target : string) (DefaultTimeout : Z)
  (user : list ClientInterceptor) : list ClientInterceptor :=
  [client_RequestIDUnaryInterceptor; ForwardTokenUnaryInterceptor;
   client_TimeoutUnaryInterceptor env DefaultTimeout; client_LoggingUnaryInterceptor env log target] ++ user.

Definition client_stream_chain (env : Env) (log : option Logger) (target : string)
  (user : list ClientInterceptor) : list ClientInterceptor :=
  [client_RequestIDStreamInterceptor; ForwardTokenStreamInterceptor; client_LoggingStreamInterceptor env log target] ++ user.

(** ** service.go *)

Definition DefaultServiceTokenTTL : Z := 5 * Minute.
Definition serviceTokenRenewBefore : Z := 30 * Second.

Record ServiceTokenSource := mkSource {
  src_manager : option Manager;
  src_subject : string;
  src_ttl : Z;
  src_roles : list string;
  src_cached : string;
  src_expires : Z
}.

Definition NewServiceTokenSource (manager : option Manager) (subject : string) (ttl : Z) : ServiceTokenSource :=
  mkSource manager subject (if ttl <=? 0 then DefaultServiceTokenTTL else ttl) [RoleService] "" 0.

(** [Token], which holds the mutex throughout; a nil source is [None]. *)
Definition SourceToken (now : Z) (s : option ServiceTokenSource)
  : option ServiceTokenSource * result error string :=
  match s with
  | None => (None, Err (errors_New "grpcclient: service token source is not configured"))
  | Some src =>
      match src_manager src with
      | None => (s, Err (errors_New "grpcclient: service token source is not configured"))
      | Some manager =>
          if (src_cached src != "") && (now <? src_expires src - serviceTokenRenewBefore) then (s, Ok (src_cached src))
          else match IssueAccess manager now (src_subject src) (mkIssueOptions "" (src_roles src) (src_ttl src) "") with
               | Err err => (s, Err (Errorf "grpcclient: issue service token" err))
               | Ok (raw, claims) =>
                   (Some (mkSource (src_manager src) (src_subject src) (src_ttl src) (src_roles src)
                            raw (default 0 (ExpiresAt claims))), Ok raw)
               end
      end
  end.

(** The interceptor over the state of its source; the token replaces any other. *)
Definition ServiceTokenUnaryInterceptor (env : Env) (source : option ServiceTokenSource) (invoker : Invoker)
  : Context -> World -> option ServiceTokenSource * (World * outcome (option error)) := fun ctx w =>
  match SourceToken (e_now env) source with
  | (source, Err err) => (source, (w, Ret (Some err)))
  | (source, Ok raw) =>
      let outgoing := default ∅ (ctx_outgoing ctx) in
      (source, invoker (with_outgoing ctx (Some (<[AuthorizationKey := ["Bearer " +:+ raw]]> outgoing))) w)
  end.
End client.

(** ** The bearer round trip *)

Lemma after_scheme_bearer raw : Forall visible (bytes raw) -> after_scheme ("Bearer " +:+ raw) = Some raw.
Proof.
  intros Hv. unfold after_scheme. rewrite bytes_app.
  replace (length (bytes bearerPrefix)) with (length (bytes "Bearer ")) by reflexivity.
  rewrite take_app_length, drop_app_length, length_app.
  rewrite (proj2 (Nat.ltb_ge _ _)) by lia.
  replace (EqualFold (bytes "Bearer ") (bytes bearerPrefix)) with true by reflexivity.
  cbn [orb negb]. rewrite of_bytes_bytes. by rewrite TrimSpace_visible.
Qed.

Section calls.
Context `{!GrpcStatus} {HL : GrpcStatusLaws} `{!Ed25519} `{!Jwt} {HJ : JwtLaws}.

(** The caller sends [raw] as its first bearer token. *)
Definition sends_bearer (ctx : Context) (raw : string) : Prop :=
  exists md rest, ctx_outgoing ctx = Some md /\ md !! AuthorizationKey = Some (("Bearer " +:+ raw) :: rest).

Lemma BearerToken_received ctx raw :
  sends_bearer ctx raw -> raw <> "" -> Forall visible (bytes raw) -> BearerToken (received ctx) = (raw, None).
Proof.
  intros (md & rest & Ho & Hmd) Hne Hv. unfold BearerToken, received. cbn. rewrite Ho. cbn.
  unfold metadataValue, md_Get. rewrite Hmd. cbn [from_option Datatypes.id].
  rewrite bool_decide_eq_false_2 by done. rewrite after_scheme_bearer by done. by rewrite bool_decide_eq_false_2.
Qed.

Lemma AppendToOutgoingContext_md ctx key value k :
  default ∅ (ctx_outgoing (AppendToOutgoingContext ctx key value)) !! k =
  if decide (k = key) then Some (md_Get (default ∅ (ctx_outgoing ctx)) key ++ [value])
  else default ∅ (ctx_outgoing ctx) !! k.
Proof.
  cbn. case_decide; [subst; by rewrite lookup_insert_eq|by rewrite lookup_insert_ne].
Qed.

(** What the server read of its caller is what the client forwards. *)
Lemma incomingBearer_token ctx raw : BearerToken ctx = (raw, None) -> incomingBearer ctx = raw /\ raw <> "".
Proof.
  unfold BearerToken, incomingBearer, missing_credentials, metadataValue.
  assert (forall c m, c <> codes.OK -> status_Error c m <> None) as Hst.
  { intros c m Hc Heq. destruct (status_Error_status c m Hc) as (e & He & _). congruence. }
  destruct (ctx_incoming ctx) as [md|]; [|by intros [= _ []%Hst]].
  destruct (md_Get md AuthorizationKey) as [|header rest]; [by intros [= _ []%Hst]|].
  case_bool_decide; [by intros [= _ []%Hst]|].
  destruct (after_scheme header) as [r|]; [|by intros [= _ []%Hst]].
  case_bool_decide; [by intros [= _ []%Hst]|]. by intros [= ->].
Qed.

(** No token of its own in the outgoing metadata or the context. *)
Definition forwards (ctx : Context) : Prop :=
  md_Get (default ∅ (ctx_outgoing ctx)) AuthorizationKey = [] /\ (TokenFromContext ctx).2 = false.

Lemma withForwardedToken_sends ctx raw :
  BearerToken ctx = (raw, None) -> forwards ctx ->
  withForwardedToken ctx = AppendToOutgoingContext ctx AuthorizationKey ("Bearer " +:+ raw).
Proof.
  intros Hb [Hout Htok]. apply incomingBearer_token in Hb as [Hb Hne].
  unfold withForwardedToken.
  replace (match ctx_outgoing ctx with Some o => (0 <? length (md_Get o AuthorizationKey))%nat | None => false end) with false
    by (destruct (ctx_outgoing ctx); [cbn in Hout; by rewrite Hout|done]).
  destruct (TokenFromContext ctx) as [r b]. cbn in Htok. subst b. rewrite Hb. by rewrite bool_decide_eq_false_2.
Qed.

(** The context a call of [New]'s client is made with. *)
Definition sent_context (env : Env) (timeout : Z) (ctx : Context) : Context :=
  let ctx := withForwardedToken (client_withRequestID ctx) in
  match ctx_deadline ctx with
  | Some _ => ctx
  | None => if timeout <=? 0 then ctx else WithTimeout ctx (e_now env) timeout
  end.

Lemma client_withRequestID_spec ctx :
  ctx_incoming (client_withRequestID ctx) = ctx_incoming ctx /\
  ctx_values (client_withRequestID ctx) = ctx_values ctx /\
  ctx_deadline (client_withRequestID ctx) = ctx_deadline ctx /\
  (forall k, k <> MetadataKey -> default ∅ (ctx_outgoing (client_withRequestID ctx)) !! k = default ∅ (ctx_outgoing ctx) !! k) /\
  (Get ctx <> "" -> md_Get (default ∅ (ctx_outgoing ctx)) MetadataKey = [] ->
   default ∅ (ctx_outgoing (client_withRequestID ctx)) !! MetadataKey = Some [Get ctx]).
Proof.
  unfold client_withRequestID, Get. destruct (requestid_FromContext ctx) as [id has] eqn:Hid. cbn [fst].
  assert (has = true \/ has = false /\ id = "") as Hhas.
  { unfold requestid_FromContext in Hid. repeat case_match; simplify_eq; try (by right).
    case_bool_decide; [by right|by left]. }
  destruct Hhas as [->|[-> ->]]; [|by split_and!].
  assert (forall k, default ∅ (ctx_outgoing (AppendToOutgoingContext ctx MetadataKey id)) !! k =
    if decide (k = MetadataKey) then Some (md_Get (default ∅ (ctx_outgoing ctx)) MetadataKey ++ [id])
    else default ∅ (ctx_outgoing ctx) !! k) as Happ by (intros; apply AppendToOutgoingContext_md).
  destruct (ctx_outgoing ctx) as [md|] eqn:Ho; cbn [from_option Datatypes.id] in *.
  - destruct (0 <? length (md_Get md MetadataKey))%nat eqn:Hl.
    + split_and!; try done; [by rewrite Ho|]. intros _ Hnil. rewrite Hnil in Hl. done.
    + split_and!; try done.
      * intros k Hk. rewrite Happ. by rewrite decide_False.
      * intros _ Hnil. rewrite Happ, Hnil. by rewrite decide_True.
  - split_and!; try done; intros k Hk; rewrite Happ; by rewrite decide_False.
Qed.

(** C22. A caller's identity crosses the services: a handler that calls another
    service through the client's chain, with no authorization or request id of
    its own in the outgoing metadata, makes the call with a context from which the
    other server reads the same bearer token and the same request id as the
    handler's server did, and with a deadline whenever a default is configured. *)
Theorem identity_propagates env log target timeout method invoker ctx w raw
  (Htoken : BearerToken ctx = (raw, None)) (Hvisible : Forall visible (bytes raw))
  (Hforward : forwards ctx)
  (Hid : Get ctx <> "") (Hfresh : md_Get (default ∅ (ctx_outgoing ctx)) MetadataKey = []) :
  let sent := sent_context env timeout ctx in
  chain (client_unary_chain env log target timeout []) method invoker ctx w =
    client_LoggingUnaryInterceptor env log target method invoker sent w /\
  BearerToken (received sent) = (raw, None) /\
  (forall env', (withRequestID env' (received sent)).2 = Get ctx) /\
  (0 < timeout -> is_Some (ctx_deadline sent)).
Proof.
  intros sent. split.
  { unfold sent, sent_context, chain, client_unary_chain. cbn [foldr app].
    unfold client_RequestIDUnaryInterceptor, ForwardTokenUnaryInterceptor, client_TimeoutUnaryInterceptor.
    destruct (ctx_deadline _); [done|]. by destruct (timeout <=? 0). }
  destruct (client_withRequestID_spec ctx) as (Hin & Hval & Hdl & Hother & Hreq). specialize (Hreq Hid Hfresh).
  set (ctx1 := client_withRequestID ctx) in *.
  assert (BearerToken ctx1 = (raw, None)) as Hb1 by (unfold BearerToken; by rewrite Hin).
  assert (forwards ctx1) as Hf1.
  { destruct Hforward as [Hf1 Hf2]. split; [unfold md_Get; by rewrite Hother|].
    unfold TokenFromContext, ctx_Value. by rewrite Hval. }
  pose proof (withForwardedToken_sends ctx1 raw Hb1 Hf1) as Hs.
  assert (ctx_outgoing sent = ctx_outgoing (withForwardedToken ctx1)) as Hout.
  { unfold sent, sent_context. fold ctx1. cbn zeta. repeat case_match; reflexivity. }
  apply incomingBearer_token in Htoken as [_ Hne]. split_and!.
  - apply BearerToken_received; [|done|done]. unfold sends_bearer. rewrite Hout, Hs.
    destruct Hf1 as [Hf1 _]. eexists _, []. split; [reflexivity|]. rewrite lookup_insert_eq, Hf1. done.
  - intros env'. unfold withRequestID, received. cbn [ctx_incoming with_incoming snd].
    rewrite Hout, Hs. unfold metadataValue.
    assert (md_Get (default ∅ (ctx_outgoing (AppendToOutgoingContext ctx1 AuthorizationKey ("Bearer " +:+ raw))))
      MetadataKey = [Get ctx]) as ->.
    { unfold md_Get. rewrite AppendToOutgoingContext_md. rewrite decide_False by discriminate. by rewrite Hreq. }
    by rewrite bool_decide_eq_false_2.
  - intros Ht. unfold sent, sent_context. fold ctx1. cbn zeta.
    destruct (ctx_deadline (withForwardedToken ctx1)) eqn:Hd; [by rewrite Hd|].
    rewrite (proj2 (Z.leb_gt _ _)) by lia. by eexists.
Qed.

(** A service token added by [StaticTokenInterceptor] does not reach the
    server when the caller's own token is forwarded: the client's chain forwards
    first, the interceptor appends a second value, and the server reads the
    first; it authenticates the end user. *)
Theorem static_token_is_shadowed ctx raw service_token
  (Htoken : BearerToken ctx = (raw, None)) (Hvisible : Forall visible (bytes raw)) (Hforward : forwards ctx) :
  let token := fun _ : Context => Ok service_token in
  forall method invoker w, exists sent,
    chain [ForwardTokenUnaryInterceptor; StaticTokenInterceptor token] method invoker ctx w = invoker sent w /\
    md_Get (default ∅ (ctx_outgoing sent)) AuthorizationKey = ["Bearer " +:+ raw; "Bearer " +:+ service_token] /\
    BearerToken (received sent) = (raw, None).
Proof.
  intros token method invoker w. unfold chain, ForwardTokenUnaryInterceptor, StaticTokenInterceptor, token. cbn [foldr].
  rewrite (withForwardedToken_sends ctx raw) by done. eexists. split; [reflexivity|].
  apply incomingBearer_token in Htoken as [_ Hne]. destruct Hforward as [Hf _].
  assert (md_Get (default ∅ (ctx_outgoing (AppendToOutgoingContext
    (AppendToOutgoingContext ctx AuthorizationKey ("Bearer " +:+ raw)) AuthorizationKey ("Bearer " +:+ service_token))))
    AuthorizationKey = ["Bearer " +:+ raw; "Bearer " +:+ service_token]) as Hmd.
  { unfold md_Get at 1. rewrite AppendToOutgoingContext_md, decide_True by done. cbn [from_option Datatypes.id].
    unfold md_Get at 1. rewrite AppendToOutgoingContext_md, decide_True by done. by rewrite Hf. }
  split; [done|]. apply BearerToken_received; [|done|done]. eexists _, [_]. split; [reflexivity|].
  unfold md_Get in Hmd. cbn [ctx_outgoing AppendToOutgoingContext with_outgoing default from_option] in Hmd.
  destruct (_ !! AuthorizationKey) eqn:Hl in Hmd; [|done]. cbn in Hmd. subst. exact Hl.
Qed.
End calls.

(** ** Service tokens *)

Section service.
Context `{!GrpcStatus} {HL : GrpcStatusLaws} `{!Ed25519} `{!Jwt} {HJ : JwtLaws}.

(** A verifying manager accepts what the issuing one signs. *)
Record trusts (cfg1 cfg2 : Token.Config) (m1 m2 : Manager) : Prop := {
  issuer_new : NewManager cfg1 = Ok m1;
  verifier_new : NewManager cfg2 = Ok m2;
  shared_keys : exists ks kv, m_sign m1 = Some ks /\ m_verify m2 = Some kv /\ key_pair (m_method m1) ks kv;
  same_method : m_method m1 = m_method m2;
  same_issuer : cfg_Issuer (m_cfg m1) = cfg_Issuer (m_cfg m2);
  audiences_named a : a ∈ cfg_Audience (m_cfg m2) -> a ∈ cfg_Audience (m_cfg m1);
  leeway_positive : 0 <= Leeway (m_cfg m2)
}.

Definition service_options (ttl : Z) : IssueOptions := mkIssueOptions "" [RoleService] ttl "".

(** A source for [subject], whose cached token, if any, was issued by [now]. *)
Definition source_ok (m : Manager) (subject : string) (ttl now : Z) (s : ServiceTokenSource) : Prop :=
  src_manager s = Some m /\ src_subject s = subject /\ src_ttl s = ttl /\ src_roles s = [RoleService] /\
  (src_cached s = "" \/
   exists t0 c, IssueAccess m t0 subject (service_options ttl) = Ok (src_cached s, c) /\
     src_expires s = NewNumericDate (t0 + ttl) /\ t0 <= now).

Lemma source_ok_later m subject ttl now now' s :
  now <= now' -> source_ok m subject ttl now s -> source_ok m subject ttl now' s.
Proof.
  intros Hle (? & ? & ? & ? & Hc). split_and!; try done.
  destruct Hc as [|(t0 & c & ? & ? & ?)]; [by left|right]. exists t0, c. split_and!; try done. lia.
Qed.

Lemma IssueAccess_expiry m now subject ttl raw c :
  ttl <> 0 -> IssueAccess m now subject (service_options ttl) = Ok (raw, c) ->
  ExpiresAt c = Some (NewNumericDate (now + ttl)).
Proof.
  intros Ht Hi. apply Issue_ok in Hi as (sign & _ & _ & _ & _ & ->). unfold lifetime. cbn.
  by rewrite (proj2 (Z.eqb_neq _ _)).
Qed.

(** A call keeps the source in order, and a token it answers was issued now or
    has more than the renewal margin left. *)
Lemma SourceToken_ok m subject ttl now s s' res :
  ttl <> 0 -> source_ok m subject ttl now s -> SourceToken now (Some s) = (s', res) ->
  exists s1, s' = Some s1 /\ source_ok m subject ttl now s1 /\
    forall raw, res = Ok raw -> exists t0 c, IssueAccess m t0 subject (service_options ttl) = Ok (raw, c) /\ t0 <= now /\
      (t0 = now \/ now < NewNumericDate (t0 + ttl) - serviceTokenRenewBefore).
Proof.
  intros Ht Hok. pose proof Hok as (Hm & Hsub & Httl & Hroles & Hc). unfold SourceToken.
  rewrite Hm, Hsub, Httl, Hroles. fold (service_options ttl).
  destruct ((src_cached s != "") && _) eqn:Hcache.
  - intros [= <- <-]. exists s. split_and!; [done..|]. intros raw [= <-]. go_bool.
    destruct Hc as [|(t0 & c & Hi & He & Hle)]; [done|]. exists t0, c. split_and!; [done..|]. right. by rewrite <- He.
  - destruct (IssueAccess m now subject (service_options ttl)) as [[raw c]|e] eqn:Hi; intros [= <- <-].
    + pose proof (IssueAccess_expiry _ _ _ _ _ _ Ht Hi) as He. rewrite He. eexists. split; [done|]. split.
      * split_and!; try done. right. exists now, c. split_and!; try done.
      * intros raw' [= <-]. exists now, c. split_and!; auto. lia.
    + exists s. by split_and!.
Qed.

Lemma NewNumericDate_bounds t : t - Second < NewNumericDate t <= t.
Proof.
  unfold NewNumericDate, Second. pose proof (Z.div_mod t 1000000000). pose proof (Z.mod_pos_bound t 1000000000). lia.
Qed.

(** Such a token is accepted for at least 29 seconds more. *)
Lemma service_token_parses cfg1 cfg2 m1 m2 subject ttl now now' raw t0 c :
  trusts cfg1 cfg2 m1 m2 -> issue_texts m1 subject TypeAccess (service_options ttl) -> 30 * Second <= ttl ->
  IssueAccess m1 t0 subject (service_options ttl) = Ok (raw, c) -> t0 <= now ->
  t0 = now \/ now < NewNumericDate (t0 + ttl) - serviceTokenRenewBefore ->
  now <= now' <= now + 29 * Second ->
  Parse m2 now' raw TypeAccess = Ok c /\ Subject c = subject /\ Roles c = [RoleService].
Proof.
  intros Htr Htexts Httl Hi Hle Hfresh Hnow.
  destruct (shared_keys _ _ _ _ Htr) as (ks & kv & Hks & Hkv & Hpair).
  pose proof (NewNumericDate_bounds t0). pose proof (NewNumericDate_bounds (t0 + ttl)).
  pose proof (leeway_positive _ _ _ _ Htr). unfold serviceTokenRenewBefore in *.
  assert (lifetime m1 (service_options ttl) = ttl) as Hlife.
  { unfold lifetime. cbn. unfold Second in *. by rewrite (proj2 (Z.eqb_neq _ _)) by lia. }
  assert (0 < Second) by done. split.
  - eapply (issued_parses cfg1 cfg2 m1 m2); try done; try apply Htr; [lia| |by right]. rewrite Hlife. lia.
  - apply Issue_ok in Hi as (sign & _ & _ & _ & _ & ->). done.
Qed.

(** The answers of a source to calls at the given times. *)
Fixpoint source_run (times : list Z) (s : option ServiceTokenSource) : list (Z * result error string) :=
  match times with
  | [] => []
  | t :: times => let '(s, r) := SourceToken t s in (t, r) :: source_run times s
  end.

Lemma source_run_ok m subject ttl times now s :
  ttl <> 0 -> StronglySorted Z.le (now :: times) -> source_ok m subject ttl now s ->
  forall t raw, (t, Ok raw) ∈ source_run times (Some s) ->
    exists t0 c, IssueAccess m t0 subject (service_options ttl) = Ok (raw, c) /\ t0 <= t /\
      (t0 = t \/ t < NewNumericDate (t0 + ttl) - serviceTokenRenewBefore).
Proof.
  intros Ht. revert now s. induction times as [|t times IH]; intros now s Hs Hok t' raw Hin; cbn [source_run] in Hin;
    [by apply elem_of_nil in Hin|].
  apply StronglySorted_inv in Hs as [Hs Hle]. apply Forall_cons in Hle as [Hle _].
  destruct (SourceToken t (Some s)) as [s' r] eqn:Hcall.
  destruct (SourceToken_ok m subject ttl t s s' r Ht) as (s1 & -> & Hok1 & Hres); [by eapply source_ok_later|done|].
  apply elem_of_cons in Hin as [[= -> <-]|Hin]; [by apply Hres|]. by eapply IH.
Qed.

(** C23. A service always has a valid token of its own, when its tokens live for at least
    30 seconds, as the default of five minutes does: whatever the times of the calls of
    one source, every token it answers - freshly signed or from the cache - is accepted
    by a trusting manager at that time and for 29 seconds more, as an access token of
    the service with the role [service].  (Of the renewal margin of 30 seconds one goes
    to the expiry, which is truncated to the second.) *)
Theorem service_tokens_are_valid cfg1 cfg2 m1 m2 subject ttl0 times t raw now'
  (Htrust : trusts cfg1 cfg2 m1 m2)
  (Httl : ttl0 <= 0 \/ 30 * Second <= ttl0)
  (Htexts : issue_texts m1 subject TypeAccess (service_options ttl0))
  (Htimes : StronglySorted Z.le times)
  (Hanswer : (t, Ok raw) ∈ source_run times (Some (NewServiceTokenSource (Some m1) subject ttl0)))
  (Hnow : t <= now' <= t + 29 * Second) :
  exists c, Parse m2 now' raw TypeAccess = Ok c /\ Subject c = subject /\ HasRole (Some c) RoleService = true.
Proof.
  set (ttl := if ttl0 <=? 0 then DefaultServiceTokenTTL else ttl0).
  assert (30 * Second <= ttl) as Hlong.
  { unfold ttl, DefaultServiceTokenTTL, Minute, Second in *. go_cases; lia. }
  destruct times as [|t1 times]; [by apply elem_of_nil in Hanswer|].
  destruct (source_run_ok m1 subject ttl (t1 :: times) t1 (NewServiceTokenSource (Some m1) subject ttl0)
    ltac:(unfold Second in *; lia)) with (t := t) (raw := raw) as (t0 & c & Hi & Hle & Hfresh); [| |done|].
  - constructor; [done|]. apply StronglySorted_inv in Htimes as [_ Hall]. by constructor.
  - split_and!; try done. by left.
  - destruct (service_token_parses cfg1 cfg2 m1 m2 subject ttl t now' raw t0 c) as (Hp & Hsub & Hroles);
      [done|done|done|done|done|done|done|].
    exists c. split_and!; [done..|]. cbn. by rewrite Hroles.
Qed.

(** C32. From one service to another: a call through [ServiceTokenUnaryInterceptor]
    of a source in use is admitted by [InternalAuthUnaryInterceptor] of a trusting
    server within 29 seconds, whatever token the caller's context carried, and the
    handler finds the calling service in its claims. *)
Theorem service_call_is_admitted {R} cfg1 cfg2 m1 m2 subject ttl env env' s s' raw ctx w w' methods method
  (invoker : Invoker) (handler : Handler R)
  (Htrust : trusts cfg1 cfg2 m1 m2) (Httl : 30 * Second <= ttl)
  (Htexts : issue_texts m1 subject TypeAccess (service_options ttl))
  (Hsource : source_ok m1 subject ttl (e_now env) s)
  (Htoken : SourceToken (e_now env) (Some s) = (s', Ok raw))
  (Hnow : e_now env <= e_now env' <= e_now env + 29 * Second)
  (Hmethod : method ∈ methods) :
  exists sent, ServiceTokenUnaryInterceptor env (Some s) invoker ctx w = (s', invoker sent w) /\
    exists ctx' claims,
      InternalAuthUnaryInterceptor env' (mkInternalAuthConfig (Some m2) methods "") method handler (received sent) w' =
        handler ctx' w' /\
      FromContext ctx' = Some claims /\ Subject claims = subject.
Proof.
  unfold ServiceTokenUnaryInterceptor. rewrite Htoken. eexists. split; [reflexivity|]. set (sent := with_outgoing _ _).
  destruct (SourceToken_ok m1 subject ttl (e_now env) s s' (Ok raw)) as (s1 & _ & _ & Hres);
    [unfold Second in *; lia|done|done|].
  destruct (Hres raw eq_refl) as (t0 & c & Hi & Hle & Hfresh).
  destruct (service_token_parses cfg1 cfg2 m1 m2 subject ttl (e_now env) (e_now env') raw t0 c) as (Hp & Hsub & Hroles);
    [done..|].
  assert (BearerToken (received sent) = (raw, None)) as Hb.
  { apply Issue_ok in Hi as (sign & _ & Hsign & _). apply signed_compact in Hsign as [Hne Hv].
    apply BearerToken_received; [|done|done]. eexists _, []. split; [reflexivity|]. apply lookup_insert_eq. }
  unfold InternalAuthUnaryInterceptor, toSet. cbn [int_Manager int_Methods int_Role].
  rewrite bool_decide_eq_true_2 by by rewrite elem_of_list_to_set. cbn [negb]. rewrite Hb.
  unfold ParseAccess. rewrite Hp.
  assert (HasRole (Some c) RoleService = true) as Hrole by (cbn; by rewrite Hroles).
  change (if "" == "" then RoleService else "") with RoleService. rewrite Hrole. cbn [negb].
  eexists _, c. split; [reflexivity|]. split; [apply FromContext_NewContext|done].
Qed.
End service.

(** ** A service calling another *)

(** The handler's context: the admin's token and a request id. *)
Definition handler_context : Context := Attrs (requestid_NewContext admin_call "req-1") [slog_String "request_id" "req-1"].
Definition nothing : Invoker := fun _ w => (w, Ret None).

Lemma visibleb l : forallb (fun b => (33 <=? b) && (b <? 127)) l = true -> Forall visible l.
Proof.
  intros Hl. apply Forall_forall. intros b Hb. rewrite forallb_forall in Hl.
  apply list_elem_of_In, Hl in Hb. unfold visible. go_bool. lia.
Qed.

Lemma admin_visible : Forall visible (bytes admin_token.1).
Proof. apply visibleb. vm_compute. reflexivity. Qed.

Lemma handler_token : BearerToken handler_context = (admin_token.1, None).
Proof. vm_compute. reflexivity. Qed.

Lemma handler_forwards : forwards handler_context.
Proof. vm_compute. done. Qed.

Example identity_propagates_witness :
  let sent := sent_context call_env (5 * Second) handler_context in
  BearerToken (received sent) = (admin_token.1, None) /\ (withRequestID call_env (received sent)).2 = "req-1".
Proof.
  destruct (identity_propagates (HL := numbered_status_laws) call_env None "users" (5 * Second) profile nothing handler_context
    idle admin_token.1 handler_token admin_visible handler_forwards) as (_ & Hb & Hid & _).
  - vm_compute. discriminate.
  - reflexivity.
  - split; [exact Hb|]. rewrite (Hid call_env). reflexivity.
Defined.

Example static_token_is_shadowed_witness :
  exists sent, chain [ForwardTokenUnaryInterceptor; StaticTokenInterceptor (fun _ => Ok "svc")] profile nothing handler_context idle
      = nothing sent idle /\ BearerToken (received sent) = (admin_token.1, None).
Proof.
  destruct (static_token_is_shadowed (HL := numbered_status_laws) handler_context admin_token.1 "svc" handler_token admin_visible
    handler_forwards profile nothing idle) as (sent & Hs & _ & Hb).
  exists sent. split; [exact Hs|exact Hb].
Defined.

Lemma hs_trusts : trusts hs_config hs_config hs_manager hs_manager.
Proof.
  split; try apply hs_manager_new; try done.
  - exists (Secret secret32), (Secret secret32). split_and!; try done. constructor.
Qed.

Lemma hs_texts ttl : issue_texts hs_manager "outbox" TypeAccess (service_options ttl).
Proof. unfold issue_texts. split_and!; try done; by repeat constructor. Qed.

Definition outbox_source : ServiceTokenSource := NewServiceTokenSource (Some hs_manager) "outbox" 0.
Definition call_times : list Z := [noon; noon + Minute; noon + 5 * Minute].
Definition source_token (t : Z) : string := match (SourceToken t (Some outbox_source)).2 with Ok raw => raw | Err _ => "" end.

(** The second call is answered from the cache, the third signs again. *)
Example service_tokens_are_valid_witness :
  exists c, Parse hs_manager (noon + Minute) (source_token noon) TypeAccess = Ok c /\ Subject c = "outbox" /\
    HasRole (Some c) RoleService = true.
Proof.
  apply (service_tokens_are_valid (HJ := toy_jwt_laws) hs_config hs_config hs_manager hs_manager "outbox" 0 call_times
    (noon + Minute) (source_token noon) (noon + Minute)).
  - apply hs_trusts.
  - by left.
  - apply hs_texts.
  - unfold call_times, Minute, Second. repeat constructor; lia.
  - vm_compute. right. left.
  - unfold Second. lia.
Defined.

Example service_call_is_admitted_witness :
  exists sent, (ServiceTokenUnaryInterceptor (mkEnv plain_logger "" 0 "" noon) (Some (mkSource (Some hs_manager) "outbox" (5 * Minute) [RoleService] "" 0))
     nothing handler_context idle).2 = nothing sent idle /\
  exists ctx' claims, InternalAuthUnaryInterceptor (mkEnv plain_logger "" 0 "" (noon + Second)) (mkInternalAuthConfig (Some hs_manager) [profile] "")
     profile whoami (received sent) idle = whoami ctx' idle /\ FromContext ctx' = Some claims /\ Subject claims = "outbox".
Proof.
  destruct (service_call_is_admitted (HJ := toy_jwt_laws) hs_config hs_config hs_manager hs_manager "outbox"
    (5 * Minute) (mkEnv plain_logger "" 0 "" noon) (mkEnv plain_logger "" 0 "" (noon + Second))
    (mkSource (Some hs_manager) "outbox" (5 * Minute) [RoleService] "" 0)
    (SourceToken noon (Some (mkSource (Some hs_manager) "outbox" (5 * Minute) [RoleService] "" 0))).1 (source_token noon)
    handler_context idle idle [profile] profile nothing whoami) as (sent & Hs & ctx' & claims & Hr & Hc & Hsub).
  - apply hs_trusts.
  - unfold Minute, Second. lia.
  - apply hs_texts.
  - split_and!; try done. by left.
  - vm_compute. reflexivity.
  - unfold Second. cbn. lia.
  - by left.
  - exists sent. split; [by rewrite Hs|]. exists ctx', claims. split; [exact Hr|]. split; [exact Hc|exact Hsub].
Defined.
