(* ===== verification/GrpcDial.v ===== *)
(** * [grpcclient/client.go]: making a client

    Configuration, transport security, the options of the connection and the wait
    for it.  [grpc.NewClient] is a parameter, and so are the states a connection
    goes through and their instants. *)

From S2P Require Export GrpcClient Io.

(** Written with single quotes for the double ones. *)
Definition requote (s : string) : string := of_bytes ((fun c => if c =? 39 then 34 else c) <$> bytes s).

Definition defaultServiceConfig : string := requote "{
	'loadBalancingConfig': [{'round_robin': {}}],
	'methodConfig': [{
		'name': [{}],
		'retryPolicy': {
			'maxAttempts': 4,
			'initialBackoff': '0.1s',
			'maxBackoff': '2s',
			'backoffMultiplier': 2.0,
			'retryableStatusCodes': ['UNAVAILABLE', 'RESOURCE_EXHAUSTED']
		}
	}]
}".

(** [grpc.DialOption], as far as the source makes them; [UserOption] are those of
    the configuration. *)
Inductive DialOption (user : Type) : Type :=
| TransportTLS
| TransportInsecure
| MaxCallRecvMsgSize (n : Z)
| MaxCallSendMsgSize (n : Z)
| KeepaliveParams (time timeout : Z) (permitWithoutStream : bool)
| DefaultServiceConfig (text : string)
| StatsHandler
| ChainUnaryInterceptor (chain : Env -> list ClientInterceptor)
| ChainStreamInterceptor (chain : Env -> list ClientInterceptor)
| UserOption (option : user).
Arguments TransportTLS {user}. Arguments TransportInsecure {user}. Arguments MaxCallRecvMsgSize {user}.
Arguments MaxCallSendMsgSize {user}. Arguments KeepaliveParams {user}. Arguments DefaultServiceConfig {user}.
Arguments StatsHandler {user}. Arguments ChainUnaryInterceptor {user}. Arguments ChainStreamInterceptor {user}.
Arguments UserOption {user}.

Inductive ConnState : Type := Idle | Connecting | Ready | TransientFailure | Shutdown.

#[global] Instance ConnState_eq_dec : EqDecision ConnState.
Proof. solve_decision. Defined.

Class GrpcConn := {
  user_option : Type;
  NewClient_error : string -> list (DialOption user_option) -> option error;
  Close_error : option error
}.

Section dial.
Context `{!GrpcStatus} `{!GrpcConn} (default : Logger).

Record Config := mkConfig {
  Target : string;
  cli_Logger : option Logger;
  TLS : bool;
  RequireTLS : bool;
  EnableTracing : bool;
  DisableRetries : bool;
  DefaultTimeout : Z;
  ConnectTimeout : Z;
  WaitForConnection : bool;
  MaxRecvMsgSize : Z;
  MaxSendMsgSize : Z;
  ServiceConfig : string;
  DialOptions : list user_option;
  UnaryInterceptors : list ClientInterceptor;
  StreamInterceptors : list ClientInterceptor
}.

Definition client_logger (c : Config) : Logger := match cli_Logger c with Some log => log | None => default end.

Definition withDefaults (c : Config) : Config :=
  mkConfig (Target c) (Some (client_logger c)) (TLS c) (RequireTLS c) (EnableTracing c) (DisableRetries c)
    (or_zero (DefaultTimeout c) (5 * Second)) (or_zero (ConnectTimeout c) (5 * Second)) (WaitForConnection c)
    (or_zero (MaxRecvMsgSize c) (4 * 1024 * 1024)) (or_zero (MaxSendMsgSize c) (4 * 1024 * 1024)) (ServiceConfig c)
    (DialOptions c) (UnaryInterceptors c) (StreamInterceptors c).

Definition transportCredentials (c : Config) : result error (DialOption user_option) :=
  if TLS c then Ok TransportTLS
  else if RequireTLS c then Err (errors_New "grpcclient: RequireTLS is set but TLS config is missing")
  else Ok TransportInsecure.

(** The options of [New], in order. *)
Definition dial_options (cfg : Config) (transport : DialOption user_option) : list (DialOption user_option) :=
  [transport; MaxCallRecvMsgSize (MaxRecvMsgSize cfg); MaxCallSendMsgSize (MaxSendMsgSize cfg);
   KeepaliveParams (30 * Second) (10 * Second) true]
  ++ (if DisableRetries cfg then []
      else [DefaultServiceConfig (if ServiceConfig cfg == "" then defaultServiceConfig else ServiceConfig cfg)])
  ++ (if EnableTracing cfg then [StatsHandler] else [])
  ++ [ChainUnaryInterceptor (fun env => client_unary_chain env (cli_Logger cfg) (Target cfg) (DefaultTimeout cfg) (UnaryInterceptors cfg));
      ChainStreamInterceptor (fun env => client_stream_chain env (cli_Logger cfg) (Target cfg) (StreamInterceptors cfg))]
  ++ (UserOption <$> DialOptions cfg).

(** What a call of [New] meets: the clock, when and with what error its context ends,
    the state the connection is first seen in, and the states it changes to, each with
    its instant. *)
Record Dial := mkDial {
  dial_now : Z;
  dial_ends : option (Z * error);
  dial_state : ConnState;
  dial_changes : list (Z * ConnState)
}.

(** [context.WithTimeout(ctx, timeout)]: when it ends, and with what. *)
Definition connect_ends (d : Dial) (timeout : Z) : Z * error :=
  match dial_ends d with
  | Some (t, err) => if t <=? dial_now d + timeout then (t, err) else (dial_now d + timeout, DeadlineExceeded)
  | None => (dial_now d + timeout, DeadlineExceeded)
  end.

(** The loop; [WaitForStateChange] answers false when the context ends before the next
    change. *)
Fixpoint wait_loop (ends : Z * error) (state : ConnState) (changes : list (Z * ConnState)) : option error :=
  match state with
  | Ready => None
  | Shutdown => Some (errors_New "grpcclient: connection is shut down")
  | _ =>
      match changes with
      | (t, state) :: changes => if t <? ends.1 then wait_loop ends state changes else Some ends.2
      | [] => Some ends.2
      end
  end.

Definition waitForConnection (d : Dial) (timeout : Z) : option error :=
  wait_loop (connect_ends d timeout) (dial_state d) (dial_changes d).

Definition New (d : Dial) (cfg : Config) : io nat :=
  let cfg := withDefaults cfg in
  let log := client_logger cfg in
  if Target cfg == "" then fail (errors_New "grpcclient: target is required")
  else
    transport ← of_result (transportCredentials cfg);
    _ ← check (NewClient_error (Target cfg) (dial_options cfg transport));
    conn ← open_handle;
    connected ← attempt (check (if WaitForConnection cfg then waitForConnection d (ConnectTimeout cfg) else None));
    match connected with
    | Ok _ =>
        _ ← say (LogAttrs log Background LevelInfo
                   (if WaitForConnection cfg then "grpc client connected" else "grpc client created") [slog_String "target" (Target cfg)]);
        mret conn
    | Err err =>
        _ ← say match Close_error with
                | Some closeErr => LogAttrs log Background LevelWarn "grpc client close failed"
                                     [slog_String "target" (Target cfg); slog_String "error" (fmt_error closeErr)]
                | None => []
                end;
        _ ← close_handle conn; fail err
    end.

(** ** What [New] promises *)

Lemma New_owning d cfg : owning (New d cfg).
Proof.
  unfold New. case_match; [apply owning_fail|]. apply owning_bind; [auto with io|]. intros transport.
  apply owning_bind; [auto with io|]. intros _. apply owning_checked; auto with io.
Qed.

Lemma connect_ends_before d timeout t :
  t < (connect_ends d timeout).1 -> t < dial_now d + timeout /\ forall t' err, dial_ends d = Some (t', err) -> t < t'.
Proof. unfold connect_ends. destruct (dial_ends d) as [[t1 err1]|]; [destruct (Z.leb_spec t1 (dial_now d + timeout))|]; cbn; naive_solver lia. Qed.

(** The connection is seen ready, after changes within the time, before it is seen shut
    down. *)
Lemma wait_loop_ready ends state changes :
  wait_loop ends state changes = None ->
  exists before after, state :: changes.*2 = before ++ Ready :: after /\ Ready ∉ before /\ Shutdown ∉ before /\
    forall k t, (k < length before)%nat -> changes.*1 !! k = Some t -> t < ends.1.
Proof.
  assert (forall changes, exists before after, Ready :: changes = before ++ Ready :: after /\ Ready ∉ before /\ Shutdown ∉ before /\ before = []) as Hnow.
  { intros l. exists [], l. by split_and!; [|apply not_elem_of_nil..|]. }
  revert state. induction changes as [|[t next] changes IH]; intros state Hwait.
  - destruct state; try done. destruct (Hnow []) as (b & a & ? & ? & ? & ->). exists [], a. split_and!; [done..|cbn; lia].
  - destruct (decide (state = Ready)) as [->|Hr].
    { destruct (Hnow (next :: changes.*2)) as (b & a & ? & ? & ? & ->). exists [], a. split_and!; [done..|cbn; lia]. }
    assert (state <> Shutdown /\ t < ends.1 /\ wait_loop ends next changes = None) as (Hs & Ht & Hrest).
    { destruct state; cbn in Hwait; try done; destruct (Z.ltb_spec t ends.1); by split_and!. }
    destruct (IH next Hrest) as (before & after & Heq & H1 & H2 & H3). exists (state :: before), after.
    rewrite !not_elem_of_cons. split_and!; [cbn; by rewrite Heq|done..|].
    intros [|k] t'; cbn; [by intros _ [= <-]|]. intros Hk. apply H3. lia.
Qed.

(** C37. A client is handed out with its connection open, or the connection is closed
    again and nothing stays open; it is handed out only to a target that was given,
    when grpc accepted the options, and - if asked to wait - only after the connection
    was seen ready before it was shut down, the connect timeout had passed or the
    caller's context had ended.  A client that requires TLS never gets options with an
    insecure transport. *)
Theorem client_is_ready_or_closed d cfg w (Hw : world_ok w) :
  match (New d cfg w).2 with
  | Ok conn =>
      conn ∉ open_handles w /\ open_handles (New d cfg w).1 = {[conn]} ∪ open_handles w /\
      Target cfg <> "" /\
      (exists transport, transportCredentials cfg = Ok transport /\
        NewClient_error (Target cfg) (dial_options (withDefaults cfg) transport) = None /\
        (RequireTLS cfg = true -> TransportInsecure ∉ dial_options (withDefaults cfg) transport)) /\
      (WaitForConnection cfg = true ->
       exists before after, dial_state d :: (dial_changes d).*2 = before ++ Ready :: after /\ Ready ∉ before /\ Shutdown ∉ before /\
         forall k t, (k < length before)%nat -> (dial_changes d).*1 !! k = Some t ->
           t < dial_now d + or_zero (ConnectTimeout cfg) (5 * Second) /\ forall t' err, dial_ends d = Some (t', err) -> t < t')
  | Err _ => open_handles (New d cfg w).1 = open_handles w
  end.
Proof.
  destruct (New_owning d cfg w Hw) as [_ Ho]. destruct (New d cfg w).2 as [conn|err] eqn:Hnew; [|done].
  destruct Ho as [Hfresh Hopen]. split_and!; [done..| | |].
  all: revert Hnew; unfold New; cbn zeta; cbn [withDefaults Target WaitForConnection ConnectTimeout].
  all: case_match; [done|]; go_bool; unfold mbind, io_bind, of_result.
  - done.
  - change (transportCredentials (withDefaults cfg)) with (transportCredentials cfg).
    destruct (transportCredentials cfg) as [transport|] eqn:Htransport; [|done]. unfold check at 1.
    destruct (NewClient_error _ _) eqn:Hclient; [done|]. intros _. exists transport. split_and!; [done..|].
    intros Hrequire. revert Htransport. unfold transportCredentials. rewrite Hrequire. destruct (TLS cfg); [|done].
    intros [= <-]. unfold dial_options. rewrite !elem_of_app, !elem_of_cons, list_elem_of_fmap.
    destruct (DisableRetries _), (EnableTracing _); rewrite ?list_elem_of_singleton, ?elem_of_nil; naive_solver.
  - destruct (transportCredentials _) as [transport|]; [|done]. unfold check at 1. destruct (NewClient_error _ _); [done|].
    intros Hnew Hwait. assert (waitForConnection d (or_zero (ConnectTimeout cfg) (5 * Second)) = None) as Hnone.
    { revert Hnew. rewrite Hwait. cbn. unfold attempt. by destruct (waitForConnection d _). }
    apply wait_loop_ready in Hnone as (before & after & Heq & Hr & Hs & Hin). exists before, after. split_and!; [done..|].
    intros k t Hk Ht. by apply connect_ends_before, (Hin k).
Qed.
End dial.

(** ** Witness *)

#[local] Instance accepting : GrpcConn := { user_option := unit; NewClient_error _ _ := None; Close_error := None }.

Definition waiting : Config :=
  mkConfig "dns:///auth:50051" None true true false false 0 0 true 0 0 "" [] [] [].

(** It connects within the five seconds, or only after them. *)
Definition dial_at (t : Z) : Dial := mkDial 0 None Idle [(Second, Connecting); (t, Ready)].

Lemma client_is_ready_or_closed_witness :
  let log := mkLogger LevelInfo [] false in
  let started := mkWorld 7 {[ 4%nat ]} [] in
  (New log (dial_at (2 * Second)) waiting started).2 = Ok 7%nat /\
  open_handles (New log (dial_at (6 * Second)) waiting started).1 = {[ 4%nat ]}.
Proof.
  split; [vm_compute; reflexivity|].
  assert (world_ok (mkWorld 7 {[ 4%nat ]} [])) as Hw by (intros h; cbn; rewrite elem_of_singleton; lia).
  pose proof (client_is_ready_or_closed (mkLogger LevelInfo [] false) (dial_at (6 * Second)) waiting _ Hw) as H.
  replace (New _ _ _ _).2 with (@Err error nat DeadlineExceeded) in H by (vm_compute; reflexivity). exact H.
Defined.
