(* ===== verification/Password.v ===== *)
(** * Package [password]: argon2id hashes

    The encoding of a hash and its decoding are modelled to the byte: base64
    without padding (strict on the trailing bits, line breaks ignored),
    [strings.Split], and [fmt.Sscanf] on the two formats of the source.  Argon2
    itself and the semaphore are parameters. *)

From S2P Require Export Base64 Apperr.

Definition ErrMismatch : error := errorString 20 "password: hash and password do not match".
Definition ErrInvalidHash : error := errorString 21 "password: invalid hash format".
Definition ErrUnsupportedVersion : error := errorString 22 "password: unsupported argon2 version".
Definition ErrBusy : error := errorString 23 "password: hasher is busy".

(** ** [fmt.Sscanf] *)

(** The scanner reads runes.  A literal must match. *)
Fixpoint scan_literal (lit rs : list Z) : option (list Z) :=
  match lit, rs with
  | [], _ => Some rs
  | c :: lit, r :: rs => if c =? r then scan_literal lit rs else None
  | _ :: _, [] => None
  end.

(** [SkipSpace]: a newline is an error. *)
Fixpoint skip_space (rs : list Z) : option (list Z) :=
  match rs with
  | [] => Some []
  | r :: rs' => if r =? 10 then None else if IsSpace r then skip_space rs' else Some rs
  end.

(** [scanNumber]: at least one digit, then all of them. *)
Fixpoint take_digits (rs : list Z) : list Z * list Z :=
  match rs with
  | r :: rs' => if is_digit r then let '(ds, rest) := take_digits rs' in (r :: ds, rest) else ([], rs)
  | [] => ([], [])
  end.

Definition scan_digits (rs : list Z) : option (Z * list Z) :=
  match take_digits rs with
  | ([], _) => None
  | (ds, rest) => Some (digits_value ds, rest)
  end.

(** [%d] into an [int]: a sign, and the range of [int64]. *)
Definition scan_int (rs : list Z) : option (Z * list Z) :=
  rs ← skip_space rs;
  let '(neg, rs) := match rs with
                    | r :: rs' => if r =? 45 then (true, rs') else if r =? 43 then (false, rs') else (false, rs)
                    | [] => (false, rs)
                    end in
  p ← scan_digits rs;
  let v := if neg : bool then - p.1 else p.1 in
  if (- 2 ^ 63 <=? v) && (v <? 2 ^ 63) then Some (v, p.2) else None.

(** [%d] into an unsigned integer of [w] bits. *)
Definition scan_uint (w : Z) (rs : list Z) : option (Z * list Z) :=
  rs ← skip_space rs;
  p ← scan_digits rs;
  if p.1 <? 2 ^ w then Some p else None.

(** [Sscanf(part, "v=%d", &version)] and [Sscanf(part, "m=%d,t=%d,p=%d", ...)]; what
    follows the last number is not read. *)
Definition scan_version (part : list Z) : option Z :=
  rs ← scan_literal (bytes "v=") (runes part);
  fst <$> scan_int rs.

Definition scan_params (part : list Z) : option (Z * Z * Z) :=
  rs ← scan_literal (bytes "m=") (runes part);
  m ← scan_uint 32 rs;
  rs ← scan_literal (bytes ",t=") m.2;
  t ← scan_uint 32 rs;
  rs ← scan_literal (bytes ",p=") t.2;
  p ← scan_uint 8 rs;
  Some (m.1, t.1, p.1).

(** ** Params *)

Record Params := mkParams {
  Memory : Z;
  Iterations : Z;
  Parallelism : Z;
  SaltLength : Z;
  KeyLength : Z
}.

(** [numCPU] is [runtime.NumCPU()]. *)
Definition DefaultParams (numCPU : Z) : Params :=
  let parallelism := if numCPU >? 4 then 4 else numCPU in
  let parallelism := if parallelism <? 1 then 1 else parallelism in
  mkParams (64 * 1024) 3 (uint8 parallelism) 16 32.

Definition Version : Z := 19.   (** [argon2.Version] *)

(** ** decode *)

Definition decode (encoded : string) : result error (Params * list Z * list Z) :=
  match split_on 36 (bytes encoded) with
  | [p0; p1; p2; p3; p4; p5] =>
      if (p0 != []) || (p1 != bytes "argon2id") then Err ErrInvalidHash
      else match scan_version p2 with
      | None => Err ErrInvalidHash
      | Some version =>
          if version != Version then Err ErrUnsupportedVersion
          else match scan_params p3, b64_decode p4, b64_decode p5 with
          | Some (memory, iterations, parallelism), Some salt, Some key =>
              let params := mkParams memory iterations parallelism
                              (uint32 (Z.of_nat (length salt))) (uint32 (Z.of_nat (length key))) in
              if (memory =? 0) || (iterations =? 0) || (parallelism =? 0) || (KeyLength params =? 0)
              then Err ErrInvalidHash else Ok (params, salt, key)
          | _, _, _ => Err ErrInvalidHash
          end
      end
  | _ => Err ErrInvalidHash
  end.

(** ** Hashing *)

(** [argon2.IDKey]: password, salt, time, memory, threads, key length. *)
Class Argon2 := {
  IDKey : list Z -> list Z -> Z -> Z -> Z -> Z -> list Z
}.

(** Documented: the key has the requested length. *)
Class Argon2Laws `{!Argon2} : Prop := {
  IDKey_length password salt t m p n :
    0 < t -> 0 < p -> 0 < n < 2 ^ 32 -> length (IDKey password salt t m p n) = Z.to_nat n;
  IDKey_bytes password salt t m p n : Forall is_byte (IDKey password salt t m p n)
}.

Definition encode_hash (p : Params) (salt key : list Z) : string :=
  of_bytes (bytes "$argon2id$v=" ++ decimal Version ++ bytes "$m=" ++ decimal (Memory p)
    ++ bytes ",t=" ++ decimal (Iterations p) ++ bytes ",p=" ++ decimal (Parallelism p)
    ++ bytes "$" ++ b64_encode salt ++ bytes "$" ++ b64_encode key).

(** A [Hasher]: its parameters and the free slots of its semaphore. *)
Record Hasher := mkHasher {
  params : Params;
  slots : Z
}.

(** [WithMaxConcurrent(n)] *)
Definition WithMaxConcurrent (n : Z) (h : Hasher) : Hasher := if 0 <? n then mkHasher (params h) n else h.

(** [maxProcs] is [runtime.GOMAXPROCS(0)]. *)
Definition NewHasher (numCPU maxProcs : Z) (p : Params) (opts : list (Hasher -> Hasher)) : Hasher :=
  let d := DefaultParams numCPU in
  let p := mkParams (or_zero (Memory p) (Memory d)) (or_zero (Iterations p) (Iterations d))
             (or_zero (Parallelism p) (Parallelism d)) (or_zero (SaltLength p) (SaltLength d))
             (or_zero (KeyLength p) (KeyLength d)) in
  foldl (fun h opt => opt h) (mkHasher p (Z.max maxProcs 1)) opts.

(** [slots.Acquire(ctx, 1)]: with a free slot it may be granted; otherwise the
    context's error.  [granted] is its answer. *)
Definition acquire (granted : option error) (h : Hasher) : Hasher * option error :=
  match granted with
  | None => (mkHasher (params h) (slots h - 1), None)
  | Some err => (h, Some (wrapErrors (fmt_error ErrBusy +:+ ": " +:+ fmt_error err) [ErrBusy; err]))
  end.

Definition release (h : Hasher) : Hasher := mkHasher (params h) (slots h + 1).

Section hash.
Context `{!Argon2}.

(** [random] is what [rand.Read] answers for a buffer of that many bytes. *)
Definition Hasher_Hash (granted : option error) (random : Z -> result error (list Z)) (plain : string) (h : Hasher)
  : Hasher * result error string :=
  match acquire granted h with
  | (h, Some err) => (h, Err err)
  | (h, None) =>
      (release h,
       match random (SaltLength (params h)) with
       | Err err => Err (Errorf "password: generate salt" err)
       | Ok salt =>
           let key := IDKey (bytes plain) salt (Iterations (params h)) (Memory (params h))
                        (Parallelism (params h)) (KeyLength (params h)) in
           Ok (encode_hash (params h) salt key)
       end)
  end.

Definition Verify (plain encoded : string) : option error :=
  match decode encoded with
  | Err err => Some err
  | Ok (params, salt, want) =>
      let got := IDKey (bytes plain) salt (Iterations params) (Memory params) (Parallelism params) (KeyLength params) in
      if got == want then None else Some ErrMismatch
  end.

Definition Hasher_Verify (granted : option error) (plain encoded : string) (h : Hasher) : Hasher * option error :=
  match acquire granted h with
  | (h, Some err) => (h, Some err)
  | (h, None) => (release h, Verify plain encoded)
  end.

Definition NeedsRehash (encoded : string) (h : Hasher) : result error bool :=
  match decode encoded with
  | Err err => Err err
  | Ok (p, _, _) =>
      Ok ((Memory p <? Memory (params h)) || (Iterations p <? Iterations (params h)) || (KeyLength p <? KeyLength (params h)))
  end.

(** The package function [Hash]. *)
Definition Hash (numCPU maxProcs : Z) (granted : option error) (random : Z -> result error (list Z)) (plain : string)
  : result error string :=
  (Hasher_Hash granted random plain (NewHasher numCPU maxProcs (DefaultParams numCPU) [])).2.
End hash.

(** ** Numbers read back

    What the scanner leaves after a number must not begin with a digit. *)
Definition not_digit_next (rest : list Z) : Prop := match rest with [] => True | c :: _ => is_digit c = false end.

Lemma take_digits_all ds rest :
  Forall (fun c => 48 <= c <= 57) ds -> not_digit_next rest -> take_digits (ds ++ rest) = (ds, rest).
Proof.
  intros Hds Hrest. induction Hds as [|d ds Hd _ IH]; cbn [app take_digits].
  - destruct rest as [|c rest]; [done|]. cbn in *. by rewrite Hrest.
  - unfold is_digit at 1, in_byte_range. rewrite (proj2 (Z.leb_le 48 d)), (proj2 (Z.leb_le d 57)) by lia.
    cbn [andb]. by rewrite IH.
Qed.

Lemma scan_digits_decimal n rest :
  0 <= n < 2 ^ 64 -> not_digit_next rest -> scan_digits (decimal n ++ rest) = Some (n, rest).
Proof.
  intros Hn Hrest. unfold scan_digits. rewrite take_digits_all by (auto; apply decimal_digits; lia).
  pose proof (decimal_value n Hn) as Hv. pose proof (decimal_nonempty n). destruct (decimal n); [done|]. by rewrite Hv.
Qed.

Lemma skip_space_digit d rs : 48 <= d <= 57 -> skip_space (d :: rs) = Some (d :: rs).
Proof.
  intros Hd. cbn [skip_space]. rewrite visible_not_space by (unfold visible; lia).
  by rewrite (proj2 (Z.eqb_neq d 10)) by lia.
Qed.

Lemma scan_uint_decimal w n rest :
  0 <= w <= 64 -> 0 <= n < 2 ^ w -> not_digit_next rest -> scan_uint w (decimal n ++ rest) = Some (n, rest).
Proof.
  intros Hw Hn Hrest. assert (2 ^ w <= 2 ^ 64) by (apply Z.pow_le_mono_r; lia).
  pose proof (scan_digits_decimal n rest ltac:(lia) Hrest) as Hs. unfold scan_uint.
  destruct (decimal_head n) as (d & ds & E & Hd); [lia|]. rewrite E in *. cbn [app] in *. rewrite skip_space_digit by done.
  cbn [mbind option_bind]. rewrite Hs. cbn [mbind option_bind fst]. by rewrite (proj2 (Z.ltb_lt n (2 ^ w))) by lia.
Qed.

Lemma scan_literal_app lit rest : scan_literal lit (lit ++ rest) = Some rest.
Proof. induction lit as [|c lit IH]; [done|]. cbn. by rewrite Z.eqb_refl. Qed.

Lemma scan_params_decimal m t p :
  0 <= m < 2 ^ 32 -> 0 <= t < 2 ^ 32 -> 0 <= p < 2 ^ 8 ->
  let part := bytes "m=" ++ decimal m ++ bytes ",t=" ++ decimal t ++ bytes ",p=" ++ decimal p in
  runes part = part -> scan_params part = Some (m, t, p).
Proof.
  intros Hm Ht Hp part Hpart. unfold scan_params. rewrite Hpart. unfold part.
  rewrite scan_literal_app. cbn [mbind option_bind]. rewrite scan_uint_decimal by (done || lia).
  cbn [mbind option_bind snd]. rewrite scan_literal_app. cbn [mbind option_bind]. rewrite scan_uint_decimal by (done || lia).
  cbn [mbind option_bind snd]. rewrite scan_literal_app. cbn [mbind option_bind].
  rewrite <- (app_nil_r (decimal p)), scan_uint_decimal by (done || lia). done.
Qed.

(** ** The fields of a hash

    Text without ['$'], in ASCII. *)
Definition field (s : list Z) : Prop := Forall (fun c => 0 <= c < 128 /\ c <> 36) s.

Lemma field_ascii s : field s -> ascii_text s.
Proof. intros Hs. eapply Forall_impl; [exact Hs|]. cbn. lia. Qed.
Lemma field_no_dollar s : field s -> 36 ∉ s.
Proof. intros Hs Hin. unfold field in Hs. rewrite Forall_forall in Hs. apply Hs in Hin. lia. Qed.
Lemma field_decimal n : 0 <= n -> field (decimal n).
Proof. intros Hn. eapply Forall_impl; [by apply decimal_digits|]. intros c Hc. cbn in *. lia. Qed.
Lemma field_b64 l : Forall is_byte l -> field (b64_encode l).
Proof. intros Hl. eapply Forall_impl; [by apply b64_encode_visible|]. unfold visible. intros c Hc. cbn in *. lia. Qed.
Lemma fieldb s : forallb (fun c => (0 <=? c) && (c <? 128) && negb (c =? 36)) s = true -> field s.
Proof.
  rewrite forallb_forall. intros H. apply Forall_forall. intros c Hc. apply list_elem_of_In, H in Hc. go_bool. lia.
Qed.
#[local] Hint Resolve field_decimal field_b64 field_ascii field_no_dollar : golib.

(** ** Round trip *)

Record params_ok (p : Params) : Prop := {
  memory_ok : 0 < Memory p < 2 ^ 32;
  iterations_ok : 0 < Iterations p < 2 ^ 32;
  parallelism_ok : 0 < Parallelism p < 2 ^ 8;
  salt_length_ok : 0 <= SaltLength p < 2 ^ 32;
  key_length_ok : 0 < KeyLength p < 2 ^ 32
}.

Definition params_part (p : Params) : list Z :=
  bytes "m=" ++ decimal (Memory p) ++ bytes ",t=" ++ decimal (Iterations p) ++ bytes ",p=" ++ decimal (Parallelism p).

Lemma params_part_field p : params_ok p -> field (params_part p).
Proof.
  intros []. unfold field, params_part. rewrite !Forall_app. split_and!; first [apply field_decimal; lia | by apply fieldb].
Qed.

Lemma encode_hash_bytes p salt key :
  params_ok p -> Forall is_byte salt -> Forall is_byte key ->
  bytes (encode_hash p salt key) =
    36 :: bytes "argon2id" ++ 36 :: (bytes "v=" ++ decimal Version) ++ 36 :: params_part p ++ 36 :: b64_encode salt ++ 36 :: b64_encode key.
Proof.
  intros Hp Hsalt Hkey.
  assert (forall s, field s -> Forall is_byte s) as Hf.
  { intros s Hs. eapply Forall_impl; [exact Hs|]. unfold is_byte. cbn. lia. }
  unfold encode_hash. rewrite bytes_of_bytes.
  - unfold params_part. by rewrite <- !app_assoc.
  - pose proof (memory_ok p Hp). pose proof (iterations_ok p Hp). pose proof (parallelism_ok p Hp).
    rewrite !Forall_app. split_and!; try apply bytes_range;
      apply Hf; first [by apply field_b64 | apply field_decimal; unfold Version; lia].
Qed.

Lemma decode_encode_hash p salt key :
  params_ok p -> Forall is_byte salt -> Forall is_byte key ->
  Z.of_nat (length salt) = SaltLength p -> Z.of_nat (length key) = KeyLength p ->
  decode (encode_hash p salt key) = Ok (p, salt, key).
Proof.
  intros Hp Hsalt Hkey Hls Hlk. pose proof (params_part_field p Hp) as Hpart. unfold decode.
  rewrite encode_hash_bytes by done.
  change (split_on 36 (36 :: ?x)) with ([] :: split_on 36 x).
  rewrite split_on_app by (apply field_no_dollar, fieldb; done).
  rewrite split_on_app by (apply field_no_dollar, fieldb; done).
  rewrite split_on_app, split_on_app, split_on_no_sep by auto with golib.
  change (scan_version (bytes "v=" ++ decimal Version)) with (Some Version).
  rewrite !bool_decide_eq_true_2 by done. cbn [negb orb].
  rewrite !b64_decode_encode by done. destruct Hp.
  unfold params_part in *. rewrite scan_params_decimal by (first [lia | apply runes_ascii, field_ascii; exact Hpart]).
  cbv zeta. cbn [KeyLength]. unfold uint32, wrap_unsigned. rewrite Hls, Hlk, !Z.mod_small by lia.
  rewrite !(proj2 (Z.eqb_neq _ _)) by lia. cbn. by destruct p.
Qed.

(** The parameters of a hasher are filled in. *)
Record params_uint (p : Params) : Prop := {
  memory_uint : 0 <= Memory p < 2 ^ 32;
  iterations_uint : 0 <= Iterations p < 2 ^ 32;
  parallelism_uint : 0 <= Parallelism p < 2 ^ 8;
  salt_length_uint : 0 <= SaltLength p < 2 ^ 32;
  key_length_uint : 0 <= KeyLength p < 2 ^ 32
}.

Lemma default_parallelism numCPU : 1 <= Parallelism (DefaultParams numCPU) <= 4.
Proof.
  unfold DefaultParams. cbn [Parallelism]. rewrite Z.gtb_ltb.
  destruct (Z.ltb_spec 4 numCPU); [done|]. destruct (Z.ltb_spec numCPU 1); [done|].
  unfold uint8, wrap_unsigned. rewrite Z.mod_small; lia.
Qed.

Lemma options_keep_params ns h : params (foldl (fun h opt => opt h) h (WithMaxConcurrent <$> ns)) = params h.
Proof.
  revert h. induction ns as [|n ns IH]; intros h; [done|]. cbn [fmap list_fmap foldl]. rewrite IH.
  unfold WithMaxConcurrent. by destruct (0 <? n).
Qed.

Lemma NewHasher_params numCPU maxProcs p ns :
  params_uint p -> params_ok (params (NewHasher numCPU maxProcs p (WithMaxConcurrent <$> ns))).
Proof.
  intros []. unfold NewHasher. rewrite options_keep_params. pose proof (default_parallelism numCPU).
  unfold or_zero. constructor; cbn [params Memory Iterations Parallelism SaltLength KeyLength];
    match goal with |- context [?a =? 0] => destruct (Z.eqb_spec a 0) end; cbn [DefaultParams Memory Iterations SaltLength KeyLength]; lia.
Qed.

(** ** What [decode] accepts *)

Lemma take_digits_digits rs : Forall (fun c => 48 <= c <= 57) (take_digits rs).1.
Proof.
  induction rs as [|r rs IH]; [constructor|]. cbn [take_digits].
  destruct (is_digit r) eqn:Hr; [|constructor]. destruct (take_digits rs) as [ds rest]. cbn [fst] in *.
  unfold is_digit, in_byte_range in Hr. go_bool. constructor; [lia|done].
Qed.

Lemma digits_value_nonneg ds : Forall (fun c => 48 <= c <= 57) ds -> 0 <= digits_value ds.
Proof.
  induction ds as [|d ds IH] using rev_ind; [done|].
  intros [Hds [Hd _]%Forall_cons]%Forall_app. rewrite digits_value_snoc. specialize (IH Hds). lia.
Qed.

Lemma scan_uint_range w rs p : scan_uint w rs = Some p -> 0 <= p.1 < 2 ^ w.
Proof.
  unfold scan_uint, scan_digits. destruct (skip_space rs) as [rs'|]; [|done]. cbn [mbind option_bind].
  pose proof (take_digits_digits rs') as Hd. destruct (take_digits rs') as [ds rest]. cbn [fst] in Hd.
  pose proof (digits_value_nonneg ds Hd). destruct ds as [|d ds]; [done|]. cbn [mbind option_bind fst].
  destruct (Z.ltb_spec (digits_value (d :: ds)) (2 ^ w)); intros; simplify_eq. cbn [fst]. lia.
Qed.

Lemma scan_params_range part m t p :
  scan_params part = Some (m, t, p) -> 0 <= m < 2 ^ 32 /\ 0 <= t < 2 ^ 32 /\ 0 <= p < 2 ^ 8.
Proof.
  unfold scan_params. intros Hs.
  destruct (scan_literal _ (runes part)) as [rs0|]; [|done]. cbn [mbind option_bind] in Hs.
  destruct (scan_uint 32 rs0) as [m0|] eqn:Hm; [|done]. cbn [mbind option_bind] in Hs.
  destruct (scan_literal _ m0.2) as [rs1|]; [|done]. cbn [mbind option_bind] in Hs.
  destruct (scan_uint 32 rs1) as [t0|] eqn:Ht; [|done]. cbn [mbind option_bind] in Hs.
  destruct (scan_literal _ t0.2) as [rs2|]; [|done]. cbn [mbind option_bind] in Hs.
  destruct (scan_uint 8 rs2) as [p0|] eqn:Hp; [|done]. cbn [mbind option_bind] in Hs. simplify_eq.
  apply scan_uint_range in Hm, Ht, Hp. done.
Qed.

(** Whatever text is stored, [decode] answers parameters in the ranges of
    their types with a positive time, memory, number of threads and key length,
    so [argon2.IDKey] never gets the zero counts it panics on; the text is
    ["$argon2id$"] and four more fields, of version 19, with the salt and the
    key in base64.  Otherwise the error is [ErrInvalidHash], or
    [ErrUnsupportedVersion] for a version other than 19. *)
Theorem decode_bounds (encoded : string) :
  match decode encoded with
  | Ok (p, salt, key) =>
      params_ok p /\
      SaltLength p = uint32 (Z.of_nat (length salt)) /\ KeyLength p = uint32 (Z.of_nat (length key)) /\
      exists v nums s k,
        bytes encoded = join_on 36 [[]; bytes "argon2id"; v; nums; s; k] /\ scan_version v = Some 19 /\
        scan_params nums = Some (Memory p, Iterations p, Parallelism p) /\
        b64_decode s = Some salt /\ b64_decode k = Some key
  | Err e =>
      e = ErrInvalidHash \/
      (e = ErrUnsupportedVersion /\ exists v version rest,
        split_on 36 (bytes encoded) = [] :: bytes "argon2id" :: v :: rest /\ scan_version v = Some version /\ version <> 19)
  end.
Proof.
  pose proof (join_split 36 (bytes encoded)) as Hjoin. unfold decode.
  destruct (split_on 36 (bytes encoded)) as [|p0 [|p1 [|v [|nums [|s [|k [|x xs]]]]]]]; try (by left).
  destruct (bool_decide_reflect (p0 = [])) as [->|]; [|by left]. cbn [negb orb].
  destruct (bool_decide_reflect (p1 = bytes "argon2id")) as [->|]; [|by left]. cbn [negb].
  destruct (scan_version v) as [version|] eqn:Hv; [|by left].
  destruct (bool_decide_reflect (version = Version)) as [->|]; cbn [negb]; [|right; split; [done|]; by eexists _, _, _].
  destruct (scan_params nums) as [[[m t] par]|] eqn:Hp; [|by left].
  destruct (b64_decode s) as [salt|] eqn:Hs; [|by left]. destruct (b64_decode k) as [key|] eqn:Hk; [|by left].
  cbv zeta. cbn [KeyLength]. apply scan_params_range in Hp as Hr.
  destruct (_ || _) eqn:Hz; [by left|]. go_bool.
  assert (forall n, 0 <= uint32 n < 2 ^ 32) as Hu by (intros n; apply Z.mod_pos_bound; lia).
  pose proof (Hu (Z.of_nat (length salt))). pose proof (Hu (Z.of_nat (length key))).
  split; [constructor; cbn [Memory Iterations Parallelism SaltLength KeyLength]; lia|].
  split; [done|]. split; [done|]. by exists v, nums, s, k.
Qed.

(** ** Hashing and verifying *)
Section theorems.
Context `{!Argon2} {HA : Argon2Laws}.

Lemma release_acquired h : release (mkHasher (params h) (slots h - 1)) = h.
Proof. destruct h as [p n]. unfold release. cbn [params slots]. by rewrite Z.sub_add. Qed.

(** What a [Hasher] writes, it reads back. *)
Lemma hash_decodes h salt plain :
  params_ok (params h) -> Forall is_byte salt -> Z.of_nat (length salt) = SaltLength (params h) ->
  let p := params h in
  let key := IDKey (bytes plain) salt (Iterations p) (Memory p) (Parallelism p) (KeyLength p) in
  decode (encode_hash p salt key) = Ok (p, salt, key).
Proof.
  intros Hp Hsalt Hlen p key. apply decode_encode_hash; [done|done|apply IDKey_bytes|done|].
  destruct Hp. subst key p. rewrite IDKey_length by lia. lia.
Qed.

(** C12. With the parameters [NewHasher] accepts (zeroes replaced by the
    defaults) and a slot free, [Hash] answers a text which [Verify] accepts for
    the password it was made from and rejects, with [ErrMismatch], for every
    password of another key; the hasher does not ask to rehash it, and the slot
    is free again afterwards.  Without a slot the hasher is unchanged and the
    error is [ErrBusy]. *)
Theorem hash_verifies numCPU maxProcs p ns random salt plain
  (Hp : params_uint p)
  (Hrandom : random (SaltLength (params (NewHasher numCPU maxProcs p (WithMaxConcurrent <$> ns)))) = Ok salt)
  (Hsalt : Forall is_byte salt)
  (Hlen : Z.of_nat (length salt) = SaltLength (params (NewHasher numCPU maxProcs p (WithMaxConcurrent <$> ns)))) :
  let h := NewHasher numCPU maxProcs p (WithMaxConcurrent <$> ns) in
  (exists encoded,
    Hasher_Hash None random plain h = (h, Ok encoded) /\
    Hasher_Verify None plain encoded h = (h, None) /\
    NeedsRehash encoded h = Ok false /\
    forall other,
      let key_of s := IDKey (bytes s) salt (Iterations (params h)) (Memory (params h))
                        (Parallelism (params h)) (KeyLength (params h)) in
      Hasher_Verify None other encoded h = (h, if key_of other == key_of plain then None else Some ErrMismatch)) /\
  forall err, exists e,
    Hasher_Hash (Some err) random plain h = (h, Err e) /\ errors_Is (Some e) ErrBusy = Ret true.
Proof.
  intros h. pose proof (NewHasher_params numCPU maxProcs p ns Hp) as Hok. fold h in Hrandom, Hlen, Hok.
  assert (release (mkHasher (params h) (slots h - 1)) = h) as Hslots.
  { apply (release_acquired h). }
  split; [|intros err; eexists; split; reflexivity].
  eexists. split.
  { unfold Hasher_Hash, acquire. cbn [params]. rewrite Hslots, Hrandom. reflexivity. }
  pose (key_of s := IDKey (bytes s) salt (Iterations (params h)) (Memory (params h))
                      (Parallelism (params h)) (KeyLength (params h))).
  assert (forall s, Hasher_Verify None s (encode_hash (params h) salt (key_of plain)) h =
    (h, if key_of s == key_of plain then None else Some ErrMismatch)) as Hverify.
  { intros s. unfold Hasher_Verify, acquire, Verify, key_of. rewrite hash_decodes by done. by rewrite Hslots. }
  split; [rewrite Hverify; by rewrite bool_decide_eq_true_2|]. split; [|exact Hverify].
  unfold NeedsRehash. rewrite hash_decodes by done. by rewrite !Z.ltb_irrefl.
Qed.
End theorems.

(** ** Witness and examples *)

(** A keyed toy function in place of Argon2: the bytes of the password, salt and
    counts folded into a key of the requested length. *)
#[local] Instance toy_argon2 : Argon2 := {|
  IDKey password salt t m p n :=
    let seed := foldl (fun acc x => (31 * acc + x) mod 65521) 7 (password ++ salt ++ [t; m; p; n]) in
    (fun i => (seed * (Z.of_nat i + 1)) mod 256) <$> seq 0 (Z.to_nat n)
|}.
#[local] Instance toy_argon2_laws : Argon2Laws.
Proof.
  constructor; intros.
  - cbn. by rewrite length_fmap, length_seq.
  - apply Forall_fmap, Forall_true. intros i. cbn. unfold is_byte. apply Z.mod_pos_bound. lia.
Qed.

Definition toy_salt (n : Z) : result error (list Z) := Ok (Z.of_nat <$> seq 200 (Z.to_nat n)).
Definition stored_hash : string :=
  match (Hasher_Hash None toy_salt "ice" (NewHasher 8 4 (mkParams 0 2 0 6 9) [])).2 with Ok s => s | Err _ => "" end.

Example stored_hash_text : stored_hash = "$argon2id$v=19$m=65536,t=2,p=4$yMnKy8zN$KlR+qNL8JlB6".
Proof. vm_compute. reflexivity. Qed.
Example stored_hash_rejects : Verify "fire" stored_hash = Some ErrMismatch.
Proof. vm_compute. reflexivity. Qed.

(** [Sscanf] leaves the rest of a field unread: such a text is accepted too. *)
Example trailing_text_accepted : Verify "ice" "$argon2id$v=19x$m=65536,t=2,p=4,x$yMnKy8zN$KlR+qNL8JlB6" = None.
Proof. vm_compute. reflexivity. Qed.

Lemma hash_verifies_witness :
  let h := NewHasher 8 4 (mkParams 0 2 0 6 9) (WithMaxConcurrent <$> [3]) in
  slots h = 3 /\
  exists encoded, Hasher_Hash None toy_salt "ice" h = (h, Ok encoded) /\ Hasher_Verify None "ice" encoded h = (h, None).
Proof.
  assert (params_uint (mkParams 0 2 0 6 9)) as Hp by (constructor; cbn; lia).
  assert (Forall is_byte (Z.of_nat <$> seq 200 6)) as Hsalt by (repeat constructor; unfold is_byte; cbn; lia).
  destruct (hash_verifies 8 4 (mkParams 0 2 0 6 9) [3] toy_salt (Z.of_nat <$> seq 200 6) "ice"
    Hp eq_refl Hsalt eq_refl) as ((encoded & H1 & H2 & _) & _).
  split; [reflexivity|]. exists encoded. exact (conj H1 H2).
Defined.
