(* ===== verification/Secret.v ===== *)
(** * Package [secret]: random tokens and codes

    [crypto/rand] is a parameter: what it answers for a buffer of a given size,
    and for one index below ten. *)

From S2P Require Export Base64 Apperr.

Definition DefaultTokenBytes : Z := 32.

Definition Token (random : Z -> result error (list Z)) (size : Z) : result error string :=
  let size := if size <=? 0 then DefaultTokenBytes else size in
  match random size with
  | Err err => Err (Errorf "secret: read random" err)
  | Ok buf => Ok (of_bytes (url_encode buf))
  end.

Definition MustToken (random : Z -> result error (list Z)) (size : Z) : outcome string :=
  match Token random size with Ok token => Ret token | Err err => Panic (fmt_error err) end.

(** [sha256.Sum256]: 32 bytes. *)
Class Sha256 := { Sum256 : list Z -> list Z }.
Class Sha256Laws `{!Sha256} : Prop := {
  Sum256_length s : length (Sum256 s) = 32%nat;
  Sum256_bytes s : Forall is_byte (Sum256 s)
}.

(** [hex.EncodeToString] *)
Definition hex_nibble (d : Z) : Z := if d <? 10 then 48 + d else 97 + (d - 10).
Definition hex_encode (l : list Z) : list Z := l ≫= fun b => [hex_nibble (Z.shiftr b 4); hex_nibble (Z.land b 15)].

(** [subtle.ConstantTimeCompare(x, y) == 1] *)
Definition Equal (a b : string) : bool := bytes a == bytes b.

Section hash.
Context `{!Sha256}.
Definition Hash (token : string) : string := of_bytes (hex_encode (Sum256 (bytes token))).
Definition Matches (token hash : string) : bool := Equal (Hash token) hash.
End hash.

Definition digits : list Z := bytes "0123456789".

(** The loop over the buffer: [draw i] is the [i]-th answer of [rand.Int]. *)
Fixpoint draw_digits (draw : nat -> result error Z) (from n : nat) : result error (list Z) :=
  match n with
  | O => Ok []
  | S n =>
      match draw from with
      | Err err => Err (Errorf "secret: read random" err)
      | Ok index => rest ← draw_digits draw (S from) n; Ok (nth (Z.to_nat index) digits 0 :: rest)
      end
  end.

Definition NumericCode (draw : nat -> result error Z) (length : Z) : result error string :=
  if length <=? 0
  then Err (errors_New ("secret: code length must be positive, got " +:+
                        itoa length))
  else match draw_digits draw 0 (Z.to_nat length) with
       | Err err => Err err
       | Ok buf => Ok (of_bytes buf)
       end.

(** ** What a secret is worth *)

Lemma url_safe_byte c : url_safe c = true -> is_byte c.
Proof.
  unfold url_safe, in_byte_range, is_byte. rewrite !orb_true_iff, !andb_true_iff, !Z.leb_le, !Z.eqb_eq. intros [[[[?|?]|?]|?]|?]; lia.
Qed.

Lemma hex_nibble_inj : 
  forallb (fun a => forallb (fun b => implb (hex_nibble (Z.shiftr a 4) =? hex_nibble (Z.shiftr b 4))
    (implb (hex_nibble (Z.land a 15) =? hex_nibble (Z.land b 15)) (a =? b))) (seqZ 0 256)) (seqZ 0 256) = true.
Proof. vm_compute. reflexivity. Qed.

Lemma hex_encode_inj k l : Forall is_byte k -> Forall is_byte l -> hex_encode k = hex_encode l -> k = l.
Proof.
  intros Hk. revert l. induction Hk as [|a k Ha Hk IH]; intros l Hl.
  - by destruct Hl.
  - destruct Hl as [|b l Hb Hl]; [done|]. cbn. intros [= H1 H2 H3].
    pose proof (byte_check2 (fun a b => implb (hex_nibble (Z.shiftr a 4) =? hex_nibble (Z.shiftr b 4))
      (implb (hex_nibble (Z.land a 15) =? hex_nibble (Z.land b 15)) (a =? b))) hex_nibble_inj a b Ha Hb) as H.
    cbn beta in H. rewrite H1, H2, !Z.eqb_refl in H. cbn in H. apply Z.eqb_eq in H as ->.
    f_equal. by apply IH.
Qed.

Lemma hex_encode_bytes l : Forall is_byte l -> Forall is_byte (hex_encode l) /\ length (hex_encode l) = (2 * length l)%nat.
Proof.
  induction 1 as [|b l Hb _ [IH IHl]]; [done|]. cbn. split; [|unfold hex_encode in IHl; lia].
  assert (forallb (fun b => (0 <=? hex_nibble (Z.shiftr b 4)) && (hex_nibble (Z.shiftr b 4) <? 256) &&
    (0 <=? hex_nibble (Z.land b 15)) && (hex_nibble (Z.land b 15) <? 256)) (seqZ 0 256) = true) as H by (vm_compute; reflexivity).
  apply (byte_check _ H) in Hb. go_bool. apply Forall_cons; split; [unfold is_byte; lia|]. apply Forall_cons; split; [unfold is_byte; lia|done].
Qed.

Section secrets.
Context `{!Sha256} {HS : Sha256Laws}.

(** A token carries all the randomness it was made of and nothing else: it is
    the unpadded URL encoding of as many random bytes as asked for, or of 32, in
    characters that need no escaping, and decodes to exactly those bytes; its
    hash is 64 characters long and matches exactly the texts of the same digest;
    a failing source gives an error and no token. *)
Theorem token_keeps_entropy (random : Z -> result error (list Z)) size buf
  (Hrandom : random (if size <=? 0 then DefaultTokenBytes else size) = Ok buf)
  (Hbytes : Forall is_byte buf) :
  exists token, Token random size = Ok token /\ url_decode (bytes token) = Some buf /\
    Forall (fun c => url_safe c = true) (bytes token) /\
    Z.of_nat (String.length token) = (8 * Z.of_nat (length buf) + 5) / 6 /\
    String.length (Hash token) = 64%nat /\
    forall other, Matches other (Hash token) = true <-> Sum256 (bytes other) = Sum256 (bytes token).
Proof.
  unfold Token. rewrite Hrandom. pose proof (url_encode_safe buf Hbytes) as Hsafe.
  assert (bytes (of_bytes (url_encode buf)) = url_encode buf) as Hb.
  { apply bytes_of_bytes. eapply Forall_impl; [exact Hsafe|]. apply url_safe_byte. }
  eexists. split; [done|]. rewrite Hb, <- length_bytes, Hb. split_and!.
  - by apply url_decode_encode.
  - done.
  - unfold url_encode. rewrite length_fmap. apply length_b64_digits.
  - destruct (hex_encode_bytes (Sum256 (bytes (of_bytes (url_encode buf)))) (Sum256_bytes _)) as [H1 H2].
    unfold Hash. rewrite <- length_bytes, bytes_of_bytes, H2, Sum256_length by done. done.
  - intros other. unfold Matches, Equal, Hash. rewrite bool_decide_eq_true, Hb.
    destruct (hex_encode_bytes _ (Sum256_bytes (bytes other))) as [H1 _].
    destruct (hex_encode_bytes _ (Sum256_bytes (url_encode buf))) as [H2 _].
    rewrite !bytes_of_bytes by done. split; [|congruence]. apply hex_encode_inj; apply Sum256_bytes.
Qed.
End secrets.

Lemma draw_digits_spec draw from n :
  (forall i, (from <= i < from + n)%nat -> exists d, draw i = Ok d /\ 0 <= d < 10) ->
  exists ds, draw_digits draw from n = Ok ((fun d => 48 + d) <$> ds) /\ length ds = n /\
    forall i d, ds !! i = Some d -> draw (from + i)%nat = Ok d /\ 0 <= d < 10.
Proof.
  revert from. induction n as [|n IH]; intros from Hd; [by exists []|]. cbn [draw_digits].
  destruct (Hd from) as (d & Hdraw & Hr); [lia|]. rewrite Hdraw.
  destruct (IH (S from)) as (ds & -> & Hl & Hds); [intros i Hi; apply Hd; lia|].
  exists (d :: ds). split_and!; [|cbn; lia|].
  - cbn. do 2 f_equal. assert (d = 0 \/ d = 1 \/ d = 2 \/ d = 3 \/ d = 4 \/ d = 5 \/ d = 6 \/ d = 7 \/ d = 8 \/ d = 9) as Hcases by lia.
    by repeat destruct Hcases as [->|Hcases]; [..|subst d].
  - intros [|i] x Hx; cbn in Hx; [simplify_eq; by rewrite Nat.add_0_r|].
    rewrite <- Nat.add_succ_comm. by apply Hds.
Qed.

(** A numeric code is as long as asked for and its digits are the indices
    drawn, one each: every sequence of draws gives its own code, so a uniform
    source gives uniform codes, leading zeros included. *)
Theorem numeric_code_is_its_draws draw length
  (Hlength : 0 < length) (Hdraw : forall i, (i < Z.to_nat length)%nat -> exists d, draw i = Ok d /\ 0 <= d < 10) :
  exists code, NumericCode draw length = Ok code /\ Z.of_nat (String.length code) = length /\
    forall i, (i < Z.to_nat length)%nat -> exists d, draw i = Ok d /\ bytes code !! i = Some (48 + d).
Proof.
  unfold NumericCode. rewrite (proj2 (Z.leb_gt length 0)) by lia.
  destruct (draw_digits_spec draw 0 (Z.to_nat length)) as (ds & -> & Hl & Hds); [intros i Hi; apply Hdraw; lia|].
  assert (bytes (of_bytes ((fun d => 48 + d) <$> ds)) = (fun d => 48 + d) <$> ds) as Hb.
  { apply bytes_of_bytes, Forall_fmap, Forall_lookup. intros i d Hi. destruct (Hds i d Hi). cbn. unfold is_byte. lia. }
  eexists. split; [done|]. rewrite <- length_bytes, Hb, length_fmap. split; [lia|].
  intros i Hi. destruct (lookup_lt_is_Some_2 ds i) as [d Hd]; [lia|]. exists d. split; [by apply Hds|].
  by rewrite list_lookup_fmap, Hd.
Qed.

(** ** Witnesses *)

#[local] Instance xor_digest : Sha256 := { Sum256 s := replicate 32 (foldl Z.lxor 0 (filter (fun b => is_byte b) s) mod 256) }.
#[local] Instance xor_digest_laws : Sha256Laws.
Proof.
  split; intros s; cbn [Sum256 xor_digest].
  - apply length_replicate.
  - apply Forall_replicate, Z.mod_pos_bound. lia.
Qed.

Definition counting (n : Z) : result error (list Z) := Ok ((fun i => (251 * Z.of_nat i) mod 256) <$> seq 1 (Z.to_nat n)).

Lemma token_keeps_entropy_witness :
  Token counting 6 = Ok "-_bx7Ofi" /\ exists token, Token counting 6 = Ok token /\ Matches token (Hash token) = true.
Proof.
  split; [vm_compute; reflexivity|].
  destruct (token_keeps_entropy counting 6 ((fun i => (251 * Z.of_nat i) mod 256) <$> seq 1 6)) as (token & Ht & _ & _ & _ & _ & Hm).
  - reflexivity.
  - repeat constructor; cbn; done.
  - exists token. split; [exact Ht|]. apply Hm. reflexivity.
Defined.

Lemma numeric_code_is_its_draws_witness :
  exists code, NumericCode (fun i => Ok (Z.of_nat (7 * i mod 10))) 6 = Ok code /\ String.length code = 6%nat.
Proof.
  destruct (numeric_code_is_its_draws (fun i => Ok (Z.of_nat (7 * i mod 10))) 6) as (code & Hc & Hl & _).
  - reflexivity.
  - intros i _. eexists. split; [reflexivity|]. pose proof (Nat.mod_upper_bound (7 * i) 10). lia.
  - exists code. split; [exact Hc|]. lia.
Defined.
