(* ===== verification/PgConfig.v ===== *)
(** * [postgresql/config.go]: the connection string

    Defaults, validation and the two texts of a configuration: the connection
    string and the one for messages. *)

From S2P Require Export Url.

Record Config := mkConfig {
  DSN : string;
  Host : string;
  Port : Z;
  User : string;
  Password : string;
  Database : string;
  SSLMode : string;
  MinConns : Z;
  MaxConns : Z;
  MaxConnLifetime : Z;
  MaxConnIdleTime : Z;
  HealthCheckPeriod : Z;
  ConnectTimeout : Z;
  DisablePreparedStatements : bool
}.

Definition DefaultConfig : Config :=
  mkConfig "" "localhost" 5432 "postgres" "" "postgres" "disable" 2 20 (30 * Minute) (5 * Minute) Minute (10 * Second) false.

(** The idiom [if s == "" { s = d }]. *)
Definition or_empty (s d : string) : string := if s == "" then d else s.

Definition withDefaults (c : Config) : Config :=
  let defaults := DefaultConfig in
  mkConfig (DSN c) (or_empty (Host c) (Host defaults)) (or_zero (Port c) (Port defaults)) (or_empty (User c) (User defaults))
    (Password c) (or_empty (Database c) (Database defaults)) (or_empty (SSLMode c) (SSLMode defaults))
    (or_zero (MinConns c) (MinConns defaults)) (or_zero (MaxConns c) (MaxConns defaults))
    (or_zero (MaxConnLifetime c) (MaxConnLifetime defaults)) (or_zero (MaxConnIdleTime c) (MaxConnIdleTime defaults))
    (or_zero (HealthCheckPeriod c) (HealthCheckPeriod defaults)) (or_zero (ConnectTimeout c) (ConnectTimeout defaults))
    (DisablePreparedStatements c).

Definition Validate (c : Config) : option error :=
  let cfg := withDefaults c in
  if MinConns cfg <? 0 then Some (errors_New ("postgresql: min conns must be >= 0, got " +:+ itoa (MinConns cfg)))
  else if MaxConns cfg <=? 0 then Some (errors_New ("postgresql: max conns must be > 0, got " +:+ itoa (MaxConns cfg)))
  else if MaxConns cfg <? MinConns cfg then
    Some (errors_New ("postgresql: min conns (" +:+ itoa (MinConns cfg) +:+ ") must not exceed max conns ("
                      +:+ itoa (MaxConns cfg) +:+ ")"))
  else None.

(** The URL of a configuration without [DSN]; [cfg] has its defaults. *)
Definition dsn_url (cfg : Config) : URL :=
  mkURL (bytes "postgres") [] (Some (UserPassword (bytes (User cfg)) (bytes (Password cfg))))
    (JoinHostPort (bytes (Host cfg)) (Itoa (Port cfg))) (bytes (Database cfg)) [] false false
    (Encode [(bytes "sslmode", bytes (SSLMode cfg))]) [] [].

Definition DSNString (c : Config) : string :=
  if DSN c != "" then DSN c else of_bytes (URL_String (dsn_url (withDefaults c))).

Definition unparsable : string := "postgres://<unparsable dsn>".

Definition hide_password (u : URL) : URL :=
  mkURL (Scheme u) (Opaque u)
    (match Url.User u with
     | Some (username, Some _) => Some (UserPassword username (bytes "xxxxx"))
     | user => user
     end)
    (Url.Host u) (Path u) (RawPath u) (OmitHost u) (ForceQuery u) (RawQuery u) (Fragment u) (RawFragment u).

Definition SafeDSNString (c : Config) : string :=
  match Parse (bytes (DSNString c)) with
  | None => unparsable
  | Some parsed => of_bytes (URL_String (hide_password parsed))
  end.

(** ** The connection string, taken apart *)

(** The path with the slash [URL.String] puts in front of it. *)
Definition path_of (database : list Z) : list Z := if take 1 database == [47] then database else 47 :: database.

Lemma withDefaults_nonempty c : Database (withDefaults c) <> "" /\ SSLMode (withDefaults c) <> "" /\ User (withDefaults c) <> "".
Proof. unfold withDefaults, or_empty. cbn. by repeat case_bool_decide. Qed.

Lemma JoinHostPort_nonempty host port : JoinHostPort host port <> [].
Proof. unfold JoinHostPort. case_bool_decide; [done|]. by destruct host. Qed.

Lemma bytes_nonempty s : s <> "" -> bytes s <> [].
Proof. by destruct s. Qed.

Lemma escape_slash s : escape encodePath (47 :: s) = 47 :: escape encodePath s.
Proof. done. Qed.

(** The path part of the text, after its first slash. *)
Definition path_text (database : list Z) : list Z :=
  if take 1 database == [47] then escape encodePath (drop 1 database)
  else if database == [42] then [42]
  else escape encodePath database.

Lemma unescape_path s : Forall is_byte s -> unescape encodePath (47 :: escape encodePath s) = Some (47 :: s).
Proof.
  intros Hs. rewrite <- escape_slash, unescape_escape; [done|by left|]. constructor; [by unfold is_byte|done].
Qed.

(** [RawPath] after parsing. *)
Definition path_raw (database : list Z) : list Z :=
  if (47 :: path_text database) == escape encodePath (path_of database) then [] else 47 :: path_text database.

Lemma path_text_reads database :
  Forall is_byte database -> set_encoded encodePath (47 :: path_text database) = Some (path_of database, path_raw database).
Proof.
  intros Hb. unfold set_encoded. assert (unescape encodePath (47 :: path_text database) = Some (path_of database)) as ->; [|done].
  unfold path_text, path_of. destruct database as [|c database]; [done|]. cbn [take drop].
  rewrite take_0. case_bool_decide as Hslash; [injection Hslash as ->; apply unescape_path; by inversion Hb|].
  case_bool_decide as Hstar; [by rewrite Hstar|by apply unescape_path].
Qed.

Lemma path_text_plain database : Forall is_byte database -> plain_text path_seps (path_text database).
Proof.
  intros Hb. assert (forall s, Forall is_byte s -> plain_text path_seps (escape encodePath s)) as He
    by (intros s; apply (escape_plain _ s); vm_compute; reflexivity).
  unfold path_text. case_bool_decide; [by apply He, Forall_drop|]. case_bool_decide; [by repeat constructor|by apply He].
Qed.

(** What [URL.String] prints of the path. *)
Lemma path_text_printed database :
  database <> [] ->
  (if negb (take 1 (escaped encodePath database []) == [47]) then [47] else []) ++ escaped encodePath database []
  = 47 :: path_text database.
Proof.
  intros Hne. change (escaped encodePath database []) with (if database == [42] then database else escape encodePath database).
  unfold path_text. destruct (decide (database = [42])) as [->|Hstar]; [done|]. rewrite (bool_decide_eq_false_2 _ Hstar).
  destruct database as [|c database]; [done|]. cbn [take drop]. rewrite take_0, drop_0. destruct (decide (c = 47)) as [->|Hc].
  - by rewrite escape_slash.
  - rewrite (bool_decide_eq_false_2 ([c] = [47])) by congruence. assert (take 1 (escape encodePath (c :: database)) <> [47]) as Hne'; [|by rewrite (bool_decide_eq_false_2 _ Hne')].
    change (escape encodePath (c :: database)) with (escape_byte encodePath c ++ escape encodePath database).
    unfold escape_byte. cbn [andb bool_decide]. destruct (shouldEscape c encodePath); [by cbn|]. cbn. intros [= H]. done.
Qed.

Lemma Encode_sslmode mode :
  Forall is_byte mode -> plain_text path_seps (Encode [(bytes "sslmode", mode)]) /\ Encode [(bytes "sslmode", mode)] <> [].
Proof.
  intros Hb. unfold Encode. cbn [fmap list_fmap join_on]. split; [|done].
  apply Forall_app_2; [by repeat constructor|]. constructor; [done|]. apply escape_plain; [vm_compute; reflexivity|done].
Qed.

Definition dsn_text (cfg : Config) : list Z :=
  bytes "postgres" ++ bytes "://"
  ++ (Userinfo_String (UserPassword (bytes (User cfg)) (bytes (Password cfg)))
      ++ 64 :: escape encodeHost (JoinHostPort (bytes (Host cfg)) (Itoa (Port cfg))))
  ++ 47 :: path_text (bytes (Database cfg)) ++ 63 :: Encode [(bytes "sslmode", bytes (SSLMode cfg))].

Lemma escaped_path_nonempty database : database <> [] -> escaped encodePath database [] <> [].
Proof.
  intros Hne. change (escaped encodePath database []) with (if database == [42] then database else escape encodePath database).
  case_bool_decide; [done|]. destruct database as [|c database]; [done|].
  change (escape encodePath (c :: database)) with (escape_byte encodePath c ++ escape encodePath database).
  unfold escape_byte. cbn [andb bool_decide]. by destruct (shouldEscape c encodePath).
Qed.

Lemma URL_String_dsn cfg : Database cfg <> "" -> URL_String (dsn_url cfg) = dsn_text cfg.
Proof.
  intros Hdb%bytes_nonempty. pose proof (path_text_printed _ Hdb) as Hpath.
  pose proof (JoinHostPort_nonempty (bytes (Host cfg)) (Itoa (Port cfg))) as Hhost.
  pose proof (proj2 (Encode_sslmode _ (bytes_range (SSLMode cfg)))) as Hq.
  unfold URL_String, dsn_url, dsn_text. cbn [Scheme Opaque Url.User Url.Host Path RawPath OmitHost ForceQuery RawQuery Fragment].
  pose proof (escaped_path_nonempty _ Hdb) as Hpne. rewrite (app_comm_cons (path_text _) _ 47), <- Hpath.
  generalize dependent (escaped encodePath (bytes (Database cfg)) []). intros path _ Hpne.
  rewrite (bool_decide_eq_false_2 _ Hhost), (bool_decide_eq_false_2 _ Hq), (bool_decide_eq_false_2 _ Hpne).
  cbn [negb andb orb bool_decide]. rewrite !andb_true_r.
  change (bytes "postgres" == []) with false. change (bool_decide (@nil Z = [])) with true. cbn [negb andb].
  rewrite (bool_decide_eq_false_2 (_ ++ _ = [])) by done. cbn [andb].
  by rewrite app_nil_r, <- !app_assoc.
Qed.

Lemma Itoa_bytes n : Forall is_byte (Itoa n).
Proof. unfold Itoa. destruct (Z.ltb_spec n 0); [constructor; [by unfold is_byte|]|]; apply decimal_bytes; lia. Qed.

Lemma JoinHostPort_bytes host port : Forall is_byte host -> Forall is_byte port -> Forall is_byte (JoinHostPort host port).
Proof.
  intros Hh Hp. unfold JoinHostPort. case_bool_decide.
  - constructor; [by unfold is_byte|]. apply Forall_app_2; [done|]. constructor; [by unfold is_byte|]. by constructor.
  - apply Forall_app_2; [done|]. by constructor.
Qed.

Lemma escape_bytes mode s : Forall is_byte s -> Forall is_byte (escape mode s).
Proof.
  intros Hs. assert (forall m, forallb (fun c => forallb (fun x => (0 <=? x) && (x <? 256)) (escape_byte m c)) (seqZ 0 256) = true) as H
    by (intros []; vm_compute; reflexivity).
  eapply Forall_impl; [by apply (escape_Forall _ mode s (H mode))|]. cbn beta. intros c Hc. go_bool. by unfold is_byte.
Qed.

Lemma dsn_text_bytes cfg : Forall is_byte (dsn_text cfg).
Proof.
  assert (is_byte 47 /\ is_byte 63 /\ is_byte 64 /\ is_byte colon /\ is_byte 61) as (B1 & B2 & B3 & B4 & B5) by by unfold is_byte.
  unfold dsn_text, Encode. cbn [Userinfo_String UserPassword fmap list_fmap join_on].
  repeat (apply Forall_app_2 || apply Forall_cons_2); try done;
    try apply bytes_range; try (apply escape_bytes); try apply bytes_range.
  - apply JoinHostPort_bytes; [apply bytes_range|apply Itoa_bytes].
  - unfold path_text. repeat case_bool_decide; [apply escape_bytes, Forall_drop, bytes_range|by repeat constructor|apply escape_bytes, bytes_range].
Qed.

(** What [url.Parse] reads in the text of a configuration: whether it does is up
    to the host alone, and the password comes back in its field. *)
Lemma Parse_dsn cfg :
  Parse (dsn_text cfg) =
    (h ← parseHost (bytes "postgres") (escape encodeHost (JoinHostPort (bytes (Host cfg)) (Itoa (Port cfg))));
     Some (mkURL (bytes "postgres") [] (Some (UserPassword (bytes (User cfg)) (bytes (Password cfg)))) h
             (path_of (bytes (Database cfg))) (path_raw (bytes (Database cfg))) false false (Encode [(bytes "sslmode", bytes (SSLMode cfg))]) [] [])).
Proof.
  pose proof (path_text_reads _ (bytes_range (Database cfg))). unfold dsn_text.
  destruct (Encode_sslmode _ (bytes_range (SSLMode cfg))).
  apply (Parse_with_password _ _ _ _ _ (path_of (bytes (Database cfg)), path_raw (bytes (Database cfg)))); try done; try apply bytes_range.
  - apply Forall_forallb. vm_compute. reflexivity.
  - apply escape_plain; [vm_compute; reflexivity|]. apply JoinHostPort_bytes; [apply bytes_range|apply Itoa_bytes].
  - apply path_text_plain, bytes_range.
Qed.

Definition with_password (c : Config) (password : string) : Config :=
  mkConfig (DSN c) (Host c) (Port c) (User c) password (Database c) (SSLMode c) (MinConns c) (MaxConns c)
    (MaxConnLifetime c) (MaxConnIdleTime c) (HealthCheckPeriod c) (ConnectTimeout c) (DisablePreparedStatements c).

Lemma DSNString_bytes c : DSN c = "" -> bytes (DSNString c) = dsn_text (withDefaults c).
Proof.
  intros H. unfold DSNString. rewrite H. cbn [negb bool_decide]. rewrite URL_String_dsn by apply withDefaults_nonempty.
  apply bytes_of_bytes, dsn_text_bytes.
Qed.

(** C16. The text for messages says nothing about the password: two configurations
    that differ only in it have the same text, whatever the other fields are
    (without an explicit [DSN]). *)
Theorem safe_dsn_hides_password c password
  (Hdsn : DSN c = "") :
  SafeDSNString (with_password c password) = SafeDSNString c.
Proof.
  unfold SafeDSNString. rewrite !DSNString_bytes, !Parse_dsn by done.
  cbn [withDefaults with_password DSN Host Port User Database SSLMode Password]. by destruct (parseHost _ _).
Qed.

(** ** Hosts that are read back *)

(** Bytes of DNS names and of IPv4 addresses, and bytes of IPv6 addresses. *)
Definition name_byte (c : Z) : bool := is_alnum c || one_of (bytes "-._") c.
Definition addr_byte (c : Z) : bool := bool_decide (is_Some (hex_digit c)) || (c =? colon) || (c =? dot).

Definition dialable (host : list Z) : Prop :=
  Forall (fun c => name_byte c = true) host \/
  colon ∈ host /\ Forall (fun c => addr_byte c = true) host /\ exists n, ParseAddr host = Some (Addr6 n []).

(** Text that is its own escaping in a host. *)
Definition host_byte (c : Z) : bool := negb (shouldEscape c encodeHost) && negb (c =? 37).

Lemma escape_host_id s : Forall (fun c => host_byte c = true) s -> escape encodeHost s = s.
Proof.
  induction 1 as [|c s Hc _ IH]; [done|]. change (escape encodeHost (c :: s)) with (escape_byte encodeHost c ++ escape encodeHost s).
  rewrite IH. unfold host_byte in Hc. go_bool. unfold escape_byte. cbn [andb bool_decide]. by rewrite H.
Qed.

Lemma unescape_host_id s : Forall (fun c => host_byte c = true) s -> unescape encodeHost s = Some s.
Proof.
  induction 1 as [|c s Hc _ IH]; [done|]. unfold host_byte in Hc. go_bool. cbn [unescape].
  rewrite (proj2 (Z.eqb_neq c 37)), IH by done. cbn [mbind option_bind].
  destruct (Z.eqb_spec c 43) as [->|]; [done|]. by rewrite H, andb_false_r.
Qed.

Lemma find_zone_none s : 37 ∉ s -> find_zone s = None.
Proof.
  induction s as [|c s IH]; [done|]. intros [Hc Hs]%not_elem_of_cons. cbn [find_zone].
  change (bytes "%25") with [37; 50; 53].
  rewrite bool_decide_eq_false_2 by (cbn; intros [= H]; done). by rewrite IH.
Qed.

Lemma port_bytes port : 0 <= port -> Forall (fun c => is_digit c = true) (Itoa port).
Proof.
  intros Hp. unfold Itoa. rewrite (proj2 (Z.ltb_ge port 0)) by lia. eapply Forall_impl; [by apply decimal_digits|].
  intros c. unfold is_digit, in_byte_range. cbn beta. lia.
Qed.

(** Every byte of a dialable host, and of a port, is a host byte, and none of them
    separates anything but a colon. *)
Lemma host_bytes (P : Z -> bool) s :
  Forall (fun c => P c = true) s ->
  forallb (fun c => implb (P c) (host_byte c && negb (one_of (bytes "[]%") c))) (seqZ 0 256) = true ->
  Forall is_byte s -> Forall (fun c => (host_byte c && negb (one_of (bytes "[]%") c)) = true) s.
Proof.
  intros Hs H Hb. induction Hs as [|c s Hc _ IH]; [constructor|]. inversion Hb; subst. constructor; [|by apply IH].
  assert (implb (P c) (host_byte c && negb (one_of (bytes "[]%") c)) = true) as Hi
    by (apply (byte_check (fun c => implb (P c) (host_byte c && negb (one_of (bytes "[]%") c)))); done).
  by rewrite Hc in Hi.
Qed.

Lemma parseHost_dialable host port :
  Forall is_byte host -> 0 <= port -> dialable host ->
  parseHost (bytes "postgres") (escape encodeHost (JoinHostPort host (Itoa port))) = Some (JoinHostPort host (Itoa port)).
Proof.
  intros Hb Hport Hdial.
  assert (Forall (fun c => (host_byte c && negb (one_of (bytes "[]%") c)) = true) (Itoa port)) as Hp.
  { eapply host_bytes; [by apply port_bytes|vm_compute; reflexivity|apply Itoa_bytes]. }
  assert (Forall (fun c => (host_byte c && negb (one_of (bytes "[]%") c)) = true) host) as Hh.
  { destruct Hdial as [H|(_ & H & _)]; (eapply host_bytes; [exact H|vm_compute; reflexivity|done]). }
  assert (forall t, Forall (fun c => (host_byte c && negb (one_of (bytes "[]%") c)) = true) t ->
    Forall (fun c => host_byte c = true) t /\ 91 ∉ t /\ 93 ∉ t /\ 37 ∉ t) as Hsplit.
  { clear. intros t Ht. split; [eapply Forall_impl; [exact Ht|]; intros c; by rewrite andb_true_iff; intros []|].
    split_and!; intros Hin; apply (proj1 (Forall_forall _ _) Ht) in Hin; vm_compute in Hin; discriminate Hin. }
  apply Hsplit in Hp as (Hp & Hp1 & Hp2 & _), Hh as (Hh & Hh1 & Hh2 & Hh3). clear Hsplit.
  assert (forallb is_digit (Itoa port) = true) as Hdigits by by apply Forall_forallb, port_bytes.
  assert (colon ∉ Itoa port) as Hpc.
  { intros Hin. apply (proj1 (Forall_forall _ _) (port_bytes port Hport)) in Hin. vm_compute in Hin. discriminate Hin. }
  generalize dependent (Itoa port). intros p Hp Hp1 Hp2 Hdigits Hpc. unfold JoinHostPort. case_bool_decide as Hcolon.
  - destruct Hdial as [Hname|(_ & _ & n & Hn)].
    { apply (proj1 (Forall_forall _ _) Hname) in Hcolon. vm_compute in Hcolon. discriminate Hcolon. }
    assert (Forall (fun c => host_byte c = true) (colon :: p)) as Hcp by by constructor.
    rewrite escape_host_id by (constructor; [done|]; apply Forall_app_2; [done|]; by constructor).
    unfold parseHost. change (91 :: host ++ [93; colon] ++ p) with ([] ++ 91 :: (host ++ 93 :: colon :: p)).
    rewrite cut_last_sep by (rewrite not_elem_of_app, !not_elem_of_cons; split_and!; done).
    change ([] ++ 91 :: (host ++ 93 :: colon :: p)) with ((91 :: host) ++ 93 :: colon :: p).
    rewrite cut_last_sep by (rewrite not_elem_of_cons; split_and!; done). cbn [mbind option_bind validOptionalPort drop].
    rewrite Z.eqb_refl, Hdigits, (unescape_host_id (colon :: p)) by done. cbn [negb andb].
    rewrite drop_0, find_zone_none, (unescape_host_id host) by done. cbn [mbind option_bind]. by rewrite Hn.
  - rewrite escape_host_id by (apply Forall_app_2; [done|]; by constructor). unfold parseHost.
    rewrite cut_last_no_sep by (rewrite not_elem_of_app, not_elem_of_cons; split_and!; done).
    rewrite cut_sep, cut_last_sep, bool_decide_eq_false_2 by done. cbn [andb validOptionalPort].
    rewrite Z.eqb_refl, Hdigits. cbn [andb]. apply unescape_host_id, Forall_app_2; [done|]. by constructor.
Qed.

(** C21. The connection string carries the configuration: whatever the bytes of the
    user, the password and the database, and for every host that is a name or an
    address, reading it as a URL gives back exactly the user, password, host, port,
    database and mode, defaults included. *)
Theorem dsn_carries_config c
  (Hdsn : DSN c = "") (Hport : 0 <= Port c) (Hhost : dialable (bytes (Host (withDefaults c)))) :
  let cfg := withDefaults c in
  exists u, Parse (bytes (DSNString c)) = Some u /\
    Scheme u = bytes "postgres" /\
    Url.User u = Some (UserPassword (bytes (User cfg)) (bytes (Password c))) /\
    Url.Host u = JoinHostPort (bytes (Host cfg)) (Itoa (Port cfg)) /\
    Path u = path_of (bytes (Database cfg)) /\
    RawQuery u = Encode [(bytes "sslmode", bytes (SSLMode cfg))].
Proof.
  cbn zeta. rewrite DSNString_bytes, Parse_dsn, parseHost_dialable by
    (done || apply bytes_range || (cbn; unfold or_zero; case_match; lia)).
  eexists. by split_and!.
Qed.

(** ** Witnesses and examples *)

Definition sample : Config := mkConfig "" "fe80::1" 0 "app" "p@ss:w/rd%?#" "" "" 0 0 0 0 0 0 false.

Lemma safe_dsn_hides_password_witness :
  SafeDSNString sample = "postgres://app:xxxxx@[fe80::1]:5432/postgres?sslmode=disable" /\
  SafeDSNString (with_password sample "other") = SafeDSNString sample.
Proof. split; [vm_compute; reflexivity|]. apply (safe_dsn_hides_password sample "other"). reflexivity. Defined.

Lemma dsn_carries_config_witness :
  DSNString sample = "postgres://app:p%40ss%3Aw%2Frd%25%3F%23@[fe80::1]:5432/postgres?sslmode=disable" /\
  exists u, Parse (bytes (DSNString sample)) = Some u /\ Path u = bytes "/postgres".
Proof.
  split; [vm_compute; reflexivity|].
  destruct (dsn_carries_config sample) as (u & Hu & _ & _ & _ & Hp & _).
  - reflexivity.
  - discriminate.
  - right. split_and!; [by_decision|apply Forall_forallb; vm_compute; reflexivity|]. eexists. vm_compute. reflexivity.
  - exists u. exact (conj Hu Hp).
Defined.

Definition with_dsn (dsn : string) : Config := mkConfig dsn "" 0 "" "" "" "" 0 0 0 0 0 0 false.

(** A given connection string in PostgreSQL's keyword form, or with the password
    among the parameters, both of which the driver accepts, is printed with its
    password. *)
Example given_dsn_leaks :
  SafeDSNString (with_dsn "host=db user=app password=hunter2") = "host=db%20user=app%20password=hunter2" /\
  SafeDSNString (with_dsn "postgres://app@db/app?password=hunter2") = "postgres://app@db/app?password=hunter2" /\
  SafeDSNString (with_dsn "postgres://app:hunter2@db/app") = "postgres://app:xxxxx@db/app" /\
  SafeDSNString (with_dsn "postgres://app:hun%ter2@db/app") = unparsable.
Proof. vm_compute. by split_and!. Qed.

(** A pool of one connection cannot be asked for: the default of two idle ones
    exceeds it, and zero idle ones mean the default. *)
Example single_connection_refused :
  Validate (mkConfig "" "" 0 "" "" "" "" 0 1 0 0 0 0 false)
  = Some (errors_New "postgresql: min conns (2) must not exceed max conns (1)") /\
  Validate (mkConfig "" "" 0 "" "" "" "" 1 1 0 0 0 0 false) = None.
Proof. vm_compute. by split. Qed.
