(* ===== verification/Migrate.v ===== *)
(** * [migrate/migrate.go]: running migrations

    Goose, the driver and the file system are parameters.  The operations return a
    value next to their error, as in the source: what a closure assigned before
    it failed is returned too. *)

From S2P Require Export Io PgConfig.

Definition TableName : string := "schema_migrations".

Record Config := mkConfig {
  Dir : string;
  Logger : option Context.Logger;
  Table : string;
  DisableSessionLock : bool
}.

Record Migration := mkMigration { mig_Version : Z; mig_Path : string; mig_Duration : Z }.

(** [*goose.Provider]: the database handle, the files and the options it was made
    with. *)
Record Provider (FS : Type) := mkProvider {
  prov_db : nat;
  prov_dsn : string;
  prov_max_open : Z;
  prov_max_idle : Z;
  prov_fs : FS;
  prov_table : string;
  prov_logger : Context.Logger;
  prov_locker : bool
}.
Arguments mkProvider {_}. Arguments prov_db {_}. Arguments prov_dsn {_}. Arguments prov_max_open {_}.
Arguments prov_max_idle {_}. Arguments prov_fs {_}. Arguments prov_table {_}. Arguments prov_logger {_}.
Arguments prov_locker {_}.

(** A value and an error. *)
Abbreviation call A := (world -> world * (A * option error)).

Class Goose := {
  FS : Type;
  fs_Sub : string -> result error FS;
  pgx_ParseConfig : string -> option error;
  PingContext : Context -> string -> option error;
  NewPostgresSessionLocker : option error;
  NewProvider : Provider FS -> option error;
  prov_Up : Context -> Provider FS -> call (list Migration);
  prov_UpTo : Context -> Z -> Provider FS -> call unit;
  prov_Down : Context -> Provider FS -> call unit;
  prov_GetDBVersion : Context -> Provider FS -> call Z;
  prov_HasPending : Context -> Provider FS -> call bool;
  MigrationStatus : Type;
  prov_Status : Context -> Provider FS -> call (list MigrationStatus)
}.

Section migrate.
Context `{!Goose} (default : Context.Logger).

Definition loggerOf (cfg : Config) : Context.Logger :=
  match Logger cfg with Some log => log | None => default end.

(** What [withProvider] does before the provider exists, after the database was
    opened. *)
Definition new_provider (ctx : Context) (dbCfg : PgConfig.Config) (files : FS) (cfg : Config) (db : nat)
    : result error (Provider FS) :=
  match PingContext ctx (DSNString dbCfg) with
  | Some err => Err (Errorf ("migrate: ping " +:+ SafeDSNString dbCfg) err)
  | None =>
      let table := if Table cfg == "" then TableName else Table cfg in
      match (if DisableSessionLock cfg then None else NewPostgresSessionLocker) with
      | Some err => Err (Errorf "migrate: create session locker" err)
      | None =>
          let provider := mkProvider db (DSNString dbCfg) 1 1 files table (loggerOf cfg) (negb (DisableSessionLock cfg)) in
          match NewProvider provider with
          | Some err => Err (Errorf "migrate: create provider" err)
          | None => Ok provider
          end
      end
  end.

Definition withProvider {A} (ctx : Context) (dbCfg : PgConfig.Config) (cfg : Config) (zero : A)
    (action : Provider FS -> call A) : call A := fun w =>
  if Dir cfg == "" then (w, (zero, Some (errors_New "migrate: dir is required")))
  else match Validate dbCfg with
  | Some err => (w, (zero, Some err))
  | None =>
      match fs_Sub (Dir cfg) with
      | Err err => (w, (zero, Some (Errorf ("migrate: open " +:+ Dir cfg) err)))
      | Ok files =>
          match pgx_ParseConfig (DSNString dbCfg) with
          | Some err => (w, (zero, Some (Errorf ("migrate: parse config for " +:+ SafeDSNString dbCfg) err)))
          | None =>
              match open_handle w with
              | (w, Err err) => (w, (zero, Some err))
              | (w, Ok db) =>
                  let '(w, answer) :=
                    match new_provider ctx dbCfg files cfg db with
                    | Err err => (w, (zero, Some err))
                    | Ok provider =>
                        let '(w, (a, err)) := action provider w in
                        (w, (a, Errorf "migrate" <$> err))
                    end in
                  ((close_handle db w).1, answer)
              end
          end
      end
  end.

Definition applied (log : Context.Logger) (ctx : Context) (result : Migration) : list Line :=
  LogAttrs log ctx LevelInfo "migration applied"
    [slog_Int64 "version" (mig_Version result); slog_String "path" (mig_Path result);
     slog_String "duration" (Duration_String (mig_Duration result))].

Definition Up (ctx : Context) (dbCfg : PgConfig.Config) (cfg : Config) : call Z :=
  withProvider ctx dbCfg cfg 0 (fun provider w =>
    match prov_Up ctx provider w with
    | (w, (_, Some err)) => (w, (0, Some err))
    | (w, (results, None)) =>
        let w := (say (results ≫= applied (loggerOf cfg) Background) w).1 in
        prov_GetDBVersion ctx provider w
    end).

Definition UpTo (ctx : Context) (dbCfg : PgConfig.Config) (cfg : Config) (version : Z) : call unit :=
  withProvider ctx dbCfg cfg tt (prov_UpTo ctx version).
Definition Down (ctx : Context) (dbCfg : PgConfig.Config) (cfg : Config) : call unit :=
  withProvider ctx dbCfg cfg tt (prov_Down ctx).
Definition Version (ctx : Context) (dbCfg : PgConfig.Config) (cfg : Config) : call Z :=
  withProvider ctx dbCfg cfg 0 (prov_GetDBVersion ctx).
Definition HasPending (ctx : Context) (dbCfg : PgConfig.Config) (cfg : Config) : call bool :=
  withProvider ctx dbCfg cfg false (prov_HasPending ctx).
Definition Status (ctx : Context) (dbCfg : PgConfig.Config) (cfg : Config) : call (list MigrationStatus) :=
  withProvider ctx dbCfg cfg [] (prov_Status ctx).

(** ** What holds of every operation *)

(** A call that leaves the open handles as they were. *)
Definition tidy {A} (c : call A) : Prop := forall w, world_ok w ->
  world_ok (c w).1 /\ open_handles (c w).1 = open_handles w.

Lemma withProvider_tidy {A} ctx dbCfg cfg (zero : A) action :
  (forall provider, tidy (action provider)) -> tidy (withProvider ctx dbCfg cfg zero action).
Proof.
  intros Ha w Hw. unfold withProvider. case_match; [done|]. destruct (Validate dbCfg); [done|].
  destruct (fs_Sub (Dir cfg)) as [files|]; [|done]. destruct (pgx_ParseConfig _); [done|]. unfold open_handle.
  set (db := next_handle w). set (w1 := mkWorld (S db) ({[db]} ∪ open_handles w) (log_lines w)).
  assert (db ∉ open_handles w) as Hfresh by (intros Hin; pose proof (Hw db Hin); lia).
  assert (world_ok w1) as Hw1 by (intros x; cbn; intros [->%elem_of_singleton|Hx]%elem_of_union; [lia|pose proof (Hw x Hx); lia]).
  assert (forall w2, world_ok w2 -> open_handles w2 = open_handles w1 ->
    world_ok (close_handle db w2).1 /\ open_handles (close_handle db w2).1 = open_handles w) as Hclose.
  { intros w2 Hok Hopen. split; [intros x Hx; apply Hok; cbn in Hx; set_solver|]. cbn. rewrite Hopen. cbn. set_solver. }
  destruct (new_provider ctx dbCfg files cfg db) as [provider|err]; [|by apply Hclose].
  destruct (Ha provider w1 Hw1) as [Hok Hopen]. destruct (action provider w1) as [w2 [a err]]. by apply Hclose.
Qed.

(** The setup, which comes first and decides alone whether the action runs. *)
Definition setup_error (ctx : Context) (dbCfg : PgConfig.Config) (cfg : Config) (db : nat) : option error :=
  if Dir cfg == "" then Some (errors_New "migrate: dir is required")
  else match Validate dbCfg with
  | Some err => Some err
  | None =>
      match fs_Sub (Dir cfg) with
      | Err err => Some (Errorf ("migrate: open " +:+ Dir cfg) err)
      | Ok files =>
          match pgx_ParseConfig (DSNString dbCfg) with
          | Some err => Some (Errorf ("migrate: parse config for " +:+ SafeDSNString dbCfg) err)
          | None => match new_provider ctx dbCfg files cfg db with Err err => Some err | Ok _ => None end
          end
      end
  end.
End migrate.

(** Goose's operations close what they open. *)
Class GooseLaws `{!Goose} : Prop := {
  Up_tidy ctx p : tidy (prov_Up ctx p);
  UpTo_tidy ctx v p : tidy (prov_UpTo ctx v p);
  Down_tidy ctx p : tidy (prov_Down ctx p);
  GetDBVersion_tidy ctx p : tidy (prov_GetDBVersion ctx p);
  HasPending_tidy ctx p : tidy (prov_HasPending ctx p);
  Status_tidy ctx p : tidy (prov_Status ctx p)
}.

Section contract.
Context `{!Goose} {HG : GooseLaws} (default : Context.Logger).

(** The provider an operation works on: one connection, the configured table and
    logger, and the session lock unless it is disabled. *)
Definition provider_for (dbCfg : PgConfig.Config) (cfg : Config) (files : FS) (db : nat) : Provider FS :=
  mkProvider db (DSNString dbCfg) 1 1 files (or_empty (Table cfg) TableName) (loggerOf default cfg)
    (negb (DisableSessionLock cfg)).

Lemma new_provider_for ctx dbCfg files cfg db provider :
  new_provider default ctx dbCfg files cfg db = Ok provider -> provider = provider_for dbCfg cfg files db.
Proof. unfold new_provider. intros Hnew. destruct (PingContext _ _); [done|]. destruct (if DisableSessionLock cfg then _ else _); [done|]. destruct (NewProvider _); [done|]. by injection Hnew as <-. Qed.

Lemma Up_action_tidy ctx (cfg : Config) provider :
  tidy (fun w =>
    match prov_Up ctx provider w with
    | (w, (_, Some err)) => (w, (0, Some err))
    | (w, (results, None)) => prov_GetDBVersion ctx provider (say (results ≫= applied (loggerOf default cfg) Background) w).1
    end).
Proof.
  intros w Hw. destruct (Up_tidy ctx provider w Hw) as [Hok Hopen].
  destruct (prov_Up ctx provider w) as [w' [results [err|]]]; [done|]. cbn in Hok, Hopen. rewrite <- Hopen.
  exact (GetDBVersion_tidy ctx provider (say _ w').1 Hok).
Qed.

(** Every operation leaves the open handles as it found them, on success and on
    every error; a setup that fails is the answer, and nothing is migrated; else
    the migrations run on a provider with a single connection, the configured
    table, and the session lock unless it was disabled. *)
Theorem migrations_run_locked_and_close ctx dbCfg cfg version w (Hw : world_ok w) :
  (open_handles (Up default ctx dbCfg cfg w).1 = open_handles w /\
   open_handles (UpTo default ctx dbCfg cfg version w).1 = open_handles w /\
   open_handles (Down default ctx dbCfg cfg w).1 = open_handles w /\
   open_handles (Version default ctx dbCfg cfg w).1 = open_handles w /\
   open_handles (HasPending default ctx dbCfg cfg w).1 = open_handles w /\
   open_handles (Status default ctx dbCfg cfg w).1 = open_handles w) /\
  forall A (zero : A) action,
    match setup_error default ctx dbCfg cfg (next_handle w) with
    | Some err => (withProvider default ctx dbCfg cfg zero action w).2 = (zero, Some err)
    | None => exists files, fs_Sub (Dir cfg) = Ok files /\
        let answer := (action (provider_for dbCfg cfg files (next_handle w)) (open_handle w).1).2 in
        (withProvider default ctx dbCfg cfg zero action w).2 = (answer.1, Errorf "migrate" <$> answer.2)
    end.
Proof.
  split.
  - split_and!; apply withProvider_tidy; try done; intros provider;
      [apply Up_action_tidy|apply UpTo_tidy|apply Down_tidy|apply GetDBVersion_tidy|apply HasPending_tidy|apply Status_tidy].
  - intros A zero action. unfold setup_error, withProvider. destruct (Dir cfg == ""); [done|]. destruct (Validate dbCfg); [done|].
    destruct (fs_Sub (Dir cfg)) as [files|]; [|done]. destruct (pgx_ParseConfig _); [done|]. cbn.
    destruct (new_provider _ _ _ _ _ _) as [provider|] eqn:Hp; [|done]. apply new_provider_for in Hp as ->.
    exists files. split; [done|]. by destruct (action _ _) as [w' [a err]].
Qed.
End contract.

(** ** Witness *)

(** A database at version 3 with one migration left. *)
#[local] Instance one_pending : Goose := {
  FS := string;
  fs_Sub dir := Ok dir;
  pgx_ParseConfig _ := None;
  PingContext _ _ := None;
  NewPostgresSessionLocker := None;
  NewProvider _ := None;
  prov_Up _ _ w := (w, ([mkMigration 4 "4_teams.sql" Second], None));
  prov_UpTo _ _ _ w := (w, (tt, None));
  prov_Down _ _ w := (w, (tt, Some (errors_New "no migration")));
  prov_GetDBVersion _ _ w := (w, (4, None));
  prov_HasPending _ _ w := (w, (false, None));
  MigrationStatus := unit;
  prov_Status _ _ w := (w, ([], None))
}.
#[local] Instance one_pending_laws : GooseLaws.
Proof. by split; intros; intros w Hw. Qed.

Lemma migrations_run_locked_and_close_witness :
  let cfg := mkConfig "migrations" None "" false in
  let w := (mkWorld 0 ∅ []) in
  (Up (mkLogger LevelInfo [] false) Background DefaultConfig cfg w).2 = (4, None) /\
  open_handles (Down (mkLogger LevelInfo [] false) Background DefaultConfig cfg w).1 = ∅.
Proof.
  split; [vm_compute; reflexivity|].
  apply (migrations_run_locked_and_close (mkLogger LevelInfo [] false) Background DefaultConfig (mkConfig "migrations" None "" false) 0 (mkWorld 0 ∅ [])).
  intros h Hh. cbn in Hh. by apply not_elem_of_empty in Hh.
Defined.
