(* ===== verification/EnvConfig.v ===== *)
(** * Package [config]: files and environment

    [os.Stat], godotenv and caarlos0/env are parameters.  The process environment
    is the state the files are loaded into. *)

From S2P Require Export Apperr.

Abbreviation environment := (gmap string string).

Definition DefaultFiles : list string := [".env.local"; ".env"].

(** What [os.Stat] says of a file; [NotExist] is an error that
    [errors.Is(err, fs.ErrNotExist)]. *)
Inductive stat : Type :=
| Exists
| NotExist
| StatFailed (err : error).

Class Dotenv := {
  Stat : string -> stat;
  file_vars : string -> environment;
  godotenv_Load : environment -> string -> environment * option error
}.

(** [godotenv.Load] sets the variables of the file that are not set yet. *)
Class DotenvLaws `{!Dotenv} : Prop := {
  Load_sets env file env' : godotenv_Load env file = (env', None) -> env' = env ∪ file_vars file
}.

Section config.
Context `{!Dotenv}.

Fixpoint load_files (files : list string) (env : environment) : environment * option error :=
  match files with
  | [] => (env, None)
  | file :: files =>
      match Stat file with
      | NotExist => load_files files env
      | StatFailed err => (env, Some (Errorf ("config: stat " +:+ file) err))
      | Exists =>
          match godotenv_Load env file with
          | (env, Some err) => (env, Some (Errorf ("config: load " +:+ file) err))
          | (env, None) => load_files files env
          end
      end
  end.

Definition LoadFiles (files : list string) (env : environment) : environment * option error :=
  load_files (if files == [] then DefaultFiles else files) env.

(** [env.Parse] fills the fields it can of [dst]. *)
Section load.
Context {T : Type} (zero : T) (env_Parse : environment -> T -> T * option error).

Definition LoadInto (dst : T) (files : list string) (env : environment) : environment * (T * option error) :=
  match LoadFiles files env with
  | (env, Some err) => (env, (dst, Some err))
  | (env, None) =>
      match env_Parse env dst with
      | (dst, Some err) => (env, (dst, Some (Errorf "config: parse environment" err)))
      | (dst, None) => (env, (dst, None))
      end
  end.

Definition Load (files : list string) (env : environment) : environment * (T * option error) :=
  LoadInto zero files env.

Definition MustLoad (files : list string) (env : environment) : environment * outcome T :=
  match Load files env with
  | (env, (_, Some err)) => (env, Panic (fmt_error err))
  | (env, (cfg, None)) => (env, Ret cfg)
  end.
End load.

(** ** Which value wins *)

Definition present (file : string) : bool := match Stat file with Exists => true | _ => false end.

(** The value in the first of the present files that sets it. *)
Fixpoint first_set (k : string) (files : list string) : option string :=
  match files with
  | [] => None
  | file :: files =>
      if present file then match file_vars file !! k with Some v => Some v | None => first_set k files end
      else first_set k files
  end.
End config.

Section wins.
Context `{!Dotenv} {HD : DotenvLaws}.

Lemma load_files_lookup files env env' k :
  load_files files env = (env', None) ->
  env' !! k = match env !! k with Some v => Some v | None => first_set k files end.
Proof.
  revert env. induction files as [|file files IH]; intros env; cbn [load_files first_set]; unfold present.
  - intros [= <-]. by destruct (env !! k).
  - destruct (Stat file); [|by apply IH|done]. destruct (godotenv_Load env file) as [env1 [err|]] eqn:Hload; [done|].
    apply Load_sets in Hload as ->. intros ->%IH. rewrite lookup_union. by destruct (env !! k), (file_vars file !! k).
Qed.

(** Configuration is read from the real environment first, then from the files
    in the order given ([.env.local] before [.env] by default): a variable that is
    set keeps its value, the first present file that sets it decides otherwise, a
    missing file counts for nothing, and the structure is parsed from exactly
    that environment; a file that cannot be read, or a field that cannot be
    parsed, is the error. *)
Theorem environment_wins {T} (zero : T) env_Parse files env :
  let files' := if files == [] then DefaultFiles else files in
  let '(env', (cfg, err)) := Load zero env_Parse files env in
  match (LoadFiles files env).2 with
  | Some e => err = Some e /\ cfg = zero
  | None =>
      (forall k, env' !! k = match env !! k with Some v => Some v | None => first_set k files' end) /\
      cfg = (env_Parse env' zero).1 /\
      err = Errorf "config: parse environment" <$> (env_Parse env' zero).2
  end.
Proof.
  cbn zeta. unfold Load, LoadInto. destruct (LoadFiles files env) as [env1 [e|]] eqn:Hfiles; cbn [snd]; [done|].
  pose proof (fun k => load_files_lookup _ _ _ k Hfiles) as Hk.
  by destruct (env_Parse env1 zero) as [cfg [e|]] eqn:Hp; rewrite Hp.
Qed.
End wins.

(** ** Witness *)

#[local] Instance two_files : Dotenv := {
  Stat file := if file == ".env.local" then NotExist else Exists;
  file_vars file := <["PORT" := "8080"]> (<["HOST" := "db"]> ∅);
  godotenv_Load env file := (env ∪ <["PORT" := "8080"]> (<["HOST" := "db"]> ∅), None)
}.
#[local] Instance two_files_laws : DotenvLaws.
Proof. split. intros env file env'. by intros [= <-]. Qed.

Lemma environment_wins_witness :
  (Load "" (fun env _ => (default "" (env !! "PORT"), None)) [] (<["PORT" := "9090"]> ∅)).2 = ("9090", None) /\
  (Load "" (fun env _ => (default "" (env !! "HOST"), None)) [] (<["PORT" := "9090"]> ∅)).1 !! "HOST" = Some "db".
Proof.
  split; [vm_compute; reflexivity|].
  pose proof (environment_wins "" (fun env _ => (default "" (env !! "HOST"), None)) [] (<["PORT" := "9090"]> ∅)) as H.
  cbn zeta in H. destruct (Load _ _ _ _) as [env' [cfg err]]. destruct H as (H & _). rewrite H. vm_compute. reflexivity.
Defined.
