(* ===== verification/RedisClient.v ===== *)
(** * [redisclient/redis.go]: options and opening a client

    go-redis is a parameter: what it reads of a URL, and how a ping ends. *)

From S2P Require Export Io NetipTexts.

Record Config := mkConfig {
  URL : string;
  Host : string;
  Port : Z;
  Username : string;
  Password : string;
  DB : Z;
  PoolSize : Z;
  MinIdleConns : Z;
  DialTimeout : Z;
  ReadTimeout : Z;
  WriteTimeout : Z;
  MaxRetries : Z;
  ConnMaxLifetime : Z
}.

(** [redis.Options], as far as the source sets it; [opt_rest] is the rest. *)
Record Options_ (rest : Type) := mkOptions {
  opt_Addr : string;
  opt_Username : string;
  opt_Password : string;
  opt_DB : Z;
  opt_PoolSize : Z;
  opt_MinIdleConns : Z;
  opt_DialTimeout : Z;
  opt_ReadTimeout : Z;
  opt_WriteTimeout : Z;
  opt_MaxRetries : Z;
  opt_ConnMaxLifetime : Z;
  opt_rest : rest
}.
Arguments mkOptions {_}. Arguments opt_Addr {_}. Arguments opt_Username {_}. Arguments opt_Password {_}.
Arguments opt_DB {_}. Arguments opt_PoolSize {_}. Arguments opt_MinIdleConns {_}. Arguments opt_DialTimeout {_}.
Arguments opt_ReadTimeout {_}. Arguments opt_WriteTimeout {_}. Arguments opt_MaxRetries {_}.
Arguments opt_ConnMaxLifetime {_}. Arguments opt_rest {_}.

Class GoRedis := {
  other_options : Type;
  no_options : other_options;
  ParseURL : string -> result error (Options_ other_options);
  Hook : Type;
  ping_error : Context -> Options_ other_options -> list Hook -> option error
}.

Definition orDefault (value fallback : string) : string := if value == "" then fallback else value.
Definition orDefaultInt (value fallback : Z) : Z := if value =? 0 then fallback else value.
Definition orDefaultDuration (value fallback : Z) : Z := if value =? 0 then fallback else value.

Section client.
Context `{!GoRedis}.

Definition Options (c : Config) : result error (Options_ other_options) :=
  options ← (if URL c != "" then
               match ParseURL (URL c) with
               | Err err => Err (Errorf "redisclient: parse REDIS_URL" err)
               | Ok parsed => Ok parsed
               end
             else Ok (mkOptions (orDefault (Host c) "localhost" +:+ ":" +:+ itoa (orDefaultInt (Port c) 6379))
                        (Username c) (Password c) (DB c) 0 0 0 0 0 0 0 no_options));
  Ok (mkOptions (opt_Addr options) (opt_Username options) (opt_Password options) (opt_DB options)
        (orDefaultInt (PoolSize c) 10) (orDefaultInt (MinIdleConns c) 2) (orDefaultDuration (DialTimeout c) (5 * Second))
        (orDefaultDuration (ReadTimeout c) (3 * Second)) (orDefaultDuration (WriteTimeout c) (3 * Second))
        (orDefaultInt (MaxRetries c) 3) (orDefaultDuration (ConnMaxLifetime c) (30 * Minute)) (opt_rest options)).

Definition Open (now : Z) (ctx : Context) (cfg : Config) (hooks : list Hook) : io nat :=
  options ← of_result (Options cfg);
  client ← open_handle;
  ping ← attempt (check (ping_error (WithTimeout ctx now (opt_DialTimeout options)) options hooks));
  match ping with
  | Ok _ => mret client
  | Err err => _ ← close_handle client; fail (Errorf ("redisclient: ping " +:+ opt_Addr options) err)
  end.

Lemma client_Open_owning now ctx cfg hooks : owning (Open now ctx cfg hooks).
Proof. unfold Open. apply owning_bind; [auto with io|]. intros options. apply owning_checked; auto with io. Qed.

(** Opening a client leaves exactly the client open, or nothing: the error is that
    of the URL or of the ping, with the address. *)
Theorem redis_open_contract now ctx cfg hooks w (Hw : world_ok w) :
  match Options cfg with
  | Err err => (Open now ctx cfg hooks w).2 = Err err /\ open_handles (Open now ctx cfg hooks w).1 = open_handles w
  | Ok options =>
      match ping_error (WithTimeout ctx now (opt_DialTimeout options)) options hooks with
      | Some err => (Open now ctx cfg hooks w).2 = Err (Errorf ("redisclient: ping " +:+ opt_Addr options) err) /\
          open_handles (Open now ctx cfg hooks w).1 = open_handles w
      | None => exists client, (Open now ctx cfg hooks w).2 = Ok client /\ client ∉ open_handles w /\
          open_handles (Open now ctx cfg hooks w).1 = {[client]} ∪ open_handles w
      end
  end.
Proof.
  destruct (client_Open_owning now ctx cfg hooks w Hw) as [_ Ho]. revert Ho. unfold Open, mbind, io_bind, of_result.
  destruct (Options cfg) as [options|err]; [|done]. cbn. unfold attempt, check.
  destruct (ping_error _ _ _) as [err|]; cbn; [done|]. intros [H1 H2]. eauto.
Qed.

(** The pool settings of a URL are never used: they are overwritten by those of the
    configuration, or by the defaults. *)
Theorem url_pool_settings_ignored c o options
  (Hurl : URL c <> "") (Hparse : ParseURL (URL c) = Ok o) (Hoptions : Options c = Ok options) :
  opt_Addr options = opt_Addr o /\ opt_Username options = opt_Username o /\ opt_Password options = opt_Password o /\
  opt_DB options = opt_DB o /\ opt_rest options = opt_rest o /\
  opt_PoolSize options = orDefaultInt (PoolSize c) 10 /\ opt_ReadTimeout options = orDefaultDuration (ReadTimeout c) (3 * Second) /\
  opt_DialTimeout options = orDefaultDuration (DialTimeout c) (5 * Second).
Proof.
  revert Hoptions. unfold Options. rewrite (bool_decide_eq_false_2 _ Hurl), Hparse. cbn. by intros [= <-].
Qed.
End client.

(** ** Examples *)

#[local] Instance lenient : GoRedis := {
  other_options := unit;
  no_options := tt;
  ParseURL _ := Ok (mkOptions "cache:6380" "" "" 0 50 0 0 Second 0 0 0 tt);
  Hook := unit;
  ping_error _ _ _ := None
}.

(** "redis://cache:6380?pool_size=50&read_timeout=1s" *)
Example url_settings_lost :
  opt_PoolSize <$> (match Options (mkConfig "redis://cache:6380?pool_size=50" "" 0 "" "" 0 0 0 0 0 0 0 0) with Ok o => Some o | Err _ => None end)
  = Some 10.
Proof. reflexivity. Qed.

(** An IPv6 host gives an address that no dialer splits. *)
Example ipv6_host_unusable :
  (match Options (mkConfig "" "::1" 0 "" "" 0 0 0 0 0 0 0 0) with Ok o => Some (opt_Addr o) | Err _ => None end) = Some "::1:6379" /\
  SplitHostPort (bytes "::1:6379") = None.
Proof. vm_compute. by split. Qed.

Lemma redis_open_contract_witness :
  exists client, (Open 0 Background (mkConfig "" "" 0 "" "" 0 0 0 0 0 0 0 0) [] (mkWorld 0 ∅ [])).2 = Ok client.
Proof.
  assert (world_ok (mkWorld 0 ∅ [])) as Hw by (intros h Hh; cbn in Hh; by apply not_elem_of_empty in Hh).
  destruct (redis_open_contract 0 Background (mkConfig "" "" 0 "" "" 0 0 0 0 0 0 0 0) [] (mkWorld 0 ∅ []) Hw) as (client & H & _).
  exists client. exact H.
Defined.
