(* ===== verification/Http.v ===== *)
(** * [net/http]: headers, requests and responses, as far as the source uses them

    Header keys are in canonical form, as those the source names are.  A handler
    is a function on the response writer; what is sent is the status and the
    headers at the first [WriteHeader] or [Write]. *)

From S2P Require Export Logger.

Abbreviation Header := (gmap string (list string)).

Definition Header_Get (h : Header) (key : string) : string :=
  match h !! key with Some (v :: _) => v | _ => "" end.
Definition Header_Set (key value : string) (h : Header) : Header := <[key := [value]]> h.
Definition Header_Add (key value : string) (h : Header) : Header := <[key := default [] (h !! key) ++ [value]]> h.

Record Request := mkRequest {
  req_Method : string;
  req_Path : string;
  req_Header : Header;
  req_Context : Context
}.

Record ResponseWriter := mkResponse {
  rw_header : Header;
  rw_sent : option (Z * Header);
  rw_body : string
}.

Definition fresh_response : ResponseWriter := mkResponse ∅ None "".

Definition with_header (f : Header -> Header) (w : ResponseWriter) : ResponseWriter :=
  mkResponse (f (rw_header w)) (rw_sent w) (rw_body w).
Definition WriteHeader (status : Z) (w : ResponseWriter) : ResponseWriter :=
  match rw_sent w with
  | Some _ => w
  | None => mkResponse (rw_header w) (Some (status, rw_header w)) (rw_body w)
  end.
Definition StatusOK : Z := 200.
Definition StatusNoContent : Z := 204.
Definition StatusServiceUnavailable : Z := 503.
Definition Write (body : string) (w : ResponseWriter) : ResponseWriter :=
  let w := WriteHeader StatusOK w in mkResponse (rw_header w) (rw_sent w) (rw_body w +:+ body).

Definition http_Handler : Type := Request -> ResponseWriter -> ResponseWriter.

Definition sent_status (w : ResponseWriter) : Z := match rw_sent w with Some (status, _) => status | None => StatusOK end.
Definition sent_header (w : ResponseWriter) : Header := match rw_sent w with Some (_, h) => h | None => rw_header w end.
