(* ===== verification/Lifecycle.v ===== *)
(** * The life of a server: serving, draining, stopping

    [httpserver.Server.Run] and [grpcserver.Server.Run] have the same shape: a
    goroutine serves and reports on a channel; when the context ends the server is
    stopped gracefully, by force after a timeout, and the report is the answer.
    Requests come and go at any time, so a run is a step relation; [HttpServer] and
    [GrpcServe] give the settings.  Of the servers it uses what their documentation
    says: a graceful stop ends the accepting at once and returns when the last
    request is done, a forced one cuts the connections, and either makes
    [Serve] return.  They differ in what the forced stop waits for: [http.Server]'s
    [Close] returns at once, whatever the handlers of the requests it cut off do;
    [stop] of [grpcserver] calls [server.Stop()] and then waits on [<-stopped], that
    is for [GracefulStop], which returns only when the last handler has, so a handler
    that ignores its cancelled context holds [Run] up for as long as it runs. *)

From S2P Require Export Apperr.

(** [errors.Is] on an error of a server, which has no nil [*apperr.Error] in it. *)
Definition error_is (err target : error) : bool :=
  match errors_Is (Some err) target with Ret b => b | Panic _ => false end.

Record settings := mkSettings {
  drain_delay : Z;                     (** between the health change and the stop *)
  stop_timeout : Z;
  waits_for_handlers : bool;           (** whether a forced stop waits for the handlers *)
  reported : error -> option error     (** of an error of [Serve] *)
}.

(** Where [Run] is: in its [select]; sleeping while still serving; waiting for the
    graceful stop; waiting for the handlers of the calls a forced stop cut off, since
    the deadline of the graceful one; stopped and waiting for [Serve]; done.  [forced] tells how the
    stop ended, and is absent when [Serve] ended by itself. *)
Inductive phase : Type :=
| Serving
| Draining (until : Z)
| Stopping (deadline : Z)
| Forcing (deadline : Z)
| Stopped (forced : bool)
| Finished (forced : option bool) (answer : option error).

Record state := mkState {
  accepting : bool;
  active : nat;                             (** requests being handled, or, when the handlers
                                                are not waited for, still connected *)
  served : option (option error);           (** what [Serve] left in the channel *)
  cancelled : option Z;
  healthy : bool;
  main : phase;
  clock : Z
}.

Section run.
Context (cfg : settings).

Definition init (now : Z) : state := mkState true 0 None None true Serving now.

Definition with_active (s : state) (n : nat) : state :=
  mkState (accepting s) n (served s) (cancelled s) (healthy s) (main s) (clock s).
Definition with_main (s : state) (p : phase) : state :=
  mkState (accepting s) (active s) (served s) (cancelled s) (healthy s) p (clock s).

(** Time does not pass while [Run] or [Serve] has something to do at once. *)
Definition may_wait (s : state) (t : Z) : Prop :=
  clock s <= t /\
  match main s with
  | Serving => served s = None /\ cancelled s = None
  | Draining until => t <= until
  | Stopping deadline => active s <> 0%nat /\ t <= deadline
  | Forcing _ => active s <> 0%nat
  | Stopped _ => False
  | Finished _ _ => True
  end.

Inductive step : state -> state -> Prop :=
| request_arrives s : accepting s = true -> step s (with_active s (S (active s)))
| request_ends s n : active s = S n -> step s (with_active s n)
| serve_fails s err :
    accepting s = true ->
    step s (mkState false (active s) (Some (reported cfg err)) (cancelled s) (healthy s) (main s) (clock s))
| serve_stops s :
    accepting s = false -> served s = None ->
    step s (mkState false (active s) (Some None) (cancelled s) (healthy s) (main s) (clock s))
| context_ends s :
    cancelled s = None -> (forall how answer, main s <> Finished how answer) ->
    step s (mkState (accepting s) (active s) (served s) (Some (clock s)) (healthy s) (main s) (clock s))
| serve_answers s answer :
    main s = Serving -> served s = Some answer -> step s (with_main s (Finished None answer))
| drain_begins s t :
    main s = Serving -> cancelled s = Some t ->
    step s (mkState (accepting s) (active s) (served s) (cancelled s) false (Draining (clock s + drain_delay cfg)) (clock s))
| stop_begins s until :
    main s = Draining until -> until <= clock s ->
    step s (mkState false (active s) (served s) (cancelled s) (healthy s) (Stopping (clock s + stop_timeout cfg)) (clock s))
| stop_ends s deadline :
    main s = Stopping deadline -> active s = 0%nat -> step s (with_main s (Stopped false))
| stop_times_out s deadline :
    main s = Stopping deadline -> deadline <= clock s ->
    step s (if waits_for_handlers cfg then with_main s (Forcing deadline) else with_main (with_active s 0) (Stopped true))
| force_ends s deadline :
    main s = Forcing deadline -> active s = 0%nat -> step s (with_main s (Stopped true))
| run_answers s forced answer :
    main s = Stopped forced -> served s = Some answer -> step s (with_main s (Finished (Some forced) answer))
| time_passes s t :
    may_wait s t ->
    step s (mkState (accepting s) (active s) (served s) (cancelled s) (healthy s) (main s) t).

Inductive reachable (now : Z) : state -> Prop :=
| reachable_init : reachable now (init now)
| reachable_step s s' : reachable now s -> step s s' -> reachable now s'.
End run.

(** ** What holds in every state *)

Section properties.
Context (cfg : settings) (Hdrain : 0 <= drain_delay cfg) (Htimeout : 0 <= stop_timeout cfg).

Definition failure_report (answer : option error) : Prop := exists err, answer = reported cfg err.

(** Before the stop the server accepts until [Serve] reports a failure. *)
Definition serving_ok (s : state) : Prop :=
  (accepting s = true /\ served s = None) \/
  (accepting s = false /\ exists answer, served s = Some answer /\ failure_report answer).

(** After it the report is that of the failure or of the stop. *)
Definition stopped_ok (s : state) : Prop :=
  accepting s = false /\ healthy s = false /\
  forall answer, served s = Some answer -> answer = None \/ failure_report answer.

(** Whether the stop has come to wait for handlers. *)
Definition held_up (s : state) : Prop :=
  waits_for_handlers cfg = true /\ (main s = Stopped true \/ exists deadline, main s = Forcing deadline).

Definition phase_ok (s : state) : Prop :=
  let stop := drain_delay cfg in
  let full := drain_delay cfg + stop_timeout cfg in
  match main s with
  | Serving => serving_ok s /\ healthy s = true /\ forall t, cancelled s = Some t -> clock s = t
  | Draining until => serving_ok s /\ healthy s = false /\
      exists t, cancelled s = Some t /\ until = t + stop /\ t <= clock s <= until
  | Stopping deadline => stopped_ok s /\
      exists t, cancelled s = Some t /\ deadline = t + full /\ t + stop <= clock s <= deadline
  | Forcing deadline => stopped_ok s /\ waits_for_handlers cfg = true /\
      exists t, cancelled s = Some t /\ deadline = t + full /\ deadline <= clock s
  | Stopped forced => stopped_ok s /\ active s = 0%nat /\
      exists t, cancelled s = Some t /\ t + (if forced then full else stop) <= clock s /\ (clock s <= t + full \/ held_up s)
  | Finished None answer => accepting s = false /\ failure_report answer
  | Finished (Some forced) answer => stopped_ok s /\ active s = 0%nat /\ (answer = None \/ failure_report answer) /\
      exists t, cancelled s = Some t /\ t + (if forced then full else stop) <= clock s
  end.

Lemma phase_ok_init now : phase_ok (init now).
Proof. unfold phase_ok, serving_ok. cbn. naive_solver. Qed.

(** Requests come only while the server accepts. *)
Lemma phase_ok_active s n :
  (accepting s = false -> active s = 0%nat -> n = 0%nat) -> phase_ok s -> phase_ok (with_active s n).
Proof.
  unfold phase_ok. intros Hn Hs. destruct (main s) as [| | | |forced|[forced|] answer] eqn:Hm; cbn; rewrite Hm; try exact Hs.
  - destruct Hs as (H1 & H2 & H3). split_and!; [exact H1|by apply Hn; [apply H1|]|].
    unfold held_up in *. cbn. by rewrite Hm in *.
  - destruct Hs as (H1 & H2 & H3). split_and!; [exact H1|by apply Hn; [apply H1|]|apply H3..].
Qed.

Lemma phase_ok_fails s err :
  accepting s = true -> phase_ok s ->
  phase_ok (mkState false (active s) (Some (reported cfg err)) (cancelled s) (healthy s) (main s) (clock s)).
Proof.
  unfold phase_ok. intros Ha Hs. destruct (main s) as [| | | |forced|[forced|] answer]; cbn.
  - split; [|apply Hs]. right. unfold failure_report. cbn. eauto.
  - split; [|apply Hs]. right. unfold failure_report. cbn. eauto.
  - destruct Hs as [[H _] _]. congruence.
  - destruct Hs as [[H _] _]. congruence.
  - destruct Hs as [[H _] _]. congruence.
  - destruct Hs as [[H _] _]. congruence.
  - destruct Hs as [H _]. congruence.
Qed.

Lemma phase_ok_stops s :
  accepting s = false -> served s = None -> phase_ok s ->
  phase_ok (mkState false (active s) (Some None) (cancelled s) (healthy s) (main s) (clock s)).
Proof.
  unfold phase_ok. intros Ha Hv Hs.
  assert (~ serving_ok s) as Hno by (intros [[Ha' _]|(_ & a & Hv' & _)]; congruence).
  assert (stopped_ok s -> stopped_ok (mkState false (active s) (Some None) (cancelled s) (healthy s) (main s) (clock s))) as Hst.
  { intros (_ & Hh & _). split_and!; [done..|]. intros answer [= <-]. by left. }
  destruct (main s) as [| | | |forced|[forced|] answer] eqn:Hm; cbn.
  - by destruct Hs.
  - by destruct Hs.
  - destruct Hs. auto.
  - destruct Hs. auto.
  - destruct Hs as (H1 & H2 & H3). unfold held_up in *. cbn. rewrite Hm in H3. auto.
  - destruct Hs as (H1 & H2 & H3 & H4). auto.
  - split; [done|apply Hs].
Qed.

Lemma phase_ok_step s s' : phase_ok s -> step cfg s s' -> phase_ok s'.
Proof.
  intros Hs Hstep. destruct Hstep as [s Ha|s n Hn|s err Ha|s Ha Hv|s Hc Hf|s answer Hm Hv|s t Hm Hc|s until Hm Ht|s d Hm H0|s d Hm Ht|s d Hm H0|s f answer Hm Hv|s t [Hle Hw]].
  - apply phase_ok_active; [congruence|done].
  - apply phase_ok_active; [congruence|done].
  - by apply phase_ok_fails.
  - by apply phase_ok_stops.
  - unfold phase_ok in *. cbn. destruct (main s) as [| | | |forced|how answer]; [|..|by destruct (Hf how answer)].
    + destruct Hs as (H1 & H2 & _). split_and!; [exact H1|done|by intros t [= <-]].
    + destruct Hs as (_ & _ & t & Ht & _). congruence.
    + destruct Hs as (_ & t & Ht & _). congruence.
    + destruct Hs as (_ & _ & t & Ht & _). congruence.
    + destruct Hs as (_ & _ & t & Ht & _). congruence.
  - unfold phase_ok in *. rewrite Hm in Hs. cbn. destruct Hs as ([[_ H]|(H1 & a & H2 & H3)] & _); naive_solver congruence.
  - unfold phase_ok in *. rewrite Hm in Hs. cbn. destruct Hs as (H1 & H2 & H3). split_and!; [exact H1|done|].
    exists t. rewrite (H3 t Hc). split_and!; [done|lia..].
  - unfold phase_ok in *. rewrite Hm in Hs. cbn. destruct Hs as (H1 & H2 & t & Hc & -> & Hlt). split; [|exists t; split_and!; [done|lia..]].
    split_and!; [done..|]. cbn. intros answer Ha. destruct H1 as [[_ H1]|(_ & a & H1 & H3)]; [congruence|]. right. congruence.
  - unfold phase_ok in *. rewrite Hm in Hs. cbn. destruct Hs as (H1 & t & Hc & -> & Hlt).
    split_and!; [exact H1|done|]. exists t. split_and!; [done|cbn; lia|left; cbn; lia].
  - unfold phase_ok in *. rewrite Hm in Hs. cbn. destruct Hs as (H1 & t & Hc & -> & Hlt).
    destruct (waits_for_handlers cfg) eqn:Hwait; cbn.
    + split_and!; [exact H1|done|]. by exists t.
    + split_and!; [exact H1|done|]. exists t. split_and!; [done|cbn; lia|left; cbn; lia].
  - unfold phase_ok in *. rewrite Hm in Hs. cbn. destruct Hs as (H1 & H2 & t & Hc & -> & Hlt).
    split_and!; [exact H1|done|]. exists t. split_and!; [done..|]. right. split; [done|by left].
  - unfold phase_ok in *. rewrite Hm in Hs. cbn. destruct Hs as (H1 & H2 & t & Hc & Hlt).
    split_and!; [apply H1..|exact H2|by apply H1|]. exists t. split; [done|lia].
  - unfold phase_ok in *. cbn. destruct (main s) as [| | | |forced|[forced|] answer]; try exact Hs.
    + destruct Hw as [_ Hw], Hs as (H1 & H2 & _). split_and!; [exact H1|done|]. intros u Hu. cbn in Hu. congruence.
    + destruct Hs as (H1 & H2 & u & Hc & -> & Hlt). split_and!; [exact H1|done|]. exists u. split_and!; [done..|lia|lia].
    + destruct Hs as (H1 & u & Hc & -> & Hlt). split; [exact H1|]. exists u. split_and!; [done..|lia|lia].
    + destruct Hs as (H1 & H2 & u & Hc & -> & Hlt). split_and!; [exact H1|done|]. exists u. split_and!; [done..|lia].
    + done.
    + destruct Hs as (H1 & H2 & H3 & u & Hc & Hlt). split_and!; [apply H1..|exact H2|exact H3|]. exists u. split; [done|lia].
Qed.

Lemma reachable_ok now s : reachable cfg now s -> phase_ok s.
Proof. induction 1; [apply phase_ok_init|by eapply phase_ok_step]. Qed.

(** What the answer of [Run] means, and what is true when it is given: an answer
    without a stop is what [Serve] failed with; after a stop no request is left,
    none is accepted, the health says so, the answer is none unless [Serve] had
    failed before, and the stop was by force only when the delay and the timeout had
    passed since the context ended. *)
Lemma answer_means now s how answer :
  reachable cfg now s -> main s = Finished how answer ->
  accepting s = false /\
  match how with
  | None => failure_report answer
  | Some forced =>
      active s = 0%nat /\ healthy s = false /\ (answer = None \/ failure_report answer) /\
      exists t, cancelled s = Some t /\
        t + drain_delay cfg + (if forced then stop_timeout cfg else 0) <= clock s
  end.
Proof.
  intros Hs%reachable_ok Hm. unfold phase_ok in Hs. rewrite Hm in Hs. destruct how as [forced|]; [|done].
  destruct Hs as ((H1 & H2 & _) & H3 & H4 & t & Hc & Hlt). split_and!; try done. exists t. split; [done|]. destruct forced; lia.
Qed.

(** While it drains, the server still accepts (unless [Serve] failed), announces that
    it is going away, and does so for the whole delay before it stops. *)
Lemma drain_is_announced now s :
  reachable cfg now s ->
  match main s with
  | Draining _ => healthy s = false /\ (served s = None -> accepting s = true)
  | Stopping _ | Forcing _ | Stopped _ => healthy s = false /\ exists t, cancelled s = Some t /\ t + drain_delay cfg <= clock s
  | _ => True
  end.
Proof.
  intros Hs%reachable_ok. unfold phase_ok in Hs. destruct (main s) as [| | | |forced|]; try done.
  - destruct Hs as (H1 & H2 & _). split; [done|]. unfold serving_ok in H1. naive_solver.
  - destruct Hs as ((_ & H & _) & t & Hc & _ & Hlt). split; [done|]. exists t. split; [done|lia].
  - destruct Hs as ((_ & H & _) & _ & t & Hc & -> & Hlt). split; [done|]. exists t. split; [done|lia].
  - destruct Hs as ((_ & H & _) & _ & t & Hc & Hlt). split; [done|]. exists t. split; [done|]. destruct forced; lia.
Qed.

(** [Run] can answer by the time [by_]. *)
Definition can_answer (s : state) (by_ : Z) : Prop :=
  exists s' how answer, rtc (step cfg) s s' /\ main s' = Finished how answer /\ clock s' <= by_.

Lemma can_answer_step s s' by_ : step cfg s s' -> can_answer s' by_ -> can_answer s by_.
Proof. intros Hstep (s2 & how & answer & Hr & H). exists s2, how, answer. split; [by eapply rtc_l|done]. Qed.

Lemma can_answer_later s t by_ : can_answer s t -> t <= by_ -> can_answer s by_.
Proof. intros (s' & how & answer & H1 & H2 & H3) Hle. exists s', how, answer. split_and!; [done..|lia]. Qed.

Lemma stopped_answers s forced :
  main s = Stopped forced -> accepting s = false -> can_answer s (clock s).
Proof.
  intros Hm Ha. assert (forall s, main s = Stopped forced -> is_Some (served s) -> can_answer s (clock s)) as Hgo.
  { clear. intros s Hm [answer Hv]. eexists _, _, _. split; [by apply rtc_once, (run_answers cfg s forced answer)|by split]. }
  destruct (served s) as [answer|] eqn:Hv; [by apply Hgo|].
  eapply can_answer_step; [by apply (serve_stops cfg)|].
  apply (Hgo (mkState false (active s) (Some None) (cancelled s) (healthy s) (main s) (clock s))); [done|by eexists].
Qed.

(** Once the handlers have returned. *)
Lemma forcing_answers s deadline :
  main s = Forcing deadline -> accepting s = false -> can_answer s (clock s).
Proof.
  intros Hm Ha. remember (active s) as n eqn:Hn. revert s Hn Hm Ha. induction n as [|n IH]; intros s Hn Hm Ha.
  - eapply can_answer_step; [by apply (force_ends cfg s deadline)|]. by apply (stopped_answers (with_main s (Stopped true)) true).
  - eapply can_answer_step; [by apply (request_ends cfg s n)|]. by apply (IH (with_active s n)).
Qed.

Lemma stopping_answers s deadline :
  main s = Stopping deadline -> accepting s = false -> clock s <= deadline -> can_answer s deadline.
Proof.
  intros Hm Ha Hle. destruct (decide (active s = 0%nat)) as [H0|H0].
  - eapply can_answer_step; [by apply (stop_ends cfg s deadline)|].
    by eapply can_answer_later; [by apply (stopped_answers (with_main s (Stopped false)) false)|].
  - eapply can_answer_step; [apply (time_passes cfg s deadline); unfold may_wait; by rewrite Hm|].
    eapply can_answer_step; [apply (stop_times_out cfg _ deadline); cbn; [done|lia]|].
    pose (late := mkState (accepting s) (active s) (served s) (cancelled s) (healthy s) (main s) deadline). fold late.
    destruct (waits_for_handlers cfg); [by apply (forcing_answers (with_main late (Forcing deadline)) deadline)|].
    by apply (stopped_answers (with_main (with_active late 0) (Stopped true)) true).
Qed.

Lemma draining_answers s until :
  main s = Draining until -> clock s <= until -> can_answer s (until + stop_timeout cfg).
Proof.
  intros Hm Hle. eapply can_answer_step; [apply (time_passes cfg s until); unfold may_wait; by rewrite Hm|].
  eapply can_answer_step; [apply (stop_begins cfg _ until); cbn; [done|lia]|]. apply stopping_answers; cbn; [done..|lia].
Qed.

(** From the end of the context on, [Run] needs no longer than the delay and the
    timeout, whatever the requests do, unless a forced stop waits for handlers; and it
    can always answer by then, or, if it is held up, as soon as they return. *)
Lemma stop_is_bounded now s t :
  reachable cfg now s -> cancelled s = Some t -> (forall how answer, main s <> Finished how answer) ->
  let full := t + drain_delay cfg + stop_timeout cfg in
  (clock s <= full \/ held_up s) /\ can_answer s (Z.max (clock s) full).
Proof.
  intros Hs%reachable_ok Hc Hnot. cbn zeta. unfold phase_ok in Hs.
  destruct (main s) as [|until|d|d|forced|how answer] eqn:Hm; [..|by destruct (Hnot how answer)].
  - destruct Hs as (_ & _ & Ht). specialize (Ht t Hc). split; [lia|]. eapply can_answer_later; [|apply Z.le_max_r].
    eapply can_answer_step; [by apply (drain_begins cfg s t)|]. rewrite Ht. apply draining_answers; [done|cbn; lia].
  - destruct Hs as (_ & _ & u & Hu & -> & Hlt). assert (u = t) as -> by congruence. split; [lia|].
    eapply can_answer_later; [|apply Z.le_max_r]. by apply draining_answers; [|lia].
  - destruct Hs as ((Ha & _) & u & Hu & -> & Hlt). assert (u = t) as -> by congruence. split; [lia|].
    eapply can_answer_later; [|apply Z.le_max_r]. rewrite <- Z.add_assoc. by apply stopping_answers; [..|lia].
  - destruct Hs as ((Ha & _) & Hw & _). split; [right; split; eauto|]. eapply can_answer_later; [|apply Z.le_max_l].
    by eapply forcing_answers.
  - destruct Hs as ((Ha & _) & _ & u & Hu & _ & Hlt). assert (u = t) as -> by congruence. split; [by rewrite !Z.add_assoc in Hlt|].
    eapply can_answer_later; [|apply Z.le_max_l]. by eapply stopped_answers.
Qed.

(** A handler that never returns holds up a forced stop that waits for it. *)
Lemma handlers_hold_up now t :
  waits_for_handlers cfg = true ->
  exists s deadline, reachable cfg now s /\ cancelled s = Some now /\ main s = Forcing deadline /\
    active s = 1%nat /\ t <= clock s.
Proof.
  intros Hw. pose (at_ (a : bool) c h m k := mkState a 1 None c h m k).
  assert (forall a h m k k', may_wait (at_ a (Some now) h m k) k' -> reachable cfg now (at_ a (Some now) h m k) ->
    reachable cfg now (at_ a (Some now) h m k')) as Hwait.
  { intros a h m k k' Hmay Hr. eapply reachable_step; [exact Hr|]. by apply (time_passes cfg (at_ a (Some now) h m k)). }
  set (until := now + drain_delay cfg). set (deadline := until + stop_timeout cfg).
  assert (reachable cfg now (at_ false (Some now) false (Forcing deadline) deadline)) as Hr.
  { eapply reachable_step; [|pose proof (stop_times_out cfg (at_ false (Some now) false (Stopping deadline) deadline) deadline eq_refl
      (Z.le_refl _)) as Hs; rewrite Hw in Hs; exact Hs].
    apply (Hwait _ _ _ until); [unfold may_wait; cbn; lia|].
    eapply reachable_step; [|exact (stop_begins cfg (at_ true (Some now) false (Draining until) until) until eq_refl (Z.le_refl _))].
    apply (Hwait _ _ _ now); [unfold may_wait; cbn; lia|].
    eapply reachable_step; [|exact (drain_begins cfg (at_ true (Some now) true Serving now) now eq_refl eq_refl)].
    eapply reachable_step; [|by apply (context_ends cfg (at_ true None true Serving now))].
    eapply reachable_step; [apply reachable_init|exact (request_arrives cfg (init now) eq_refl)]. }
  exists (at_ false (Some now) false (Forcing deadline) (Z.max deadline t)), deadline. split_and!; try done; [|cbn; lia].
  apply (Hwait _ _ _ deadline); [|exact Hr]. split; [cbn; lia|done].
Qed.

(** Handlers that return within [grace] of being cut off. *)
Definition prompt (grace : Z) (s : state) : Prop :=
  match main s with Forcing deadline => clock s <= deadline + grace | _ => True end.

Definition stop_bound (grace : Z) : Z :=
  drain_delay cfg + stop_timeout cfg + (if waits_for_handlers cfg then grace else 0).

(** While [Run] has not answered, no more time than that has passed since the end of
    the context. *)
Definition in_time (grace : Z) (s : state) : Prop := forall t,
  cancelled s = Some t -> (forall how answer, main s <> Finished how answer) -> clock s <= t + stop_bound grace.

Lemma in_time_step grace now s s' :
  0 <= grace -> reachable cfg now s -> step cfg s s' -> prompt grace s' -> in_time grace s -> in_time grace s'.
Proof.
  intros Hg Hreach Hstep Hp Hin t Hc Hnot. assert (reachable cfg now s') as Hreach' by by eapply reachable_step.
  unfold stop_bound. destruct (stop_is_bounded now s' t Hreach' Hc Hnot) as [[Hle|[Hw [Hm|[d Hm]]]] _].
  - case_match; lia.
  - assert (cancelled s = Some t -> (forall how answer, main s <> Finished how answer) -> clock s' = clock s ->
      clock s' <= t + (drain_delay cfg + stop_timeout cfg + (if waits_for_handlers cfg then grace else 0))) as Hsame.
    { intros Hc' Hnot' ->. by apply Hin. }
    destruct Hstep as [| | | |s Hnone| | | |s d Hm'|s d Hm' _|s d Hm'|s f a Hm'|s u [_ Hw']]; cbn in *; try by apply Hsame.
    all: try (apply Hsame; [done|congruence|done]).
    all: try by destruct (waits_for_handlers cfg).
    + apply reachable_ok in Hreach. unfold phase_ok in Hreach. rewrite Hm in Hreach. destruct Hreach as (_ & _ & u & Hu & _). congruence.
    + by rewrite Hm in Hw'.
  - apply reachable_ok in Hreach'. unfold phase_ok in Hreach'. unfold prompt in Hp. rewrite Hm in Hreach', Hp.
    destruct Hreach' as (_ & _ & u & Hu & -> & _). assert (u = t) as -> by congruence. rewrite Hw. lia.
Qed.
End properties.
