(* ===== verification/HttpServer.v ===== *)
(** * Package [httpserver]: running an HTTP server, and the operations endpoints

    [Run] is the life of [Lifecycle] without a drain; the server's timeouts go
    to [net/http]. *)

From S2P Require Export Http Lifecycle Text.

(** ** server.go *)

Record Config := mkConfig {
  Address : string;
  http_Logger : option Logger;
  Handler : option http_Handler;
  ReadHeaderTimeout : Z;
  ReadTimeout : Z;
  WriteTimeout : Z;
  IdleTimeout : Z;
  ShutdownTimeout : Z
}.

(** Zero means the default, a negative timeout none. *)
Definition timeoutOrDefault (value fallback : Z) : Z :=
  if value =? 0 then fallback
  else if value <? 0 then 0
  else value.

(** [default] is [slog.Default()]. *)
Definition withDefaults (default : Logger) (c : Config) : Config :=
  mkConfig (if Address c == "" then ":8080" else Address c)
    (Some (match http_Logger c with Some log => log | None => default end)) (Handler c)
    (timeoutOrDefault (ReadHeaderTimeout c) (5 * Second)) (timeoutOrDefault (ReadTimeout c) (30 * Second))
    (timeoutOrDefault (WriteTimeout c) (30 * Second)) (timeoutOrDefault (IdleTimeout c) (60 * Second))
    (or_zero (ShutdownTimeout c) (10 * Second)).

Record Server := mkServer { srv_cfg : Config }.
Definition New (default : Logger) (cfg : Config) : Server := mkServer (withDefaults default cfg).

(** The [http.Server] that [Run] starts. *)
Record NetServer := mkNet {
  net_Addr : string;
  net_Handler : http_Handler;
  net_ReadHeaderTimeout : Z;
  net_ReadTimeout : Z;
  net_WriteTimeout : Z;
  net_IdleTimeout : Z
}.
Definition net_server (s : Server) : option NetServer :=
  handler ← Handler (srv_cfg s);
  let c := srv_cfg s in
  Some (mkNet (Address c) handler (ReadHeaderTimeout c) (ReadTimeout c) (WriteTimeout c) (IdleTimeout c)).

Definition ErrServerClosed : error := errorString 30 "http: Server closed".

(** A context with a timeout below zero has ended at once. *)
Definition life (s : Server) : settings :=
  mkSettings 0 (Z.max 0 (ShutdownTimeout (srv_cfg s))) false
    (fun err => if error_is err ErrServerClosed then None else Some err).

(** One run: what [net.Listen] answers, and the state in which [Run] answered, when
    it came to serving. *)
Definition Run (s : Server) (listen : option error) (now : Z) (answer : option error) (final : option state) : Prop :=
  match net_server s, listen, final with
  | None, _, None => answer = Some (errors_New "httpserver: handler is required")
  | Some _, Some err, None => answer = Some err
  | Some _, None, Some st => reachable (life s) now st /\ exists how, main st = Finished how answer
  | _, _, _ => False
  end.

(** The lines of a shutdown. *)
Definition shutdown_lines (log : Logger) (forced : bool) (err : error) : list Line :=
  if forced then LogAttrs log Background LevelWarn "http server forced to stop" [slog_String "error" (fmt_error err)]
  else LogAttrs log Background LevelInfo "http server stopped" [].

(** ** ops.go *)

Definition Check : Type := Context -> option error.

Record OpsConfig := mkOps {
  ops_Registry : option http_Handler;      (** the handler of its metrics *)
  Readiness : gmap string Check;
  EnablePprof : bool
}.

Definition writePlain (status : Z) (body : string) (w : ResponseWriter) : ResponseWriter :=
  Write body (WriteHeader status (with_header (Header_Set "Content-Type" "text/plain; charset=utf-8") w)).

(** The loop over the checks, in the order the map is visited. *)
Fixpoint readyz (checks : list (string * Check)) (r : Request) (w : ResponseWriter) : ResponseWriter :=
  match checks with
  | [] => writePlain StatusOK "ok" w
  | (name, check) :: checks =>
      match check (req_Context r) with
      | Some _ => writePlain StatusServiceUnavailable ("not ready: " +:+ name) w
      | None => readyz checks r w
      end
  end.

Definition healthz : http_Handler := fun _ w => writePlain StatusOK "ok" w.

(** The patterns of the multiplexer; [order] is that of the readiness map, and
    [pprof] are the handlers of [net/http/pprof]. *)
Definition Ops (pprof : string -> http_Handler) (order : list (string * Check)) (cfg : OpsConfig) : list (string * http_Handler) :=
  [("GET /healthz", healthz); ("GET /readyz", readyz order)]
  ++ match ops_Registry cfg with Some metrics => [("GET /metrics", metrics)] | None => [] end
  ++ (if EnablePprof cfg
      then [("GET /debug/pprof/", pprof "Index"); ("GET /debug/pprof/cmdline", pprof "Cmdline");
            ("GET /debug/pprof/profile", pprof "Profile"); ("GET /debug/pprof/symbol", pprof "Symbol");
            ("GET /debug/pprof/trace", pprof "Trace")]
      else []).

(** [Ready]: the flag of a service, and its check. *)
Record Ready := mkReady { ready : bool }.
Definition NewReady : Ready := mkReady false.
Definition Ready_Set (ready : bool) (r : Ready) : Ready := mkReady ready.
Definition errNotReady : error := errors_New "not ready".
Definition Ready_Check (r : Ready) : Check := fun _ => if ready r then None else Some errNotReady.

(** ** What the server and its endpoints promise *)

Lemma http_life_ok s : 0 <= drain_delay (life s) /\ 0 <= stop_timeout (life s).
Proof. cbn. lia. Qed.

(** Whatever the requests do: when [Run] answers, the server no longer accepts;
    if it was stopped, no request is left, the answer is no error unless serving had
    failed before, and requests were cut off only after the shutdown timeout had
    passed since the context ended; otherwise the answer is the error serving ended
    with.  And from the end of the context on, [Run] can always answer within the
    timeout, without the help of any request. *)
Theorem http_run_contract s listen now answer st
  (Hrun : Run s listen now answer (Some st)) :
  accepting st = false /\
  exists how, main st = Finished how answer /\
    (answer = None \/ exists err, answer = Some err /\ error_is err ErrServerClosed = false) /\
    (forall forced, how = Some forced -> active st = 0%nat /\ (forced = true ->
        exists t, cancelled st = Some t /\ t + ShutdownTimeout (srv_cfg s) <= clock st)) /\
    forall s' t, reachable (life s) now s' -> cancelled s' = Some t -> (forall how answer, main s' <> Finished how answer) ->
      can_answer (life s) s' (t + Z.max 0 (ShutdownTimeout (srv_cfg s))).
Proof.
  unfold Run in Hrun. destruct (net_server s); [|by destruct listen]. destruct listen; [done|]. destruct Hrun as [Hreach [how Hm]].
  destruct (http_life_ok s) as [Hd Ht]. destruct (answer_means (life s) Hd Ht now st how answer Hreach Hm) as [Ha Hhow].
  split; [done|]. exists how. split_and!; [done|..].
  - assert (forall a, failure_report (life s) a -> a = None \/ exists err, a = Some err /\ error_is err ErrServerClosed = false) as Hf.
    { intros a [err ->]. cbn. destruct (error_is err ErrServerClosed) eqn:He; [by left|]. right. eauto. }
    destruct how as [forced|]; [|by apply Hf]. destruct Hhow as (_ & _ & [->|Ha'] & _); [by left|by apply Hf].
  - intros forced ->. destruct Hhow as (H0 & _ & _ & t & Hc & Hlt). split; [done|]. intros ->. exists t. split; [done|]. cbn in Hlt. lia.
  - intros s' t Hr Hc Hnot. destruct (stop_is_bounded (life s) Hd Ht now s' t Hr Hc Hnot) as [[Hle|[[=] _]] H].
    cbn [drain_delay stop_timeout life] in *. rewrite Z.add_0_r in Hle. by rewrite Z.add_0_r, Z.max_r in H.
Qed.

(** The readiness endpoint says yes exactly when every check passes, in whatever
    order the map is visited; otherwise it names a check that fails. *)
Theorem readiness_is_all_checks cfg order r
  (Horder : order ≡ₚ map_to_list (Readiness cfg)) :
  let answer := readyz order r fresh_response in
  (sent_status answer = StatusOK <-> forall name check, Readiness cfg !! name = Some check -> check (req_Context r) = None) /\
  (sent_status answer = StatusOK \/
   sent_status answer = StatusServiceUnavailable /\
   exists name check err, Readiness cfg !! name = Some check /\ check (req_Context r) = Some err /\
     rw_body answer = "not ready: " +:+ name).
Proof.
  cbn zeta. assert (forall name check, Readiness cfg !! name = Some check <-> (name, check) ∈ order) as Hin.
  { intros name check. by rewrite Horder, elem_of_map_to_list. }
  setoid_rewrite Hin. clear Horder Hin. induction order as [|[name check] order IH]; cbn [readyz].
  - split; [split; [|done]|by left]. intros _ name check []%elem_of_nil.
  - destruct (check (req_Context r)) as [err|] eqn:Hc.
    + split; [|right; split; [done|]; exists name, check, err; split_and!; [by left|done|by cbn]].
      split; [done|]. intros Hall. specialize (Hall name check (list_elem_of_here _ _)). congruence.
    + destruct IH as [IH1 IH2]. split.
      * rewrite IH1. split; [intros Hall n c [[= -> ->]|Hnc]%elem_of_cons; [done|by eapply Hall]|].
        intros Hall n c Hnc. apply (Hall n c). by right.
      * destruct IH2 as [IH2|(H1 & n & c & e & H2 & H3)]; [by left|]. right. split; [done|]. exists n, c, e. split; [by right|done].
Qed.

(** ** Witnesses *)

Definition stuck_server : Server :=
  New (mkLogger LevelInfo [] false) (mkConfig "" None (Some (fun _ w => w)) 0 (-1) 0 0 0).

Example timeouts :
  let c := srv_cfg stuck_server in
  (Address c, ReadHeaderTimeout c, ReadTimeout c, ShutdownTimeout c) = (":8080", 5 * Second, 0, 10 * Second).
Proof. reflexivity. Qed.

(** One request that never ends, and a context that ends at 3. *)
Definition cut_off : state :=
  mkState false 0 (Some None) (Some 3) false (Finished (Some true) None) (3 + 10 * Second).

Lemma cut_off_reachable : reachable (life stuck_server) 3 cut_off.
Proof.
  pose (sel (a : bool) (n : nat) sv c h m k := mkState a n sv c h m k).
  eapply reachable_step; [|exact (run_answers _ (sel false 0%nat (Some None) (Some 3) false (Stopped true) (3 + 10 * Second)) true None eq_refl eq_refl)].
  eapply reachable_step; [|exact (serve_stops _ (sel false 0%nat None (Some 3) false (Stopped true) (3 + 10 * Second)) eq_refl eq_refl)].
  eapply reachable_step; [|exact (stop_times_out _ (sel false 1%nat None (Some 3) false (Stopping (3 + 10 * Second)) (3 + 10 * Second)) _ eq_refl (Z.le_refl _))].
  eapply reachable_step; [|apply (time_passes _ (sel false 1%nat None (Some 3) false (Stopping (3 + 10 * Second)) 3) (3 + 10 * Second))].
  - eapply reachable_step; [|exact (stop_begins (life stuck_server) (sel true 1%nat None (Some 3) false (Draining 3) 3) 3 eq_refl (Z.le_refl _))].
    eapply reachable_step; [|exact (drain_begins (life stuck_server) (sel true 1%nat None (Some 3) true Serving 3) 3 eq_refl eq_refl)].
    eapply reachable_step; [|apply (context_ends _ (sel true 1%nat None None true Serving 3)); done].
    eapply reachable_step; [|exact (request_arrives _ (sel true 0%nat None None true Serving 3) eq_refl)].
    apply reachable_init.
  - unfold may_wait. cbn. unfold Second. lia.
Qed.

Lemma http_run_contract_witness :
  accepting cut_off = false /\ active cut_off = 0%nat /\ exists t, cancelled cut_off = Some t /\ t + 10 * Second <= clock cut_off.
Proof.
  assert (Run stuck_server None 3 None (Some cut_off)) as Hrun by (split; [exact cut_off_reachable|eexists; reflexivity]).
  destruct (http_run_contract stuck_server None 3 None cut_off Hrun) as (H1 & how & Hm & _ & H2 & _).
  injection Hm as <-. destruct (H2 true eq_refl) as [H3 H4]. exact (conj H1 (conj H3 (H4 eq_refl))).
Defined.

Definition two_checks : OpsConfig :=
  mkOps None (<["db" := fun _ => None]> (<["redis" := Ready_Check NewReady]> ∅)) false.
Definition any_request : Request := mkRequest "GET" "/readyz" ∅ Background.

Lemma readiness_is_all_checks_witness :
  let order := map_to_list (Readiness two_checks) in
  sent_status (readyz order any_request fresh_response) <> StatusOK /\
  rw_body (readyz order any_request fresh_response) = "not ready: redis".
Proof.
  cbn zeta. split; [|vm_compute; reflexivity].
  intros Hok. destruct (readiness_is_all_checks two_checks (map_to_list (Readiness two_checks)) any_request) as [[Hall _] _].
  - reflexivity.
  - specialize (Hall Hok "redis" (Ready_Check NewReady) eq_refl). discriminate Hall.
Defined.
