(* ===== verification/GrpcServe.v ===== *)
(** * [grpcserver/server.go]: building, running and stopping the server

    The options of [newGRPCServer] in their order, and [Run] with [stop] as the
    life of [Lifecycle]: the health service announces the end, requests are still
    served for the drain delay, then the server stops gracefully or by force. *)

From S2P Require Export GrpcServer Lifecycle.

(** [grpc.ServerOption], as far as the source makes them. *)
Inductive ServerOption (R user : Type) : Type :=
| opt_MaxRecvMsgSize (n : Z)
| opt_MaxSendMsgSize (n : Z)
| opt_MaxConcurrentStreams (n : Z)
| opt_KeepaliveParams (time timeout maxAge maxAgeGrace : Z)
| opt_KeepaliveEnforcementPolicy (minTime : Z) (permitWithoutStream : bool)
| opt_CredsTLS
| opt_StatsHandler
| opt_ChainUnary (chain : Env -> list (UnaryInterceptor R))
| opt_ChainStream (chain : Env -> list StreamInterceptor)
| opt_User (option : user).
Arguments opt_MaxRecvMsgSize {R user}. Arguments opt_MaxSendMsgSize {R user}. Arguments opt_MaxConcurrentStreams {R user}.
Arguments opt_KeepaliveParams {R user}. Arguments opt_KeepaliveEnforcementPolicy {R user}. Arguments opt_CredsTLS {R user}.
Arguments opt_StatsHandler {R user}. Arguments opt_ChainUnary {R user}. Arguments opt_ChainStream {R user}.
Arguments opt_User {R user}.

Section serve.
Context `{!GrpcStatus} {R user : Type}.

(** The interceptors and options a service adds to its [Config]. *)
Record Additions := mkAdditions {
  ServerOptions : list user;
  UnaryInterceptors : list (UnaryInterceptor R);
  StreamInterceptors : list StreamInterceptor
}.

(** [Server]: its configuration, the services registered on it, and whether it has a
    health service, which [Run] makes. *)
Record Server := mkServer {
  srv_cfg : Config;
  srv_additions : Additions;
  registers : list string;
  health : bool
}.

Definition New (env : Env) (cfg : Config) (additions : Additions) (registers : list string) : Server :=
  mkServer (withDefaults env cfg) additions registers false.

Definition Health (s : Server) : option string := if health s then Some "grpc.health.v1.Health" else None.

Definition newGRPCServer (s : Server) : list (ServerOption R user) :=
  let cfg := srv_cfg s in
  [opt_MaxRecvMsgSize (MaxRecvMsgSize cfg); opt_MaxSendMsgSize (MaxSendMsgSize cfg);
   opt_MaxConcurrentStreams (MaxConcurrentStreams cfg);
   opt_KeepaliveParams (30 * Second) (10 * Second) (30 * Minute) (30 * Second);
   opt_KeepaliveEnforcementPolicy (10 * Second) true]
  ++ (if cfg_TLS cfg then [opt_CredsTLS] else [])
  ++ (if EnableTracing cfg then [opt_StatsHandler] else [])
  ++ [opt_ChainUnary (fun env => unary_chain env cfg (UnaryInterceptors (srv_additions s)));
      opt_ChainStream (fun env => stream_chain env cfg (StreamInterceptors (srv_additions s)))]
  ++ (opt_User <$> ServerOptions (srv_additions s)).

(** The services of the server [Run] starts, in the order they are registered. *)
Definition services (s : Server) : list string :=
  (if EnableHealth (srv_cfg s) then ["grpc.health.v1.Health"] else [])
  ++ registers s
  ++ (if EnableReflection (srv_cfg s) then ["grpc.reflection.v1.ServerReflection"] else []).

Definition ErrServerStopped : error := errorString 31 "grpc: the server has been stopped".

Definition normalizeServeError (err : option error) : option error :=
  match err with
  | None => None
  | Some e => if error_is e ErrServerStopped then None else Some e
  end.

(** [Run] sets [health] first. *)
Definition with_health (s : Server) : Server :=
  mkServer (srv_cfg s) (srv_additions s) (registers s) (EnableHealth (srv_cfg s) || health s).

(** [stop]: the delay is slept only when there is a health service to announce it; a
    timer below zero fires at once. *)
Definition life (s : Server) : settings :=
  mkSettings (if health s && (0 <? DrainDelay (srv_cfg s)) then DrainDelay (srv_cfg s) else 0)
    (Z.max 0 (GracefulStopTimeout (srv_cfg s))) true
    (fun err => normalizeServeError (Some err)).

Definition Run (s : Server) (listen : option error) (now : Z) (answer : option error) (final : option state) : Prop :=
  match listen, final with
  | Some err, None => answer = Some err
  | None, Some st => reachable (life (with_health s)) now st /\ exists how, main st = Finished how answer
  | _, _ => False
  end.

(** ** What [Run] promises *)

Lemma serve_life_ok s : 0 <= drain_delay (life s) /\ 0 <= stop_timeout (life s).
Proof. cbn. case_match; go_bool; lia. Qed.

Lemma drains s :
  EnableHealth (srv_cfg s) = true -> 0 < DrainDelay (srv_cfg s) ->
  drain_delay (life (with_health s)) = DrainDelay (srv_cfg s).
Proof. intros Hh Hd. cbn. by rewrite Hh, (proj2 (Z.ltb_lt _ _) Hd). Qed.

(** C17. Stopping a server with a health service: from the end of the context on the
    health says it is not serving, while requests are still accepted for the whole
    drain delay, so that balancers can turn away first; only then does it stop. *)
Theorem health_turns_before_the_stop s now st
  (Hhealth : EnableHealth (srv_cfg s) = true) (Hdelay : 0 < DrainDelay (srv_cfg s))
  (Hreach : reachable (life (with_health s)) now st) :
  match main st with
  | Serving => healthy st = true
  | Draining _ => healthy st = false /\ (served st = None -> accepting st = true)
  | Stopping _ | Forcing _ | Stopped _ | Finished (Some _) _ =>
      healthy st = false /\ exists t, cancelled st = Some t /\ t + DrainDelay (srv_cfg s) <= clock st
  | Finished None _ => True
  end.
Proof.
  destruct (serve_life_ok (with_health s)) as [Hd Ht].
  pose proof (drain_is_announced _ Hd Ht now st Hreach) as Ha. rewrite drains in Ha by done.
  pose proof (reachable_ok _ Hd Ht now st Hreach) as Hok. unfold phase_ok in Hok. rewrite drains in Hok by done.
  destruct (main st) as [| | | | |[forced|] answer]; try done; [by destruct Hok as (_ & ? & _)|].
  destruct Hok as ((_ & Hu & _) & _ & _ & t & Hc & Hlt). split; [done|]. exists t. split; [done|]. destruct forced; lia.
Qed.

(** Whatever the requests do: when [Run] answers after a stop, nothing is accepted
    and no call is left, calls were cut off only after the drain delay and the
    graceful timeout had passed, and the answer is no error unless serving had failed
    before.  From the end of the context on, [Run] takes no longer than both, unless
    it waits for the handlers of calls it has cut off; once they have returned, or by
    the end of both, it can answer. *)
Theorem grpc_run_contract s now answer st
  (Hrun : Run s None now answer (Some st)) :
  let cfg := life (with_health s) in
  accepting st = false /\
  (answer = None \/ exists err, answer = Some err /\ error_is err ErrServerStopped = false) /\
  (forall forced, main st = Finished (Some forced) answer -> active st = 0%nat /\ (forced = true ->
     exists t, cancelled st = Some t /\ t + drain_delay cfg + GracefulStopTimeout (srv_cfg s) <= clock st)) /\
  forall s' t, reachable cfg now s' -> cancelled s' = Some t -> (forall how answer, main s' <> Finished how answer) ->
    let full := t + drain_delay cfg + Z.max 0 (GracefulStopTimeout (srv_cfg s)) in
    (clock s' <= full \/ main s' = Stopped true \/ exists deadline, main s' = Forcing deadline) /\
    can_answer cfg s' (Z.max (clock s') full).
Proof.
  cbn zeta. destruct Hrun as [Hreach [how Hm]]. destruct (serve_life_ok (with_health s)) as [Hd Ht].
  destruct (answer_means _ Hd Ht now st how answer Hreach Hm) as [Ha Hhow].
  assert (forall a, failure_report (life (with_health s)) a -> a = None \/ exists err, a = Some err /\ error_is err ErrServerStopped = false) as Hf.
  { intros a [err ->]. cbn. destruct (error_is err ErrServerStopped) eqn:He; [by left|]. right. eauto. }
  split_and!; [done|..].
  - destruct how as [forced|]; [|by apply Hf]. destruct Hhow as (_ & _ & [->|Ha'] & _); [by left|by apply Hf].
  - intros forced Hm'. rewrite Hm in Hm'. injection Hm' as ->. destruct Hhow as (H0 & _ & _ & t & Hc & Hlt).
    split; [done|]. intros ->. exists t. split; [done|]. cbn [stop_timeout life with_health srv_cfg] in Hlt. lia.
  - intros s' t Hr Hc Hnot. destruct (stop_is_bounded _ Hd Ht now s' t Hr Hc Hnot) as [Hb Hcan]. split; [|exact Hcan].
    destruct Hb as [Hb|[_ Hb]]; [by left|by right].
Qed.

(** A handler that ignores its cancelled context makes [Run] outlast both: the timeout
    decides when calls are cut off, not when [Run] answers. *)
Lemma handlers_outlast_the_timeout s now t :
  exists st deadline, reachable (life s) now st /\ cancelled st = Some now /\ main st = Forcing deadline /\
    active st = 1%nat /\ t <= clock st.
Proof. by apply handlers_hold_up; [apply serve_life_ok..|]. Qed.
End serve.

(** ** Witnesses *)

Definition quick : Config := mkConfig "" None true false false 0 (3 * Second) 0 0 0 false false [].
Definition test_env : Env := mkEnv (mkLogger LevelInfo [] false) "uuid" 0 "" 0.
Definition quick_server : @Server unit unit := New test_env quick (mkAdditions [] [] []) ["auth.v1.Auth"].

Example quick_services :
  services quick_server = ["grpc.health.v1.Health"; "auth.v1.Auth"] /\ Health quick_server = None /\
  Health (with_health quick_server) = Some "grpc.health.v1.Health" /\
  GracefulStopTimeout (srv_cfg quick_server) = 10 * Second.
Proof. by split_and!. Qed.

(** A call that arrives while the server drains and ends before it stops. *)
Definition draining : state := mkState true 1 None (Some 0) false (Draining (3 * Second)) (2 * Second).
Definition stopped : state := mkState false 0 (Some None) (Some 0) false (Finished (Some false) None) (3 * Second).

Lemma draining_reachable : reachable (life (with_health quick_server)) 0 draining.
Proof.
  eapply reachable_step; [|exact (request_arrives (life (with_health quick_server)) (mkState true 0 None (Some 0) false (Draining (3 * Second)) (2 * Second)) eq_refl)].
  eapply reachable_step; [|apply (time_passes (life (with_health quick_server)) (mkState true 0 None (Some 0) false (Draining (3 * Second)) 0) (2 * Second))].
  - eapply reachable_step; [|exact (drain_begins (life (with_health quick_server)) (mkState true 0 None (Some 0) true Serving 0) 0 eq_refl eq_refl)].
    eapply reachable_step; [apply reachable_init|]. apply (context_ends _ (init 0)); done.
  - unfold may_wait. cbn. unfold Second. lia.
Qed.

Lemma stopped_reachable : reachable (life (with_health quick_server)) 0 stopped.
Proof.
  eapply reachable_step; [|exact (run_answers _ (mkState false 0 (Some None) (Some 0) false (Stopped false) (3 * Second)) false None eq_refl eq_refl)].
  eapply reachable_step; [|exact (serve_stops _ (mkState false 0 None (Some 0) false (Stopped false) (3 * Second)) eq_refl eq_refl)].
  eapply reachable_step; [|exact (stop_ends _ (mkState false 0 None (Some 0) false (Stopping (13 * Second)) (3 * Second)) _ eq_refl eq_refl)].
  eapply reachable_step; [|exact (stop_begins (life (with_health quick_server)) (mkState true 0 None (Some 0) false (Draining (3 * Second)) (3 * Second)) _ eq_refl (Z.le_refl _))].
  eapply reachable_step; [|apply (time_passes (life (with_health quick_server)) (mkState true 0 None (Some 0) false (Draining (3 * Second)) (2 * Second)) (3 * Second))].
  - eapply reachable_step; [exact draining_reachable|]. exact (request_ends _ draining 0 eq_refl).
  - unfold may_wait. cbn. unfold Second. lia.
Qed.

Lemma health_turns_before_the_stop_witness :
  healthy draining = false /\ accepting draining = true.
Proof.
  destruct (health_turns_before_the_stop quick_server 0 draining) as [H1 H2].
  - reflexivity.
  - reflexivity.
  - exact draining_reachable.
  - exact (conj H1 (H2 eq_refl)).
Defined.

Lemma grpc_run_contract_witness :
  accepting stopped = false /\ active stopped = 0%nat.
Proof.
  destruct (grpc_run_contract quick_server 0 None stopped) as (H1 & _ & H2 & _).
  - split; [exact stopped_reachable|eexists; reflexivity].
  - exact (conj H1 (proj1 (H2 false eq_refl))).
Defined.
