(* ===== verification/Shutdown.v ===== *)
(** * A program of servers: the runner over the lives of its components

    [runner.Run] with HTTP and gRPC servers as components.  The servers run on the
    group's context: it ends for all of them when the runner cancels, and a server's
    answer is its component's.  The runs of the whole are the interleavings of the
    runner's steps and the servers'; time passes for all at once, and only while
    none of them has something to do at once.

    A gRPC server that had to cut calls off waits for their handlers, which are the
    program's: the runs [reachable] are those in which such a handler returns within
    [grace] of its context's end.  [stuck_handler_times_out] shows what becomes of a
    program with one that does not. *)

From S2P Require Import Runner Lifecycle HttpServer GrpcServe.

(** What a server answered, once it has. *)
Definition answered (l : Lifecycle.state) : option (option error) :=
  match Lifecycle.main l with Lifecycle.Finished _ answer => Some answer | _ => None end.

Definition life_at (t : Z) (l : Lifecycle.state) : Lifecycle.state :=
  Lifecycle.mkState (accepting l) (active l) (served l) (Lifecycle.cancelled l) (healthy l) (Lifecycle.main l) t.
Definition runner_at (t : Z) (s : Runner.state) : Runner.state :=
  Runner.mkState (statuses s) (group_err s) (Runner.cancelled s) (Runner.main s) t.

Record app := mkApp { runner : Runner.state; lives : list Lifecycle.state }.

Section app.
Context (r : Runner) (cfgs : list settings).

Definition start (now : Z) : app := mkApp (Runner.init r now) (replicate (length cfgs) (Lifecycle.init now)).

(** A component returns what its server answers. *)
Definition component_done (i : nat) (name : string) (answer : option error) (s : Runner.state) : Runner.state :=
  Runner.cancel (Runner.mkState (<[i := Returned (component_error name <$> answer)]> (statuses s))
    (group_err s) (Runner.cancelled s) (Runner.main s) (Runner.clock s)).

Definition noted (st : status) : Prop := match st with Returned _ => False | _ => True end.
Definition run_finished (s : Runner.state) : Prop := exists e, Runner.main s = Runner.Finished e.

(** Nobody has something to do before [t]: neither the runner nor a server; no
    answer is on its way to the group, nor the end of the context to a server. *)
Record quiet (s : app) (t : Z) : Prop := {
  quiet_runner : Runner.may_wait (runner s) t;
  quiet_lives : Forall (fun l => Lifecycle.may_wait l t) (lives s);
  quiet_noted : Forall noted (statuses (runner s));
  quiet_wait : Forall recorded (statuses (runner s)) -> run_finished (runner s);
  quiet_answers i l : lives s !! i = Some l -> statuses (runner s) !! i = Some Running -> answered l = None;
  quiet_cancelled : Runner.cancelled (runner s) <> None ->
    Forall (fun l => answered l = None -> Lifecycle.cancelled l <> None) (lives s)
}.

Inductive step : app -> app -> Prop :=
| server_steps s i cfg l l' :
    cfgs !! i = Some cfg -> lives s !! i = Some l -> Lifecycle.step cfg l l' ->
    Lifecycle.clock l' = Lifecycle.clock l ->
    (Lifecycle.cancelled l' = Lifecycle.cancelled l \/ Runner.cancelled (runner s) <> None) ->
    step s (mkApp (runner s) (<[i := l']> (lives s)))
| server_returns s i name l answer :
    lives s !! i = Some l -> answered l = Some answer ->
    statuses (runner s) !! i = Some Running -> components r !! i = Some name ->
    step s (mkApp (component_done i name answer (runner s)) (lives s))
| runner_steps s q :
    Runner.step r (runner s) q -> Runner.clock q = Runner.clock (runner s) ->
    (forall i, statuses (runner s) !! i = Some Running -> statuses q !! i = Some Running) ->
    step s (mkApp q (lives s))
| all_wait s t : quiet s t -> step s (mkApp (runner_at t (runner s)) (life_at t <$> lives s)).

(** No handler runs on for longer than [grace] after its call was cut off. *)
Definition handlers_prompt (grace : Z) (s : app) : Prop := Forall (prompt grace) (lives s).

Inductive reachable (grace now : Z) : app -> Prop :=
| reachable_start : reachable grace now (start now)
| reachable_next s s' : reachable grace now s -> step s s' -> handlers_prompt grace s' -> reachable grace now s'.

(** ** Runs of the whole are runs of its parts *)

Definition parts_run (now : Z) (s : app) : Prop :=
  Runner.reachable r now (runner s) /\ length (lives s) = length cfgs /\
  forall i cfg l, cfgs !! i = Some cfg -> lives s !! i = Some l -> Lifecycle.reachable cfg now l.

Lemma parts_step now s s' : parts_run now s -> step s s' -> parts_run now s'.
Proof.
  intros (Hr & Hlen & Hl) Hstep.
  destruct Hstep as [s i cfg l l' Hcfg Hi Hs _ _|s i name l a Hi Ha Hst Hn|s q Hq _ _|s t Hquiet]; unfold parts_run; cbn.
  - split_and!; [done|by rewrite length_insert|]. intros j cfg' m Hcfg' Hj.
    destruct (decide (j = i)) as [->|Hne].
    + rewrite list_lookup_insert_eq in Hj by by eapply lookup_lt_Some. simplify_eq. eapply Lifecycle.reachable_step; [by eapply Hl|done].
    + rewrite list_lookup_insert_ne in Hj by done. by eapply Hl.
  - split_and!; [|done..]. eapply Runner.reachable_step; [done|]. by apply component_returns.
  - split_and!; [|done..]. by eapply Runner.reachable_step.
  - split_and!; [|by rewrite length_fmap|].
    + eapply Runner.reachable_step; [done|]. apply Runner.time_passes, Hquiet.
    + intros i cfg m Hcfg Hm. rewrite list_lookup_fmap in Hm. destruct (lives s !! i) as [l|] eqn:Hi; [|done].
      injection Hm as <-. eapply Lifecycle.reachable_step; [by eapply Hl|]. apply Lifecycle.time_passes.
      pose proof (quiet_lives s t Hquiet) as Hw. by eapply Forall_lookup_1 in Hw.
Qed.

Lemma reachable_parts grace now s : reachable grace now s -> parts_run now s.
Proof.
  induction 1 as [|s s' _ IH Hs _]; [|by eapply parts_step].
  split_and!; [apply Runner.reachable_init|apply length_replicate|].
  intros i cfg l _ [-> _]%lookup_replicate. apply Lifecycle.reachable_init.
Qed.

(** An answer is final. *)
Lemma answered_step cfg l l' a : Lifecycle.step cfg l l' -> answered l = Some a -> answered l' = Some a.
Proof.
  unfold answered. intros Hs Ha. destruct Hs; cbn in *; try done.
  all: match goal with H : Lifecycle.main _ = _ |- _ => rewrite H in Ha end; done.
Qed.

(** ** Every server has stopped before the runner gives up *)

Context (D grace : Z) (Hlen : length cfgs = length (components r)) (Hgrace : 0 <= grace)
  (Hcfgs : Forall (fun cfg => 0 <= drain_delay cfg /\ 0 <= stop_timeout cfg /\ stop_bound cfg grace <= D) cfgs)
  (HD : D < shutdownTimeout r) (HD0 : 0 <= D).

(** A component that has returned is a server that has answered. *)
Definition returned_ok (s : app) : Prop := forall i st,
  statuses (runner s) !! i = Some st -> st <> Running ->
  exists l answer name, lives s !! i = Some l /\ answered l = Some answer /\ components r !! i = Some name /\
    failure st = component_error name <$> answer.

(** The context of the servers is the group's; while one of them has not noticed its
    end, no time has passed. *)
Definition context_ok (s : app) : Prop := forall l, l ∈ lives s ->
  Lifecycle.clock l = Runner.clock (runner s) /\
  (forall t, Lifecycle.cancelled l = Some t -> Runner.cancelled (runner s) = Some t) /\
  (forall t, Runner.cancelled (runner s) = Some t -> answered l = None -> Lifecycle.cancelled l = None -> Runner.clock (runner s) = t).

(** The runner never waits longer than the slowest server needs. *)
Definition time_ok (s : app) : Prop :=
  (forall t, Runner.cancelled (runner s) = Some t -> ~ run_finished (runner s) -> Runner.clock (runner s) <= t + D) /\
  (forall e, Runner.main (runner s) = Runner.Finished e -> Forall recorded (statuses (runner s)) /\ e = group_err (runner s)).

(** What a step of the runner by itself does to the components: one that has
    returned is noted, the rest stays. *)
Lemma runner_step_statuses s q :
  Runner.step r s q -> (forall i, statuses s !! i = Some Running -> statuses q !! i = Some Running) ->
  (forall j st', statuses q !! j = Some st' ->
     exists st, statuses s !! j = Some st /\ failure st = failure st' /\ (st' <> Running -> st <> Running)) /\
  (Forall recorded (statuses s) -> statuses q = statuses s /\ group_err q = group_err s).
Proof.
  intros Hq Hkeep. destruct Hq as [s i name err Hi Hname|s i err Hi| | | | |]; cbn in *; try by (split; [naive_solver|]).
  - specialize (Hkeep i Hi). by rewrite list_lookup_insert_eq in Hkeep by by eapply lookup_lt_Some.
  - split.
    + intros j st' Hj. apply (insert_lookup_cases _ i j (Returned err)) in Hj as [[-> ->]|[_ Hj]]; [..|done]; naive_solver.
    + intros Hall. by destruct (not_all_recorded (statuses s) i (Returned err) Hi (fun x => x)).
Qed.

Lemma runner_step_cancelled s q :
  Runner.step r s q -> Runner.clock q = Runner.clock s ->
  Runner.cancelled q = Runner.cancelled s \/ Runner.cancelled s = None /\ Runner.cancelled q = Some (Runner.clock s).
Proof. intros Hq _. destruct Hq; cbn; auto; destruct (Runner.cancelled s); auto. Qed.

Lemma returned_ok_step s s' : returned_ok s -> step s s' -> returned_ok s'.
Proof.
  intros Hok Hstep.
  destruct Hstep as [s i cfg l l' Hcfg Hi Hs _ _|s i name l a Hi Ha Hst Hn|s q Hq _ Hkeep|s t _]; intros j st Hj Hne; cbn in *.
  - destruct (Hok j st Hj Hne) as (m & answer & name & Hm & Ham & Hrest). destruct (decide (j = i)) as [->|Hji].
    + simplify_eq. exists l', answer, name. rewrite list_lookup_insert_eq by by eapply lookup_lt_Some.
      split_and!; [done|by eapply answered_step|apply Hrest..].
    + exists m, answer, name. by rewrite list_lookup_insert_ne.
  - apply (insert_lookup_cases _ i j Running) in Hj as [[-> ->]|[_ Hj]]; [|by apply Hok|done].
    exists l, a, name. by split_and!.
  - destruct (runner_step_statuses _ q Hq Hkeep) as [Hold _]. destruct (Hold j st Hj) as (old & Hj' & Hf & Hr).
    rewrite <- Hf. by apply (Hok j old); [|apply Hr].
  - destruct (Hok j st Hj Hne) as (l & answer & name & Hl & Hrest). exists (life_at t l), answer, name.
    by rewrite list_lookup_fmap, Hl.
Qed.

(** When the group's context ends, it has not ended for any server before. *)
Lemma context_ends_now s l :
  context_ok s -> l ∈ lives s -> Runner.cancelled (runner s) = None -> Lifecycle.cancelled l = None.
Proof.
  intros Hok Hl Hnone. destruct (Hok l Hl) as (_ & H & _). destruct (Lifecycle.cancelled l) as [t|]; [|done].
  specialize (H t eq_refl). congruence.
Qed.

Lemma context_ok_runner s q :
  context_ok s -> Runner.clock q = Runner.clock (runner s) ->
  (Runner.cancelled q = Runner.cancelled (runner s) \/
   Runner.cancelled (runner s) = None /\ Runner.cancelled q = Some (Runner.clock (runner s))) ->
  context_ok (mkApp q (lives s)).
Proof.
  intros Hok Hclock Hc l Hl. cbn in *. destruct (Hok l Hl) as (H1 & H2 & H3). rewrite Hclock. split; [done|].
  destruct Hc as [->|[Hnone ->]]; [done|]. rewrite (context_ends_now s l) by done. split; [done|]. by intros t [= <-].
Qed.

Lemma life_step_cancelled cfg l l' :
  Lifecycle.step cfg l l' -> Lifecycle.clock l' = Lifecycle.clock l ->
  Lifecycle.cancelled l' = Lifecycle.cancelled l \/
  Lifecycle.cancelled l = None /\ answered l = None /\ Lifecycle.cancelled l' = Some (Lifecycle.clock l).
Proof.
  intros Hs _. destruct Hs as [| | | |s Hnone Hmain| | | |? ? ?| | | |]; try case_match; cbn; auto. right. split_and!; [done| |done].
  unfold answered. destruct (Lifecycle.main s); [done..|]. by destruct (Hmain forced answer).
Qed.

Lemma context_ok_step s s' : context_ok s -> step s s' -> context_ok s'.
Proof.
  intros Hok Hstep. destruct Hstep as [s i cfg l l' Hcfg Hi Hs Hclock Hctx|s i name l a Hi Ha Hst Hn|s q Hq Hclock _|s t Hquiet].
  - intros m Hm. cbn in *. apply list_elem_of_lookup in Hm as [j Hj]. destruct (decide (j = i)) as [->|Hne].
    2:{ rewrite list_lookup_insert_ne in Hj by done. apply (Hok m). by eapply list_elem_of_lookup_2. }
    rewrite list_lookup_insert_eq in Hj by by eapply lookup_lt_Some. injection Hj as <-.
    destruct (Hok l) as (H1 & H2 & H3); [by eapply list_elem_of_lookup_2|]. rewrite Hclock. split; [done|].
    assert (answered l' = None -> answered l = None) as Ha.
    { destruct (answered l) as [a|] eqn:Ha; [|done]. by rewrite (answered_step cfg l l' a Hs Ha). }
    destruct (life_step_cancelled cfg l l' Hs Hclock) as [->|(Hnone & Hna & Hc)]; [by auto|].
    destruct Hctx as [Hctx|Hctx]; [congruence|]. rewrite Hc. split; [|done].
    intros t [= <-]. destruct (Runner.cancelled (runner s)) as [t|]; [|done]. f_equal. rewrite H1. symmetry. by apply H3.
  - apply context_ok_runner; [done..|]. cbn. destruct (Runner.cancelled (runner s)); auto.
  - apply context_ok_runner; [done..|]. by apply runner_step_cancelled.
  - intros m [l [-> Hl]]%list_elem_of_fmap. cbn. destruct (Hok l Hl) as (H1 & H2 & H3). split_and!; [done..|].
    intros u Hu Ha Hc. pose proof (quiet_cancelled s t Hquiet) as Hq. rewrite Forall_forall in Hq. exfalso.
    by apply (Hq ltac:(congruence) l Hl Ha).
Qed.

Lemma runner_step_main s q :
  Runner.step r s q ->
  (run_finished s -> Runner.main q = Runner.main s) /\
  (forall e, Runner.main q = Runner.Finished e ->
     Runner.main s = Runner.Finished e \/
     (Forall recorded (statuses s) /\ e = group_err s /\ statuses q = statuses s /\ group_err q = group_err s) \/
     exists d, Runner.main s = Runner.Draining d /\ d <= Runner.clock s).
Proof.
  intros Hq. destruct Hq as [| | |s Hall Hm|s t Hm|s d Hm Hd|]; cbn; auto.
  - split; [intros [e He]; by destruct (Hm e)|]. intros e [= <-]. by right; left.
  - split; [intros [e He]; congruence|]. done.
  - split; [intros [e He]; congruence|]. intros e _. right. right. eauto.
Qed.

(** A server that has not answered yet has not had its delays since the end of the
    context, and its handlers their grace. *)
Definition lives_in_time (s : app) : Prop := forall i cfg l,
  cfgs !! i = Some cfg -> lives s !! i = Some l -> in_time cfg grace l.

Lemma lives_in_time_step now s s' :
  parts_run now s -> lives_in_time s -> step s s' -> handlers_prompt grace s' -> lives_in_time s'.
Proof.
  intros (_ & _ & Hreach) Hin Hstep Hp. unfold handlers_prompt in Hp. rewrite Forall_lookup in Hp.
  pose proof Hcfgs as Hall. rewrite Forall_lookup in Hall.
  intros j cfg' m Hcfg' Hj. destruct (Hall j cfg' Hcfg') as (H1 & H2 & _). pose proof (Hp j m Hj) as Hpm.
  destruct Hstep as [s i cfg l l' Hcfg Hi Hs _ _|s i name l a Hi Ha Hst Hn|s q Hq _ _|s t Hquiet]; cbn in *; [|by eapply Hin..|].
  - destruct (decide (j = i)) as [->|Hne]; [|rewrite list_lookup_insert_ne in Hj by done; by eapply Hin].
    rewrite list_lookup_insert_eq in Hj by by eapply lookup_lt_Some. simplify_eq.
    eapply (in_time_step cfg H1 H2 grace now l); [done|by eapply Hreach|done|done|by eapply Hin].
  - rewrite list_lookup_fmap in Hj. destruct (lives s !! j) as [l|] eqn:Hl; [|done]. injection Hj as <-.
    pose proof (quiet_lives s t Hquiet) as Hw. eapply Forall_lookup_1 in Hw; [|done].
    eapply (in_time_step cfg' H1 H2 grace now l); [done|by eapply Hreach|by apply Lifecycle.time_passes|done|by eapply Hin].
Qed.

Lemma unanswered_in_time s i l t :
  length (lives s) = length cfgs -> lives_in_time s -> lives s !! i = Some l -> answered l = None ->
  Lifecycle.cancelled l = Some t -> Lifecycle.clock l <= t + D.
Proof.
  intros Hl Hin Hi Ha Hc. destruct (lookup_lt_is_Some_2 cfgs i) as [cfg Hcfg].
  { rewrite <- Hl. by eapply lookup_lt_Some. }
  rewrite Forall_lookup in Hcfgs. destruct (Hcfgs i cfg Hcfg) as (_ & _ & H3).
  assert (forall how answer, Lifecycle.main l <> Lifecycle.Finished how answer) as Hnot.
  { intros how answer Hm. unfold answered in Ha. by rewrite Hm in Ha. }
  specialize (Hin i cfg l Hcfg Hi t Hc Hnot). lia.
Qed.

(** Somebody is still running when all are quiet before the runner's answer. *)
Lemma quiet_running s t :
  quiet s t -> ~ run_finished (runner s) -> exists i, statuses (runner s) !! i = Some Running.
Proof.
  intros Hquiet Hnot. assert (exists st, st ∈ statuses (runner s) /\ ~ recorded st) as (st & Hst & Hrec).
  { apply Exists_exists, not_Forall_Exists; [intros []; solve_decision|]. intros Hall. by apply Hnot, (quiet_wait s t Hquiet). }
  apply list_elem_of_lookup in Hst as [i Hi]. exists i. pose proof (quiet_noted s t Hquiet) as Hn.
  eapply Forall_lookup_1 in Hn; [|done]. by destruct st.
Qed.

Lemma time_ok_step now s s' :
  parts_run now s -> context_ok s -> lives_in_time s' -> time_ok s -> step s s' -> time_ok s'.
Proof.
  intros Hparts Hctx Hin [Ht Hf] Hstep. pose proof (parts_step now s s' Hparts Hstep) as Hparts'.
  destruct Hstep as [s i cfg l l' Hcfg Hi Hs _ _|s i name l a Hi Ha Hst Hn|s q Hq Hclock Hkeep|s t Hquiet]; [done|..].
  - split; cbn; [intros t|intros e He].
    + destruct (Runner.cancelled (runner s)) as [u|] eqn:Hu; [intros [= <-]; by apply Ht|]. intros [= <-] _. lia.
    + destruct (Hf e He) as [Hall _]. by destruct (not_all_recorded _ i Running Hst (fun x => x)).
  - destruct (runner_step_main _ q Hq) as [Hfin Hmain]. destruct (runner_step_statuses _ q Hq Hkeep) as [_ Hrec].
    split; cbn; [intros t Hc Hnot|intros e He].
    + rewrite Hclock. assert (~ run_finished (runner s)) as Hnot'.
      { intros Hr. apply Hnot. unfold run_finished in *. by rewrite (Hfin Hr). }
      destruct (runner_step_cancelled _ q Hq Hclock) as [Hsame|[_ Hnow]]; [apply Ht; congruence|]. simplify_eq. lia.
    + destruct (Hmain e He) as [Hm|[(Hall & -> & -> & ->)|(d & Hd & Hle)]]; [|done|].
      * destruct (Hf e Hm) as [Hall ->]. by destruct (Hrec Hall) as [-> ->].
      * destruct Hparts as (Hrun & _). apply Runner.reachable_inv in Hrun as [_ _ _ _ _ Hinv]; [|lia]. rewrite Hd in Hinv.
        destruct Hinv as (t & Hc & -> & _). assert (~ run_finished (runner s)) as Hnot by (intros [e' He']; congruence).
        specialize (Ht t Hc Hnot). lia.
  - split; cbn; [intros u Hc Hnot|exact Hf]. destruct (quiet_running s t Hquiet Hnot) as [i Hi].
    destruct Hparts as (Hrun & Hl & _). apply Runner.reachable_inv in Hrun as [Hlr _ _ _ _ _]; [|lia].
    destruct (lookup_lt_is_Some_2 (lives s) i) as [l Hli].
    { rewrite Hl, Hlen, <- Hlr. by eapply lookup_lt_Some. }
    pose proof (quiet_answers s t Hquiet i l Hli Hi) as Ha. pose proof (quiet_cancelled s t Hquiet) as Hq.
    rewrite Forall_lookup in Hq. specialize (Hq ltac:(congruence) i l Hli Ha).
    destruct (Hctx l) as (_ & Hcl & _); [by eapply list_elem_of_lookup_2|].
    destruct (Lifecycle.cancelled l) as [v|] eqn:Hv; [|done]. specialize (Hcl v eq_refl). assert (v = u) as -> by congruence.
    apply (unanswered_in_time _ i (life_at t l) u (proj1 (proj2 Hparts')) Hin); cbn; [by rewrite list_lookup_fmap, Hli|done..].
Qed.

Lemma reachable_all_ok now s :
  reachable grace now s -> parts_run now s /\ returned_ok s /\ context_ok s /\ lives_in_time s /\ time_ok s.
Proof.
  intros Hreach. pose proof (reachable_parts grace now s Hreach) as Hparts. split; [done|].
  induction Hreach as [|s s' Hreach IH Hs Hp].
  - split_and!.
    + intros i st [-> _]%lookup_replicate. done.
    + intros l [-> _]%elem_of_replicate. by split_and!.
    + intros i cfg l _ [-> _]%lookup_replicate. by intros t [=].
    + split; done.
  - pose proof (reachable_parts grace now s Hreach) as Hs'. destruct (IH Hs') as (H1 & H2 & H3 & H4).
    assert (lives_in_time s') as H3' by by eapply lives_in_time_step.
    split_and!; [by eapply returned_ok_step|by eapply context_ok_step|done|by eapply time_ok_step].
Qed.

(** C18. Ending a program of servers, whose delays fit into the runner's timeout together
    with the grace in which the handlers of calls cut off return: when the runner answers, it was not for running out of time; every server has answered and
    accepts nothing any more, and one that was stopped has no request left; the
    answer is none exactly when that of every server is, and else the answer of one
    of them under its name. *)
Theorem program_stops_cleanly now s e
  (Hreach : reachable grace now s) (Hmain : Runner.main (runner s) = Runner.Finished e) :
  (forall i l, lives s !! i = Some l ->
     exists answer, answered l = Some answer /\ accepting l = false /\
       (forall forced, Lifecycle.main l = Lifecycle.Finished (Some forced) answer -> active l = 0%nat)) /\
  (e = None <-> forall l, l ∈ lives s -> answered l = Some None) /\
  (forall err, e = Some err -> exists i l name err', lives s !! i = Some l /\ answered l = Some (Some err') /\
     components r !! i = Some name /\ err = component_error name err').
Proof.
  destruct (reachable_all_ok now s Hreach) as ((Hrun & Hl & Hlives) & Hret & _ & _ & _ & Hf).
  destruct (Hf e Hmain) as [Hall ->]. apply Runner.reachable_inv in Hrun as [Hlr _ _ Hg Hng _]; [|lia].
  assert (forall i l, lives s !! i = Some l -> exists answer name, answered l = Some answer /\ components r !! i = Some name /\
    statuses (runner s) !! i = Some (Recorded (component_error name <$> answer))) as Hans.
  { intros i l Hi. destruct (lookup_lt_is_Some_2 (statuses (runner s)) i) as [st Hst].
    { rewrite Hlr, <- Hlen, <- Hl. by eapply lookup_lt_Some. }
    eapply Forall_lookup_1 in Hall as Hrec; [|done].
    destruct (Hret i st Hst) as (l' & answer & name & Hl' & Ha & Hn & Hfail); [by intros ->|]. simplify_eq.
    exists answer, name. split_and!; [done..|]. rewrite Hst. destruct st as [| |err]; try done. cbn in Hfail. by rewrite Hfail. }
  split_and!.
  - intros i l Hi. destruct (Hans i l Hi) as (answer & name & Ha & _). exists answer. split; [done|].
    destruct (lookup_lt_is_Some_2 cfgs i) as [cfg Hcfg]; [rewrite <- Hl; by eapply lookup_lt_Some|].
    rewrite Forall_lookup in Hcfgs. destruct (Hcfgs i cfg Hcfg) as (H1 & H2 & _).
    unfold answered in Ha. destruct (Lifecycle.main l) as [| | | | |how answer'] eqn:Hm; try done.
    destruct (answer_means cfg H1 H2 now l how answer') as [Hacc Hhow]; [by eapply Hlives|done|]. injection Ha as ->.
    split; [done|]. intros forced Hm'. simplify_eq. apply Hhow.
  - split.
    + intros Hnone l [i Hi]%list_elem_of_lookup. destruct (Hans i l Hi) as (answer & name & -> & _ & Hst).
      destruct answer as [err|]; [|done]. by apply (Hng Hnone) in Hst.
    + intros Hnone. destruct (group_err (runner s)) as [err|]; [|done]. destruct (Hg err eq_refl) as [i Hi].
      destruct (Hret i _ Hi) as (l & answer & name & Hli & Ha & _ & Hfail); [done|].
      rewrite (Hnone l) in Ha by by eapply list_elem_of_lookup_2. by simplify_eq.
  - intros err Herr. destruct (Hg err Herr) as [i Hi]. destruct (Hret i _ Hi) as (l & answer & name & Hli & Ha & Hn & Hfail); [done|].
    destruct answer as [err'|]; [|done]. cbn in Hfail. injection Hfail as ->. by exists i, l, name, err'.
Qed.
End app.

(** ** Witness: two servers under the default timeout *)

(** A step of a run in which handlers are prompt. *)
Definition paced (r : Runner) (cfgs : list settings) (grace : Z) (s s' : app) : Prop :=
  step r cfgs s s' /\ handlers_prompt grace s'.

Lemma reachable_rtc r cfgs grace now s s' :
  reachable r cfgs grace now s -> rtc (paced r cfgs grace) s s' -> reachable r cfgs grace now s'.
Proof. intros Hs Hr. induction Hr as [|s1 s2 s3 [H12 Hp] _ IH]; [done|]. apply IH. by eapply reachable_next. Qed.

Definition service : Runner :=
  Runner.Add "http" (Runner.Add "grpc" (Runner.New (mkLogger LevelInfo [] true) None)).
Definition service_lives : list settings := [GrpcServe.life (with_health quick_server); HttpServer.life stuck_server].

(** A signal ends the context at 0; the HTTP server stops at once, the gRPC server
    after its drain delay of 3 seconds. *)
Definition stopped_at (healthy_delay : Z) : Lifecycle.state :=
  Lifecycle.mkState false 0 (Some None) (Some 0) false (Lifecycle.Finished (Some false) None) healthy_delay.
Definition service_stopped : app :=
  mkApp (Runner.mkState [Recorded None; Recorded None] None (Some 0) (Runner.Finished None) (3 * Second))
        [stopped_at (3 * Second); stopped_at (3 * Second)].

Ltac settle :=
  cbv beta iota zeta delta [start length replicate runner lives insert list_insert fmap list_fmap map life_at runner_at component_done
    with_main with_active Lifecycle.init Runner.init Runner.cancel accepting active served Lifecycle.cancelled healthy Lifecycle.main
    Lifecycle.clock statuses group_err Runner.cancelled Runner.main Runner.clock service_lives].
Ltac paced_by rule := eapply rtc_l; [split; [rule|by repeat constructor]|]; settle.
Ltac server i c :=
  paced_by ltac:(eapply (server_steps _ _ _ i); [reflexivity|reflexivity|eapply c; cbn; (reflexivity || done || lia)|reflexivity|cbn; auto]).
Ltac runs c := paced_by ltac:(apply runner_steps; [c|reflexivity|done]).
Ltac returns i name :=
  paced_by ltac:(eapply (server_returns _ _ _ i name); reflexivity);
  paced_by ltac:(apply runner_steps; [apply (group_records _ _ i); reflexivity|reflexivity|by intros [|[|]]]).
Ltac waits t :=
  paced_by ltac:(apply (all_wait _ _ _ t); split; cbn [runner lives statuses Runner.cancelled];
    [split; by vm_compute
    |repeat (apply Forall_cons; split; [by vm_compute|]); by apply Forall_nil
    |by repeat constructor
    |intros Hall; by apply Forall_cons in Hall as [[] _]
    |by intros [|[|i]] l; intros [= <-]
    |by repeat constructor]).

Lemma service_stops : rtc (paced service service_lives (2 * Second)) (start service service_lives 0) service_stopped.
Proof.
  unfold start, Runner.init. change (length (components service)) with 2%nat. settle.
  runs ltac:(apply parent_cancels).
  server 0%nat Lifecycle.context_ends. server 0%nat Lifecycle.drain_begins.
  server 1%nat Lifecycle.context_ends. server 1%nat Lifecycle.drain_begins. server 1%nat Lifecycle.stop_begins.
  server 1%nat Lifecycle.stop_ends. server 1%nat Lifecycle.serve_stops. server 1%nat Lifecycle.run_answers.
  returns 1%nat "http".
  runs ltac:(by apply (shutdown_begins _ _ 0)).
  waits (3 * Second). server 0%nat Lifecycle.stop_begins.
  server 0%nat Lifecycle.stop_ends. server 0%nat Lifecycle.serve_stops. server 0%nat Lifecycle.run_answers.
  returns 0%nat "grpc".
  runs ltac:(apply all_done; cbn; [repeat constructor|done]).
  exact (rtc_refl _ _).
Qed.

Lemma program_stops_cleanly_witness :
  reachable service service_lives (2 * Second) 0 service_stopped /\
  forall i l, lives service_stopped !! i = Some l -> accepting l = false.
Proof.
  assert (reachable service service_lives (2 * Second) 0 service_stopped) as Hreach.
  { exact (reachable_rtc _ _ _ 0 _ _ (reachable_start _ _ _ 0) service_stops). }
  split; [exact Hreach|].
  destruct (program_stops_cleanly service service_lives (15 * Second) (2 * Second)) with (now := 0) (s := service_stopped) (e := @None error) as [H _].
  - reflexivity.
  - discriminate.
  - repeat constructor; discriminate.
  - reflexivity.
  - discriminate.
  - exact Hreach.
  - reflexivity.
  - intros i l Hi. destruct (H i l Hi) as (answer & _ & Ha & _). exact Ha.
Defined.

(** A gRPC handler that ignores its context for a minute: its call is cut off after
    3 and 10 seconds, the server still waits for it, and the runner gives up after 30. *)
Definition stuck_program : Runner := Runner.Add "grpc" (Runner.New (mkLogger LevelInfo [] true) None).
Definition stuck_lives : list settings := [GrpcServe.life (with_health quick_server)].
Definition gave_up : app :=
  mkApp (Runner.mkState [Running] None (Some 0) (Runner.Finished (Some (timed_out (30 * Second)))) (30 * Second))
    [Lifecycle.mkState false 1 None (Some 0) false (Lifecycle.Forcing (13 * Second)) (30 * Second)].

Lemma stuck_handler_times_out : reachable stuck_program stuck_lives (60 * Second) 0 gave_up.
Proof.
  apply (reachable_rtc _ _ _ 0 _ _ (reachable_start _ _ _ 0)).
  unfold start, Runner.init. change (length (components stuck_program)) with 1%nat. unfold stuck_lives. settle.
  server 0%nat Lifecycle.request_arrives. runs ltac:(apply parent_cancels).
  server 0%nat Lifecycle.context_ends. server 0%nat Lifecycle.drain_begins. runs ltac:(by apply (shutdown_begins _ _ 0)).
  waits (3 * Second). server 0%nat Lifecycle.stop_begins.
  waits (13 * Second). server 0%nat Lifecycle.stop_times_out. waits (30 * Second).
  runs ltac:(by apply (timer_fires _ _ (30 * Second))).
  exact (rtc_refl _ _).
Qed.

(** With a longer drain delay the timeout of the runner comes first. *)
Example delays_beyond_the_timeout :
  let slow := GrpcServe.New test_env (GrpcServer.mkConfig "" None true false false 0 (25 * Second) 0 0 0 false false []) (mkAdditions [] [] []) []
    : @GrpcServe.Server unit unit in
  shutdownTimeout service < drain_delay (GrpcServe.life (with_health slow)) + stop_timeout (GrpcServe.life (with_health slow)).
Proof. reflexivity. Qed.
