(* ===== verification/ImageFit.v ===== *)
(** * [filestorage/image.go]: normalising uploaded images

    The decoders, the scaler and the JPEG encoder are a class.  A reader is what it
    yields and the error it ends with, if any. *)

From S2P Require Export Apperr.

Definition JPEGContentType : string := "image/jpeg".
Definition defaultMaxSide : Z := 512.
Definition defaultQuality : Z := 85.
Definition maxPixelsLimit : Z := 50000000.

Definition ErrTooLarge : error := errorString 40 "filestorage: image is too large".
Definition ErrNotAnImage : error := errorString 41 "filestorage: file is not a supported image".
Definition ErrTooManyPix : error := errorString 42 "filestorage: image resolution is too high".

Record Reader := mkReader {
  content : list Z;
  read_error : option error
}.

(** [io.LimitReader]: at most [n] bytes, and then the end. *)
Definition LimitReader (r : Reader) (n : Z) : Reader :=
  if n <=? Z.of_nat (length (content r)) then mkReader (take (Z.to_nat n) (content r)) None else r.

(** [io.ReadAll] *)
Definition ReadAll (r : Reader) : result error (list Z) :=
  match read_error r with Some err => Err err | None => Ok (content r) end.

(** [image], [image/jpeg] and [golang.org/x/image/draw]: a size from the first bytes,
    a picture from all of them, its width and height, the picture scaled to a size,
    and its JPEG bytes. *)
Class Imaging := {
  Image : Type;
  DecodeConfig : list Z -> option (Z * Z);
  Decode : list Z -> option Image;
  Bounds : Image -> Z * Z;
  Scale : Image -> Z * Z -> Image;
  jpeg_Encode : Image -> Z -> result error (list Z)
}.

Class ImagingLaws `{!Imaging} : Prop := {
  Scale_bounds img size : Bounds (Scale img size) = size;
  Decode_bounds raw img : Decode raw = Some img -> 0 < (Bounds img).1 < 2 ^ 31 /\ 0 < (Bounds img).2 < 2 ^ 31;
  DecodeConfig_bounds raw w h : DecodeConfig raw = Some (w, h) -> 0 <= w < 2 ^ 31 /\ 0 <= h < 2 ^ 31
}.

Record ImageOptions := mkOptions {
  MaxBytes : Z;
  MaxSide : Z;
  Quality : Z
}.

(** The size [fit] scales to, or none when the picture fits; [int] products wrap. *)
Definition fit_size (width height maxSide : Z) : option (Z * Z) :=
  if (width <=? maxSide) && (height <=? maxSide) then None
  else if height <? width then Some (maxSide, Z.quot (int64 (height * maxSide)) width)
  else Some (Z.quot (int64 (width * maxSide)) height, maxSide).

Section image.
Context `{!Imaging}.

Definition fit (source : Image) (maxSide : Z) : Image :=
  let '(width, height) := Bounds source in
  match fit_size width height maxSide with
  | None => source
  | Some size => Scale source size
  end.

Definition with_defaults (opts : ImageOptions) : ImageOptions :=
  mkOptions (MaxBytes opts)
    (if MaxSide opts <=? 0 then defaultMaxSide else MaxSide opts)
    (if Quality opts <=? 0 then defaultQuality else Quality opts).

(** What is done with the bytes that were read. *)
Definition normalize_bytes (raw : list Z) (opts : ImageOptions) : result error (list Z) :=
  match DecodeConfig raw with
  | None => Err ErrNotAnImage
  | Some (width, height) =>
      if maxPixelsLimit <? int64 (width * height) then Err ErrTooManyPix
      else
        match Decode raw with
        | None => Err ErrNotAnImage
        | Some decoded =>
            match jpeg_Encode (fit decoded (MaxSide opts)) (Quality opts) with
            | Err err => Err (Errorf "filestorage: encode image" err)
            | Ok encoded => Ok encoded
            end
        end
  end.

Definition NormalizeImage (r : Reader) (opts : ImageOptions) : result error (list Z) :=
  let opts := with_defaults opts in
  let source := if 0 <? MaxBytes opts then LimitReader r (int64 (MaxBytes opts + 1)) else r in
  match ReadAll source with
  | Err err => Err (Errorf "filestorage: read image" err)
  | Ok raw =>
      if (0 <? MaxBytes opts) && (MaxBytes opts <? Z.of_nat (length raw)) then Err ErrTooLarge
      else normalize_bytes raw opts
  end.
End image.

(** ** The size of a fitted picture *)

Lemma product_int64 a b : 0 < a < 2 ^ 31 -> 0 < b < 2 ^ 31 -> int64 (a * b) = a * b.
Proof. intros Ha Hb. apply int64_id. unfold is_int64. nia. Qed.

(** A picture that is too wide or too high gets the side [maxSide] and the other side
    of its ratio, rounded down. *)
Lemma fit_size_spec w h m :
  0 < w < 2 ^ 31 -> 0 < h < 2 ^ 31 -> 0 < m < 2 ^ 31 ->
  match fit_size w h m with
  | None => w <= m /\ h <= m
  | Some (w', h') =>
      m < Z.max w h /\ Z.max w' h' = m /\ 0 <= w' <= w /\ 0 <= h' <= h /\
      (h < w -> w' = m /\ h' * w <= h * m < (h' + 1) * w) /\
      (w <= h -> h' = m /\ w' * h <= w * m < (w' + 1) * h)
  end.
Proof.
  intros Hw Hh Hm. unfold fit_size. destruct ((w <=? m) && (h <=? m)) eqn:Hfit; [go_bool; lia|].
  assert (m < Z.max w h) as Hbig by (apply andb_false_iff in Hfit as [H|H]; go_bool; lia).
  rewrite !product_int64 by done. destruct (Z.ltb_spec h w) as [Hlt|Hge].
  - rewrite Z.quot_div_nonneg by nia. pose proof (Z.div_mod (h * m) w). pose proof (Z.mod_pos_bound (h * m) w).
    assert (0 <= h * m / w) by (apply Z.div_pos; nia). assert (h * m / w <= h) by nia. assert (h * m / w <= m) by nia.
    split_and!; try lia; intros; split; nia.
  - rewrite Z.quot_div_nonneg by nia. pose proof (Z.div_mod (w * m) h). pose proof (Z.mod_pos_bound (w * m) h).
    assert (0 <= w * m / h) by (apply Z.div_pos; nia). assert (w * m / h <= w) by nia. assert (w * m / h <= m) by nia.
    split_and!; try lia; intros; split; nia.
Qed.

Section contract.
Context `{!Imaging} {HI : ImagingLaws}.

Lemma fit_bounds raw img m :
  Decode raw = Some img -> 0 < m < 2 ^ 31 ->
  let '(w, h) := Bounds img in
  let '(w', h') := Bounds (fit img m) in
  w' <= m /\ h' <= m /\ (w <= m -> h <= m -> fit img m = img) /\
  (0 < w' /\ 0 < h' <-> Z.max w h <= m \/ Z.max w h <= Z.min w h * m).
Proof.
  intros Hd Hm. destruct (Decode_bounds raw img Hd) as [Hw Hh]. unfold fit.
  destruct (Bounds img) as [w h] eqn:Hb. cbn [fst snd] in Hw, Hh.
  pose proof (fit_size_spec w h m Hw Hh Hm) as Hs. destruct (fit_size w h m) as [[w' h']|]; [|rewrite Hb; split_and!; [lia..|done|lia]].
  rewrite Scale_bounds. destruct Hs as (H1 & H2 & H3 & H4 & H5 & H6). split_and!; [lia|lia|lia|].
  destruct (Z.lt_ge_cases h w) as [Hlt|Hge].
  - destruct (H5 Hlt) as [-> Hr]. rewrite Z.max_l, Z.min_r by lia. split; [intros [_ Hp]; right; nia|intros [Hx|Hx]; [lia|nia]].
  - destruct (H6 Hge) as [-> Hr]. rewrite Z.max_r, Z.min_l by lia. split; [intros [Hp _]; right; nia|intros [Hx|Hx]; [lia|nia]].
Qed.

(** The picture [img] brought down to at most [side] each way: itself when it fits;
    otherwise scaled so that its longer side is [side] and the other one that of its
    ratio, rounded down. *)
Definition fitted (img : Image) (side : Z) (picture : Image) : Prop :=
  let '(w, h) := Bounds img in
  (w <= side -> h <= side -> picture = img) /\
  (side < Z.max w h -> exists w' h', picture = Scale img (w', h') /\
     (h < w -> w' = side /\ h' * w <= h * side < (h' + 1) * w) /\
     (w <= h -> h' = side /\ w' * h <= w * side < (w' + 1) * h)).

Lemma fit_fitted raw img side : Decode raw = Some img -> 0 < side < 2 ^ 31 -> fitted img side (fit img side).
Proof.
  intros Hd Hm. destruct (Decode_bounds raw img Hd) as [Hw Hh]. unfold fitted, fit.
  destruct (Bounds img) as [w h]. cbn [fst snd] in Hw, Hh.
  pose proof (fit_size_spec w h side Hw Hh Hm) as Hs. destruct (fit_size w h side) as [[w' h']|]; [|split; [done|lia]].
  destruct Hs as (H1 & _ & _ & _ & H5 & H6). split; [lia|]. intros _. by exists w', h'.
Qed.

(** What becomes of the bytes of an upload. *)
Lemma normalize_bytes_spec raw opts :
  0 < MaxSide opts < 2 ^ 31 ->
  (DecodeConfig raw = None -> normalize_bytes raw opts = Err ErrNotAnImage) /\
  forall w h, DecodeConfig raw = Some (w, h) ->
    (maxPixelsLimit < w * h -> normalize_bytes raw opts = Err ErrTooManyPix) /\
    (w * h <= maxPixelsLimit -> Decode raw = None -> normalize_bytes raw opts = Err ErrNotAnImage) /\
    (forall img, w * h <= maxPixelsLimit -> Decode raw = Some img ->
       exists picture, fitted img (MaxSide opts) picture /\
         (Bounds picture).1 <= MaxSide opts /\ (Bounds picture).2 <= MaxSide opts /\
         normalize_bytes raw opts = match jpeg_Encode picture (Quality opts) with
           | Ok out => Ok out
           | Err err => Err (Errorf "filestorage: encode image" err)
           end).
Proof.
  intros Hs. unfold normalize_bytes. split; [by intros ->|]. intros w h Hc. rewrite Hc.
  destruct (DecodeConfig_bounds raw w h Hc) as [Hw Hh].
  rewrite int64_id by (unfold is_int64; nia). destruct (Z.ltb_spec maxPixelsLimit (w * h)); (split_and!; [lia || done|..]); try lia.
  - by intros _ ->.
  - intros img _ Hd. rewrite Hd. exists (fit img (MaxSide opts)). split; [by eapply fit_fitted|].
    pose proof (fit_bounds raw img (MaxSide opts) Hd Hs) as Hf.
    destruct (Bounds img), (Bounds (fit img (MaxSide opts))). destruct Hf as (H1 & H2 & _).
    split_and!; [done..|]. by destruct (jpeg_Encode _ _).
Qed.

(** The limit on the bytes comes first, then a failing reader, then the bytes. *)
Lemma NormalizeImage_cases r opts :
  MaxBytes opts < 2 ^ 63 - 1 ->
  (0 < MaxBytes opts < Z.of_nat (length (content r)) -> NormalizeImage r opts = Err ErrTooLarge) /\
  ((0 < MaxBytes opts -> Z.of_nat (length (content r)) <= MaxBytes opts) ->
     NormalizeImage r opts = match read_error r with
       | Some err => Err (Errorf "filestorage: read image" err)
       | None => normalize_bytes (content r) (with_defaults opts)
       end).
Proof.
  intros Hmax. unfold NormalizeImage. cbn zeta. change (MaxBytes (with_defaults opts)) with (MaxBytes opts).
  destruct (Z.ltb_spec 0 (MaxBytes opts)) as [Hpos|Hneg]; cbn [andb]; [|split; [lia|]; by destruct r as [c [e|]]].
  rewrite int64_id by (unfold is_int64; lia). unfold LimitReader.
  destruct (Z.leb_spec (MaxBytes opts + 1) (Z.of_nat (length (content r)))) as [Hlong|Hshort]; cbn [ReadAll read_error content].
  - rewrite length_take, (proj2 (Z.ltb_lt (MaxBytes opts) _)) by lia. split; [done|]. intros Hle. specialize (Hle Hpos). lia.
  - split; [lia|]. intros _. unfold ReadAll. destruct (read_error r); [done|].
    by rewrite (proj2 (Z.ltb_ge (MaxBytes opts) _)) by lia.
Qed.

(** C38. What becomes of an upload.  More bytes than the limit are [ErrTooLarge], whatever
    they are; a reader that fails before that is reported; a file of no known format,
    and one that does not decode, are [ErrNotAnImage]; a picture announced as too large
    is refused whatever the decoder would make of it; and every other one, within the
    limits, comes out as the JPEG encoding, at the quality asked for, of the picture
    brought down to the side limit: itself when it fits, else scaled in its ratio.  So
    what comes out is always such a JPEG, no larger than the limit each way. *)
Theorem normalize_respects_limits r opts
  (Hmax : MaxBytes opts < 2 ^ 63 - 1) (Hside : MaxSide opts < 2 ^ 31) :
  let side := if 0 <? MaxSide opts then MaxSide opts else 512 in
  let quality := if 0 <? Quality opts then Quality opts else 85 in
  (0 < MaxBytes opts < Z.of_nat (length (content r)) -> NormalizeImage r opts = Err ErrTooLarge) /\
  ((0 < MaxBytes opts -> Z.of_nat (length (content r)) <= MaxBytes opts) ->
   (forall err, read_error r = Some err -> NormalizeImage r opts = Err (Errorf "filestorage: read image" err)) /\
   (read_error r = None ->
    (DecodeConfig (content r) = None -> NormalizeImage r opts = Err ErrNotAnImage) /\
    forall w h, DecodeConfig (content r) = Some (w, h) ->
      (50000000 < w * h -> NormalizeImage r opts = Err ErrTooManyPix) /\
      (w * h <= 50000000 -> Decode (content r) = None -> NormalizeImage r opts = Err ErrNotAnImage) /\
      (forall img, w * h <= 50000000 -> Decode (content r) = Some img ->
         exists picture, fitted img side picture /\ (Bounds picture).1 <= side /\ (Bounds picture).2 <= side /\
           NormalizeImage r opts = match jpeg_Encode picture quality with
             | Ok out => Ok out
             | Err err => Err (Errorf "filestorage: encode image" err)
             end))) /\
  (forall out, NormalizeImage r opts = Ok out ->
     read_error r = None /\ (0 < MaxBytes opts -> Z.of_nat (length (content r)) <= MaxBytes opts) /\
     exists img w h, DecodeConfig (content r) = Some (w, h) /\ w * h <= 50000000 /\ Decode (content r) = Some img).
Proof.
  cbn zeta. destruct (NormalizeImage_cases r opts Hmax) as [Hlong Hcases].
  assert (MaxSide (with_defaults opts) = (if 0 <? MaxSide opts then MaxSide opts else 512) /\
    Quality (with_defaults opts) = (if 0 <? Quality opts then Quality opts else 85)) as [<- <-].
  { unfold with_defaults, defaultMaxSide, defaultQuality. cbn. go_cases; auto; lia. }
  assert (0 < MaxSide (with_defaults opts) < 2 ^ 31) as Hs.
  { unfold with_defaults, defaultMaxSide. cbn. destruct (Z.leb_spec (MaxSide opts) 0); lia. }
  destruct (normalize_bytes_spec (content r) (with_defaults opts) Hs) as [Hnone Hsome].
  split_and!; [exact Hlong| |].
  - intros Hfits. rewrite (Hcases Hfits). split; [by intros err ->|]. intros ->. split; [exact Hnone|exact Hsome].
  - intros out Hout. destruct (decide (0 < MaxBytes opts < Z.of_nat (length (content r)))) as [Hl|Hl]; [by rewrite Hlong in Hout|].
    rewrite Hcases in Hout by lia. destruct (read_error r); [done|]. split_and!; [done|lia|].
    destruct (DecodeConfig (content r)) as [[w h]|] eqn:Hc; [|by rewrite Hnone in Hout].
    destruct (Hsome w h eq_refl) as (H1 & H2 & _). destruct (Z.le_gt_cases (w * h) maxPixelsLimit); [|by rewrite H1 in Hout by lia].
    destruct (Decode (content r)) as [img|] eqn:Hd; [|by rewrite H2 in Hout]. by exists img, w, h.
Qed.
End contract.

(** ** Witness and examples *)

(** A format whose files are two numbers, a width and a height in tens. *)
#[local] Instance toy_images : Imaging := {
  Image := Z * Z;
  DecodeConfig raw := match raw with [w; h] => Some ((1 + w mod 1000) * 10, (1 + h mod 1000) * 10) | _ => None end;
  Decode raw := match raw with [w; h] => Some ((1 + w mod 1000) * 10, (1 + h mod 1000) * 10) | _ => None end;
  Bounds img := img;
  Scale _ size := size;
  jpeg_Encode img _ := Ok [img.1; img.2]
}.
#[local] Instance toy_laws : ImagingLaws.
Proof.
  split; cbn; [done|..].
  - intros [|w [|h [|? ?]]] img; try done. intros [= <-]. cbn. pose proof (Z.mod_pos_bound w 1000). pose proof (Z.mod_pos_bound h 1000). lia.
  - intros [|w [|h [|? ?]]] w' h'; try done. intros [= <- <-]. pose proof (Z.mod_pos_bound w 1000). pose proof (Z.mod_pos_bound h 1000). lia.
Qed.

Lemma normalize_respects_limits_witness :
  NormalizeImage (mkReader [159; 89] None) (mkOptions 1 0 0) = Err ErrTooLarge /\
  exists picture, fitted (1600, 900) 512 picture /\ NormalizeImage (mkReader [159; 89] None) (mkOptions 100 0 0) = Ok [picture.1; picture.2].
Proof.
  split.
  - apply (normalize_respects_limits (mkReader [159; 89] None) (mkOptions 1 0 0)); cbn; lia.
  - destruct (normalize_respects_limits (mkReader [159; 89] None) (mkOptions 100 0 0)) as (_ & H & _); [cbn; lia..|].
    destruct (H ltac:(cbn; lia)) as [_ H']. destruct (H' eq_refl) as [_ H2].
    destruct (H2 1600 900 eq_refl) as (_ & _ & H3). destruct (H3 (1600, 900) ltac:(lia) eq_refl) as (picture & Hf & _ & _ & Hn).
    exists picture. split; [exact Hf|exact Hn].
Defined.

Example wide_picture : NormalizeImage (mkReader [159; 89] None) (mkOptions 100 0 0) = Ok [512; 288].
Proof. vm_compute. reflexivity. Qed.

(** A picture much longer than wide is scaled to no width at all: what is encoded is
    empty. *)
Example thin_picture_vanishes : fit_size 1 1000 512 = Some (0, 512) /\ fit_size 10000 1 512 = Some (512, 0).
Proof. vm_compute. by split. Qed.

(** The largest byte limit is none: one more wraps around, and nothing is read. *)
Example largest_limit_reads_nothing :
  NormalizeImage (mkReader [159; 89] None) (mkOptions (2 ^ 63 - 1) 0 0) = Err ErrNotAnImage.
Proof. vm_compute. reflexivity. Qed.
