(* ===== verification/FileStorage.v ===== *)
(** * [filestorage/filestorage.go]: the object store

    minio-go is a class over the state of the object store.  Links are URLs of
    [Url]. *)

From S2P Require Export Url Apperr.

Record Config := mkConfig {
  Endpoint : string;
  AccessKey : string;
  SecretKey : string;
  Bucket : string;
  Region : string;
  UseSSL : bool;
  PublicEndpoint : string;
  PresignTTL : Z;
  CreateBucket : bool;
  StagingPrefix : string;
  StagingTTL : Z
}.

(** [minio.Client]: the endpoint it signs for, its credentials and transport. *)
Record Api := mkApi {
  api_endpoint : string;
  api_keys : string * string;
  api_secure : bool;
  api_region : string
}.

Record ObjectInfo := mkInfo {
  Key : string;
  Size : Z;
  ContentType : string;
  ModifiedAt : Z
}.

Record Rule := mkRule { rule_ID : string; rule_Status : string; rule_Prefix : string; rule_Days : Z }.

Class Minio := {
  store : Type;
  minio_New : Api -> option error;
  api_BucketExists : Api -> string -> store -> result error bool;
  api_MakeBucket : Api -> string -> string -> store -> store * option error;
  api_SetBucketLifecycle : Api -> string -> list Rule -> store -> store * option error;
  api_PresignedPutObject : Api -> string -> string -> Z -> result error URL;
  api_PresignedGetObject : Api -> string -> string -> Z -> result error URL;
  api_StatObject : Api -> string -> string -> store -> result error ObjectInfo;
  error_StatusCode : error -> Z;            (** [minio.ToErrorResponse(err).StatusCode] *)
  api_GetObject : Api -> string -> string -> store -> result error (list Z);
  api_PutObject : Api -> string -> string -> list Z -> Z -> string -> store -> store * option error;
  api_RemoveObject : Api -> string -> string -> store -> store * option error
}.

Definition ErrNotFound : error := errorString 43 "filestorage: object not found".

Record Client := mkClient {
  api : Api;
  public : Api;
  cfg : Config
}.

Section storage.
Context `{!Minio}.

Definition newAPI (cfg : Config) (endpoint : string) : result error Api :=
  let api := mkApi endpoint (AccessKey cfg, SecretKey cfg) (UseSSL cfg) (Region cfg) in
  match minio_New api with
  | Some err => Err (Errorf ("filestorage: connect " +:+ endpoint) err)
  | None => Ok api
  end.

Definition staging_rule (cfg : Config) : Rule := mkRule "expire-staging" "Enabled" (StagingPrefix cfg) (StagingTTL cfg).

Definition applyLifecycle (c : Client) (s : store) : store * option error :=
  if (StagingPrefix (cfg c) == "") || (StagingTTL (cfg c) <=? 0) then (s, None)
  else match api_SetBucketLifecycle (api c) (Bucket (cfg c)) [staging_rule (cfg c)] s with
  | (s, Some err) => (s, Some (Errorf ("filestorage: set lifecycle on " +:+ Bucket (cfg c)) err))
  | (s, None) => (s, None)
  end.

Definition with_PresignTTL (c : Config) (ttl : Z) : Config :=
  mkConfig (Endpoint c) (AccessKey c) (SecretKey c) (Bucket c) (Region c) (UseSSL c) (PublicEndpoint c) ttl
    (CreateBucket c) (StagingPrefix c) (StagingTTL c).

(** The bucket, made when it is missing and may be made. *)
Definition ensureBucket (api : Api) (cfg : Config) (s : store) : store * option error :=
  if CreateBucket cfg then
    match api_BucketExists api (Bucket cfg) s with
    | Err err => (s, Some (Errorf ("filestorage: check bucket " +:+ Bucket cfg) err))
    | Ok true => (s, None)
    | Ok false =>
        match api_MakeBucket api (Bucket cfg) (Region cfg) s with
        | (s, Some err) => (s, Some (Errorf ("filestorage: create bucket " +:+ Bucket cfg) err))
        | (s, None) => (s, None)
        end
    end
  else (s, None).

Definition Open (cfg : Config) (s : store) : store * result error Client :=
  if Bucket cfg == "" then (s, Err (errors_New "filestorage: S3_BUCKET is required"))
  else
    let cfg := if PresignTTL cfg <=? 0 then with_PresignTTL cfg (15 * Minute) else cfg in
    match newAPI cfg (Endpoint cfg) with
    | Err err => (s, Err err)
    | Ok api =>
        match (if (PublicEndpoint cfg != "") && (PublicEndpoint cfg != Endpoint cfg)
               then newAPI cfg (PublicEndpoint cfg) else Ok api) with
        | Err err => (s, Err err)
        | Ok public =>
            let client := mkClient api public cfg in
            match ensureBucket api cfg s with
            | (s, Some err) => (s, Err err)
            | (s, None) =>
                match applyLifecycle client s with
                | (s, Some err) => (s, Err err)
                | (s, None) => (s, Ok client)
                end
            end
        end
    end.

Definition Ping (c : Client) (s : store) : option error :=
  match api_BucketExists (api c) (Bucket (cfg c)) s with
  | Err err => Some (Errorf "filestorage: ping" err)
  | Ok _ => None
  end.

Definition ttlOr (c : Client) (ttl : Z) : Z := if 0 <? ttl then ttl else PresignTTL (cfg c).

Definition PresignPut (c : Client) (key : string) (ttl : Z) : result error string :=
  match api_PresignedPutObject (public c) (Bucket (cfg c)) key (ttlOr c ttl) with
  | Err err => Err (Errorf ("filestorage: presign put " +:+ key) err)
  | Ok link => Ok (of_bytes (URL_String link))
  end.

Definition PresignGet (c : Client) (key : string) (ttl : Z) : result error string :=
  if key == "" then Ok ""
  else match api_PresignedGetObject (public c) (Bucket (cfg c)) key (ttlOr c ttl) with
  | Err err => Err (Errorf ("filestorage: presign get " +:+ key) err)
  | Ok link => Ok (of_bytes (URL_String link))
  end.

Definition Stat (c : Client) (key : string) (s : store) : result error ObjectInfo :=
  match api_StatObject (api c) (Bucket (cfg c)) key s with
  | Err err =>
      if error_StatusCode err =? 404 then Err ErrNotFound
      else Err (Errorf ("filestorage: stat " +:+ key) err)
  | Ok info => Ok (mkInfo (Key info) (Size info) (ContentType info) (ModifiedAt info))
  end.

(** What reading the returned object yields. *)
Definition Get (c : Client) (key : string) (s : store) : result error (list Z) :=
  match api_GetObject (api c) (Bucket (cfg c)) key s with
  | Err err => Err (Errorf ("filestorage: get " +:+ key) err)
  | Ok object => Ok object
  end.

Definition Put (c : Client) (key : string) (r : list Z) (size : Z) (contentType : string) (s : store) : store * option error :=
  match api_PutObject (api c) (Bucket (cfg c)) key r size contentType s with
  | (s, Some err) => (s, Some (Errorf ("filestorage: put " +:+ key) err))
  | (s, None) => (s, None)
  end.

Definition Remove (c : Client) (key : string) (s : store) : store * option error :=
  if key == "" then (s, None)
  else match api_RemoveObject (api c) (Bucket (cfg c)) key s with
  | (s, Some err) => (s, Some (Errorf ("filestorage: remove " +:+ key) err))
  | (s, None) => (s, None)
  end.
End storage.

(** ** The store

    The documented behaviour: objects of a bucket by key; what was put is there until
    it is removed, making a bucket or setting rules leaves the objects alone. *)
Class MinioLaws `{!Minio} (has_bucket : string -> store -> Prop) (object : string -> string -> store -> option (list Z * string)) : Prop := {
  BucketExists_spec a b s found : api_BucketExists a b s = Ok found -> (found = true <-> has_bucket b s);
  MakeBucket_spec a b region s s' : api_MakeBucket a b region s = (s', None) ->
    has_bucket b s' /\ forall b' k, object b' k s' = object b' k s;
  SetLifecycle_spec a b rules s s' err : api_SetBucketLifecycle a b rules s = (s', err) ->
    (has_bucket b s -> has_bucket b s') /\ forall b' k, object b' k s' = object b' k s;
  MakeBucket_fails a b region s s' err : api_MakeBucket a b region s = (s', Some err) ->
    forall b' k, object b' k s' = object b' k s;
  Put_spec a b k data ct s s' : api_PutObject a b k data (Z.of_nat (length data)) ct s = (s', None) ->
    object b k s' = Some (data, ct) /\ forall b' k', (b', k') <> (b, k) -> object b' k' s' = object b' k' s;
  Remove_spec a b k s s' : api_RemoveObject a b k s = (s', None) ->
    object b k s' = None /\ forall b' k', (b', k') <> (b, k) -> object b' k' s' = object b' k' s;
  Stat_found a b k s info : api_StatObject a b k s = Ok info ->
    exists data ct, object b k s = Some (data, ct) /\ Size info = Z.of_nat (length data) /\ ContentType info = ct /\ Key info = k;
  Stat_missing a b k s err : api_StatObject a b k s = Err err -> error_StatusCode err = 404 -> object b k s = None;
  Get_spec a b k s data : api_GetObject a b k s = Ok data -> exists ct, object b k s = Some (data, ct)
}.

Section contract.
Context `{!Minio} (has_bucket : string -> store -> Prop) (object : string -> string -> store -> option (list Z * string)).
Context {HM : MinioLaws has_bucket object}.

Lemma newAPI_ok cfg endpoint a :
  newAPI cfg endpoint = Ok a -> a = mkApi endpoint (AccessKey cfg, SecretKey cfg) (UseSSL cfg) (Region cfg).
Proof. unfold newAPI. destruct (minio_New _); [done|]. by intros [= <-]. Qed.

Lemma ensureBucket_spec a cfg s s' err :
  ensureBucket a cfg s = (s', err) ->
  (err = None -> CreateBucket cfg = true -> has_bucket (Bucket cfg) s') /\ forall b k, object b k s' = object b k s.
Proof.
  unfold ensureBucket. destruct (CreateBucket cfg); [|by intros [= <- <-]].
  destruct (api_BucketExists a (Bucket cfg) s) as [[]|e] eqn:Hb; [by intros [= <- <-]; split; [intros; by apply (BucketExists_spec _ _ _ _ Hb)|]| |by intros [= <- <-]].
  destruct (api_MakeBucket _ _ _ _) as [s1 [e|]] eqn:Hm; intros [= <- <-].
  - split; [done|]. by eapply MakeBucket_fails.
  - apply MakeBucket_spec in Hm as [H1 H2]. by split.
Qed.

Lemma applyLifecycle_spec c s s' err :
  applyLifecycle c s = (s', err) ->
  (has_bucket (Bucket (cfg c)) s -> has_bucket (Bucket (cfg c)) s') /\ forall b k, object b k s' = object b k s.
Proof.
  unfold applyLifecycle. destruct (_ || _); [by intros [= <- <-]|].
  destruct (api_SetBucketLifecycle _ _ _ _) as [s1 [e|]] eqn:Hl; intros [= <- <-]; by eapply SetLifecycle_spec.
Qed.

(** The parts of a client that [Open] hands out. *)
Lemma Open_ok c s s' r :
  Open c s = (s', r) ->
  (forall b k, object b k s' = object b k s) /\
  forall client, r = Ok client ->
    let connect endpoint := mkApi endpoint (AccessKey c, SecretKey c) (UseSSL c) (Region c) in
    Bucket c <> "" /\ (CreateBucket c = true -> has_bucket (Bucket c) s') /\
    client = mkClient (connect (Endpoint c)) (connect (if decide (PublicEndpoint c = "") then Endpoint c else PublicEndpoint c))
      (with_PresignTTL c (if 0 <? PresignTTL c then PresignTTL c else 15 * Minute)).
Proof.
  unfold Open. destruct (bool_decide_reflect (Bucket c = "")) as [|Hb]; [by intros [= <- <-]|].
  assert ((if PresignTTL c <=? 0 then with_PresignTTL c (15 * Minute) else c) =
    with_PresignTTL c (if 0 <? PresignTTL c then PresignTTL c else 15 * Minute)) as ->.
  { destruct c. cbn. by go_cases; try lia. }
  set (c1 := with_PresignTTL c _). cbv zeta. destruct (newAPI c1 (Endpoint c1)) as [a|] eqn:Ha; [|by intros [= <- <-]].
  destruct (if (PublicEndpoint c1 != "") && (PublicEndpoint c1 != Endpoint c1) then newAPI c1 (PublicEndpoint c1) else Ok a) as [p|] eqn:Hp; [|by intros [= <- <-]].
  destruct (ensureBucket a c1 s) as [s1 [e|]] eqn:He; apply ensureBucket_spec in He as [He1 He2]; [by intros [= <- <-]|].
  destruct (applyLifecycle (mkClient a p c1) s1) as [s2 [e|]] eqn:Hl; apply applyLifecycle_spec in Hl as [Hl1 Hl2]; intros [= <- <-].
  { split; [|done]. intros b k. by rewrite Hl2, He2. }
  split; [intros b k; by rewrite Hl2, He2|]. intros client [= <-]. cbn [cfg api public] in *. apply newAPI_ok in Ha as ->.
  split_and!; [done|intros Hc; by apply Hl1, He1|].
  enough (p = mkApi (if decide (PublicEndpoint c = "") then Endpoint c else PublicEndpoint c)
                (AccessKey c, SecretKey c) (UseSSL c) (Region c)) as -> by done.
  change (PublicEndpoint c1) with (PublicEndpoint c) in Hp. change (Endpoint c1) with (Endpoint c) in Hp.
  case_bool_decide as Hpe; cbn [negb andb] in Hp; [injection Hp as <-; by rewrite decide_True|].
  rewrite decide_False by done.
  case_bool_decide as Heq; cbn [negb] in Hp; [injection Hp as <-; by rewrite Heq|]. by apply newAPI_ok in Hp as ->.
Qed.

(** C39. A client that [Open] hands out works on the configured bucket, which is named,
    and exists if it was to be created.  Its links are those the public endpoint signs
    - the endpoint itself, if no public one is given - with the configured keys, scheme
    and region, for the object of the key in the bucket, and always for a positive
    time: the one asked for, else the configured one, else a quarter of an hour; no
    key has the empty link.  Opening, whether it succeeds or fails half-way, leaves
    every object as it is. *)
Theorem open_storage_contract c s s' r
  (Hopen : Open c s = (s', r)) :
  (forall b k, object b k s' = object b k s) /\
  forall client, r = Ok client ->
    let signer := mkApi (if decide (PublicEndpoint c = "") then Endpoint c else PublicEndpoint c)
                    (AccessKey c, SecretKey c) (UseSSL c) (Region c) in
    let valid_for ttl := if 0 <? ttl then ttl else if 0 <? PresignTTL c then PresignTTL c else 15 * Minute in
    let link key what answer := match answer : result error URL with
      | Ok url => Ok (of_bytes (URL_String url))
      | Err err => Err (Errorf ("filestorage: presign " +:+ what +:+ " " +:+ key) err)
      end in
    Bucket (cfg client) = Bucket c /\ Bucket c <> "" /\
    (CreateBucket c = true -> has_bucket (Bucket c) s') /\
    api client = mkApi (Endpoint c) (AccessKey c, SecretKey c) (UseSSL c) (Region c) /\
    (forall ttl, 0 < valid_for ttl) /\
    (forall key ttl, PresignPut client key ttl = link key "put" (api_PresignedPutObject signer (Bucket c) key (valid_for ttl))) /\
    (forall key ttl, PresignGet client key ttl =
       if decide (key = "") then Ok "" else link key "get" (api_PresignedGetObject signer (Bucket c) key (valid_for ttl))).
Proof.
  apply Open_ok in Hopen as [Hsame Hclient]. split; [exact Hsame|]. intros client Hr. cbn zeta.
  destruct (Hclient client Hr) as (Hb & Hmade & ->). split_and!; [done..| | |].
  - intros ttl. unfold Minute, Second. go_cases; lia.
  - intros key ttl. unfold PresignPut, ttlOr. cbn [public cfg Bucket with_PresignTTL PresignTTL]. by destruct (api_PresignedPutObject _ _ _ _).
  - intros key ttl. unfold PresignGet, ttlOr. cbn [public cfg Bucket with_PresignTTL PresignTTL].
    destruct (bool_decide_reflect (key = "")), (decide (key = "")); done.
Qed.

(** The store behind a client behaves as a map of keys: what was put is found with
    its size and type and never as missing, what was removed is not found, only what
    is missing is [ErrNotFound], an empty key is removed without a call, and no
    operation touches another key. *)
Theorem storage_is_a_map c key s :
  let b := Bucket (cfg c) in
  (forall data ct s', Put c key data (Z.of_nat (length data)) ct s = (s', None) ->
     (forall info, Stat c key s' = Ok info -> Size info = Z.of_nat (length data) /\ ContentType info = ct) /\
     Stat c key s' <> Err ErrNotFound /\
     (forall got, Get c key s' = Ok got -> got = data) /\
     forall key', key' <> key -> object b key' s' = object b key' s) /\
  (forall s', Remove c key s = (s', None) ->
     (key <> "" -> object b key s' = None /\ forall info, Stat c key s' <> Ok info) /\
     (key = "" -> s' = s) /\ forall key', key' <> key -> object b key' s' = object b key' s) /\
  (Stat c key s = Err ErrNotFound -> object b key s = None).
Proof.
  cbn zeta. assert (forall m e, Errorf m e <> ErrNotFound) as Herr by done. split_and!.
  - intros data ct s'. unfold Put. destruct (api_PutObject _ _ _ _ _ _ _) as [s1 [e|]] eqn:Hput; [done|]. intros [= <-].
    apply Put_spec in Hput as [Hput Hother]. split_and!.
    + intros info. unfold Stat. destruct (api_StatObject _ _ _ _) as [i|e] eqn:Hs; [|by case_match].
      apply Stat_found in Hs as (d & t & Ho & H1 & H2 & _). intros [= <-]. cbn. by simplify_eq.
    + unfold Stat. destruct (api_StatObject _ _ _ _) as [i|e] eqn:Hs; [done|].
      destruct (Z.eqb_spec (error_StatusCode e) 404) as [H404|]; [|by intros [= Hx]]. eapply Stat_missing in Hs; [congruence|done].
    + intros got. unfold Get. destruct (api_GetObject _ _ _ _) as [d|e] eqn:Hg; [|done]. intros [= <-].
      apply Get_spec in Hg as [t Hg]. by simplify_eq.
    + intros key' Hne. apply Hother. congruence.
  - intros s'. unfold Remove. destruct (bool_decide_reflect (key = "")) as [->|Hk]; [by intros [= <-]|].
    destruct (api_RemoveObject _ _ _ _) as [s1 [e|]] eqn:Hrm; [done|]. intros [= <-]. apply Remove_spec in Hrm as [Hrm Hother].
    split_and!; [|done|intros key' Hne; apply Hother; congruence]. intros _. split; [done|]. intros info. unfold Stat.
    destruct (api_StatObject _ _ _ _) as [i|e] eqn:Hs; [|by case_match]. apply Stat_found in Hs as (d & t & Ho & _). congruence.
  - unfold Stat. destruct (api_StatObject _ _ _ _) as [i|e] eqn:Hs; [done|].
    destruct (Z.eqb_spec (error_StatusCode e) 404) as [H404|]; [|by intros [= Hx]]. intros _. by eapply Stat_missing.
Qed.
End contract.

(** ** Witnesses *)

(** A store in memory: its buckets and objects. *)
Record memory := mkMemory { buckets : gset string; objects : gmap (string * string) (list Z * string) }.

Definition no_such_key : error := errorString 50 "The specified key does not exist.".
Definition error_is_missing (e : error) : bool := match e with errorString 50 _ => true | _ => false end.
Definition link_to (endpoint bucket key : string) (ttl : Z) : URL :=
  mkURL (bytes "https") [] None (bytes endpoint) (47 :: bytes bucket ++ 47 :: bytes key) [] false false (bytes "X-Amz-Expires=" ++ Itoa (ttl / Second)) [] [].

#[local] Instance in_memory : Minio := {
  store := memory;
  minio_New _ := None;
  api_BucketExists _ b s := Ok (bool_decide (b ∈ buckets s));
  api_MakeBucket _ b _ s := (mkMemory ({[b]} ∪ buckets s) (objects s), None);
  api_SetBucketLifecycle _ _ _ s := (s, None);
  api_PresignedPutObject a b k ttl := Ok (link_to (api_endpoint a) b k ttl);
  api_PresignedGetObject a b k ttl := Ok (link_to (api_endpoint a) b k ttl);
  api_StatObject _ b k s := match objects s !! (b, k) with
    | Some (data, ct) => Ok (mkInfo k (Z.of_nat (length data)) ct 0)
    | None => Err no_such_key
    end;
  error_StatusCode e := if error_is_missing e then 404 else 0;
  api_GetObject _ b k s := match objects s !! (b, k) with Some (data, _) => Ok data | None => Err no_such_key end;
  api_PutObject _ b k data _ ct s := (mkMemory (buckets s) (<[(b, k) := (data, ct)]> (objects s)), None);
  api_RemoveObject _ b k s := (mkMemory (buckets s) (delete (b, k) (objects s)), None)
}.

#[local] Instance in_memory_laws :
  MinioLaws (fun b s => b ∈ buckets s) (fun b k s => objects s !! (b, k)).
Proof.
  split; cbn.
  - intros _ b s found [= <-]. by rewrite bool_decide_eq_true.
  - intros _ b _ s s' [= <-]. cbn. split; [set_solver|done].
  - by intros _ b _ s s' err [= <- <-].
  - by intros.
  - intros _ b k data ct s s' [= <-]. cbn. split; [by rewrite lookup_insert_eq|]. intros. by rewrite lookup_insert_ne.
  - intros _ b k s s' [= <-]. cbn. split; [by rewrite lookup_delete_eq|]. intros. by rewrite lookup_delete_ne.
  - intros _ b k s info. destruct (objects s !! (b, k)) as [[data ct]|]; [|done]. intros [= <-]. by exists data, ct.
  - intros _ b k s err. destruct (objects s !! (b, k)) as [[data ct]|]; done.
  - intros _ b k s data. destruct (objects s !! (b, k)) as [[d ct]|]; [|done]. intros [= <-]. by exists ct.
Qed.

Definition avatars : Config :=
  mkConfig "minio:9000" "key" "secret" "avatars" "" false "cdn.example" 0 true "staging/" 1.
Definition empty_store : memory := mkMemory ∅ ∅.

Definition avatar_client : Client :=
  mkClient (mkApi "minio:9000" ("key", "secret") false "") (mkApi "cdn.example" ("key", "secret") false "")
    (with_PresignTTL avatars (15 * Minute)).

Lemma open_storage_contract_witness :
  Open avatars empty_store = (mkMemory {[ "avatars" ]} ∅, Ok avatar_client) /\
  PresignGet avatar_client "u 1.jpg" 0 = Ok "https://cdn.example/avatars/u%201.jpg?X-Amz-Expires=900".
Proof.
  assert (Open avatars empty_store = (mkMemory {[ "avatars" ]} ∅, Ok avatar_client)) as Ho by (vm_compute; reflexivity).
  split; [exact Ho|].
  pose proof (open_storage_contract (fun b s => b ∈ buckets s) (fun b k s => objects s !! (b, k)) avatars empty_store _ _ Ho) as [_ H].
  destruct (H avatar_client eq_refl) as (_ & _ & _ & _ & _ & _ & Hget). rewrite Hget. vm_compute. reflexivity.
Defined.

Lemma storage_is_a_map_witness :
  let s := (Put avatar_client "u1.jpg" [255; 216] 2 "image/jpeg" empty_store).1 in
  Stat avatar_client "u1.jpg" s <> Err ErrNotFound /\ Stat avatar_client "u2.jpg" s = Err ErrNotFound.
Proof.
  cbn zeta. split; [|vm_compute; reflexivity].
  pose proof (storage_is_a_map (fun b s => b ∈ buckets s) (fun b k s => objects s !! (b, k)) avatar_client "u1.jpg" empty_store) as [H _].
  apply (H [255; 216] "image/jpeg"). reflexivity.
Defined.
