(* ===== verification/Observability.v ===== *)
(** * Package [observability]: tracing, and the health-check command

    OpenTelemetry is a class: the errors of its exporter and resources.  An exporter
    and a provider are handles; the globals of package [otel] are a state. *)

From S2P Require Export Io Http.

(** [float64], as far as ratios go. *)
Inductive float64 : Type :=
| NaN
| Infinite (negative : bool)
| Rational (num : Z) (den : positive).

Definition float_le_0 (x : float64) : bool :=
  match x with NaN => false | Infinite negative => negative | Rational num _ => num <=? 0 end.
Definition float_gt_1 (x : float64) : bool :=
  match x with NaN => false | Infinite negative => negb negative | Rational num den => Zpos den <? num end.

Record Config := mkConfig {
  Enabled : bool;
  ServiceName : string;
  ServiceVersion : string;
  Environment : string;
  Endpoint : string;
  Insecure : bool;
  SampleRatio : float64;
  ExportTimeout : Z;
  ShutdownTimeout : Z
}.

Definition withDefaults (c : Config) : Config :=
  mkConfig (Enabled c) (ServiceName c) (ServiceVersion c)
    (if Environment c == "" then "development" else Environment c)
    (if Endpoint c == "" then "localhost:4317" else Endpoint c) (Insecure c)
    (if float_le_0 (SampleRatio c) || float_gt_1 (SampleRatio c) then Rational 1 1 else SampleRatio c)
    (or_zero (ExportTimeout c) (10 * Second)) (or_zero (ShutdownTimeout c) (5 * Second)).

(** The options of the exporter, the attributes of the resource, and the globals. *)
Record ExporterOptions := mkExporter { exp_Endpoint : string; exp_Timeout : Z; exp_Insecure : bool }.

Inductive TracerProvider : Type :=
| NoopProvider
| SdkProvider (handle exporter : nat) (resource : list (string * string)) (ratio : float64).

Record otel := mkOtel {
  propagators : list string;
  tracer_provider : TracerProvider
}.

Class OpenTelemetry := {
  exporter_error : ExporterOptions -> option error;
  resource_error : list (string * string) -> option error;      (** of [resource.Merge] *)
  provider_shutdown : option error;
  exporter_shutdown : option error
}.

(** [errors.Join] of two errors. *)
Definition errors_Join (a b : option error) : option error :=
  match a, b with
  | None, None => None
  | Some a, None => Some (wrapErrors (fmt_error a) [a])
  | None, Some b => Some (wrapErrors (fmt_error b) [b])
  | Some a, Some b => Some (wrapErrors (fmt_error a +:+ String "010"%char (fmt_error b)) [a; b])
  end.

Section tracing.
Context `{!OpenTelemetry}.

Inductive Shutdown : Type :=
| NoShutdown
| SdkShutdown (provider exporter : nat) (timeout : Z).

Definition Init (cfg : Config) (o : otel) (w : world) : otel * (world * result error Shutdown) :=
  let o := mkOtel ["tracecontext"; "baggage"] (tracer_provider o) in
  if negb (Enabled cfg) then (mkOtel (propagators o) NoopProvider, (w, Ok NoShutdown))
  else
    let cfg := withDefaults cfg in
    match exporter_error (mkExporter (Endpoint cfg) (ExportTimeout cfg) (Insecure cfg)) with
    | Some err => (o, (w, Err (Errorf "observability: create otlp exporter" err)))
    | None =>
        match open_handle w with
        | (w, Err err) => (o, (w, Err err))
        | (w, Ok exporter) =>
            let attributes := [("service.name", ServiceName cfg); ("service.version", ServiceVersion cfg);
                               ("deployment.environment", Environment cfg)] in
            match resource_error attributes with
            | Some err => (o, (w, Err (Errorf "observability: build resource" err)))
            | None =>
                match open_handle w with
                | (w, Err err) => (o, (w, Err err))
                | (w, Ok provider) =>
                    (mkOtel (propagators o) (SdkProvider provider exporter attributes (SampleRatio cfg)),
                     (w, Ok (SdkShutdown provider exporter (ShutdownTimeout cfg))))
                end
            end
        end
    end.

(** The returned function: both are shut down whatever the first answers. *)
Definition run_shutdown (s : Shutdown) (w : world) : world * option error :=
  match s with
  | NoShutdown => (w, None)
  | SdkShutdown provider exporter _ =>
      ((close_handle exporter (close_handle provider w).1).1, errors_Join provider_shutdown exporter_shutdown)
  end.

(** Tracing that was set up is taken down completely by its shutdown function, even
    when a part of it fails, and its failures are reported; when it is disabled
    nothing is opened and the provider does nothing; the ratio in use is never out
    of range. *)
Theorem tracing_shutdown_is_complete cfg o w o' w' s
  (Hw : world_ok w) (Hinit : Init cfg o w = (o', (w', Ok s))) :
  open_handles (run_shutdown s w').1 = open_handles w /\
  (Enabled cfg = false -> w' = w /\ tracer_provider o' = NoopProvider /\ (run_shutdown s w').2 = None) /\
  (Enabled cfg = true ->
     (exists p e r ratio, tracer_provider o' = SdkProvider p e r ratio /\ float_le_0 ratio = false /\ float_gt_1 ratio = false) /\
     ((run_shutdown s w').2 = None <-> provider_shutdown = None /\ exporter_shutdown = None)).
Proof.
  unfold Init in Hinit. destruct (Enabled cfg); cbn [negb] in Hinit.
  2:{ injection Hinit as <- <- <-. by split_and!. }
  cbv zeta in Hinit. destruct (exporter_error _); [done|]. unfold open_handle in Hinit. destruct (resource_error _); [done|].
  injection Hinit as <- <- <-. split_and!; [|done|].
  - cbn. assert (next_handle w ∉ open_handles w) by (intros Hin; pose proof (Hw _ Hin); lia).
    assert (S (next_handle w) ∉ open_handles w) by (intros Hin; pose proof (Hw _ Hin); lia). set_solver.
  - intros _. split.
    + do 4 eexists. split; [done|]. cbn. destruct (float_le_0 (SampleRatio cfg)) eqn:H0, (float_gt_1 (SampleRatio cfg)) eqn:H1; done.
    + cbn. destruct provider_shutdown, exporter_shutdown; cbn; naive_solver.
Qed.
End tracing.

(** ** cmd/healthcheck *)

(** The exit code: [args] are the arguments after the program's name, [get] what the
    request answers, a status or an error. *)
Definition healthcheck (args : list string) (get : string -> result error Z) : Z :=
  match args with
  | [] => 2
  | url :: _ =>
      match get url with
      | Err _ => 1
      | Ok status => if status =? StatusOK then 0 else 1
      end
  end.

(** ** Witness and examples *)

#[local] Instance flaky : OpenTelemetry := {
  exporter_error _ := None;
  resource_error attributes := if attributes !! 0%nat == Some ("service.name", "") then Some (errors_New "no name") else None;
  provider_shutdown := Some (errors_New "timed out");
  exporter_shutdown := None
}.

Definition untraced : otel := mkOtel [] NoopProvider.
Definition traced (name : string) (ratio : float64) : Config := mkConfig true name "" "" "" true ratio 0 0.

Lemma tracing_shutdown_is_complete_witness :
  let '(_, (w, _)) := Init (traced "club" (Rational 1 10)) untraced (mkWorld 0 ∅ []) in
  open_handles w = {[ 0%nat; 1%nat ]} /\ open_handles (run_shutdown (SdkShutdown 1 0 (5 * Second)) w).1 = ∅.
Proof.
  split; [by_decision|].
  apply (tracing_shutdown_is_complete (traced "club" (Rational 1 10)) untraced (mkWorld 0 ∅ [])
    (mkOtel ["tracecontext"; "baggage"] (SdkProvider 1 0 [("service.name", "club"); ("service.version", ""); ("deployment.environment", "development")] (Rational 1 10)))).
  - intros h Hh. cbn in Hh. by apply not_elem_of_empty in Hh.
  - reflexivity.
Defined.

(** Asking for no sampling samples everything. *)
Example no_sampling_samples_all : SampleRatio (withDefaults (traced "club" (Rational 0 1))) = Rational 1 1.
Proof. reflexivity. Qed.

(** When the resource cannot be built, the exporter is left running. *)
Example exporter_leaks :
  let '(_, (w, answer)) := Init (traced "" (Rational 1 1)) untraced (mkWorld 0 ∅ []) in
  is_ok answer = false /\ open_handles w = {[ 0%nat ]}.
Proof. split; [reflexivity|by_decision]. Qed.
