(* ===== verification/Registry.v ===== *)
(** * Metrics: the registry and what the packages put into it

    [observability/metrics.go], and the constructors of [grpcserver/metrics.go] and
    [outbox/metrics.go].  The Prometheus client is a class: a registry knows the
    names it has been given, refuses a collector with one of them and leaves itself
    alone then. *)

From S2P Require Import OutboxWorker GrpcServe Observability HttpServer.

(** ** Collectors *)

Record Opts := mkOpts { opts_Name : string; opts_Help : string }.

Inductive Collector : Type :=
| Gauge (opts : Opts)
| GaugeVec (opts : Opts) (labels : list string)
| CounterVec (opts : Opts) (labels : list string)
| HistogramVec (opts : Opts) (buckets : list float64) (labels : list string)
| GoCollector
| ProcessCollector.

(** [HandlerOpts] *)
Record HandlerOpts := mkHandlerOpts { ContinueOnError : bool; WithRegistry : bool }.

Class Prometheus := {
  Registry : Type;
  prometheus_NewRegistry : Registry;
  described : Registry -> string -> bool;
  Register : Collector -> Registry -> Registry * option string;
  HandlerFor : Registry -> HandlerOpts -> http_Handler;
  go_names : list string;
  process_names : list string
}.

Section registry.
Context `{!Prometheus}.

Definition collector_names (c : Collector) : list string :=
  match c with
  | Gauge o | GaugeVec o _ | CounterVec o _ | HistogramVec o _ _ => [opts_Name o]
  | GoCollector => go_names
  | ProcessCollector => process_names
  end.

(** [Registry.MustRegister] *)
Fixpoint MustRegister (cs : list Collector) (r : Registry) : Registry * outcome unit :=
  match cs with
  | [] => (r, Ret tt)
  | c :: cs =>
      match Register c r with
      | (r, Some e) => (r, Panic e)
      | (r, None) => MustRegister cs r
      end
  end.

(** What the client documents. *)
Class PrometheusLaws : Prop := {
  described_new n : described prometheus_NewRegistry n = false;
  Register_new c r : Forall (fun n => described r n = false) (collector_names c) ->
    exists r', Register c r = (r', None) /\ forall n, described r' n = described r n || bool_decide (n ∈ collector_names c);
  Register_known c r n : n ∈ collector_names c -> described r n = true -> exists e, Register c r = (r, Some e);
  go_prefix : Forall (fun n => String.prefix "go_" n = true) go_names;
  names_NoDup : NoDup go_names /\ NoDup process_names;
  process_prefix : Forall (fun n => String.prefix "process_" n = true) process_names
}.

(** ** observability/metrics.go *)

Definition observability_NewRegistry : Registry * outcome unit := MustRegister [GoCollector; ProcessCollector] prometheus_NewRegistry.

Definition MetricsHandler (registry : Registry) : http_Handler := HandlerFor registry (mkHandlerOpts true true).

Definition DurationBuckets : list float64 :=
  [Rational 1 1000; Rational 5 1000; Rational 1 100; Rational 25 1000; Rational 5 100; Rational 1 10; Rational 25 100;
   Rational 5 10; Rational 1 1; Rational 25 10; Rational 5 1; Rational 10 1; Rational 16 1].

(** ** The metrics of the packages *)

Definition grpc_collectors : list Collector :=
  [CounterVec (mkOpts "grpc_server_requests_total" "Total number of gRPC requests handled by the server.") ["method"; "code"];
   HistogramVec (mkOpts "grpc_server_request_duration_seconds" "Duration of gRPC requests handled by the server.") DurationBuckets ["method"];
   GaugeVec (mkOpts "grpc_server_requests_in_flight" "Number of gRPC requests currently being handled.") ["method"]].

Definition grpc_NewMetrics (registry : Registry) : Registry * outcome GrpcServer.Metrics :=
  match MustRegister grpc_collectors registry with
  | (registry, Ret _) => (registry, Ret (GrpcServer.mkMetrics ∅ ∅ ∅))
  | (registry, Panic v) => (registry, Panic v)
  end.

Definition outbox_collectors : list Collector :=
  [Gauge (mkOpts "outbox_pending_messages" "Number of outbox messages waiting for delivery.");
   Gauge (mkOpts "outbox_failed_messages" "Number of outbox messages that exhausted their attempts.");
   CounterVec (mkOpts "outbox_messages_total" "Outbox delivery outcomes.") ["kind"; "result"]].

Definition outbox_NewMetrics (registry : Registry) : Registry * outcome OutboxWorker.Metrics :=
  match MustRegister outbox_collectors registry with
  | (registry, Ret _) => (registry, Ret (OutboxWorker.mkMetrics 0 0 ∅))
  | (registry, Panic v) => (registry, Panic v)
  end.

(** The part of [grpcserver.Run] before it serves: [newGRPCServer] makes the metrics
    each time. *)
Definition build_server `{!GrpcStatus} {R user} (s : GrpcServe.Server) (registry : Registry)
  : Registry * outcome (list (ServerOption R user)) :=
  if cfg_Registry (GrpcServe.srv_cfg s) then
    match grpc_NewMetrics registry with
    | (registry, Ret _) => (registry, Ret (newGRPCServer s))
    | (registry, Panic v) => (registry, Panic v)
    end
  else (registry, Ret (newGRPCServer s)).

(** ** Registering *)

Context `{!PrometheusLaws}.

Definition known (r : Registry) (names : list string) : Prop := Exists (fun n => described r n = true) names.
Definition all_names (cs : list Collector) : list string := cs ≫= collector_names.

(** Collectors with names of their own are all registered. *)
Lemma MustRegister_new cs r :
  NoDup (all_names cs) -> Forall (fun n => described r n = false) (all_names cs) ->
  exists r', MustRegister cs r = (r', Ret tt) /\ forall n, described r' n = described r n || bool_decide (n ∈ all_names cs).
Proof.
  revert r. induction cs as [|c cs IH]; intros r Hdup Hnew.
  - exists r. split; [done|]. intros n. rewrite bool_decide_eq_false_2 by apply not_elem_of_nil. by rewrite orb_false_r.
  - unfold all_names in *. cbn [mbind list_bind MustRegister] in *. apply Forall_app in Hnew as [Hc Hcs].
    apply NoDup_app in Hdup as (_ & Hdis & Hdup). destruct (Register_new c r Hc) as (r1 & -> & H1).
    destruct (IH r1 Hdup) as (r2 & -> & H2).
    { rewrite Forall_forall in *. intros n Hn. rewrite H1, (Hcs n Hn), bool_decide_eq_false_2; [done|].
      intros Hin. by apply (Hdis n). }
    exists r2. split; [done|]. intros n. rewrite H2, H1, <- orb_assoc. f_equal. rewrite <- bool_decide_or.
    apply bool_decide_ext. by rewrite elem_of_app.
Qed.

(** One name that is taken is enough to panic. *)
Lemma MustRegister_known cs r : known r (all_names cs) -> exists e, (MustRegister cs r).2 = Panic e.
Proof.
  revert r. induction cs as [|c cs IH]; intros r Hk; [by apply Exists_nil in Hk|].
  unfold known, all_names in Hk. cbn [mbind list_bind MustRegister] in *. apply Exists_app in Hk as [Hk|Hk].
  - apply Exists_exists in Hk as (n & Hn & Hd). destruct (Register_known c r n Hn Hd) as [e ->]. by exists e.
  - destruct (decide (known r (collector_names c))) as [Hk'|Hk'].
    + apply Exists_exists in Hk' as (n & Hn & Hd). destruct (Register_known c r n Hn Hd) as [e ->]. by exists e.
    + destruct (Register_new c r) as (r1 & -> & H1).
      { apply Forall_forall. intros n Hn. apply not_true_is_false. intros Hd. apply Hk', Exists_exists. by exists n. }
      apply IH. eapply Exists_impl; [exact Hk|]. intros n Hn. cbn in *. by rewrite H1, Hn.
Qed.

Lemma prefix_not_in p n names : Forall (fun m => String.prefix p m = true) names -> String.prefix p n = false -> n ∉ names.
Proof. intros Hall Hn Hin. rewrite Forall_forall in Hall. specialize (Hall n Hin). cbn in Hall. congruence. Qed.

Definition other_prefix (n : string) : Prop := String.prefix "go_" n = false /\ String.prefix "process_" n = false.

(** The registry of [observability] has the runtime's metrics and nothing else. *)
Lemma NewRegistry_describes :
  exists r, observability_NewRegistry = (r, Ret tt) /\ forall n, other_prefix n -> described r n = false.
Proof.
  destruct (MustRegister_new [GoCollector; ProcessCollector] prometheus_NewRegistry) as (r & Hr & Hd).
  - unfold all_names. cbn. rewrite app_nil_r. apply NoDup_app. destruct names_NoDup as [H1 H2]. split_and!; [done| |done].
    intros n Hgo Hprocess. pose proof go_prefix as Hg. pose proof process_prefix as Hp. rewrite Forall_forall in Hg, Hp.
    specialize (Hg n Hgo). specialize (Hp n Hprocess). destruct n as [|a n]; [done|].
    cbn [String.prefix] in Hg, Hp. destruct (ascii_dec "g" a), (ascii_dec "p" a); congruence.
  - apply Forall_true. apply described_new.
  - exists r. split; [done|]. intros n [Hgo Hprocess]. rewrite Hd, described_new, bool_decide_eq_false_2; [done|].
    unfold all_names. cbn. rewrite app_nil_r, not_elem_of_app. split.
    + by eapply prefix_not_in; [apply go_prefix|].
    + by eapply prefix_not_in; [apply process_prefix|].
Qed.

(** The metrics of the runtime, the outbox and the gRPC server fit into one
    registry; but each can be put there only once, so that a server with a registry
    cannot be built, or run, a second time on it: that panics. *)
Theorem metrics_register_once `{!GrpcStatus} {R user} (s s' : @GrpcServe.Server R user)
  (Hs : cfg_Registry (GrpcServe.srv_cfg s) = true) (Hs' : cfg_Registry (GrpcServe.srv_cfg s') = true) :
  exists r0 r1 r2,
    observability_NewRegistry = (r0, Ret tt) /\
    outbox_NewMetrics r0 = (r1, Ret (OutboxWorker.mkMetrics 0 0 ∅)) /\
    build_server s r1 = (r2, Ret (newGRPCServer s)) /\
    (exists e, (build_server s' r2).2 = Panic e) /\ (exists e, (outbox_NewMetrics r2).2 = Panic e).
Proof.
  destruct NewRegistry_describes as (r0 & HR0 & Hd0).
  destruct (MustRegister_new outbox_collectors r0) as (r1 & HR1 & Hd1); [by_decision| |].
  { eapply Forall_impl; [|exact Hd0]. by_decision. }
  destruct (MustRegister_new grpc_collectors r1) as (r2 & HR2 & Hd2); [by_decision| |].
  { repeat constructor; rewrite Hd1, Hd0 by done; done. }
  exists r0, r1, r2. unfold build_server, outbox_NewMetrics, grpc_NewMetrics. rewrite Hs, Hs', HR1, HR2.
  split_and!; try done.
  - destruct (MustRegister_known grpc_collectors r2) as [e He]; [left; by rewrite Hd2, orb_true_r|].
    destruct (MustRegister grpc_collectors r2) as [r3 []]; [done|]. by eexists.
  - destruct (MustRegister_known outbox_collectors r2) as [e He]; [left; by rewrite Hd2, Hd1, orb_true_r|].
    destruct (MustRegister outbox_collectors r2) as [r3 []]; [done|]. by eexists.
Qed.
End registry.

(** ** Witness and examples *)

(** A registry as the set of its names. *)
Definition set_names (c : Collector) : list string :=
  match c with
  | Gauge o | GaugeVec o _ | CounterVec o _ | HistogramVec o _ _ => [opts_Name o]
  | GoCollector => ["go_goroutines"; "go_threads"]
  | ProcessCollector => ["process_open_fds"]
  end.
#[local] Instance name_set : Prometheus := {
  Registry := gset string;
  prometheus_NewRegistry := ∅;
  described r n := bool_decide (n ∈ r);
  Register c r :=
    if existsb (fun n => bool_decide (n ∈ r)) (set_names c)
    then (r, Some "duplicate metrics collector registration attempted") else (list_to_set (set_names c) ∪ r, None);
  HandlerFor _ _ := fun _ w => w;
  go_names := ["go_goroutines"; "go_threads"];
  process_names := ["process_open_fds"]
}.

#[local] Instance name_set_laws : PrometheusLaws.
Proof.
  split.
  - done.
  - intros c r Hnew. cbn. change (collector_names c) with (set_names c) in *.
    destruct (existsb _ _) eqn:He.
    + apply existsb_exists in He as (n & Hn%list_elem_of_In & Hd). rewrite Forall_forall in Hnew.
      specialize (Hnew n Hn). cbn in Hnew. congruence.
    + eexists. split; [done|]. intros n. cbn. rewrite <- bool_decide_or. apply bool_decide_ext. set_solver.
  - intros c r n Hn Hd. cbn. change (collector_names c) with (set_names c) in *.
    destruct (existsb _ _) eqn:He; [by eexists|]. apply not_true_iff_false in He. destruct He.
    apply existsb_exists. exists n. by rewrite <- list_elem_of_In.
  - by_decision.
  - by_decision.
  - by_decision.
Qed.

Lemma metrics_register_once_witness :
  exists r0 r1, observability_NewRegistry = (r0, Ret tt) /\ outbox_NewMetrics r0 = (r1, Ret (OutboxWorker.mkMetrics 0 0 ∅)).
Proof.
  pose (cfg := GrpcServer.mkConfig "" None true false false 0 (3 * Second) 0 0 0 false true []).
  pose (s := GrpcServe.New test_env cfg (mkAdditions [] [] []) [] : @GrpcServe.Server unit unit).
  destruct (metrics_register_once (H := name_set) s s eq_refl eq_refl) as (r0 & r1 & r2 & H0 & H1 & _).
  exists r0, r1. exact (conj H0 H1).
Defined.

(** The upper bounds of the buckets increase, as the client demands. *)
Example buckets_increase :
  Sorted (fun a b => match a, b with Rational m d, Rational n e => m * Zpos e < n * Zpos d | _, _ => False end) DurationBuckets.
Proof. repeat constructor. Qed.
