(* ===== verification/Gateway.v ===== *)
(** * Package [grpcgateway]

    CORS, the header matchers and the construction of the gateway.  grpc-gateway
    and the connections of grpc are parameters. *)

From S2P Require Export Http Io Quote.

(** ** cors.go *)

Definition preflightMaxAge : Z := 12 * Hour.

Definition allowed_set (allowedOrigins : list string) : gset string := list_to_set (TrimSpace <$> allowedOrigins).

Definition MethodOptions : string := "OPTIONS".

Definition cors_headers (origin : string) (h : Header) : Header :=
  Header_Set "Access-Control-Expose-Headers" MetadataKey
    (Header_Add "Vary" "Origin"
       (Header_Set "Access-Control-Allow-Credentials" "true"
          (Header_Set "Access-Control-Allow-Origin" origin h))).

Definition preflight_headers (h : Header) : Header :=
  Header_Set "Access-Control-Max-Age" (itoa (preflightMaxAge / Second))
    (Header_Set "Access-Control-Allow-Headers" ("Authorization, Content-Type, " +:+ MetadataKey)
       (Header_Set "Access-Control-Allow-Methods" "GET, POST, PATCH, PUT, DELETE, OPTIONS" h)).

Definition WithCORS (next : http_Handler) (allowedOrigins : list string) : http_Handler := fun r w =>
  let origin := Header_Get (req_Header r) "Origin" in
  if bool_decide (origin ∈ allowed_set allowedOrigins) then
    let w := with_header (cors_headers origin) w in
    if req_Method r == MethodOptions then WriteHeader StatusNoContent (with_header preflight_headers w)
    else next r w
  else next r w.

(** ** gateway.go: headers *)

(** grpc-gateway's own matcher: the metadata key of a header, if any. *)
Class HeaderMatcher := { DefaultHeaderMatcher : string -> option string }.

(** [strings.EqualFold] with an ASCII text: besides the letters of ASCII, only U+017F
    and U+212A fold to a letter of ASCII. *)
Definition fold_rune (r : Z) : Z :=
  if (65 <=? r) && (r <=? 90) then r + 32 else if r =? 383 then 115 else if r =? 8490 then 107 else r.
Definition EqualFold (s t : string) : bool := (fold_rune <$> string_runes s) == (fold_rune <$> string_runes t).

Section headers.
Context `{!HeaderMatcher}.

Definition incomingHeaderMatcher (key : string) : option string :=
  let lower := ToLower key in
  if (lower == "authorization") || (lower == MetadataKey) then Some lower
  else if lower == "user-agent" then Some "x-client-user-agent"
  else DefaultHeaderMatcher key.

Definition outgoingHeaderMatcher (key : string) : option string :=
  if EqualFold key MetadataKey then Some MetadataKey else DefaultHeaderMatcher key.
End headers.

Definition dialTarget (target : string) : string :=
  if take 1 (bytes target) == bytes ":" then "localhost" +:+ target else target.

(** ** gateway.go: the gateway *)

(** [runtime.JSONPb] *)
Record Marshaler := mkMarshaler { UseProtoNames : bool; EmitUnpopulated : bool; DiscardUnknown : bool }.
Definition marshaler : Marshaler := mkMarshaler false true false.

(** The multiplexer of grpc-gateway, and the errors of [grpc.NewClient]. *)
Class Runtime := {
  runtime_matcher :: HeaderMatcher;
  Mux : Type;
  NewServeMux : Marshaler -> (string -> option string) -> (string -> option string) -> Mux;
  ServeHTTP : Mux -> http_Handler;
  NewClient_error : string -> option error
}.

Section gateway.
Context `{!Runtime} (default : Logger).

(** A registration on the multiplexer, with the connection it forwards to. *)
Definition RegisterFunc : Type := Mux -> nat -> Mux * option error.

Record Upstream := mkUpstream {
  Name : string;
  Target : string;
  Register : list RegisterFunc
}.

Record Config := mkConfig {
  Address : string;
  Enabled : bool;
  AllowedOrigins : list string;
  gw_Logger : option Logger;
  DialTimeout : Z
}.

Definition gateway_logger (c : Config) : Logger := match gw_Logger c with Some log => log | None => default end.

Definition withDefaults (c : Config) : Config :=
  mkConfig (Address c) (Enabled c) (AllowedOrigins c) (Some (gateway_logger c)) (or_zero (DialTimeout c) (5 * Second)).

(** The registrations of one upstream; a failing one closes the connection. *)
Fixpoint register_all (upstream : Upstream) (conn : nat) (registers : list RegisterFunc) (mux : Mux) : io Mux :=
  match registers with
  | [] => mret mux
  | register :: registers =>
      match register mux conn with
      | (_, Some err) => _ ← close_handle conn; fail (Errorf ("grpcgateway: register " +:+ Name upstream) err)
      | (mux, None) => register_all upstream conn registers mux
      end
  end.

(** The loop over the upstreams. *)
Fixpoint connect_all (log : Logger) (upstreams : list Upstream) (mux : Mux) : io Mux :=
  match upstreams with
  | [] => mret mux
  | upstream :: upstreams =>
      if Target upstream == "" then fail (errors_New ("grpcgateway: upstream " +:+ Quote (Name upstream) +:+ " has no target"))
      else
        _ ← wrap ("grpcgateway: dial " +:+ Target upstream) (check (NewClient_error (dialTarget (Target upstream))));
        conn ← open_handle;
        mux ← register_all upstream conn (Register upstream) mux;
        _ ← say (LogAttrs log Background LevelInfo "gateway upstream registered"
                   [slog_String "upstream" (Name upstream); slog_String "target" (Target upstream)]);
        connect_all log upstreams mux
  end.

Definition New (cfg : Config) (upstreams : list Upstream) : io http_Handler :=
  let cfg := withDefaults cfg in
  let log := gateway_logger cfg in
  if Address cfg == "" then fail (errors_New "grpcgateway: HTTP_API_ADDRESS is required when the gateway is enabled")
  else if upstreams == [] then fail (errors_New "grpcgateway: at least one upstream is required")
  else
    mux ← connect_all log upstreams (NewServeMux marshaler incomingHeaderMatcher outgoingHeaderMatcher);
    let handler := if AllowedOrigins cfg == [] then ServeHTTP mux else WithCORS (ServeHTTP mux) (AllowedOrigins cfg) in
    _ ← say (LogAttrs log Background LevelInfo "http gateway ready"
               [slog_String "address" (Address cfg); slog_Int64 "upstreams" (Z.of_nat (length upstreams))]);
    mret handler.
End gateway.

(** ** Who may read the answers *)

Definition AllowOrigin : string := "Access-Control-Allow-Origin".
Definition AllowCredentials : string := "Access-Control-Allow-Credentials".

Lemma allowed_set_spec origin origins :
  origin ∈ allowed_set origins <-> exists entry, entry ∈ origins /\ TrimSpace entry = origin.
Proof.
  unfold allowed_set. rewrite elem_of_list_to_set, list_elem_of_fmap. naive_solver.
Qed.

Lemma Header_Get_Set_ne h k k' v : k <> k' -> Header_Set k v h !! k' = h !! k'.
Proof. intros Hk. unfold Header_Set. by rewrite lookup_insert_ne. Qed.
Lemma Header_Get_Add_ne h k k' v : k <> k' -> Header_Add k v h !! k' = h !! k'.
Proof. intros Hk. unfold Header_Add. by rewrite lookup_insert_ne. Qed.

Lemma cors_headers_grant origin h :
  cors_headers origin h !! AllowOrigin = Some [origin] /\ cors_headers origin h !! AllowCredentials = Some ["true"].
Proof.
  unfold cors_headers. rewrite !Header_Get_Set_ne, !Header_Get_Add_ne by done. split.
  - rewrite Header_Get_Set_ne by done. unfold Header_Set. by rewrite lookup_insert_eq.
  - unfold Header_Set. by rewrite lookup_insert_eq.
Qed.

Lemma preflight_headers_keep h k :
  k = AllowOrigin \/ k = AllowCredentials -> preflight_headers h !! k = h !! k.
Proof. intros [->| ->]; unfold preflight_headers; by rewrite !Header_Get_Set_ne. Qed.

(** A handler that leaves the CORS headers to the gateway. *)
Definition leaves_grant (next : http_Handler) : Prop :=
  forall r w, rw_sent w = None -> sent_header (next r w) !! AllowOrigin = rw_header w !! AllowOrigin /\
              sent_header (next r w) !! AllowCredentials = rw_header w !! AllowCredentials.

(** C35. Access is granted exactly to the listed origins, compared without the spaces
    around them: the answer to anyone else grants nothing and is the service's own;
    a listed one is granted itself, with credentials; and its preflight requests are
    answered with 204 without reaching the service. *)
Theorem cors_grants_listed_origins next origins r
  (Hnext : leaves_grant next) :
  let origin := Header_Get (req_Header r) "Origin" in
  let answer := WithCORS next origins r fresh_response in
  ((exists entry, entry ∈ origins /\ TrimSpace entry = origin) ->
     sent_header answer !! AllowOrigin = Some [origin] /\ sent_header answer !! AllowCredentials = Some ["true"] /\
     (req_Method r = MethodOptions ->
        sent_status answer = StatusNoContent /\ forall next', WithCORS next' origins r fresh_response = answer)) /\
  (~ (exists entry, entry ∈ origins /\ TrimSpace entry = origin) ->
     answer = next r fresh_response /\ sent_header answer !! AllowOrigin = None /\ sent_header answer !! AllowCredentials = None).
Proof.
  cbn zeta. rewrite <- allowed_set_spec. unfold WithCORS.
  set (origin := Header_Get (req_Header r) "Origin"). split.
  - intros Hin. rewrite !bool_decide_eq_true_2 by done. destruct (cors_headers_grant origin ∅) as [H1 H2].
    destruct (bool_decide_reflect (req_Method r = MethodOptions)) as [Hm|Hm].
    + unfold sent_header, sent_status, WriteHeader. cbn [with_header rw_sent rw_header fresh_response].
      rewrite !preflight_headers_keep by auto. by split_and!.
    + destruct (Hnext r (with_header (cors_headers origin) fresh_response) eq_refl) as [-> ->]. by split_and!.
  - intros Hout. rewrite bool_decide_eq_false_2 by done. destruct (Hnext r fresh_response eq_refl) as [-> ->]. done.
Qed.

(** ** The connections of the gateway *)

Section connections.
Context `{!Runtime} (default : Logger).

(** The registrations of an upstream all succeed, in their order. *)
Inductive registered (conn : nat) : list RegisterFunc -> Mux -> Mux -> Prop :=
| registered_nil mux : registered conn [] mux mux
| registered_cons register registers mux mux1 mux2 :
    register mux conn = (mux1, None) -> registered conn registers mux1 mux2 ->
    registered conn (register :: registers) mux mux2.

(** An upstream can be set up on a multiplexer with a connection: it has a target, the
    dial options are taken, and every registration succeeds. *)
Definition sets_up (u : Upstream) (conn : nat) (mux mux' : Mux) : Prop :=
  Target u <> "" /\ NewClient_error (dialTarget (Target u)) = None /\ registered conn (Register u) mux mux'.

(** Upstreams that are all set up, with consecutive connections. *)
Inductive set_up_all : nat -> list Upstream -> Mux -> Mux -> Prop :=
| set_up_nil conn mux : set_up_all conn [] mux mux
| set_up_cons conn u us mux mux1 mux2 :
    sets_up u conn mux mux1 -> set_up_all (S conn) us mux1 mux2 -> set_up_all conn (u :: us) mux mux2.

Lemma register_all_spec upstream conn registers mux w :
  match register_all upstream conn registers mux w with
  | (w', Ok mux') => w' = w /\ registered conn registers mux mux'
  | (w', Err _) => w' = (close_handle conn w).1 /\ forall mux', ~ registered conn registers mux mux'
  end.
Proof.
  revert mux. induction registers as [|register registers IH]; intros mux; [by split; [|constructor]|]. cbn [register_all].
  destruct (register mux conn) as [mux' [err|]] eqn:Hr.
  - split; [done|]. intros mux2 Hreg. inversion Hreg. congruence.
  - specialize (IH mux'). destruct (register_all _ _ _ _ _) as [w' [m|e]]; destruct IH as [-> IH]; (split; [done|]).
    + by econstructor.
    + intros mux2 Hreg. inversion Hreg as [|? ? ? mux1 ? Hr' Hrest]. rewrite Hr in Hr'. injection Hr' as <-. by apply (IH mux2).
Qed.

(** The first upstream that cannot be set up, those before it being so. *)
Definition first_failing (conn : nat) (us : list Upstream) (mux : Mux) (k : nat) : Prop :=
  exists u mux', us !! k = Some u /\ set_up_all conn (take k us) mux mux' /\ forall mux2, ~ sets_up u (conn + k) mux' mux2.

Lemma first_failing_here conn u us mux : (forall mux2, ~ sets_up u conn mux mux2) -> first_failing conn (u :: us) mux 0.
Proof. intros Hu. exists u, mux. split_and!; [done|constructor|]. by rewrite Nat.add_0_r. Qed.

Lemma first_failing_later conn u us mux mux1 k :
  sets_up u conn mux mux1 -> first_failing (S conn) us mux1 k -> first_failing conn (u :: us) mux (S k).
Proof.
  intros Hu (u' & mux' & Hk & Hall & Hno). exists u', mux'. split_and!; [done|by econstructor|].
  by replace (conn + S k)%nat with (S conn + k)%nat by lia.
Qed.

Lemma connect_all_handles log upstreams mux w :
  world_ok w ->
  match connect_all log upstreams mux w with
  | (w', Ok mux') => set_up_all (next_handle w) upstreams mux mux' /\
      open_handles w' = set_seq (next_handle w) (length upstreams) ∪ open_handles w
  | (w', Err _) => exists k, first_failing (next_handle w) upstreams mux k /\
      open_handles w' = set_seq (next_handle w) k ∪ open_handles w
  end.
Proof.
  revert mux w. induction upstreams as [|u us IH]; intros mux w Hw; cbn [connect_all length]; [split; [constructor|cbn; set_solver]|].
  assert (forall w', open_handles w' = open_handles w -> (forall mux2, ~ sets_up u (next_handle w) mux mux2) ->
    exists k, first_failing (next_handle w) (u :: us) mux k /\ open_handles w' = set_seq (next_handle w) k ∪ open_handles w) as Hhere.
  { intros w' -> Hno. exists 0%nat. split; [by apply first_failing_here|cbn; set_solver]. }
  destruct (bool_decide_reflect (Target u = "")) as [Ht|Ht]; [by apply Hhere; [|intros mux2 (? & _)]|].
  unfold mbind, io_bind, wrap, check. destruct (NewClient_error _) as [err|] eqn:Hd; [by apply Hhere; [|intros mux2 (_ & ? & _); congruence]|].
  cbn [fst snd mret io_ret]. unfold open_handle. set (h := next_handle w) in *. set (w1 := mkWorld (S h) ({[h]} ∪ open_handles w) (log_lines w)).
  assert (h ∉ open_handles w) as Hh by (intros Hin; pose proof (Hw h Hin); lia).
  assert (world_ok w1) as Hw1 by (intros x; cbn; intros [->%elem_of_singleton|Hx]%elem_of_union; [lia|pose proof (Hw x Hx); lia]).
  pose proof (register_all_spec u h (Register u) mux w1) as Hr.
  destruct (register_all u h (Register u) mux w1) as [w2 [mux'|err]]; destruct Hr as [-> Hr].
  - unfold say at 1. set (w3 := mkWorld _ _ _). specialize (IH mux' w3 Hw1). assert (sets_up u h mux mux') as Hu by done.
    destruct (connect_all log us mux' w3) as [w4 [m|err]]; cbn [next_handle open_handles w3 w1] in IH.
    + destruct IH as [Hall ->]. split; [by econstructor|]. cbn [set_seq]. set_solver.
    + destruct IH as (k & Hk & ->). exists (S k). split; [by eapply first_failing_later|]. cbn [set_seq]. set_solver.
  - apply Hhere; [cbn; set_solver|]. intros mux2 (_ & _ & Hreg). by apply (Hr mux2).
Qed.

(** C36. A gateway is built exactly when it has an address and upstreams and every one of
    them can be set up, and it then holds one open connection per upstream.  When it
    could not be built for one of them, that one is the first that cannot be set up;
    its own connection is closed, but those of the upstreams before it, all of them,
    are still open, and nobody holds them any more.  A configuration that is refused
    opens none. *)
Theorem gateway_connections cfg upstreams w (Hw : world_ok w) :
  let mux := NewServeMux marshaler incomingHeaderMatcher outgoingHeaderMatcher in
  match New default cfg upstreams w with
  | (w', Ok _) =>
      Address cfg <> "" /\ upstreams <> [] /\ (exists mux', set_up_all (next_handle w) upstreams mux mux') /\
      open_handles w' = set_seq (next_handle w) (length upstreams) ∪ open_handles w
  | (w', Err _) =>
      ((Address cfg = "" \/ upstreams = []) /\ open_handles w' = open_handles w) \/
      (Address cfg <> "" /\ exists k, first_failing (next_handle w) upstreams mux k /\
         open_handles w' = set_seq (next_handle w) k ∪ open_handles w)
  end.
Proof.
  unfold New. cbn zeta. destruct (bool_decide_reflect (Address (withDefaults default cfg) = "")) as [Ha|Ha]; [left; by split; [left|]|].
  destruct (bool_decide_reflect (upstreams = [])) as [->|Hne]; [left; by split; [right|]|].
  unfold mbind, io_bind. pose proof (connect_all_handles (gateway_logger default (withDefaults default cfg)) upstreams
    (NewServeMux marshaler incomingHeaderMatcher outgoingHeaderMatcher) w Hw) as Hall.
  destruct (connect_all _ _ _ _) as [w1 [mux|err]]; [|by right].
  destruct Hall as [Hall Hopen]. split_and!; [done|done|by eexists|exact Hopen].
Qed.
End connections.

(** ** Witnesses and examples *)

Definition echo : http_Handler := fun r w => Write "hello" w.

Lemma echo_leaves_grant : leaves_grant echo.
Proof. intros r w Hw. unfold echo, sent_header, Write, WriteHeader. by rewrite Hw. Qed.

Lemma cors_grants_listed_origins_witness :
  let r := mkRequest "GET" "/v1/auth/me" (<["Origin" := ["https://evil.example"]]> ∅) Background in
  WithCORS echo ["https://app.example"] r fresh_response = echo r fresh_response.
Proof.
  cbn zeta. apply (cors_grants_listed_origins echo ["https://app.example"]
    (mkRequest "GET" "/v1/auth/me" (<["Origin" := ["https://evil.example"]]> ∅) Background)).
  - apply echo_leaves_grant.
  - intros (entry & Hin%list_elem_of_singleton & Heq). subst entry. vm_compute in Heq. discriminate Heq.
Defined.

#[local] Instance bare_matcher : HeaderMatcher := { DefaultHeaderMatcher _ := None }.

(** A multiplexer that only counts its registrations; targets at "bad" are refused. *)
#[local] Instance counting_mux : Runtime := {
  Mux := nat;
  NewServeMux _ _ _ := O;
  ServeHTTP _ := echo;
  NewClient_error target := if target == "bad" then Some (errors_New "no such scheme") else None
}.

Definition register_one : RegisterFunc := fun mux _ => (S mux, None).
Definition gateway_config : Config := mkConfig ":8080" true [] None 0.
Definition quiet : Logger := mkLogger LevelError [] false.

(** The second upstream cannot be dialled: the connection to the first stays open
    although there is no gateway. *)
Example first_connection_leaks :
  let '(w, answer) := New quiet gateway_config
    [mkUpstream "auth" ":50051" [register_one]; mkUpstream "club" "bad" []] (mkWorld 0 ∅ []) in
  is_ok answer = false /\ open_handles w = {[ 0%nat ]}.
Proof. split; [reflexivity|by_decision]. Qed.

Lemma gateway_connections_witness :
  let '(w, answer) := New quiet gateway_config [mkUpstream "auth" ":50051" [register_one]] (mkWorld 5 {[ 2%nat ]} []) in
  is_ok answer = true /\ open_handles w = set_seq 5 1 ∪ {[ 2%nat ]}.
Proof.
  split; [reflexivity|].
  assert (world_ok (mkWorld 5 {[ 2%nat ]} [])) as Hw by (intros h; cbn; rewrite elem_of_singleton; lia).
  exact (proj2 (proj2 (proj2 (gateway_connections quiet gateway_config [mkUpstream "auth" ":50051" [register_one]] (mkWorld 5 {[ 2%nat ]} []) Hw)))).
Defined.

(** An empty entry, as a trailing comma in the variable leaves one, lists the requests
    that have no origin: they are answered with an empty grant, and their OPTIONS
    never reach the service. *)
Example empty_origin_is_listed :
  let r := mkRequest MethodOptions "/v1" ∅ Background in
  let w := WithCORS echo ["https://app.example"; ""] r fresh_response in
  sent_status w = StatusNoContent /\ sent_header w !! AllowOrigin = Some [""] /\
  sent_status (WithCORS echo ["https://app.example"] r fresh_response) = StatusOK.
Proof. vm_compute. by split_and!. Qed.

Example matchers :
  incomingHeaderMatcher "Authorization" = Some "authorization" /\ incomingHeaderMatcher "X-Request-Id" = Some "x-request-id" /\
  incomingHeaderMatcher "User-Agent" = Some "x-client-user-agent" /\ outgoingHeaderMatcher "X-Request-ID" = Some "x-request-id" /\
  incomingHeaderMatcher "Cookie" = None /\ dialTarget ":50051" = "localhost:50051" /\ dialTarget "dns:///a" = "dns:///a".
Proof. vm_compute. by split_and!. Qed.
